(** * kv_engine front end: connection state machine, cookies, error remapping

    A shallow embedding of the parts of the memcached front end
    (daemon/connection.cc, daemon/cookie.h, daemon/statemachine.cc,
    daemon/mcbp.cc, daemon/subdocument.cc) that the properties below are
    about.  Stateful C++ is written in explicit state-passing style; a
    function that can throw returns a [Result]. *)

From Stdlib Require Import ZArith List Bool String Ascii Lia Permutation.
Import ListNotations.
Local Open Scope Z_scope.

(** ** Results of code that may throw *)

Inductive Exception : Type :=
| logic_error (what : string)
| bad_alloc
| narrowing_error
| rbac_exception (what : string).

Inductive Result (A : Type) : Type :=
| Ok (a : A)
| Throw (e : Exception).
Arguments Ok {A} a.
Arguments Throw {A} e.

(** ** Engine error codes (the enumerators [Connection::remapErrorCode]
    switches over) *)

Inductive ENGINE_ERROR_CODE : Type :=
| ENGINE_SUCCESS
| ENGINE_KEY_ENOENT
| ENGINE_KEY_EEXISTS
| ENGINE_ENOMEM
| ENGINE_NOT_STORED
| ENGINE_EINVAL
| ENGINE_ENOTSUP
| ENGINE_EWOULDBLOCK
| ENGINE_E2BIG
| ENGINE_DISCONNECT
| ENGINE_NOT_MY_VBUCKET
| ENGINE_TMPFAIL
| ENGINE_ERANGE
| ENGINE_ROLLBACK
| ENGINE_EBUSY
| ENGINE_DELTA_BADVAL
| ENGINE_PREDICATE_FAILED
| ENGINE_FAILED
| ENGINE_LOCKED
| ENGINE_LOCKED_TMPFAIL
| ENGINE_UNKNOWN_COLLECTION
| ENGINE_COLLECTIONS_MANIFEST_IS_AHEAD
| ENGINE_EACCESS
| ENGINE_NO_BUCKET
| ENGINE_AUTH_STALE
| ENGINE_DURABILITY_INVALID_LEVEL
| ENGINE_DURABILITY_IMPOSSIBLE
| ENGINE_SYNC_WRITE_IN_PROGRESS
| ENGINE_SYNC_WRITE_RECOMMIT_IN_PROGRESS
| ENGINE_SYNC_WRITE_AMBIGUOUS
| ENGINE_DCP_STREAMID_INVALID.

Definition ENGINE_ERROR_CODE_eq_dec (a b : ENGINE_ERROR_CODE) : {a = b} + {a <> b}.
Proof. decide equality. Defined.

Definition errc_eqb (a b : ENGINE_ERROR_CODE) : bool :=
  if ENGINE_ERROR_CODE_eq_dec a b then true else false.

(** ** The features a connection negotiated in HELO, as far as
    [remapErrorCode] reads them *)

Record Features : Type := mkFeatures {
  xerror_support : bool;
  collections_supported : bool
}.

Definition isCollectionsSupported (f : Features) : bool := collections_supported f.

(** [Connection::remapErrorCode], connection.cc.  The log line before the
    final return has no effect on the result. *)
Definition remapErrorCode (f : Features) (code : ENGINE_ERROR_CODE) : ENGINE_ERROR_CODE :=
  if xerror_support f then code
  else
    match code with
    | ENGINE_SUCCESS
    | ENGINE_KEY_ENOENT
    | ENGINE_KEY_EEXISTS
    | ENGINE_ENOMEM
    | ENGINE_NOT_STORED
    | ENGINE_EINVAL
    | ENGINE_ENOTSUP
    | ENGINE_EWOULDBLOCK
    | ENGINE_E2BIG
    | ENGINE_DISCONNECT
    | ENGINE_NOT_MY_VBUCKET
    | ENGINE_TMPFAIL
    | ENGINE_ERANGE
    | ENGINE_ROLLBACK
    | ENGINE_EBUSY
    | ENGINE_DELTA_BADVAL
    | ENGINE_PREDICATE_FAILED
    | ENGINE_FAILED => code
    | ENGINE_LOCKED => ENGINE_KEY_EEXISTS
    | ENGINE_LOCKED_TMPFAIL => ENGINE_TMPFAIL
    | ENGINE_UNKNOWN_COLLECTION
    | ENGINE_COLLECTIONS_MANIFEST_IS_AHEAD =>
        if isCollectionsSupported f then code else ENGINE_EINVAL
    | ENGINE_EACCESS
    | ENGINE_NO_BUCKET
    | ENGINE_AUTH_STALE
    | ENGINE_DURABILITY_INVALID_LEVEL
    | ENGINE_DURABILITY_IMPOSSIBLE => ENGINE_DISCONNECT
    | ENGINE_SYNC_WRITE_IN_PROGRESS
    | ENGINE_SYNC_WRITE_RECOMMIT_IN_PROGRESS => ENGINE_TMPFAIL
    | ENGINE_SYNC_WRITE_AMBIGUOUS
    | ENGINE_DCP_STREAMID_INVALID => ENGINE_DISCONNECT
    end.

(** The error taxonomy of the specification (section 7), by its words. *)
Definition spec_benign : list ENGINE_ERROR_CODE :=
  [ENGINE_SUCCESS; ENGINE_KEY_ENOENT; ENGINE_KEY_EEXISTS; ENGINE_NOT_STORED;
   ENGINE_DELTA_BADVAL; ENGINE_PREDICATE_FAILED].

Definition spec_transient : list ENGINE_ERROR_CODE :=
  [ENGINE_TMPFAIL; ENGINE_E2BIG; ENGINE_ERANGE; ENGINE_EWOULDBLOCK; ENGINE_EBUSY;
   ENGINE_ROLLBACK; ENGINE_LOCKED_TMPFAIL].

(** The codes of the "Check our whitelist" group of the switch. *)
Definition whitelist : list ENGINE_ERROR_CODE :=
  [ENGINE_SUCCESS; ENGINE_KEY_ENOENT; ENGINE_KEY_EEXISTS; ENGINE_ENOMEM;
   ENGINE_NOT_STORED; ENGINE_EINVAL; ENGINE_ENOTSUP; ENGINE_EWOULDBLOCK;
   ENGINE_E2BIG; ENGINE_DISCONNECT; ENGINE_NOT_MY_VBUCKET; ENGINE_TMPFAIL;
   ENGINE_ERANGE; ENGINE_ROLLBACK; ENGINE_EBUSY; ENGINE_DELTA_BADVAL;
   ENGINE_PREDICATE_FAILED; ENGINE_FAILED].

Definition whitelisted (code : ENGINE_ERROR_CODE) : bool :=
  existsb (errc_eqb code) whitelist.

(** ** Response status codes ([cb::mcbp::Status], the enumerators the
    sources name) *)

Inductive Status : Type :=
| Success
| KeyEnoent
| KeyEexists
| E2big
| Einval
| NotStored
| DeltaBadval
| NotMyVbucket
| NoBucket
| Locked
| AuthStale
| AuthError
| Erange
| Rollback
| Eaccess
| UnknownCommand
| Enomem
| NotSupported
| Einternal
| Ebusy
| Etmpfail
| UnknownCollection
| SubdocPathEnoent
| SubdocPathMismatch
| SubdocPathEinval
| SubdocDocNotJson
| SubdocSuccessDeleted
| SubdocMultiPathFailure.

Definition Status_eq_dec (a b : Status) : {a = b} + {a <> b}.
Proof. decide equality. Defined.

Definition Status_eqb (a b : Status) : bool :=
  if Status_eq_dec a b then true else false.

(** ** Packet headers *)

(** Modelled from the spec: the magic enumeration and its predicates
    ([is_request], [is_client_magic]; mcbp/protocol/magic.h) are not part
    of the sources.  Section 6 lists the six magics; a request magic is one
    of the three "request" ones and a client magic any of the four
    "client" ones. *)
Inductive Magic : Type :=
| ClientRequest
| ClientResponse
| AltClientRequest
| AltClientResponse
| ServerRequest
| ServerResponse.

Definition is_request (m : Magic) : bool :=
  match m with
  | ClientRequest | AltClientRequest | ServerRequest => true
  | ClientResponse | AltClientResponse | ServerResponse => false
  end.

Definition is_client_magic (m : Magic) : bool :=
  match m with
  | ClientRequest | AltClientRequest | ClientResponse | AltClientResponse => true
  | ServerRequest | ServerResponse => false
  end.

(** The part of a received header that [conn_validate] looks at. *)
Record Header : Type := mkHeader {
  hdr_magic : Magic;
  (** the raw opcode byte *)
  hdr_opcode : Z
}.

(** ** Cookie (daemon/cookie.h) *)

Module Cookie.

Record t : Type := mk {
  event_id : string;
  error_context : string;
  (** [const cb::mcbp::Header* packet], [None] for [nullptr] *)
  packet : option Header;
  cas : Z;
  aiostat : ENGINE_ERROR_CODE;
  ewouldblock : bool;
  (** [uint8_t refcount] *)
  refcount : Z
}.

Definition set_refcount (r : Z) (c : t) : t :=
  mk (event_id c) (error_context c) (packet c) (cas c) (aiostat c)
     (ewouldblock c) r.

Definition set_ewouldblock (b : bool) (c : t) : t :=
  mk (event_id c) (error_context c) (packet c) (cas c) (aiostat c) b
     (refcount c).

Definition setErrorContext (message : string) (c : t) : t :=
  mk (event_id c) message (packet c) (cas c) (aiostat c) (ewouldblock c)
     (refcount c).

Definition setEventId (uuid : string) (c : t) : t :=
  mk uuid (error_context c) (packet c) (cas c) (aiostat c) (ewouldblock c)
     (refcount c).

Definition setPacket (h : Header) (c : t) : t :=
  mk (event_id c) (error_context c) (Some h) (cas c) (aiostat c)
     (ewouldblock c) (refcount c).

Definition isEwouldblock (c : t) : bool := ewouldblock c.

(** The arithmetic of [uint8_t]: [refcount++] and [refcount--] are taken
    modulo 256. *)
Definition uint8 (z : Z) : Z := z mod 256.

Definition incrementRefcount (c : t) : Result t :=
  if refcount c =? 255 then
    Throw (logic_error "Cookie::incrementRefcount(): refcount will wrap")
  else Ok (set_refcount (uint8 (refcount c + 1)) c).

Definition decrementRefcount (c : t) : Result t :=
  if refcount c =? 0 then
    Throw (logic_error "Cookie::decrementRefcount(): refcount will wrap")
  else Ok (set_refcount (uint8 (refcount c - 1)) c).

(** A freshly constructed cookie (the member initialisers of the class). *)
Definition fresh : t := mk "" "" None 0 ENGINE_SUCCESS false 0.

End Cookie.

(** ** The state machine's states (statemachine.cc) *)

Inductive State : Type :=
| ssl_init
| new_cmd
| waiting
| read_packet_header
| parse_cmd
| read_packet_body
| closing
| pending_close
| immediate_close
| destroyed
| validate
| execute
| send_data
| drain_send_buffer
| ship_log.

Definition State_eq_dec (a b : State) : {a = b} + {a <> b}.
Proof. decide equality. Defined.

Definition State_eqb (a b : State) : bool :=
  if State_eq_dec a b then true else false.

(** The bucket states of the specification (section 3); the watchdog only
    tells [Ready] from the others. *)
Inductive BucketState : Type :=
| Creating
| Ready
| Destroying.

(** ** What libevent holds for a connection: the output evbuffer *)

(** An engine item, as far as the front end sees it through [item_info]. *)
Record item_info : Type := mk_item_info {
  info_key : list Z;
  info_value : list Z;
  info_flags : Z;
  info_exptime : Z;
  info_cas : Z;
  info_datatype : Z
}.

Record Item : Type := mk_Item {
  item_id : Z;
  (** what [bucket_get_item_info] reports for the item; [None] when it
      fails *)
  item_get_info : option item_info
}.

(** A segment of the output buffer: bytes copied in by
    [bufferevent_write], or a region added by [evbuffer_add_reference]
    together with the send buffer that the cleanup callback deletes.  The
    only send buffer the modelled code chains is an [ItemSendBuffer], which
    owns an item. *)
Inductive Segment : Type :=
| Copied (data : list Z)
| Referenced (data : list Z) (sendbuffer_item : Item).

Definition segment_data (s : Segment) : list Z :=
  match s with
  | Copied d => d
  | Referenced d _ => d
  end.

Definition stream_bytes (out : list Segment) : list Z :=
  flat_map segment_data out.

(** [sendQueueInfo]: the watchdog's view of the send queue.  Times are
    [steady_clock] readings in nanoseconds. *)
Record SendQueueInfo : Type := mkSendQueueInfo {
  sq_last : Z;
  sq_size : Z;
  sq_term : bool
}.


(** ** Connection (daemon/connection.cc) *)

Module Connection.

Record t : Type := mk {
  id : Z;
  features : Features;
  dcp : bool;
  (** [stateMachine.currentState] *)
  currentState : State;
  write_and_go : State;
  sendQueueInfo : SendQueueInfo;
  (** the output evbuffer of [bev] *)
  output : list Segment;
  totalSend : Z;
  refcount : Z;
  (** [cookies] always holds the cookie created by the constructor; it
      is kept apart from the ones added later *)
  cookie0 : Cookie.t;
  more_cookies : list Cookie.t;
  bucket_state : BucketState;
  (** statuses handed to [Cookie::sendResponse], oldest first *)
  responses : list Status;
  (** results of the next calls into libevent: [false] is a -1 return;
      when the list is exhausted every call succeeds *)
  libevent_results : list bool;
  (** items handed back to the bucket, oldest first *)
  released : list Item
}.

Definition cookies (c : t) : list Cookie.t := cookie0 c :: more_cookies c.

Definition set_currentState (s : State) (c : t) : t :=
  mk (id c) (features c) (dcp c) s (write_and_go c) (sendQueueInfo c)
     (output c) (totalSend c) (refcount c) (cookie0 c) (more_cookies c)
     (bucket_state c) (responses c) (libevent_results c) (released c).

Definition setWriteAndGo (s : State) (c : t) : t :=
  mk (id c) (features c) (dcp c) (currentState c) s (sendQueueInfo c)
     (output c) (totalSend c) (refcount c) (cookie0 c) (more_cookies c)
     (bucket_state c) (responses c) (libevent_results c) (released c).


Definition set_output (o : list Segment) (n : Z) (c : t) : t :=
  mk (id c) (features c) (dcp c) (currentState c) (write_and_go c)
     (sendQueueInfo c) o n (refcount c) (cookie0 c) (more_cookies c)
     (bucket_state c) (responses c) (libevent_results c) (released c).

Definition set_cookies (c0 : Cookie.t) (cs : list Cookie.t) (c : t) : t :=
  mk (id c) (features c) (dcp c) (currentState c) (write_and_go c)
     (sendQueueInfo c) (output c) (totalSend c) (refcount c) c0 cs
     (bucket_state c) (responses c) (libevent_results c) (released c).

Definition set_responses (r : list Status) (c : t) : t :=
  mk (id c) (features c) (dcp c) (currentState c) (write_and_go c)
     (sendQueueInfo c) (output c) (totalSend c) (refcount c) (cookie0 c)
     (more_cookies c) (bucket_state c) r (libevent_results c) (released c).

Definition set_libevent_results (l : list bool) (c : t) : t :=
  mk (id c) (features c) (dcp c) (currentState c) (write_and_go c)
     (sendQueueInfo c) (output c) (totalSend c) (refcount c) (cookie0 c)
     (more_cookies c) (bucket_state c) (responses c) l (released c).

Definition set_released (l : list Item) (c : t) : t :=
  mk (id c) (features c) (dcp c) (currentState c) (write_and_go c)
     (sendQueueInfo c) (output c) (totalSend c) (refcount c) (cookie0 c)
     (more_cookies c) (bucket_state c) (responses c) (libevent_results c) l.

Definition isDCP (c : t) : bool := dcp c.
Definition getState (c : t) : State := currentState c.
Definition getWriteAndGo (c : t) : State := write_and_go c.
Definition getCookieObject (c : t) : Cookie.t := cookie0 c.


End Connection.

(** ** StateMachine (statemachine.cc) *)

Module StateMachine.

(** [StateMachine::setCurrentState]; the state lives in the connection
    record. *)
Definition setCurrentState (task : State) (c : Connection.t) : Connection.t :=
  if State_eqb task (Connection.currentState c) then c
  else
    let task :=
      if Connection.isDCP c then
        if State_eqb task waiting then ship_log else task
      else task in
    Connection.set_currentState task c.

Definition isIdleState (c : Connection.t) : bool :=
  match Connection.currentState c with
  | read_packet_header
  | read_packet_body
  | waiting
  | new_cmd
  | ship_log
  | send_data
  | pending_close
  | drain_send_buffer
  | ssl_init => true
  | parse_cmd
  | closing
  | immediate_close
  | destroyed
  | validate
  | execute => false
  end.

End StateMachine.

(** [Connection::setState] *)
Definition setState (next_state : State) (c : Connection.t) : Connection.t :=
  StateMachine.setCurrentState next_state c.

(** ** Connection: pending data, the send-queue watchdog, close *)



Definition uint32 (z : Z) : Z := z mod 4294967296.

Section Close.

(** [Cookie::reset] is declared in cookie.h; its body is not part of the
    sources, and [close] does not depend on what it clears. *)
Variable Cookie_reset : Cookie.t -> Cookie.t.



End Close.

(** ** The worker thread's idle-notification list (front_end_thread.h) *)

Record FrontEndThread : Type := mkFrontEndThread {
  (** [notification.connections], by connection id *)
  notification : list Z;
  (** how often [notify_thread] was called for this thread *)
  notified : nat
}.

Section SignalIfIdle.

(** [NotificationList::push] is declared in front_end_thread.h; its body
    is not part of the sources. *)
Variable NotificationList_push : Z -> list Z -> list Z.

(** [Connection::signalIfIdle] *)
Definition signalIfIdle (c : Connection.t) (thread : FrontEndThread)
  : bool * FrontEndThread :=
  if existsb Cookie.isEwouldblock (Connection.cookies c) then (false, thread)
  else if StateMachine.isIdleState c then
    (true,
     mkFrontEndThread
       (NotificationList_push (Connection.id c) (notification thread))
       (S (notified thread)))
  else (false, thread).

End SignalIfIdle.

(** ** The validate state *)

(** Modelled from the spec: [Cookie::sendResponse(Status)] is declared in
    cookie.h; its body is not part of the sources.  Section 4.2: a response
    with the status is queued; the comment in [conn_validate] says that it
    "sets the write and go to continue execute the next command", as
    [mcbp_write_packet] does with [setState(conn_send_data)] and
    [setWriteAndGo(conn_new_cmd)]. *)
Definition Cookie_sendResponse (status : Status) (c : Connection.t) : Connection.t :=
  let c := Connection.set_responses (Connection.responses c ++ [status]) c in
  let c := setState send_data c in
  Connection.setWriteAndGo new_cmd c.

Section Validate.

(** [is_bucket_dying] (not part of the sources): its verdict and what it
    did to the connection. *)
Variable is_bucket_dying : Connection.t -> bool * Connection.t.
(** [cb::mcbp::is_valid_opcode] on the raw opcode byte. *)
Variable is_valid_opcode : Z -> bool.
(** [McbpValidator::validate] (not part of the sources): the status and
    the cookie, whose error context a validator may set. *)
Variable packetValidator_validate : Z -> Cookie.t -> Status * Cookie.t.

(** [StateMachine::conn_validate].  [Cookie::getHeader] throws when the
    cookie holds no packet. *)
Definition conn_validate (c : Connection.t) : Result (bool * Connection.t) :=
  let '(dying, c) := is_bucket_dying c in
  if dying then Ok (true, c)
  else
    let cookie := Connection.getCookieObject c in
    match Cookie.packet cookie with
    | None => Throw (logic_error "Cookie::getHeader(): packet not available")
    | Some header =>
        if is_request (hdr_magic header) then
          if is_client_magic (hdr_magic header) then
            let opcode := hdr_opcode header in
            if negb (is_valid_opcode opcode) then
              Ok (true, Cookie_sendResponse UnknownCommand c)
            else
              let '(result, cookie) := packetValidator_validate opcode cookie in
              let c := Connection.set_cookies cookie (Connection.more_cookies c) c in
              if negb (Status_eqb result Success) then
                let c := Cookie_sendResponse result c in
                Ok (true, Connection.setWriteAndGo closing c)
              else Ok (true, StateMachine.setCurrentState execute c)
          else Ok (true, StateMachine.setCurrentState closing c)
        else Ok (true, StateMachine.setCurrentState execute c)
    end.

End Validate.

(** ** Privilege checks ([Connection::checkPrivilege]) *)

(** [cb::sasl::Domain] *)
Inductive Domain : Type :=
| Local
| External.

Module Rbac.

Inductive PrivilegeAccess : Type :=
| Ok
| Fail
| Stale.

(** What a call of [cb::rbac::createContext] does: it returns a context
    or throws. *)
Inductive CreateResult (Ctx : Type) : Type :=
| Created (ctx : Ctx)
| NoSuchBucketException
| RbacException (what : string).
Arguments Created {Ctx} ctx.
Arguments NoSuchBucketException {Ctx}.
Arguments RbacException {Ctx} what.

End Rbac.

Definition max_retries : Z := 100.

Section CheckPrivilege.

(** [cb::rbac::PrivilegeContext] and its [check] are external (the rbac
    library). *)
Variable PrivilegeContext : Type.
Variable Privilege : Type.
Variable check : PrivilegeContext -> Privilege -> Rbac.PrivilegeAccess.
(** [cb::rbac::createContext(user, domain, bucket)] reads the RBAC
    database, which other threads replace: the first argument is the
    number of the rebuild (the value of [retries]) that makes the call. *)
Variable createContext :
  Z -> string -> Domain -> string -> Rbac.CreateResult PrivilegeContext.
Variable to_string_opcode : Z -> string.
Variable to_string_privilege : Privilege -> string.
(** [settings.isPrivilegeDebug()] *)
Variable privilege_debug : bool.

(** The state [checkPrivilege] works on: the connection's privilege
    context, the cookie, and the local counter [retries]. *)
Record PrivState : Type := mkPrivState {
  privilegeContext : PrivilegeContext;
  priv_cookie : Cookie.t;
  retries : Z
}.

Inductive LoopExit : Type :=
| LoopDone (ret : Rbac.PrivilegeAccess) (s : PrivState)
| LoopReturn (ret : Rbac.PrivilegeAccess) (s : PrivState)
| LoopThrow (e : Exception).

(** The [while] loop of [checkPrivilege].  [fuel] bounds the number of
    iterations of the model; [None] is "out of fuel". *)
Fixpoint checkPrivilege_loop (fuel : nat) (username : string)
    (domain : Domain) (bucket : string)
    (command : string) (privilege : Privilege) (s : PrivState)
  : option LoopExit :=
  let ret := check (privilegeContext s) privilege in
  match ret with
  | Rbac.Stale =>
      if retries s <? max_retries then
        match fuel with
        | O => None
        | S fuel' =>
            let n := retries s + 1 in
            match createContext n username domain bucket with
            | Rbac.Created ctx =>
                checkPrivilege_loop fuel' username domain bucket command privilege
                  (mkPrivState ctx (priv_cookie s) n)
            | Rbac.NoSuchBucketException =>
                (* Remove all access to the bucket *)
                match createContext n username domain "" with
                | Rbac.Created ctx =>
                    checkPrivilege_loop fuel' username domain bucket command privilege
                      (mkPrivState ctx (priv_cookie s) n)
                | Rbac.NoSuchBucketException =>
                    Some (LoopThrow (rbac_exception "NoSuchBucketException"))
                | Rbac.RbacException what => Some (LoopThrow (rbac_exception what))
                end
            | Rbac.RbacException _ =>
                Some (LoopReturn Rbac.Fail
                        (mkPrivState (privilegeContext s)
                           (Cookie.setErrorContext
                              ("An exception occurred. command: [" ++ command ++ "]")
                              (priv_cookie s))
                           n))
            end
        end
      else Some (LoopDone ret s)
  | _ => Some (LoopDone ret s)
  end.

(** [Connection::checkPrivilege]: the access it returns and the state
    it leaves; logging and auditing are left out. *)
Definition checkPrivilege (fuel : nat) (username : string)
    (domain : Domain) (bucket : string)
    (opcode : Z) (privilege : Privilege) (ctx : PrivilegeContext)
    (cookie : Cookie.t)
  : option (Result (Rbac.PrivilegeAccess * PrivState)) :=
  let command := to_string_opcode opcode in
  match checkPrivilege_loop fuel username domain bucket command privilege
          (mkPrivState ctx cookie 0) with
  | None => None
  | Some (LoopThrow e) => Some (Throw e)
  | Some (LoopReturn ret s) => Some (Ok (ret, s))
  | Some (LoopDone ret s) =>
      match ret with
      | Rbac.Fail =>
          if privilege_debug then Some (Ok (Rbac.Ok, s))
          else
            Some (Ok (ret,
                      mkPrivState (privilegeContext s)
                        (Cookie.setErrorContext
                           ("Authorization failure: can't execute " ++ command ++
                            " operation without the " ++
                            to_string_privilege privilege ++ " privilege")
                           (priv_cookie s))
                        (retries s)))
      | _ => Some (Ok (ret, s))
      end
  end.

End CheckPrivilege.

Arguments mkPrivState {PrivilegeContext} privilegeContext priv_cookie retries.
Arguments privilegeContext {PrivilegeContext} p.
Arguments priv_cookie {PrivilegeContext} p.
Arguments retries {PrivilegeContext} p.
Arguments LoopDone {PrivilegeContext} ret s.
Arguments LoopReturn {PrivilegeContext} ret s.
Arguments LoopThrow {PrivilegeContext} e.
Arguments checkPrivilege_loop {PrivilegeContext Privilege} check createContext
  fuel username domain bucket command privilege s.
Arguments checkPrivilege {PrivilegeContext Privilege} check createContext
  to_string_opcode to_string_privilege privilege_debug fuel username domain bucket
  opcode privilege ctx cookie.

(** ** A request that checks two privileges ([validate_vattr_privilege]) *)

Module Vattr.

(** The members of [cb::rbac::Privilege] that are checked here. *)
Inductive Privilege : Type :=
| XattrRead
| SystemXattrRead.

Inductive XtocSemantics : Type :=
| User
| System
| All.

(** What the function reads and writes of the [SubdocCmdContext]: the
    privilege context of its connection, its cookie and
    [xtocSemantics]; and, to count them, the rebuilds of the privilege
    context that were made for the request: the sum of the counters
    [retries] of the calls of [checkPrivilege]. *)
Record Context (PrivilegeContext : Type) : Type := mkContext {
  connection_privilegeContext : PrivilegeContext;
  context_cookie : Cookie.t;
  xtocSemantics : XtocSemantics;
  rebuilds : Z
}.
Arguments mkContext {PrivilegeContext} _ _ _ _.
Arguments connection_privilegeContext {PrivilegeContext} c.
Arguments context_cookie {PrivilegeContext} c.
Arguments xtocSemantics {PrivilegeContext} c.
Arguments rebuilds {PrivilegeContext} c.

Inductive Outcome (PrivilegeContext : Type) : Type :=
| Returns (ret : ENGINE_ERROR_CODE) (context : Context PrivilegeContext)
| Throws (e : Exception)
| ReadsBehindKey
| OutOfFuel.
Arguments Returns {PrivilegeContext} ret context.
Arguments Throws {PrivilegeContext} e.
Arguments ReadsBehindKey {PrivilegeContext}.
Arguments OutOfFuel {PrivilegeContext}.

Section ValidateVattrPrivilege.

Variable PrivilegeContext : Type.
(** The RBAC database is replaced by other threads between the calls of
    [checkPrivilege]: [check] and [createContext] take the number of the
    call (0 or 1) that asks, and are then as [checkPrivilege] has
    them. *)
Variable check : nat -> PrivilegeContext -> Privilege -> Rbac.PrivilegeAccess.
Variable createContext :
  nat -> Z -> string -> Domain -> string -> Rbac.CreateResult PrivilegeContext.
Variable to_string_opcode : Z -> string.
Variable to_string_privilege : Privilege -> string.
Variable privilege_debug : bool.

(** [context.connection.checkPrivilege(privilege, context.cookie)], call
    number [call]. *)
Definition context_checkPrivilege (call : nat) (fuel : nat)
    (username : string) (domain : Domain) (bucket : string) (opcode : Z)
    (privilege : Privilege)
    (context : Context PrivilegeContext)
  : option (Result (Rbac.PrivilegeAccess * Context PrivilegeContext)) :=
  match checkPrivilege (check call) (createContext call) to_string_opcode
          to_string_privilege privilege_debug fuel username domain bucket opcode
          privilege (connection_privilegeContext context)
          (context_cookie context) with
  | None => None
  | Some (Throw e) => Some (Throw e)
  | Some (Ok (access, s)) =>
      Some (Ok (access,
                mkContext (privilegeContext s) (priv_cookie s)
                  (xtocSemantics context) (rebuilds context + retries s)))
  end.

Definition set_xtocSemantics (x : XtocSemantics)
    (context : Context PrivilegeContext) : Context PrivilegeContext :=
  mkContext (connection_privilegeContext context) (context_cookie context) x
    (rebuilds context).

(** [validate_vattr_privilege] (subdocument.cc); [key] is
    [context.get_xattr_key()]. *)
Definition validate_vattr_privilege (fuel : nat) (username : string)
    (domain : Domain) (bucket : string)
    (opcode : Z) (key : string) (context : Context PrivilegeContext)
  : Outcome PrivilegeContext :=
  match String.get 1 key with
  | None => ReadsBehindKey
  | Some second =>
      if Ascii.eqb second "X" then
        match context_checkPrivilege 0 fuel username domain bucket opcode XattrRead
                context with
        | None => OutOfFuel
        | Some (Throw e) => Throws e
        | Some (Ok (Rbac.Stale, context)) => Returns ENGINE_AUTH_STALE context
        | Some (Ok (access, context)) =>
            let xattrRead :=
              match access with Rbac.Ok => true | _ => false end in
            match context_checkPrivilege 1 fuel username domain bucket opcode
                    SystemXattrRead context with
            | None => OutOfFuel
            | Some (Throw e) => Throws e
            | Some (Ok (Rbac.Stale, context)) =>
                Returns ENGINE_AUTH_STALE context
            | Some (Ok (access, context)) =>
                let xattrSysRead :=
                  match access with Rbac.Ok => true | _ => false end in
                if xattrRead && xattrSysRead then
                  Returns ENGINE_SUCCESS (set_xtocSemantics All context)
                else if xattrRead then
                  Returns ENGINE_SUCCESS (set_xtocSemantics User context)
                else if xattrSysRead then
                  Returns ENGINE_SUCCESS (set_xtocSemantics System context)
                else Returns ENGINE_EACCESS context
            end
        end
      else Returns ENGINE_SUCCESS context
  end.

End ValidateVattrPrivilege.

Arguments validate_vattr_privilege {PrivilegeContext} check createContext
  to_string_opcode to_string_privilege privilege_debug fuel username domain bucket
  opcode key context.

End Vattr.

(** ** Command contexts that retry on a CAS mismatch *)

(** A response a command asked the cookie to send: by status, or by engine
    error code (which [Cookie::sendResponse(cb::engine_errc)] maps to a
    status). *)
Inductive Response : Type :=
| ByStatus (status : Status)
| ByErrc (code : ENGINE_ERROR_CODE).

Definition MAXIMUM_ATTEMPTS : Z := 100.

Module Subdoc.
Section Executor.

(** [SubdocCmdContext] and the engine behind the cookie are opaque to
    [subdoc_executor]. *)
Variable SubdocCmdContext : Type.
Variable Engine : Type.

(** The cookie as [subdoc_executor] and the functions it calls see it:
    the command context the cookie owns (which they mutate in place), the
    responses queued so far, and the engine. *)
Record World : Type := mkWorld {
  commandContext : option SubdocCmdContext;
  responses : list Response;
  engine : Engine
}.

Definition sendResponse (r : Response) (w : World) : World :=
  mkWorld (commandContext w) (responses w ++ [r]) (engine w).

Definition setCommandContext (ctx : option SubdocCmdContext) (w : World) : World :=
  mkWorld ctx (responses w) (engine w).

(** The functions of subdocument.cc that the executor calls; each works
    on the cookie, its context and the engine. *)
Variable subdoc_create_context : World -> option SubdocCmdContext.
Variable subdoc_fetch : ENGINE_ERROR_CODE -> Z -> World -> bool * World.
Variable subdoc_operate : World -> bool * World.
Variable subdoc_update : ENGINE_ERROR_CODE -> World -> ENGINE_ERROR_CODE * World.
Variable subdoc_response : World -> World.

(** How one pass through the body of the [do ... while] ends. *)
Inductive BodyExit : Type :=
| Return (w : World)
| Continue (ret : ENGINE_ERROR_CODE) (w : World).

(** The body of the loop of [subdoc_executor] (steps 0 to 4); [cas] is
    the CAS of the request. *)
Definition attempt (cas : Z) (ret : ENGINE_ERROR_CODE) (w : World) : BodyExit :=
  let auto_retry := cas =? 0 in
  let created :=
    match commandContext w with
    | Some _ => Some w
    | None =>
        match subdoc_create_context w with
        | None => None
        | Some context => Some (setCommandContext (Some context) w)
        end
    end in
  match created with
  | None => Return (sendResponse (ByStatus Enomem) w)
  | Some w =>
      let '(fetched, w) := subdoc_fetch ret cas w in
      if negb fetched then Return w
      else
        let '(operated, w) := subdoc_operate w in
        if negb operated then Return w
        else
          let '(ret, w) := subdoc_update ret w in
          if errc_eqb ret ENGINE_KEY_EEXISTS then
            if auto_retry then
              Continue ENGINE_SUCCESS (setCommandContext None w)
            else Return (sendResponse (ByErrc ret) w)
          else if negb (errc_eqb ret ENGINE_SUCCESS) then Return w
          else Return (subdoc_response w)
  end.

(** The [do ... while (auto_retry && attempts < MAXIMUM_ATTEMPTS)] loop
    and the code after it.  The result is the final value of [attempts]
    and the world; [None] is "out of fuel". *)
Fixpoint attempts_loop (fuel : nat) (cas : Z) (attempts : Z)
    (ret : ENGINE_ERROR_CODE) (w : World) : option (Z * World) :=
  match fuel with
  | O => None
  | S fuel' =>
      let attempts := attempts + 1 in
      match attempt cas ret w with
      | Return w => Some (attempts, w)
      | Continue ret w =>
          if (cas =? 0) && (attempts <? MAXIMUM_ATTEMPTS) then
            attempts_loop fuel' cas attempts ret w
          else Some (attempts, sendResponse (ByStatus Etmpfail) w)
      end
  end.

(** [subdoc_executor]; [aiostat] is what [cookie.swapAiostat] returned. *)
Definition subdoc_executor (fuel : nat) (cas : Z) (aiostat : ENGINE_ERROR_CODE)
    (w : World) : option (Z * World) :=
  attempts_loop fuel cas 0 aiostat w.

End Executor.

Arguments mkWorld {SubdocCmdContext Engine} commandContext responses engine.
Arguments commandContext {SubdocCmdContext Engine} w.
Arguments responses {SubdocCmdContext Engine} w.
Arguments engine {SubdocCmdContext Engine} w.
Arguments sendResponse {SubdocCmdContext Engine} r w.
Arguments setCommandContext {SubdocCmdContext Engine} ctx w.
Arguments Return {SubdocCmdContext Engine} w.
Arguments Continue {SubdocCmdContext Engine} ret w.
Arguments attempt {SubdocCmdContext Engine} subdoc_create_context subdoc_fetch
  subdoc_operate subdoc_update subdoc_response cas ret w.
Arguments attempts_loop {SubdocCmdContext Engine} subdoc_create_context
  subdoc_fetch subdoc_operate subdoc_update subdoc_response fuel cas attempts
  ret w.
Arguments subdoc_executor {SubdocCmdContext Engine} subdoc_create_context
  subdoc_fetch subdoc_operate subdoc_update subdoc_response fuel cas aiostat w.

End Subdoc.

Module AppendPrepend.

(** [AppendPrependCommandContext::State], appendprepend_context.h *)
Inductive State : Type :=
| ValidateInput
| InflateInputData
| GetItem
| AllocateNewItem
| StoreItem
| Reset
| Done.

Section Context.

Variable Engine : Type.

(** The members of the context that the retry logic reads ([cas],
    [state]), together with the engine the items live in. *)
Record Context : Type := mkContext {
  cas : Z;
  state : State;
  engine : Engine
}.

Definition set_state (s : State) (c : Context) : Context :=
  mkContext (cas c) s (engine c).

(** The engine-facing part of each state: its result and the engine
    afterwards. *)
Variable validateInput : Engine -> ENGINE_ERROR_CODE * Engine.
Variable getItem : Engine -> ENGINE_ERROR_CODE * Engine.
Variable allocateNewItem : Engine -> ENGINE_ERROR_CODE * Engine.
Variable bucket_store : Z -> Engine -> ENGINE_ERROR_CODE * Engine.
Variable release_items : Engine -> Engine.

Definition advance (r : ENGINE_ERROR_CODE) (next : State) (e : Engine)
    (c : Context) : Context :=
  mkContext (cas c) (if errc_eqb r ENGINE_SUCCESS then next else state c) e.

(** Modelled from the spec: the bodies of
    [AppendPrependCommandContext::step] and of its state functions
    (appendprepend_context.cc) are not part of the sources; the header
    gives the states and the members.  Section 4.8: the states run
    ValidateInput, GetItem, AllocateNewItem, StoreItem, Done, "with a
    Reset state between retries that releases all per-attempt
    resources"; "on retryable CAS mismatch ... the context MAY
    auto-retry up to 100 times; exceeding that surfaces TempFail".  The
    class comment: a CAS mismatch is "detected by the CAS store
    operation returning EEXISTS, and we just retry the operation"; a
    mismatch is retryable when the client sent no CAS.  [attempts]
    counts the stores tried by this call of [step], like the local
    counter of [subdoc_executor].  Inflating compressed input is left
    out. *)
Definition step_state (attempts : Z) (c : Context)
  : ENGINE_ERROR_CODE * Z * Context :=
  match state c with
  | ValidateInput =>
      let '(r, e) := validateInput (engine c) in
      (r, attempts, advance r GetItem e c)
  | InflateInputData => (ENGINE_SUCCESS, attempts, set_state GetItem c)
  | GetItem =>
      let '(r, e) := getItem (engine c) in
      (r, attempts, advance r AllocateNewItem e c)
  | AllocateNewItem =>
      let '(r, e) := allocateNewItem (engine c) in
      (r, attempts, advance r StoreItem e c)
  | StoreItem =>
      let n := attempts + 1 in
      let '(r, e) := bucket_store (cas c) (engine c) in
      if errc_eqb r ENGINE_SUCCESS then
        (ENGINE_SUCCESS, n, mkContext (cas c) Done e)
      else if errc_eqb r ENGINE_KEY_EEXISTS && (cas c =? 0) then
        if n <? MAXIMUM_ATTEMPTS then
          (ENGINE_SUCCESS, n, mkContext (cas c) Reset e)
        else (ENGINE_TMPFAIL, n, mkContext (cas c) (state c) e)
      else (r, n, mkContext (cas c) (state c) e)
  | Reset =>
      (ENGINE_SUCCESS, attempts,
       mkContext (cas c) GetItem (release_items (engine c)))
  | Done => (ENGINE_SUCCESS, attempts, c)
  end.

(** [step]: run the states while they succeed, until [Done].  The
    result is the code handed to [drive], the number of stores tried and
    the context; [None] is "out of fuel". *)
Fixpoint step (fuel : nat) (attempts : Z) (c : Context)
  : option (ENGINE_ERROR_CODE * Z * Context) :=
  match fuel with
  | O => None
  | S fuel' =>
      match state c with
      | Done => Some (ENGINE_SUCCESS, attempts, c)
      | _ =>
          let '(r, n, c') := step_state attempts c in
          if errc_eqb r ENGINE_SUCCESS then step fuel' n c'
          else Some (r, n, c')
      end
  end.

End Context.

Arguments mkContext {Engine} cas state engine.
Arguments cas {Engine} c.
Arguments state {Engine} c.
Arguments engine {Engine} c.
Arguments set_state {Engine} s c.
Arguments advance {Engine} r next e c.
Arguments step_state {Engine} validateInput getItem allocateNewItem
  bucket_store release_items attempts c.
Arguments step {Engine} validateInput getItem allocateNewItem bucket_store
  release_items fuel attempts c.

(** What [SteppableCommandContext::drive] (steppable_command_context.cc)
    does with the code that [step] returned. *)
Inductive DriveResult : Type :=
| Completed
| Blocked
| Shutdown
| Responded (r : Response).

Definition drive_result (f : Features) (ret : ENGINE_ERROR_CODE) : DriveResult :=
  let remapErr := remapErrorCode f ret in
  match remapErr with
  | ENGINE_SUCCESS => Completed
  | ENGINE_EWOULDBLOCK => Blocked
  | ENGINE_DISCONNECT => Shutdown
  | _ => Responded (ByErrc remapErr)
  end.

(** A bound on the states [step] still runs through: four per store that
    may still be tried, and the rank of the current state. *)
Definition rank (s : State) : Z :=
  match s with
  | Done => 0
  | StoreItem => 1
  | AllocateNewItem => 2
  | GetItem => 3
  | Reset => 4
  | InflateInputData => 4
  | ValidateInput => 5
  end.

End AppendPrepend.

(** ** Response assembly (daemon/mcbp.cc) *)

(** Datatype bits (section 6). *)
Definition PROTOCOL_BINARY_RAW_BYTES : Z := 0.
Definition PROTOCOL_BINARY_DATATYPE_JSON : Z := 1.
Definition PROTOCOL_BINARY_DATATYPE_SNAPPY : Z := 2.
Definition PROTOCOL_BINARY_DATATYPE_XATTR : Z := 4.

Definition is_snappy (datatype : Z) : bool :=
  Z.land datatype PROTOCOL_BINARY_DATATYPE_SNAPPY =? PROTOCOL_BINARY_DATATYPE_SNAPPY.

Definition is_xattr (datatype : Z) : bool :=
  Z.land datatype PROTOCOL_BINARY_DATATYPE_XATTR =? PROTOCOL_BINARY_DATATYPE_XATTR.

Definition quote : string := String (ascii_of_nat 34) EmptyString.

Definition json_member (name value : string) : string :=
  (quote ++ name ++ quote ++ ":" ++ quote ++ value ++ quote)%string.

Definition string_empty (s : string) : bool := (String.length s =? 0)%nat.

Module Mcbp.

(** A response as it is laid out for the wire: the fields of
    [protocol_binary_response_header] in host order, then the extras,
    the key and the value. *)
Record ResponsePacket : Type := mkResponsePacket {
  r_opcode : Z;
  r_keylen : Z;
  r_extlen : Z;
  r_datatype : Z;
  r_status : Status;
  r_bodylen : Z;
  r_opaque : Z;
  r_cas : Z;
  r_ext : string;
  r_key : string;
  r_value : string
}.

(** [McbpConnection], as far as mcbp.cc reads and writes it. *)
Record McbpConnection : Type := mkMcbpConnection {
  noreply : bool;
  (** [getCmd()] and [binary_header.request.opcode] *)
  cmd : Z;
  opaque : Z;
  cas : Z;
  snappy_enabled : bool;
  (** [getBucketEngine()->get_engine_vb_map != nullptr] *)
  has_get_engine_vb_map : bool;
  state : State;
  write_and_go : State;
  cookie : Cookie.t;
  (** whether the write buffer has room for one more header *)
  wbuf_has_room : bool;
  (** what [addIov] has queued, as whole responses *)
  iov : list ResponsePacket;
  (** the dynamic buffer: [None] when it has no root, else the responses
      formatted into it *)
  dynamicBuffer : option (list ResponsePacket);
  (** whether the dynamic buffer can grow and be handed over *)
  can_allocate : bool
}.

(** [McbpConnection::setState] hands the task to the state machine of
    that version, which is not part of the sources; the model records the
    state asked for. *)
Definition setState (s : State) (c : McbpConnection) : McbpConnection :=
  mkMcbpConnection (noreply c) (cmd c) (opaque c) (cas c) (snappy_enabled c)
    (has_get_engine_vb_map c) s (write_and_go c) (cookie c) (wbuf_has_room c)
    (iov c) (dynamicBuffer c) (can_allocate c).

Definition set_cookie (ck : Cookie.t) (c : McbpConnection) : McbpConnection :=
  mkMcbpConnection (noreply c) (cmd c) (opaque c) (cas c) (snappy_enabled c)
    (has_get_engine_vb_map c) (state c) (write_and_go c) ck (wbuf_has_room c)
    (iov c) (dynamicBuffer c) (can_allocate c).

Definition setWriteAndGo (s : State) (c : McbpConnection) : McbpConnection :=
  mkMcbpConnection (noreply c) (cmd c) (opaque c) (cas c) (snappy_enabled c)
    (has_get_engine_vb_map c) (state c) s (cookie c) (wbuf_has_room c)
    (iov c) (dynamicBuffer c) (can_allocate c).

Definition set_iov (l : list ResponsePacket) (c : McbpConnection) : McbpConnection :=
  mkMcbpConnection (noreply c) (cmd c) (opaque c) (cas c) (snappy_enabled c)
    (has_get_engine_vb_map c) (state c) (write_and_go c) (cookie c)
    (wbuf_has_room c) l (dynamicBuffer c) (can_allocate c).

Definition set_dynamicBuffer (d : option (list ResponsePacket))
    (c : McbpConnection) : McbpConnection :=
  mkMcbpConnection (noreply c) (cmd c) (opaque c) (cas c) (snappy_enabled c)
    (has_get_engine_vb_map c) (state c) (write_and_go c) (cookie c)
    (wbuf_has_room c) (iov c) d (can_allocate c).

(** The responses already formatted into the dynamic buffer. *)
Definition buffered (c : McbpConnection) : list ResponsePacket :=
  match dynamicBuffer c with
  | None => []
  | Some l => l
  end.

Definition PROTOCOL_BINARY_CMD_GET : Z := 0.
Definition PROTOCOL_BINARY_CMD_GETK : Z := 12.

Definition strlen (s : string) : Z := Z.of_nat (String.length s).

Section WithEngine.

(** [cb::compression::inflate] for Snappy: [None] when it fails. *)
Variable inflate : string -> option string.
(** [cb::xattr::get_body] *)
Variable get_body : string -> string.
(** [McbpConnection::getEnabledDatatypes]: the datatype bits the
    connection may be sent. *)
Variable getEnabledDatatypes : Z -> Z.
(** [bucket_get_engine_vb_map(c, get_vb_map_cb)]: the engine calls
    [get_vb_map_cb], which formats the response into the dynamic
    buffer. *)
Variable bucket_get_engine_vb_map : McbpConnection -> ENGINE_ERROR_CODE * McbpConnection.
(** [Cookie::getErrorJson], which cookie.h declares ("Return the error
    object to return to the client", "An empty string if no extended
    error information is being set"); its body is not part of the
    sources. *)
Variable getErrorJson : Cookie.t -> string.

(** [mcbp_add_header] followed by the [addIov] of the payload.
    [addMsgHdr(true)] restarts the lists of message headers and of
    regions, so that the response is all the iov holds; then the header
    goes into the write buffer, and header and payload into the iov.
    The response counters are statistics and left out. *)
Definition mcbp_add_header (c : McbpConnection) (err : Status)
    (ext_len key_len body_len datatype : Z) (payload : string)
  : Result McbpConnection :=
  if negb (wbuf_has_room c) then
    Throw (logic_error "mcbp_add_header: not enough space in output buffer!")
  else
    Ok (set_iov
          [mkResponsePacket (cmd c) key_len ext_len datatype err body_len
             (opaque c) (cas c) "" "" payload] c).

(** [mcbp_write_response] *)
Definition mcbp_write_response (c : McbpConnection) (d : string)
    (extlen keylen dlen : Z) : Result McbpConnection :=
  if negb (noreply c) || (cmd c =? PROTOCOL_BINARY_CMD_GET)
     || (cmd c =? PROTOCOL_BINARY_CMD_GETK) then
    match mcbp_add_header c Success extlen keylen dlen
            PROTOCOL_BINARY_RAW_BYTES d with
    | Throw e => Throw e
    | Ok c => Ok (setWriteAndGo new_cmd (setState send_data c))
    end
  else Ok (setState new_cmd c).

(** [mcbp_write_and_free] *)
Definition mcbp_write_and_free (c : McbpConnection) : McbpConnection :=
  match dynamicBuffer c with
  | None => setState closing c
  | Some packets =>
      if negb (can_allocate c) then setState closing c
      else
        let c := set_iov (iov c ++ packets) c in
        let c := setState send_data c in
        let c := setWriteAndGo new_cmd c in
        set_dynamicBuffer None c
  end.

(** [mcbp_write_packet] *)
Definition mcbp_write_packet (c : McbpConnection) (err : Status)
  : Result McbpConnection :=
  if Status_eqb err Success then mcbp_write_response c "" 0 0 0
  else if Status_eqb err NotMyVbucket && has_get_engine_vb_map c then
    let '(ret, c) := bucket_get_engine_vb_map c in
    if errc_eqb ret ENGINE_SUCCESS then Ok (mcbp_write_and_free c)
    else Ok (setState closing c)
  else
    let payload := getErrorJson (cookie c) in
    match mcbp_add_header c err 0 0 (uint32 (strlen payload))
            (if string_empty payload then PROTOCOL_BINARY_RAW_BYTES
             else PROTOCOL_BINARY_DATATYPE_JSON)
            payload with
    | Throw e => Throw e
    | Ok c => Ok (setWriteAndGo new_cmd (setState send_data c))
    end.

(** [mcbp_response_handler].  [key], [ext] and [body] are the regions the
    caller passes with their lengths. *)
Definition mcbp_response_handler (key ext body : string) (datatype : Z)
    (status : Status) (cas_ : Z) (c : McbpConnection)
  : bool * McbpConnection :=
  let keylen := strlen key in
  let extlen := strlen ext in
  let inflated :=
    if negb (snappy_enabled c) && is_snappy datatype then
      match inflate body with
      | None => None
      | Some buffer =>
          Some (buffer, Z.land datatype (Z.lnot PROTOCOL_BINARY_DATATYPE_SNAPPY))
      end
    else Some (body, datatype) in
  match inflated with
  | None => (false, c)
  | Some (payload, datatype) =>
      let '(payload, datatype) :=
        if is_xattr datatype then
          (get_body payload, Z.land datatype (Z.lnot PROTOCOL_BINARY_DATATYPE_XATTR))
        else (payload, datatype) in
      let datatype := getEnabledDatatypes datatype in
      let error_json := getErrorJson (cookie c) in
      let '(payload, keylen, extlen, datatype) :=
        match status with
        | Success
        | SubdocSuccessDeleted
        | SubdocMultiPathFailure
        | NotMyVbucket
        | Rollback => (payload, keylen, extlen, datatype)
        | _ =>
            (error_json, 0, 0,
             if string_empty error_json then PROTOCOL_BINARY_RAW_BYTES
             else PROTOCOL_BINARY_DATATYPE_JSON)
        end in
      let needed := strlen payload + keylen + extlen + 24 in
      if negb (can_allocate c) then (false, c)
      else
        let packet :=
          mkResponsePacket (cmd c) keylen extlen datatype status
            (uint32 (needed - 24)) (opaque c) cas_
            (if extlen >? 0 then ext else ""%string)
            (if keylen >? 0 then key else ""%string)
            payload in
        (true, set_dynamicBuffer (Some (buffered c ++ [packet])) c)
  end.

End WithEngine.
End Mcbp.

(** ** The DCP producer: [Connection::mutation] *)

(** *** A state-and-exception monad for code that queues output *)

Definition M (S A : Type) : Type := S -> Result A * S.

Definition ret {S A : Type} (a : A) : M S A := fun s => (Ok a, s).

Definition throw {S A : Type} (e : Exception) : M S A := fun s => (Throw e, s).

Definition bind {S A B : Type} (m : M S A) (k : A -> M S B) : M S B :=
  fun s =>
    match m s with
    | (Ok a, s') => k a s'
    | (Throw e, s') => (Throw e, s')
    end.

Notation "x <- m ;; k" := (bind m (fun x => k))
  (at level 61, m at next level, right associativity).
Notation "m ;;; k" := (bind m (fun _ => k))
  (at level 61, right associativity).

(** [try { body } catch (const std::bad_alloc&) { handler }] *)
Definition catch_bad_alloc {S A : Type} (body : M S A) (handler : M S A) : M S A :=
  fun s =>
    match body s with
    | (Throw bad_alloc, s') => handler s'
    | r => r
    end.

(** *** Bytes *)

(** The [n] bytes of [z] in network byte order. *)
Fixpoint be (n : nat) (z : Z) : list Z :=
  match n with
  | O => []
  | S k => Z.land (Z.shiftr z (8 * Z.of_nat k)) 255 :: be k z
  end.

(** The [n] bytes of [z] as a little-endian host stores them. *)
Fixpoint le (n : nat) (z : Z) : list Z :=
  match n with
  | O => []
  | S k => Z.land z 255 :: le k (Z.shiftr z 8)
  end.

Definition len (l : list Z) : Z := Z.of_nat (List.length l).

Definition is_nil {A : Type} (l : list A) : bool :=
  match l with
  | [] => true
  | _ => false
  end.

(** [gsl::narrow<T>] for an unsigned [T] of [bits] bits. *)
Definition narrow {S : Type} (bits : Z) (z : Z) : M S Z :=
  if (0 <=? z) && (z <? 2 ^ bits) then ret z else throw narrowing_error.

(** *** The request header ([cb::mcbp::Request], request.h) *)

Definition magic_byte (m : Magic) : Z :=
  match m with
  | ClientRequest => 128
  | ClientResponse => 129
  | AltClientRequest => 8
  | AltClientResponse => 24
  | ServerRequest => 130
  | ServerResponse => 131
  end.

(** [ClientOpcode::DcpMutation] *)
Definition DcpMutation : Z := 87.

Module Request.

(** The members of the class, by their logical values; [keylen] is kept
    as the two bytes it occupies, which the alternative encoding uses
    separately. *)
Record t : Type := mk {
  magic : Z;
  opcode : Z;
  keylen_hi : Z;
  keylen_lo : Z;
  extlen : Z;
  datatype : Z;
  vbucket : Z;
  bodylen : Z;
  opaque : Z;
  cas : Z
}.

(** [cb::mcbp::Request req = {}] *)
Definition zero : t := mk 0 0 0 0 0 0 0 0 0 0.

Definition setMagic {S : Type} (m : Magic) (r : t) : M S t :=
  if is_request m then
    ret (mk (magic_byte m) (opcode r) (keylen_hi r) (keylen_lo r) (extlen r)
           (datatype r) (vbucket r) (bodylen r) (opaque r) (cas r))
  else throw (logic_error "Request::setMagic: Invalid magic specified").

Definition setOpcode (o : Z) (r : t) : t :=
  mk (magic r) o (keylen_hi r) (keylen_lo r) (extlen r) (datatype r)
     (vbucket r) (bodylen r) (opaque r) (cas r).

Definition setExtlen (e : Z) (r : t) : t :=
  mk (magic r) (opcode r) (keylen_hi r) (keylen_lo r) e (datatype r)
     (vbucket r) (bodylen r) (opaque r) (cas r).

Definition setDatatype (d : Z) (r : t) : t :=
  mk (magic r) (opcode r) (keylen_hi r) (keylen_lo r) (extlen r) d
     (vbucket r) (bodylen r) (opaque r) (cas r).

Definition setVBucket (v : Z) (r : t) : t :=
  mk (magic r) (opcode r) (keylen_hi r) (keylen_lo r) (extlen r) (datatype r)
     v (bodylen r) (opaque r) (cas r).

Definition setBodylen (b : Z) (r : t) : t :=
  mk (magic r) (opcode r) (keylen_hi r) (keylen_lo r) (extlen r) (datatype r)
     (vbucket r) b (opaque r) (cas r).

Definition setOpaque (o : Z) (r : t) : t :=
  mk (magic r) (opcode r) (keylen_hi r) (keylen_lo r) (extlen r) (datatype r)
     (vbucket r) (bodylen r) o (cas r).

Definition setCas (v : Z) (r : t) : t :=
  mk (magic r) (opcode r) (keylen_hi r) (keylen_lo r) (extlen r) (datatype r)
     (vbucket r) (bodylen r) (opaque r) v.

Definition is_alternative_encoding (r : t) : bool :=
  (magic r =? magic_byte AltClientRequest) || (magic r =? magic_byte AltClientResponse).

(** Modelled from the spec: [Request::setKeylen] and
    [Request::setFramingExtraslen] are declared in request.h; their
    bodies are not part of the sources.  Section 6: "on alt magic, the
    high byte is framing-extras length and the low byte is key length;
    otherwise keylen is a 16-bit key length".  A key length that does
    not fit the single byte is refused. *)
Definition setKeylen {S : Type} (value : Z) (r : t) : M S t :=
  if is_alternative_encoding r then
    lo <- narrow 8 value ;;
    ret (mk (magic r) (opcode r) (keylen_hi r) lo (extlen r) (datatype r)
           (vbucket r) (bodylen r) (opaque r) (cas r))
  else
    ret (mk (magic r) (opcode r) (Z.land (Z.shiftr value 8) 255)
           (Z.land value 255) (extlen r) (datatype r) (vbucket r) (bodylen r)
           (opaque r) (cas r)).

Definition setFramingExtraslen (n : Z) (r : t) : t :=
  mk (magic r) (opcode r) n (keylen_lo r) (extlen r) (datatype r)
     (vbucket r) (bodylen r) (opaque r) (cas r).

(** The 24 bytes of the object as [copyToOutputStream] reads them: the
    multi-byte members are stored in network byte order, [opaque] as the
    host holds it. *)
Definition bytes (r : t) : list Z :=
  [magic r; opcode r; keylen_hi r; keylen_lo r; extlen r; datatype r]
    ++ be 2 (vbucket r) ++ be 4 (bodylen r) ++ le 4 (opaque r) ++ be 8 (cas r).

End Request.

(** [request::FrameInfoId::DcpStreamId] *)
Definition FrameInfoId_DcpStreamId : Z := 2.

(** Modelled from the spec: [cb::mcbp::DcpStreamIdFrameInfo] is not part of
    the sources.  Section 3 (FrameInfo): the first byte is
    [(id << 4) | len], followed by the payload; the DcpStreamId item
    carries the 2-byte stream id. *)
Definition DcpStreamIdFrameInfo (sid : Z) : list Z :=
  Z.lor (Z.shiftl FrameInfoId_DcpStreamId 4) 2 :: be 2 sid.

Definition sizeof_DcpStreamIdFrameInfo : Z := 3.

(** Modelled from the spec: [cb::mcbp::request::DcpMutationPayload] is not
    part of the sources.  Section 4.9: extras = (by-seqno u64, rev-seqno
    u64, flags u32, expiration u32, lock-time u32, meta-len u16, nru
    u8). *)
Definition DcpMutationPayload (by_seqno rev_seqno flags expiration lock_time
    nmeta nru : Z) : list Z :=
  be 8 by_seqno ++ be 8 rev_seqno ++ be 4 flags ++ be 4 expiration
    ++ be 4 lock_time ++ be 2 nmeta ++ be 1 nru.

Definition sizeof_DcpMutationPayload : Z := 31.
Definition sizeof_Request : Z := 24.

(** *** Queueing output *)

(** One call into libevent's buffer code: it succeeds unless the next
    entry of [libevent_results] says otherwise. *)
Definition libevent_call (c : Connection.t) : bool * Connection.t :=
  (hd true (Connection.libevent_results c),
   Connection.set_libevent_results (tl (Connection.libevent_results c)) c).

(** [Connection::copyToOutputStream] *)
Definition copyToOutputStream (data : list Z) : M Connection.t unit :=
  fun c =>
    if is_nil data then (Ok tt, c)
    else
      let '(ok, c) := libevent_call c in
      if negb ok then (Throw bad_alloc, c)
      else
        (Ok tt,
         Connection.set_output (Connection.output c ++ [Copied data])
           (Connection.totalSend c + len data) c).

(** Handing an item back to the bucket: what the deleter of
    [cb::unique_item_ptr] does, and so what destroying an [ItemSendBuffer]
    does ("holds an item which needs to be released once libevent is done
    sending any data held by the object"). *)
Definition release_item (it : Item) (c : Connection.t) : Connection.t :=
  Connection.set_released (Connection.released c ++ [it]) c.

(** [Connection::chainDataToOutputStream(data, cleanupfn, cleanupfn_arg)]
    with [sendbuffer_cleanup_cb] and a send buffer that owns [it]. *)
Definition chainDataToOutputStream_ref (data : list Z) (it : Item)
  : M Connection.t unit :=
  fun c =>
    if is_nil data then (Ok tt, c)
    else
      let '(ok, c) := libevent_call c in
      if negb ok then (Throw bad_alloc, c)
      else
        (Ok tt,
         Connection.set_output (Connection.output c ++ [Referenced data it])
           (Connection.totalSend c + len data) c).

(** The state of [mutation]: the connection and the local
    [cb::unique_item_ptr it] ([None] once it has been moved from). *)
Definition MutState : Type := (Connection.t * option Item)%type.

Definition on_connection {A : Type} (m : M Connection.t A) : M MutState A :=
  fun s =>
    let '(r, c) := m (fst s) in (r, (c, snd s)).

(** The block that adds the value: an [ItemSendBuffer] takes the item over
    from [it]; [chainDataToOutputStream(std::unique_ptr<SendBuffer>&)]
    releases the pointer to libevent when the region was added, and the
    send buffer is destroyed with the block otherwise. *)
Definition chain_value (buffer : list Z) : M MutState unit :=
  fun s =>
    let '(c, it) := s in
    match it with
    | None => (Throw (logic_error "ItemSendBuffer: no item"), s)
    | Some item =>
        match chainDataToOutputStream_ref buffer item c with
        | (Ok _, c) =>
            if is_nil buffer then (Ok tt, (release_item item c, None))
            else (Ok tt, (c, None))
        | (Throw e, c) => (Throw e, (release_item item c, None))
        end
    end.

(** Leaving the function destroys [it]. *)
Definition destroy_it (s : MutState) : Connection.t :=
  match snd s with
  | None => fst s
  | Some item => release_item item (fst s)
  end.

Section Mutation.

(** [DocKey::makeDocKeyWithoutCollectionID] (not part of the sources). *)
Variable makeDocKeyWithoutCollectionID : list Z -> list Z.

(** The part of [Connection::mutation] after the item info was read. *)
Definition mutation_body (opaque : Z) (info : item_info)
    (vbucket by_seqno rev_seqno lock_time : Z) (meta : list Z) (nru sid : Z)
  : M MutState ENGINE_ERROR_CODE :=
  fun s =>
  let c := fst s in
  let nmeta := len meta in
  let buffer := info_value info in
  let key :=
    if isCollectionsSupported (Connection.features c) then info_key info
    else makeDocKeyWithoutCollectionID (info_key info) in
  let has_sid := negb (sid =? 0) in
  (exptime <- narrow 32 (info_exptime info) ;;
   let extras :=
     DcpMutationPayload by_seqno rev_seqno (info_flags info) exptime
       lock_time nmeta nru in
   req <- Request.setMagic
            (if has_sid then AltClientRequest else ClientRequest)
            Request.zero ;;
   let req := Request.setOpcode DcpMutation req in
   extlen <- narrow 8 sizeof_DcpMutationPayload ;;
   let req := Request.setExtlen extlen req in
   keylen <- narrow 16 (len key) ;;
   req <- Request.setKeylen keylen req ;;
   bodylen <- narrow 32
                (sizeof_DcpMutationPayload + len key + nmeta + len buffer +
                 (if has_sid then sizeof_DcpStreamIdFrameInfo else 0)) ;;
   let req := Request.setBodylen bodylen req in
   let req := Request.setOpaque opaque req in
   let req := Request.setVBucket vbucket req in
   let req := Request.setCas (info_cas info) req in
   let req := Request.setDatatype (info_datatype info) req in
   let frameExtras := DcpStreamIdFrameInfo sid in
   let req :=
     if has_sid then Request.setFramingExtraslen sizeof_DcpStreamIdFrameInfo req
     else req in
   catch_bad_alloc
     (on_connection (copyToOutputStream (Request.bytes req)) ;;;
      (if has_sid then on_connection (copyToOutputStream frameExtras)
       else ret tt) ;;;
      on_connection (copyToOutputStream extras) ;;;
      on_connection (copyToOutputStream key) ;;;
      (if negb (is_nil buffer) then chain_value buffer else ret tt) ;;;
      on_connection (copyToOutputStream meta) ;;;
      ret ENGINE_SUCCESS)
     (ret ENGINE_DISCONNECT)) s.

(** [Connection::mutation].  [meta] stands for the region
    [(meta, nmeta)]. *)
Definition mutation (opaque : Z) (it : Item)
    (vbucket by_seqno rev_seqno lock_time : Z) (meta : list Z) (nru sid : Z)
    (c : Connection.t) : Result ENGINE_ERROR_CODE * Connection.t :=
  match item_get_info it with
  | None => (Ok ENGINE_FAILED, destroy_it (c, Some it))
  | Some info =>
      let '(r, s) :=
        mutation_body opaque info vbucket by_seqno rev_seqno lock_time meta
          nru sid (c, Some it) in
      (r, destroy_it s)
  end.

End Mutation.

(** *** What libevent does with the queue *)

(** libevent has written the first segment to the socket and drops it; for
    a referenced region it calls the cleanup callback, which deletes the
    send buffer and with it releases the item. *)
Definition evbuffer_drain_segment (c : Connection.t) : Connection.t :=
  match Connection.output c with
  | [] => c
  | Copied _ :: rest => Connection.set_output rest (Connection.totalSend c) c
  | Referenced _ it :: rest =>
      release_item it (Connection.set_output rest (Connection.totalSend c) c)
  end.

Fixpoint evbuffer_drain (n : nat) (c : Connection.t) : Connection.t :=
  match n with
  | O => c
  | S k => evbuffer_drain k (evbuffer_drain_segment c)
  end.

(** Everything queued has been transmitted. *)
Definition transmit_all (c : Connection.t) : Connection.t :=
  evbuffer_drain (List.length (Connection.output c)) c.


(** The five statuses for which the specification keeps the payload. *)
Definition keeps_payload (status : Status) : bool :=
  existsb (Status_eqb status)
    [Success; SubdocSuccessDeleted; SubdocMultiPathFailure; Rollback; NotMyVbucket].

(** ** Derived notions used in the statements *)

(** The connection after a series of calls of [setCurrentState]. *)
Definition setCurrentStates (tasks : list State) (c : Connection.t) : Connection.t :=
  fold_left (fun c task => StateMachine.setCurrentState task c) tasks c.


(** An attempt of [subdoc_executor] that gets as far as the update and
    meets a CAS mismatch there: the world that the update leaves. *)
Definition mismatching_attempt {SubdocCmdContext Engine : Type}
    (subdoc_create_context :
       Subdoc.World SubdocCmdContext Engine -> option SubdocCmdContext)
    (subdoc_fetch :
       ENGINE_ERROR_CODE -> Z -> Subdoc.World SubdocCmdContext Engine ->
       bool * Subdoc.World SubdocCmdContext Engine)
    (subdoc_operate :
       Subdoc.World SubdocCmdContext Engine ->
       bool * Subdoc.World SubdocCmdContext Engine)
    (subdoc_update :
       ENGINE_ERROR_CODE -> Subdoc.World SubdocCmdContext Engine ->
       ENGINE_ERROR_CODE * Subdoc.World SubdocCmdContext Engine)
    (cas : Z) (ret : ENGINE_ERROR_CODE) (w : Subdoc.World SubdocCmdContext Engine)
  : option (Subdoc.World SubdocCmdContext Engine) :=
  let created :=
    match Subdoc.commandContext w with
    | Some _ => Some w
    | None =>
        match subdoc_create_context w with
        | None => None
        | Some context => Some (Subdoc.setCommandContext (Some context) w)
        end
    end in
  match created with
  | None => None
  | Some w =>
      let '(fetched, w) := subdoc_fetch ret cas w in
      if fetched then
        let '(operated, w) := subdoc_operate w in
        if operated then
          let '(r, w) := subdoc_update ret w in
          if errc_eqb r ENGINE_KEY_EEXISTS then Some w else None
        else None
      else None
  end.

(** [k] such attempts in a row for a request without CAS, the first with
    the code [ret] and the others with ENGINE_SUCCESS, and the command
    context reset after each: the world that the next attempt starts
    with. *)
Fixpoint mismatching_attempts {SubdocCmdContext Engine : Type}
    (subdoc_create_context :
       Subdoc.World SubdocCmdContext Engine -> option SubdocCmdContext)
    (subdoc_fetch :
       ENGINE_ERROR_CODE -> Z -> Subdoc.World SubdocCmdContext Engine ->
       bool * Subdoc.World SubdocCmdContext Engine)
    (subdoc_operate :
       Subdoc.World SubdocCmdContext Engine ->
       bool * Subdoc.World SubdocCmdContext Engine)
    (subdoc_update :
       ENGINE_ERROR_CODE -> Subdoc.World SubdocCmdContext Engine ->
       ENGINE_ERROR_CODE * Subdoc.World SubdocCmdContext Engine)
    (k : nat) (ret : ENGINE_ERROR_CODE) (w : Subdoc.World SubdocCmdContext Engine)
  : option (Subdoc.World SubdocCmdContext Engine) :=
  match k with
  | O => Some w
  | S k' =>
      match mismatching_attempt subdoc_create_context subdoc_fetch
              subdoc_operate subdoc_update 0 ret w with
      | Some w3 =>
          mismatching_attempts subdoc_create_context subdoc_fetch
            subdoc_operate subdoc_update k' ENGINE_SUCCESS
            (Subdoc.setCommandContext None w3)
      | None => None
      end
  end.

(** The code that the attempt after [k] mismatching ones starts with. *)
Definition ret_after (k : nat) (aiostat : ENGINE_ERROR_CODE) : ENGINE_ERROR_CODE :=
  match k with
  | O => aiostat
  | S _ => ENGINE_SUCCESS
  end.

(** A round of the append/prepend context in which the item is got and
    the new one allocated: the answer of the store and the engine
    after it. *)
Definition store_round {Engine : Type}
    (getItem allocateNewItem : Engine -> ENGINE_ERROR_CODE * Engine)
    (bucket_store : Z -> Engine -> ENGINE_ERROR_CODE * Engine)
    (cas : Z) (e : Engine) : option (ENGINE_ERROR_CODE * Engine) :=
  let '(r, e) := getItem e in
  if errc_eqb r ENGINE_SUCCESS then
    let '(r, e) := allocateNewItem e in
    if errc_eqb r ENGINE_SUCCESS then Some (bucket_store cas e) else None
  else None.

(** [k] rounds in a row without client CAS whose store meets a CAS
    mismatch, the items released after each: the engine that the next
    round starts with. *)
Fixpoint mismatching_rounds {Engine : Type}
    (getItem allocateNewItem : Engine -> ENGINE_ERROR_CODE * Engine)
    (bucket_store : Z -> Engine -> ENGINE_ERROR_CODE * Engine)
    (release_items : Engine -> Engine) (k : nat) (e : Engine) : option Engine :=
  match k with
  | O => Some e
  | S k' =>
      match store_round getItem allocateNewItem bucket_store 0 e with
      | Some (r, e3) =>
          if errc_eqb r ENGINE_KEY_EEXISTS then
            mismatching_rounds getItem allocateNewItem bucket_store
              release_items k' (release_items e3)
          else None
      | None => None
      end
  end.

(** What the [try] block of [checkPrivilege] does at rebuild number [n]:
    it gives the new context, or the function returns Fail, or the
    exception of the second [createContext] leaves the function. *)
Inductive Rebuild (PrivilegeContext : Type) : Type :=
| Rebuilt (ctx : PrivilegeContext)
| Refused
| Thrown (e : Exception).
Arguments Rebuilt {PrivilegeContext} ctx.
Arguments Refused {PrivilegeContext}.
Arguments Thrown {PrivilegeContext} e.

Definition rebuild {PrivilegeContext : Type}
    (createContext :
       Z -> string -> Domain -> string -> Rbac.CreateResult PrivilegeContext)
    (username : string) (domain : Domain) (bucket : string) (n : Z)
  : Rebuild PrivilegeContext :=
  match createContext n username domain bucket with
  | Rbac.Created ctx => Rebuilt ctx
  | Rbac.NoSuchBucketException =>
      match createContext n username domain ""%string with
      | Rbac.Created ctx => Rebuilt ctx
      | Rbac.NoSuchBucketException =>
          Thrown (rbac_exception "NoSuchBucketException")
      | Rbac.RbacException what => Thrown (rbac_exception what)
      end
  | Rbac.RbacException _ => Refused
  end.

(** The privilege context after [n] rebuilds, when rebuild number [n] gave
    one: the context the call started with for [n = 0]. *)
Definition context_after {PrivilegeContext : Type}
    (createContext :
       Z -> string -> Domain -> string -> Rbac.CreateResult PrivilegeContext)
    (username : string) (domain : Domain) (bucket : string)
    (ctx : PrivilegeContext) (n : Z)
  : option PrivilegeContext :=
  if n =? 0 then Some ctx
  else
    match rebuild createContext username domain bucket n with
    | Rebuilt c => Some c
    | _ => None
    end.

(** Whether the context after [n] rebuilds is stale for the privilege. *)
Definition stale_after {PrivilegeContext Privilege : Type}
    (check : PrivilegeContext -> Privilege -> Rbac.PrivilegeAccess)
    (createContext :
       Z -> string -> Domain -> string -> Rbac.CreateResult PrivilegeContext)
    (username : string) (domain : Domain) (bucket : string)
    (privilege : Privilege)
    (ctx : PrivilegeContext) (n : Z) : bool :=
  match context_after createContext username domain bucket ctx n with
  | Some c =>
      match check c privilege with
      | Rbac.Stale => true
      | _ => false
      end
  | None => false
  end.

(** What the loop of [checkPrivilege] guarantees about the state it is left
    with, when the call started with the context [ctx] and the loop is
    entered with the state [s0]. *)
Definition loop_exit_ok {PrivilegeContext Privilege : Type}
    (check : PrivilegeContext -> Privilege -> Rbac.PrivilegeAccess)
    (createContext :
       Z -> string -> Domain -> string -> Rbac.CreateResult PrivilegeContext)
    (username : string) (domain : Domain) (bucket command : string)
    (privilege : Privilege)
    (ctx : PrivilegeContext) (s0 : PrivState PrivilegeContext)
    (e : LoopExit PrivilegeContext) : Prop :=
  let stale := stale_after check createContext username domain bucket privilege ctx in
  match e with
  | LoopDone ret s =>
      retries s0 <= retries s <= max_retries /\
      (forall i, 0 <= i < retries s -> stale i = true) /\
      context_after createContext username domain bucket ctx (retries s)
      = Some (privilegeContext s) /\
      check (privilegeContext s) privilege = ret /\
      (ret = Rbac.Stale -> retries s = max_retries) /\
      priv_cookie s = priv_cookie s0
  | LoopReturn ret s =>
      ret = Rbac.Fail /\ retries s0 < retries s <= max_retries /\
      (forall i, 0 <= i < retries s -> stale i = true) /\
      rebuild createContext username domain bucket (retries s) = Refused /\
      context_after createContext username domain bucket ctx (retries s - 1)
      = Some (privilegeContext s) /\
      priv_cookie s =
      Cookie.setErrorContext
        ("An exception occurred. command: [" ++ command ++ "]")
        (priv_cookie s0)
  | LoopThrow e =>
      exists k,
        retries s0 < k <= max_retries /\
        (forall i, 0 <= i < k -> stale i = true) /\
        rebuild createContext username domain bucket k = Thrown e
  end.

(** The result of the [i]-th call into libevent from now on (counting
    from 0). *)
Fixpoint drop {A : Type} (i : nat) (l : list A) : list A :=
  match i with
  | O => l
  | S j => drop j (tl l)
  end.

Definition libevent_result (c : Connection.t) (i : nat) : bool :=
  hd true (drop i (Connection.libevent_results c)).

(** The items that the referenced regions of a queue hold. *)
Fixpoint referenced_items (out : list Segment) : list Item :=
  match out with
  | [] => []
  | Copied _ :: rest => referenced_items rest
  | Referenced _ it :: rest => it :: referenced_items rest
  end.

(** The key [mutation] sends for an item. *)
Definition mutation_key (strip : list Z -> list Z) (c : Connection.t)
    (info : item_info) : list Z :=
  if isCollectionsSupported (Connection.features c) then info_key info
  else strip (info_key info).

(** The header of a mutation with a stream id (sections 4.9 and 6): alt
    magic, the framing-extras length and the key length in the two bytes
    of the key-length field, and a body length that counts frame info,
    extras, key, value and meta. *)
Definition mutation_header (opaque vbucket : Z) (info : item_info)
    (key meta : list Z) : Request.t :=
  Request.mk (magic_byte AltClientRequest) DcpMutation
    sizeof_DcpStreamIdFrameInfo (len key) sizeof_DcpMutationPayload
    (info_datatype info) vbucket
    (sizeof_DcpMutationPayload + len key + len meta + len (info_value info) +
     sizeof_DcpStreamIdFrameInfo)
    opaque (info_cas info).

Definition mutation_extras (info : item_info)
    (by_seqno rev_seqno lock_time : Z) (meta : list Z) (nru : Z) : list Z :=
  DcpMutationPayload by_seqno rev_seqno (info_flags info) (info_exptime info)
    lock_time (len meta) nru.

(** The segments of a mutation with a stream id, in the order they are
    queued; an empty key, value or meta section takes no segment. *)
Definition mutation_frame (opaque : Z) (it : Item) (info : item_info)
    (vbucket by_seqno rev_seqno lock_time : Z) (key meta : list Z)
    (nru sid : Z) : list Segment :=
  [Copied (Request.bytes (mutation_header opaque vbucket info key meta));
   Copied (DcpStreamIdFrameInfo sid);
   Copied (mutation_extras info by_seqno rev_seqno lock_time meta nru)]
    ++ (if is_nil key then [] else [Copied key])
    ++ (if is_nil (info_value info) then []
        else [Referenced (info_value info) it])
    ++ (if is_nil meta then [] else [Copied meta]).

(** The connection after libevent has accepted one more segment. *)
Definition queued (seg : Segment) (c : Connection.t) : Connection.t :=
  let c1 :=
    Connection.set_libevent_results (tl (Connection.libevent_results c)) c in
  Connection.set_output (Connection.output c1 ++ [seg])
    (Connection.totalSend c1 + len (segment_data seg)) c1.

(** The connection after libevent has refused a segment. *)
Definition refused (c : Connection.t) : Connection.t :=
  Connection.set_libevent_results (tl (Connection.libevent_results c)) c.

Definition is_referenced (seg : Segment) : bool :=
  match seg with
  | Copied _ => false
  | Referenced _ _ => true
  end.

(** ** Sample values for the examples *)

(** A connection as the constructor leaves it, but for the features. *)
Definition sample_connection : Connection.t :=
  Connection.mk 1 (mkFeatures true true) false new_cmd new_cmd
    (mkSendQueueInfo 0 0 false) [] 0 0 Cookie.fresh [] Ready [] [] [].

Definition set_dcp (b : bool) (c : Connection.t) : Connection.t :=
  Connection.mk (Connection.id c) (Connection.features c) b
    (Connection.currentState c) (Connection.write_and_go c)
    (Connection.sendQueueInfo c) (Connection.output c) (Connection.totalSend c)
    (Connection.refcount c) (Connection.cookie0 c) (Connection.more_cookies c)
    (Connection.bucket_state c) (Connection.responses c)
    (Connection.libevent_results c) (Connection.released c).

(** A connection in [validate] holding a client GET request. *)
Definition validating_connection : Connection.t :=
  Connection.set_currentState validate
    (Connection.set_cookies
       (Cookie.setPacket (mkHeader ClientRequest 0) Cookie.fresh) []
       sample_connection).

(** A bucket that is not dying. *)
Definition bucket_alive (c : Connection.t) : bool * Connection.t := (false, c).

(** A validator whose opcode-specific check rejects the request. *)
Definition rejecting_validator (opcode : Z) (cookie : Cookie.t) : Status * Cookie.t :=
  (Einval, Cookie.setErrorContext "Request must not include extras" cookie).


(** A privilege database in which every context is stale. *)
Definition stale_check (ctx : unit) (privilege : unit) : Rbac.PrivilegeAccess :=
  Rbac.Stale.

Definition stale_createContext (n : Z) (user : string) (domain : Domain)
    (bucket : string)
  : Rbac.CreateResult unit := Rbac.Created tt.

(** A privilege database whose contexts are numbered; the contexts before
    number [fresh_from] are stale, the others grant the privilege. *)
Definition numbered_check (fresh_from : Z) (ctx : Z) (privilege : unit)
  : Rbac.PrivilegeAccess :=
  if ctx <? fresh_from then Rbac.Stale else Rbac.Ok.

Definition numbered_createContext (n : Z) (user : string) (domain : Domain)
    (bucket : string)
  : Rbac.CreateResult Z := Rbac.Created n.

(** A privilege database that is replaced while a request is served.
    During the first privilege check of the request the context the
    connection has, number 0, is stale and the rebuilt ones are not;
    from then on the database is replaced faster than a context is
    rebuilt, so that every context is stale when it is checked. *)
Definition replaced_check (call : nat) (ctx : Z) (privilege : Vattr.Privilege)
  : Rbac.PrivilegeAccess :=
  match call with
  | O => if ctx <? 1 then Rbac.Stale else Rbac.Ok
  | S _ => Rbac.Stale
  end.

Definition replaced_createContext (call : nat) (n : Z) (user : string)
    (domain : Domain) (bucket : string)
  : Rbac.CreateResult Z := Rbac.Created (100 * Z.of_nat call + n).

(** A document under contention: the context can always be created, the
    fetch and the operation succeed, and every store meets a CAS mismatch.
    The engine counts the stores. *)
Definition contended_create (w : Subdoc.World unit Z) : option unit := Some tt.

Definition contended_fetch (ret : ENGINE_ERROR_CODE) (cas : Z)
    (w : Subdoc.World unit Z) : bool * Subdoc.World unit Z := (true, w).

Definition contended_operate (w : Subdoc.World unit Z)
  : bool * Subdoc.World unit Z := (true, w).

Definition contended_update (ret : ENGINE_ERROR_CODE) (w : Subdoc.World unit Z)
  : ENGINE_ERROR_CODE * Subdoc.World unit Z :=
  (ENGINE_KEY_EEXISTS,
   Subdoc.mkWorld (Subdoc.commandContext w) (Subdoc.responses w)
     (Subdoc.engine w + 1)).

Definition contended_response (w : Subdoc.World unit Z) : Subdoc.World unit Z := w.

Definition fresh_world : Subdoc.World unit Z := Subdoc.mkWorld None [] 0.

(** A document under contention whose fetch blocks once.  The engine
    counts the stores and notes whether a fetch has blocked; the fetch
    after the 49th store blocks, and the executor is called again when
    the engine has the document. *)
Definition blocking_create (w : Subdoc.World unit (Z * bool)) : option unit :=
  Some tt.

Definition blocking_fetch (ret : ENGINE_ERROR_CODE) (cas : Z)
    (w : Subdoc.World unit (Z * bool)) : bool * Subdoc.World unit (Z * bool) :=
  let '(stores, blocked) := Subdoc.engine w in
  if (stores =? 49) && negb blocked then
    (false,
     Subdoc.mkWorld (Subdoc.commandContext w) (Subdoc.responses w)
       (stores, true))
  else (true, w).

Definition blocking_operate (w : Subdoc.World unit (Z * bool))
  : bool * Subdoc.World unit (Z * bool) := (true, w).

Definition blocking_update (ret : ENGINE_ERROR_CODE)
    (w : Subdoc.World unit (Z * bool))
  : ENGINE_ERROR_CODE * Subdoc.World unit (Z * bool) :=
  (ENGINE_KEY_EEXISTS,
   Subdoc.mkWorld (Subdoc.commandContext w) (Subdoc.responses w)
     (fst (Subdoc.engine w) + 1, snd (Subdoc.engine w))).

Definition blocking_response (w : Subdoc.World unit (Z * bool))
  : Subdoc.World unit (Z * bool) := w.

(** A connection of the older front end that executes a GET, with an error
    context set on its cookie. *)
Definition failing_mcbp_connection : Mcbp.McbpConnection :=
  Mcbp.mkMcbpConnection false 0 7 0 false false execute new_cmd
    (Cookie.setErrorContext "Invalid request" Cookie.fresh) true [] None true.


(** An engine without a vbucket map. *)
Definition no_vb_map (c : Mcbp.McbpConnection)
  : ENGINE_ERROR_CODE * Mcbp.McbpConnection := (ENGINE_ENOTSUP, c).

(** A stand-in for [Cookie::getErrorJson] in the examples: the error
    object with the context of the cookie, and the empty string for a
    cookie without one. *)
Definition sample_getErrorJson (cookie : Cookie.t) : string :=
  if string_empty (Cookie.error_context cookie) then ""%string
  else
    ("{" ++ quote ++ "error" ++ quote ++ ":{"
     ++ json_member "context" (Cookie.error_context cookie) ++ "}}")%string.

(** A document with key "k1", value 1 2 3 and CAS 42, and the item that
    holds it. *)
Definition sample_info : item_info := mk_item_info [107; 49] [1; 2; 3] 0 0 42 0.

Definition sample_item : Item := mk_Item 5 (Some sample_info).

(** A key without a collection prefix is left as it is. *)
Definition keep_key (key : list Z) : list Z := key.

(** * Further parts of the daemon *)

(** ** Connection: statistics, names and the event budget (connection.cc) *)

(** The members [Connection::addCpuTime] updates; a
    [std::chrono::nanoseconds] is its count of nanoseconds. *)
Record CpuTimes : Type := mkCpuTimes {
  total_cpu_time : Z;
  min_sched_time : Z;
  max_sched_time : Z
}.

(** [Connection::addCpuTime]: the third statement reads [min_sched_time]
    as the second one left it. *)
Definition addCpuTime (ns : Z) (t : CpuTimes) : CpuTimes :=
  let total_cpu_time' := total_cpu_time t + ns in
  let min_sched_time' := Z.min (min_sched_time t) ns in
  let max_sched_time' := Z.max min_sched_time' ns in
  mkCpuTimes total_cpu_time' min_sched_time' max_sched_time'.

(** The arithmetic of [size_t] on the 64-bit targets. *)
Definition size_t (z : Z) : Z := z mod 2 ^ 64.

(** [Connection::setAgentName]: [agentName] is the [std::array<char, N>]
    member, here the list of its [N] characters.  For [N = 0] the source
    writes outside the array; the list then grows. *)
Definition setAgentName (name agentName : list Z) : list Z :=
  let size := Z.min (len name) (size_t (len agentName - 1)) in
  let copied := firstn (Z.to_nat size) name in
  copied ++ [0] ++ skipn (S (Z.to_nat size)) agentName.

(** [Connection::setConnectionId], on the [connectionId] array. *)
Definition setConnectionId (uuid connectionId : list Z) : list Z :=
  let size := Z.min (len uuid) (size_t (len connectionId - 1)) in
  let copied := firstn (Z.to_nat size) uuid in
  copied ++ [0] ++ skipn (S (Z.to_nat size)) connectionId.

(** What a reader of the array as a C string sees: the characters before
    the first NUL. *)
Fixpoint c_str (a : list Z) : list Z :=
  match a with
  | [] => []
  | ch :: rest => if ch =? 0 then [] else ch :: c_str rest
  end.

(** The members [Connection::maybeYield] works on: [numEvents] is an
    [int]; [triggered] counts the calls of [bufferevent_trigger]. *)
Record EventBudget : Type := mkEventBudget {
  max_reqs_per_event : Z;
  numEvents : Z;
  yields : Z;
  conn_yields : Z;
  triggered : nat
}.

(** The least and the greatest [int]. *)
Definition INT_MIN : Z := - 2 ^ 31.
Definition INT_MAX : Z := 2 ^ 31 - 1.

(** The first statement of [Connection::runEventLoop]. *)
Definition reset_numEvents (b : EventBudget) : EventBudget :=
  mkEventBudget (max_reqs_per_event b) (max_reqs_per_event b) (yields b)
    (conn_yields b) (triggered b).

(** A call of [maybeYield] returns, or [--numEvents] overflows the [int],
    which the language leaves undefined. *)
Inductive Yield (A : Type) : Type :=
| Yielded (a : A) (b : EventBudget)
| SignedOverflow.

Arguments Yielded {A} a b.
Arguments SignedOverflow {A}.

(** [Connection::maybeYield] *)
Definition maybeYield (b : EventBudget) : Yield bool :=
  if numEvents b =? INT_MIN then SignedOverflow
  else
    let numEvents' := numEvents b - 1 in
    if numEvents' >=? 0 then
      Yielded false
        (mkEventBudget (max_reqs_per_event b) numEvents' (yields b)
           (conn_yields b) (triggered b))
    else
      Yielded true
        (mkEventBudget (max_reqs_per_event b) numEvents' (yields b + 1)
           (conn_yields b + 1) (S (triggered b))).

(** [k] calls of [maybeYield] in a row, with their results. *)
Fixpoint maybeYield_calls (k : nat) (b : EventBudget) : Yield (list bool) :=
  match k with
  | O => Yielded [] b
  | S k' =>
      match maybeYield b with
      | SignedOverflow => SignedOverflow
      | Yielded r b' =>
          match maybeYield_calls k' b' with
          | SignedOverflow => SignedOverflow
          | Yielded rs b'' => Yielded (r :: rs) b''
          end
      end
  end.

(** ** Connection: packets that are copied to the output (connection.cc) *)

(** [Connection::add_packet_to_send_pipe] *)
Definition add_packet_to_send_pipe (packet : list Z)
  : M Connection.t ENGINE_ERROR_CODE :=
  catch_bad_alloc (copyToOutputStream packet ;;; ret ENGINE_SUCCESS)
    (ret ENGINE_E2BIG).

(** [Connection::deletionInner].  [value] is the region of [info.nbytes]
    bytes at [info.value[0].iov_base], the only use of [info]. *)
Definition deletionInner (value packet extendedMeta key : list Z)
  : M Connection.t ENGINE_ERROR_CODE :=
  catch_bad_alloc
    (copyToOutputStream packet ;;;
     copyToOutputStream key ;;;
     copyToOutputStream value ;;;
     copyToOutputStream extendedMeta ;;;
     ret ENGINE_SUCCESS)
    (ret ENGINE_DISCONNECT).

(** The regions a caller hands over that are not empty, as the segments
    [copyToOutputStream] queues for them. *)
Definition copied_segments (regions : list (list Z)) : list Segment :=
  map Copied (filter (fun d => negb (is_nil d)) regions).

(** Copying a list of regions one after the other and going on with
    [k]: the shape of the [try] blocks that queue a packet piece by
    piece. *)
Fixpoint copy_all_then {A : Type} (regions : list (list Z))
    (k : M Connection.t A) : M Connection.t A :=
  match regions with
  | [] => k
  | d :: rest => copyToOutputStream d ;;; copy_all_then rest k
  end.

(** ** The external authentication manager
    (external_auth_manager_thread.cc) *)

Module ExternalAuthManagerThread.

(** *** Maps

    The [std::unordered_map]s of the class, as association lists that
    hold a key at most once.  The order of the list is the order in which
    the entries were added; the order in which a loop over the map visits
    them is not specified by the language, and is a parameter where it
    shows in what the code does. *)

Section Maps.

Context {K V : Type}.
Variable eqb : K -> K -> bool.

(** [m.find(k)] *)
Fixpoint find (k : K) (m : list (K * V)) : option V :=
  match m with
  | [] => None
  | (k', v) :: rest => if eqb k k' then Some v else find k rest
  end.

(** [m.erase(k)] *)
Definition erase (k : K) (m : list (K * V)) : list (K * V) :=
  filter (fun entry => negb (eqb k (fst entry))) m.

(** [m[k] = v]: the value of an entry that exists is replaced, a new
    entry is added otherwise. *)
Fixpoint store (k : K) (v : V) (m : list (K * V)) : list (K * V) :=
  match m with
  | [] => [(k, v)]
  | (k', v') :: rest =>
      if eqb k k' then (k', v) :: rest else (k', v') :: store k v rest
  end.

End Maps.

(** *** The active users *)

(** What a function that may throw [std::runtime_error] gives. *)
Inductive Outcome (A : Type) : Type :=
| Done (a : A)
| runtime_error (what : string).

Arguments Done {A} a.
Arguments runtime_error {A} what.

Section ActiveUsers.

(** The width of the counter kept per user; the class is declared in
    external_auth_manager_thread.h, which is not part of the sources. *)
Variable counter_bits : Z.

Definition counter (z : Z) : Z := z mod 2 ^ counter_bits.

(** [ActiveUsers::users] *)
Definition Users : Type := list (string * Z).

(** [ActiveUsers::login]: [users[user]++], where [operator[]] adds an
    entry with a count of zero for a user the map does not hold. *)
Definition login (user : string) (users : Users) : Users :=
  match find String.eqb user users with
  | Some n => store String.eqb user (counter (n + 1)) users
  | None => store String.eqb user (counter (0 + 1)) users
  end.

(** [ActiveUsers::logoff] *)
Definition logoff (user : string) (users : Users) : Outcome Users :=
  match find String.eqb user users with
  | None => runtime_error "ActiveUsers::logoff: Failed to find user"
  | Some n =>
      let n' := counter (n - 1) in
      let users := store String.eqb user n' users in
      if n' =? 0 then Done (erase String.eqb user users) else Done users
  end.

(** [ActiveUsers::to_json]: the array of the names. *)
Definition to_json (users : Users) : list string := map fst users.

End ActiveUsers.

(** *** Requests, responses and providers *)

(** An [AuthResponse]: the one built from an id and a message, and the
    one built from the opaque, the status and the value of a response
    that was received. *)
Inductive AuthResponse : Type :=
| LocalResponse (opaque : Z) (payload : string)
| ReceivedResponse (opaque : Z) (status : Status) (payload : string).

Definition response_opaque (r : AuthResponse) : Z :=
  match r with
  | LocalResponse opaque _ => opaque
  | ReceivedResponse opaque _ _ => opaque
  end.

(** An [AuthenticationRequestServerEvent], by the arguments of its
    constructor; the request is the [StartSaslAuthTask] it was made
    for. *)
Record AuthenticationRequestServerEvent : Type := mkEvent {
  ev_id : Z;
  ev_request : Z;
  ev_authenticateOnly : bool
}.

(** The members of [ExternalAuthManagerThread] and what its functions do
    to objects outside it.  Connections and tasks are named by numbers
    that stand for their addresses. *)
Record t : Type := mk {
  connections : list Z;
  pendingRemoveConnection : list Z;
  (** [incomingRequests], front first *)
  incomingRequests : list Z;
  (** [incommingResponse], front first *)
  incommingResponse : list AuthResponse;
  (** [requestMap]: the provider ([None] for [nullptr]) and the task, by
      the id of the request *)
  requestMap : list (Z * (option Z * Z));
  (** [uint32_t next] *)
  next : Z;
  (** [rbacCacheEpoch], in seconds *)
  rbacCacheEpoch : Z;
  (** [activeUsersPushInterval], in ticks of the steady clock *)
  activeUsersPushInterval : Z;
  (** calls of [Connection::incrementRefcount] (1) and
      [Connection::decrementRefcount] (-1), oldest first *)
  refcount_calls : list (Z * Z);
  (** connections that [signalIfIdle] was called on, oldest first *)
  signalled : list Z;
  (** server events handed to [Connection::enqueueServerEvent], by
      connection, oldest first *)
  enqueued : list (Z * AuthenticationRequestServerEvent);
  (** calls of [StartSaslAuthTask::externalAuthResponse], by task,
      oldest first *)
  delivered : list (Z * AuthResponse)
}.

Definition service_is_down : string :=
  "{" ++ quote ++ "error" ++ quote ++ ":{" ++ quote ++ "context" ++ quote
    ++ ":" ++ quote ++ "External auth service is down" ++ quote ++ "}}".

(** [ExternalAuthManagerThread::add] *)
Definition add (connection : Z) (m : t) : t :=
  mk (connections m ++ [connection]) (pendingRemoveConnection m)
    (incomingRequests m) (incommingResponse m) (requestMap m) (next m)
    (rbacCacheEpoch m) (activeUsersPushInterval m)
    (refcount_calls m ++ [(connection, 1)]) (signalled m) (enqueued m)
    (delivered m).

(** [connections.erase(iter)] for the iterator [std::find] returned: the
    first element equal to [connection] goes. *)
Fixpoint erase_first (connection : Z) (l : list Z) : list Z :=
  match l with
  | [] => []
  | x :: rest => if x =? connection then rest else x :: erase_first connection rest
  end.

(** [ExternalAuthManagerThread::remove] *)
Definition remove (connection : Z) (m : t) : t :=
  if existsb (Z.eqb connection) (connections m) then
    mk (erase_first connection (connections m))
      (pendingRemoveConnection m ++ [connection])
      (incomingRequests m) (incommingResponse m) (requestMap m) (next m)
      (rbacCacheEpoch m) (activeUsersPushInterval m) (refcount_calls m)
      (signalled m) (enqueued m) (delivered m)
  else m.

(** [ExternalAuthManagerThread::enqueueRequest] *)
Definition enqueueRequest (request : Z) (m : t) : t :=
  mk (connections m) (pendingRemoveConnection m)
    (incomingRequests m ++ [request]) (incommingResponse m) (requestMap m)
    (next m) (rbacCacheEpoch m) (activeUsersPushInterval m)
    (refcount_calls m) (signalled m) (enqueued m) (delivered m).

(** The loop of [processRequestQueue] that runs without a provider. *)
Fixpoint cancel_requests (requests : list Z) (responses : list AuthResponse)
    (rmap : list (Z * (option Z * Z))) (next : Z)
  : list AuthResponse * list (Z * (option Z * Z)) * Z :=
  match requests with
  | [] => (responses, rmap, next)
  | request :: rest =>
      cancel_requests rest
        (responses ++ [LocalResponse next service_is_down])
        (store Z.eqb next (None, request) rmap)
        (uint32 (next + 1))
  end.

Section ProcessRequestQueue.

(** [cb::rbac::getExternalUserTimestamp] for the user of a task (not part
    of the sources), in ticks of the steady clock. *)
Variable getExternalUserTimestamp : Z -> option Z.
(** The ticks of the steady clock in a second. *)
Variable ticks_per_second : Z.

Definition uint64 (z : Z) : Z := z mod 2 ^ 64.

(** The loop of [processRequestQueue] that builds the server events for
    the provider; [then_] is the reading of the clock less twice the push
    interval. *)
Fixpoint build_events (provider then_ epoch : Z) (requests : list Z)
    (events : list AuthenticationRequestServerEvent)
    (rmap : list (Z * (option Z * Z))) (next : Z)
  : list AuthenticationRequestServerEvent * list (Z * (option Z * Z)) * Z :=
  match requests with
  | [] => (events, rmap, next)
  | request :: rest =>
      let timestamp :=
        match getExternalUserTimestamp request with
        | Some ts => ts
        | None => 0
        end in
      let age := uint64 (Z.quot timestamp ticks_per_second) in
      let authOnly := (timestamp >? then_) && (age >=? epoch) in
      build_events provider then_ epoch rest
        (events ++ [mkEvent next request authOnly])
        (store Z.eqb next (Some provider, request) rmap)
        (uint32 (next + 1))
  end.

(** [ExternalAuthManagerThread::processRequestQueue]; [now] is the
    reading of the steady clock. *)
Definition processRequestQueue (now : Z) (m : t) : t :=
  match connections m with
  | [] =>
      let '(responses, rmap, next') :=
        cancel_requests (incomingRequests m) (incommingResponse m)
          (requestMap m) (next m) in
      mk (connections m) (pendingRemoveConnection m) [] responses rmap next'
        (rbacCacheEpoch m) (activeUsersPushInterval m) (refcount_calls m)
        (signalled m) (enqueued m) (delivered m)
  | provider :: _ =>
      let then_ := now - 2 * activeUsersPushInterval m in
      let '(events, rmap, next') :=
        build_events provider then_ (rbacCacheEpoch m) (incomingRequests m)
          [] (requestMap m) (next m) in
      mk (connections m) (pendingRemoveConnection m) [] (incommingResponse m)
        rmap next' (rbacCacheEpoch m) (activeUsersPushInterval m)
        (refcount_calls m) (signalled m ++ [provider])
        (enqueued m ++ map (fun ev => (provider, ev)) events) (delivered m)
  end.

End ProcessRequestQueue.

(** The loop of [processResponseQueue] over the responses moved out of
    [incommingResponse]. *)
Fixpoint deliver_responses (responses : list AuthResponse)
    (rmap : list (Z * (option Z * Z))) (delivered : list (Z * AuthResponse))
  : list (Z * (option Z * Z)) * list (Z * AuthResponse) :=
  match responses with
  | [] => (rmap, delivered)
  | entry :: rest =>
      match find Z.eqb (response_opaque entry) rmap with
      | None => deliver_responses rest rmap delivered
      | Some (_, task) =>
          deliver_responses rest (erase Z.eqb (response_opaque entry) rmap)
            (delivered ++ [(task, entry)])
      end
  end.

(** [ExternalAuthManagerThread::processResponseQueue] *)
Definition processResponseQueue (m : t) : t :=
  let '(rmap, delivered') :=
    deliver_responses (incommingResponse m) (requestMap m) (delivered m) in
  mk (connections m) (pendingRemoveConnection m) (incomingRequests m) []
    rmap (next m) (rbacCacheEpoch m) (activeUsersPushInterval m)
    (refcount_calls m) (signalled m) (enqueued m) delivered'.

Section Purge.

(** The order in which [for (auto& req : requestMap)] visits the entries
    of the unordered map is not specified: for a map with the entries
    [rmap], [position rmap id] is the place of the key [id] in that
    order. *)
Variable position : list (Z * (option Z * Z)) -> Z -> Z.

Fixpoint insert_by (rank : Z -> Z) (entry : Z * (option Z * Z))
    (visited : list (Z * (option Z * Z))) : list (Z * (option Z * Z)) :=
  match visited with
  | [] => [entry]
  | x :: rest =>
      if rank (fst entry) <=? rank (fst x) then entry :: visited
      else x :: insert_by rank entry rest
  end.

(** The entries of the map in the order of the visit. *)
Definition visit_order (rmap : list (Z * (option Z * Z)))
  : list (Z * (option Z * Z)) :=
  fold_right (insert_by (position rmap)) [] rmap.

(** The responses the inner loop of [purgePendingDeadConnections] queues:
    one for every entry visited that waits for [connection]. *)
Fixpoint fail_requests_loop (connection : Z)
    (visited : list (Z * (option Z * Z))) : list AuthResponse :=
  match visited with
  | [] => []
  | (id, (provider, task)) :: rest =>
      match provider with
      | Some p =>
          if p =? connection then
            LocalResponse id service_is_down
            :: fail_requests_loop connection rest
          else fail_requests_loop connection rest
      | None => fail_requests_loop connection rest
      end
  end.

(** [req.second.first = nullptr] for an entry that waits for
    [connection]; [req] is a reference to the entry of the map. *)
Definition clear_provider (connection : Z) (entry : Z * (option Z * Z))
  : Z * (option Z * Z) :=
  match entry with
  | (id, (Some p, task)) =>
      if p =? connection then (id, (None, task)) else entry
  | _ => entry
  end.

(** The inner loop of [purgePendingDeadConnections] over [requestMap]:
    every request that waits for [connection] gets the response that the
    service is down, in the order of the visit, and loses its
    provider. *)
Definition fail_requests_of (connection : Z) (rmap : list (Z * (option Z * Z)))
  : list AuthResponse * list (Z * (option Z * Z)) :=
  (fail_requests_loop connection (visit_order rmap),
   map (clear_provider connection) rmap).

(** The outer loop of [purgePendingDeadConnections]. *)
Fixpoint purge_connections (pending : list Z) (m : t) : t :=
  match pending with
  | [] => m
  | connection :: rest =>
      let '(responses, rmap) := fail_requests_of connection (requestMap m) in
      purge_connections rest
        (mk (connections m) (pendingRemoveConnection m) (incomingRequests m)
           (incommingResponse m ++ responses) rmap (next m) (rbacCacheEpoch m)
           (activeUsersPushInterval m)
           (refcount_calls m ++ [(connection, -1)])
           (signalled m ++ [connection]) (enqueued m) (delivered m))
  end.

(** [ExternalAuthManagerThread::purgePendingDeadConnections] *)
Definition purgePendingDeadConnections (m : t) : t :=
  let pending := pendingRemoveConnection m in
  purge_connections pending
    (mk (connections m) [] (incomingRequests m) (incommingResponse m)
       (requestMap m) (next m) (rbacCacheEpoch m) (activeUsersPushInterval m)
       (refcount_calls m) (signalled m) (enqueued m) (delivered m)).

End Purge.

End ExternalAuthManagerThread.

Arguments ExternalAuthManagerThread.find {K V} eqb k m.
Arguments ExternalAuthManagerThread.erase {K V} eqb k m.
Arguments ExternalAuthManagerThread.store {K V} eqb k v m.

(** How often a user is logged in, as the map has it. *)
Definition active_count (users : ExternalAuthManagerThread.Users)
    (user : string) : Z :=
  match ExternalAuthManagerThread.find String.eqb user users with
  | Some n => n
  | None => 0
  end.

(** What the functions of [ActiveUsers] keep of the map: a name occurs
    once, and with a count that is not zero. *)
Definition users_well_formed (counter_bits : Z)
    (users : ExternalAuthManagerThread.Users) : Prop :=
  NoDup (map fst users) /\
  forall user n,
    ExternalAuthManagerThread.find String.eqb user users = Some n ->
    1 <= n < 2 ^ counter_bits.

(** The requests of a queue with the ids they are given, counting up
    from [next]. *)
Fixpoint numbered (next : Z) (requests : list Z) : list (Z * Z) :=
  match requests with
  | [] => []
  | request :: rest => (next, request) :: numbered (next + 1) rest
  end.

(** The entry of [requestMap] for a numbered request. *)
Definition map_entry (provider : option Z) (r : Z * Z)
  : Z * (option Z * Z) :=
  (fst r, (provider, snd r)).

(** The answer that the service is down, for a numbered request. *)
Definition down_response (r : Z * Z)
  : ExternalAuthManagerThread.AuthResponse :=
  ExternalAuthManagerThread.LocalResponse (fst r)
    ExternalAuthManagerThread.service_is_down.

(** A manager for the examples: no provider, nothing queued. *)
Definition idle_manager : ExternalAuthManagerThread.t :=
  ExternalAuthManagerThread.mk [] [] [] [] [] 0 0 0 [] [] [] [].


(** An entry of [requestMap] waits for [connection]. *)
Definition waits_for (connection : Z) (entry : Z * (option Z * Z)) : bool :=
  match snd entry with
  | (Some p, _) => p =? connection
  | (None, _) => false
  end.

(** The answer that the service is down, for an entry of [requestMap]. *)
Definition down_for (entry : Z * (option Z * Z))
  : ExternalAuthManagerThread.AuthResponse :=
  ExternalAuthManagerThread.LocalResponse (fst entry)
    ExternalAuthManagerThread.service_is_down.
(** ** The list of connections with pending IO (thread.cc)

    The list is threaded through the connections by their [next]
    pointers.  A connection is named by a number that stands for its
    address; [None] is [nullptr]. *)

Module PendingIoList.

(** [Connection::getNext] of every connection. *)
Definition Links : Type := Z -> option Z.

(** [c->setNext(n)] *)
Definition setNext (c : Z) (n : option Z) (links : Links) : Links :=
  fun x => if x =? c then n else links x.

(** What a function gives that loops over the pointers and asserts. *)
Inductive Run (A : Type) : Type :=
| Finished (a : A)
| AssertionFailed
| OutOfFuel.

Arguments Finished {A} a.
Arguments AssertionFailed {A}.
Arguments OutOfFuel {A}.

(** The loop of [number_of_pending]. *)
Fixpoint number_of_pending_loop (fuel : nat) (links : Links) (c : Z)
    (list : option Z) (rv : Z) : option Z :=
  match list with
  | None => Some rv
  | Some x =>
      match fuel with
      | O => None
      | S fuel' =>
          number_of_pending_loop fuel' links c (links x)
            (if x =? c then rv + 1 else rv)
      end
  end.

(** [number_of_pending] *)
Definition number_of_pending (fuel : nat) (links : Links) (c : Z)
    (list : option Z) : option Z :=
  number_of_pending_loop fuel links c list 0.

(** [list_contains] *)
Fixpoint list_contains (fuel : nat) (links : Links) (haystack : option Z)
    (needle : Z) : option bool :=
  match haystack with
  | None => Some false
  | Some x =>
      if needle =? x then Some true
      else
        match fuel with
        | O => None
        | S fuel' => list_contains fuel' links (links x) needle
        end
  end.

(** [list_remove]: the head of the list that is left, and the links. *)
Fixpoint list_remove (fuel : nat) (links : Links) (haystack : option Z)
    (needle : Z) : option (option Z * Links) :=
  match haystack with
  | None => Some (None, links)
  | Some x =>
      if x =? needle then Some (links needle, setNext needle None links)
      else
        match fuel with
        | O => None
        | S fuel' =>
            match list_remove fuel' links (links x) needle with
            | None => None
            | Some (rest, links') => Some (Some x, setNext x rest links')
            end
        end
  end.

(** The loop of [has_cycle]; [fastNode2] is not null when the condition
    is evaluated. *)
Fixpoint has_cycle_loop (fuel : nat) (links : Links) (slowNode : option Z)
    (fastNode2 : Z) : option bool :=
  match slowNode with
  | None => Some false
  | Some slow =>
      match links fastNode2 with
      | None => Some false
      | Some fastNode1 =>
          match links fastNode1 with
          | None => Some false
          | Some fastNode2' =>
              if (slow =? fastNode1) || (slow =? fastNode2') then Some true
              else
                match fuel with
                | O => None
                | S fuel' =>
                    has_cycle_loop fuel' links (links slow) fastNode2'
                end
          end
      end
  end.

(** [has_cycle] *)
Definition has_cycle (fuel : nat) (links : Links) (c : option Z) : option bool :=
  match c with
  | None => Some false
  | Some x => has_cycle_loop fuel links (Some x) x
  end.

(** [enlist_conn] for the list of the connection's own thread: the head
    of the list and the links it leaves. *)
Definition enlist_conn (fuel : nat) (c : Z) (links : Links) (list : option Z)
  : Run (option Z * Links) :=
  match list_contains fuel links list c with
  | None => OutOfFuel
  | Some true => AssertionFailed
  | Some false =>
      match links c with
      | Some _ => AssertionFailed
      | None =>
          let links := setNext c list links in
          let list := Some c in
          match list_contains fuel links list c with
          | None => OutOfFuel
          | Some false => AssertionFailed
          | Some true =>
              match has_cycle fuel links list with
              | None => OutOfFuel
              | Some true => AssertionFailed
              | Some false => Finished (list, links)
              end
          end
      end
  end.

(** [add_conn_to_pending_io_list]: [notify], the head of
    [thread->pending_io] and the links. *)
Definition add_conn_to_pending_io_list (fuel : nat) (c : Z) (links : Links)
    (pending_io : option Z) : Run (Z * option Z * Links) :=
  match number_of_pending fuel links c pending_io with
  | None => OutOfFuel
  | Some n =>
      if n =? 0 then
        let notify :=
          match pending_io with
          | None => 1
          | Some _ => 0
          end in
        match enlist_conn fuel c links pending_io with
        | Finished (list, links) => Finished (notify, list, links)
        | AssertionFailed => AssertionFailed
        | OutOfFuel => OutOfFuel
        end
      else Finished (0, pending_io, links)
  end.

(** The connections of a list that ends in [nullptr], from its head
    on. *)
Fixpoint is_list (links : Links) (head : option Z) (l : list Z) : Prop :=
  match l with
  | [] => head = None
  | x :: rest => head = Some x /\ is_list links (links x) rest
  end.

End PendingIoList.

(** ** Handing new connections to the worker threads (thread.cc) *)

(** What [dispatch_conn_new] works on: [last_thread], the number of
    worker threads of the settings, the items pushed on the queues of the
    threads (thread, socket and port, oldest first), the threads notified and
    the sockets closed; [push_results] are the outcomes of the next
    allocations ([false] is a [std::bad_alloc]). *)
Record Dispatcher : Type := mkDispatcher {
  last_thread : Z;
  num_worker_threads : Z;
  pushed : list (Z * (Z * Z));
  notified_threads : list Z;
  closed_sockets : list Z;
  push_results : list bool
}.

(** [dispatch_conn_new]; [%] on [int] truncates as [Z.rem] does. *)
Definition dispatch_conn_new (sfd parent_port : Z) (d : Dispatcher) : Dispatcher :=
  let tid := Z.rem (last_thread d + 1) (num_worker_threads d) in
  if hd true (push_results d) then
    mkDispatcher tid (num_worker_threads d) (pushed d ++ [(tid, (sfd, parent_port))])
      (notified_threads d ++ [tid]) (closed_sockets d) (tl (push_results d))
  else
    mkDispatcher tid (num_worker_threads d) (pushed d) (notified_threads d)
      (closed_sockets d ++ [sfd]) (tl (push_results d)).

(** The sockets of a list dispatched one after the other. *)
Definition dispatch_all (sockets : list (Z * Z)) (d : Dispatcher) : Dispatcher :=
  fold_left (fun d s => dispatch_conn_new (fst s) (snd s) d) sockets d.

(** The dispatcher when the threads have been started: [last_thread] is
    initialised to -1. *)
Definition fresh_dispatcher (threads : Z) : Dispatcher :=
  mkDispatcher (-1) threads [] [] [] [].

(** Three connections in a list, for the examples: 1, then 2, then 3. *)
Definition three_links : PendingIoList.Links :=
  PendingIoList.setNext 1 (Some 2)
    (PendingIoList.setNext 2 (Some 3) (fun _ => None)).

(** ** The scatter/gather lists of a connection (connection_mcbp.cc)

    [iov] is the vector of [iovec] entries, a region by its address and
    its length; every [msghdr] of [msglist] points into it.  Indices and
    sizes of the vectors are natural numbers. *)

Module IoVectors.

(** A [msghdr], as far as the connection uses it: [msg_iov] by the index
    of the entry of [iov] it points to, and [msg_iovlen]. *)
Record msghdr : Type := mk_msghdr {
  msg_iov : nat;
  msg_iovlen : nat
}.

Record t : Type := mk {
  iov : list (Z * Z);
  iovused : nat;
  msglist : list msghdr;
  msgcurr : nat;
  msgbytes : Z
}.

(** [v[n] = x]; the source writes outside the vector when [n] is not an
    index of it, the list stays as it is. *)
Fixpoint assign {A : Type} (n : nat) (x : A) (v : list A) : list A :=
  match v, n with
  | [], _ => []
  | _ :: rest, O => x :: rest
  | y :: rest, S n' => y :: assign n' x rest
  end.

(** [McbpConnection::addMsgHdr] *)
Definition addMsgHdr (reset : bool) (s : t) : t :=
  let s := if reset then mk (iov s) 0 [] 0 (msgbytes s) else s in
  mk (iov s) (iovused s) (msglist s ++ [mk_msghdr (iovused s) 0]) (msgcurr s) 0.

(** The loop of [ensureIovSpace] that points the [msghdr]s at the new
    list. *)
Fixpoint repoint (msgs : list msghdr) (iovnum : nat) : list msghdr :=
  match msgs with
  | [] => []
  | m :: rest =>
      mk_msghdr iovnum (msg_iovlen m) :: repoint rest (iovnum + msg_iovlen m)
  end.

(** [McbpConnection::ensureIovSpace]: [resize] adds entries that are
    zero. *)
Definition ensureIovSpace (s : t) : t :=
  if (iovused s <? List.length (iov s))%nat then s
  else
    mk (iov s ++ repeat (0, 0) (List.length (iov s))) (iovused s)
      (repoint (msglist s) 0) (msgcurr s) (msgbytes s).

Section AddIov.

(** [IOV_MAX] of the system. *)
Variable IOV_MAX : nat.

(** [McbpConnection::addIov]; [msglist.back()] of an empty list is not
    defined in the source and an empty [msghdr] here. *)
Definition addIov (buf len : Z) (s : t) : t :=
  if len =? 0 then s
  else
    let m := last (msglist s) (mk_msghdr 0 0) in
    let s := if (msg_iovlen m =? IOV_MAX)%nat then addMsgHdr false s else s in
    let s := ensureIovSpace s in
    let m := last (msglist s) (mk_msghdr 0 0) in
    mk (assign (msg_iov m + msg_iovlen m) (buf, len) (iov s))
      (S (iovused s))
      (removelast (msglist s) ++ [mk_msghdr (msg_iov m) (S (msg_iovlen m))])
      (msgcurr s) (size_t (msgbytes s + len)).

End AddIov.

(** The entries a [msghdr] covers. *)
Definition entries (s : t) (m : msghdr) : list (Z * Z) :=
  firstn (msg_iovlen m) (skipn (msg_iov m) (iov s)).

(** Everything queued, message by message. *)
Definition queued_entries (s : t) : list (Z * Z) :=
  List.concat (map (entries s) (msglist s)).

(** The messages lie in [iov] one after the other from [off] on, none
    with more than [IOV_MAX] entries. *)
Fixpoint laid_out (IOV_MAX off : nat) (msgs : list msghdr) : Prop :=
  match msgs with
  | [] => True
  | m :: rest =>
      msg_iov m = off /\ (msg_iovlen m <= IOV_MAX)%nat /\
      laid_out IOV_MAX (off + msg_iovlen m) rest
  end.

Definition total_entries (msgs : list msghdr) : nat :=
  fold_right (fun m n => (msg_iovlen m + n)%nat) 0%nat msgs.

(** What [addMsgHdr] and [addIov] keep of the lists. *)
Definition well_formed (IOV_MAX : nat) (s : t) : Prop :=
  msglist s <> [] /\
  laid_out IOV_MAX 0 (msglist s) /\
  total_entries (msglist s) = iovused s /\
  (iovused s <= List.length (iov s))%nat /\
  (0 < List.length (iov s))%nat.

End IoVectors.

(** ** Reading from the network (connection_mcbp.cc) *)

Module ReadNetwork.

Inductive TryReadResult : Type :=
| NoDataReceived
| DataReceived
| SocketClosed
| SocketError
| MemoryError.

(** What [recv] reports once no byte is left to read. *)
Inductive SocketEnd : Type :=
| WouldBlock
| PeerClosed
| Failed.

(** The read buffer [read] (the [bytes] bytes at [curr], [size], and
    whether [curr] is [buf]), the bytes the socket holds and what follows
    them, the outcomes of the next calls of [cb_realloc], the state the
    connection was told to go to, and whether this is a pipe
    connection. *)
Record t : Type := mk {
  read_data : list Z;
  read_size : Z;
  read_at_start : bool;
  incoming : list Z;
  socket_end : SocketEnd;
  realloc_results : list bool;
  closing : bool;
  isPipeConnection : bool
}.

(** [recv(dest, nbytes)]: the result and the bytes written to [dest];
    -1 is reported with a blocking error for [WouldBlock]. *)
Definition recv (nbytes : Z) (s : t) : Z * list Z * t :=
  match incoming s with
  | [] =>
      ((match socket_end s with
        | PeerClosed => 0
        | WouldBlock | Failed => -1
        end), [], s)
  | _ =>
      let got := firstn (Z.to_nat nbytes) (incoming s) in
      (len got, got,
       mk (read_data s) (read_size s) (read_at_start s)
         (skipn (Z.to_nat nbytes) (incoming s)) (socket_end s)
         (realloc_results s) (closing s) (isPipeConnection s))
  end.

(** The second half of the loop body of [tryReadNetwork], from
    [avail = read.size - read.bytes] on; [continue_] stands for the next
    round of the loop. *)
Definition receive (continue_ : t -> option (TryReadResult * t))
    (gotdata : TryReadResult) (s : t) : option (TryReadResult * t) :=
  let avail := read_size s - len (read_data s) in
  let '(res, got, s) := recv avail s in
  if res >? 0 then
    let s :=
      mk (read_data s ++ got) (read_size s) (read_at_start s) (incoming s)
        (socket_end s) (realloc_results s) (closing s) (isPipeConnection s) in
    if res =? avail then continue_ s else Some (DataReceived, s)
  else if res =? 0 then
    if isPipeConnection s then Some (NoDataReceived, s)
    else Some (SocketClosed, s)
  else
    match socket_end s with
    | WouldBlock => Some (gotdata, s)
    | _ => Some (SocketError, s)
    end.

(** The loop of [tryReadNetwork]. *)
Fixpoint tryReadNetwork_loop (fuel : nat) (gotdata : TryReadResult)
    (num_allocs : Z) (s : t) : option (TryReadResult * t) :=
  match fuel with
  | O => None
  | S fuel' =>
      if len (read_data s) >=? read_size s then
        if num_allocs =? 4 then Some (gotdata, s)
        else if negb (hd true (realloc_results s)) then
          Some (MemoryError,
                mk [] (read_size s) (read_at_start s) (incoming s)
                  (socket_end s) (tl (realloc_results s)) true
                  (isPipeConnection s))
        else
          receive (tryReadNetwork_loop fuel' DataReceived (num_allocs + 1))
            gotdata
            (mk (read_data s) (read_size s * 2) true (incoming s)
               (socket_end s) (tl (realloc_results s)) (closing s)
               (isPipeConnection s))
      else receive (tryReadNetwork_loop fuel' DataReceived num_allocs) gotdata s
  end.

(** [McbpConnection::tryReadNetwork] *)
Definition tryReadNetwork (fuel : nat) (s : t) : option (TryReadResult * t) :=
  let s :=
    if read_at_start s then s
    else
      mk (read_data s) (read_size s) true (incoming s) (socket_end s)
        (realloc_results s) (closing s) (isPipeConnection s) in
  tryReadNetwork_loop fuel NoDataReceived 0 s.

End ReadNetwork.

(** The calls of [cb_realloc] between [s] and [s'], for a run that
    doubled the buffer [k] times and returned [r]: the first [k] calls
    succeeded; no other call was made unless [r] is MemoryError, and then
    one more was made, which failed. *)
Definition realloc_account (k : Z) (r : ReadNetwork.TryReadResult)
    (s s' : ReadNetwork.t) : Prop :=
  (forall i, (i < Z.to_nat k)%nat ->
             nth i (ReadNetwork.realloc_results s) true = true) /\
  (r <> ReadNetwork.MemoryError ->
   ReadNetwork.realloc_results s' =
   skipn (Z.to_nat k) (ReadNetwork.realloc_results s)) /\
  (r = ReadNetwork.MemoryError ->
   nth (Z.to_nat k) (ReadNetwork.realloc_results s) true = false /\
   ReadNetwork.realloc_results s' =
   skipn (S (Z.to_nat k)) (ReadNetwork.realloc_results s)).

(** What a run of the read loop that starts in [s] with [gotdata] and
    [num_allocs] comes to: it returns; the buffer was doubled at most as
    often as [num_allocs] leaves room for and holds what it is said to
    hold; the bytes [taken] were taken from the socket, in order; unless
    memory ran out they were added to the buffer behind what was there,
    and when memory ran out the buffer is given up and the connection
    told to close; and the calls of [cb_realloc] are accounted for, one
    for each doubling and one more, which failed, exactly when the
    result is MemoryError. *)
Definition read_outcome (gotdata : ReadNetwork.TryReadResult)
    (num_allocs : Z) (s : ReadNetwork.t)
    (run : option (ReadNetwork.TryReadResult * ReadNetwork.t)) : Prop :=
  exists r s' k,
    run = Some (r, s') /\
    0 <= k <= 4 - num_allocs /\
    ReadNetwork.read_size s' = 2 ^ k * ReadNetwork.read_size s /\
    len (ReadNetwork.read_data s') <= ReadNetwork.read_size s' /\
    ReadNetwork.isPipeConnection s' = ReadNetwork.isPipeConnection s /\
    exists taken,
      ReadNetwork.incoming s = taken ++ ReadNetwork.incoming s' /\
      (r <> ReadNetwork.MemoryError ->
       ReadNetwork.read_data s' = ReadNetwork.read_data s ++ taken /\
       ReadNetwork.closing s' = ReadNetwork.closing s) /\
      (r = ReadNetwork.MemoryError ->
       ReadNetwork.read_data s' = [] /\ ReadNetwork.closing s' = true) /\
      (r = ReadNetwork.DataReceived ->
       gotdata = ReadNetwork.DataReceived \/ taken <> []) /\
      (ReadNetwork.isPipeConnection s = false ->
       r = ReadNetwork.NoDataReceived ->
       gotdata = ReadNetwork.NoDataReceived /\ taken = []) /\
      realloc_account k r s s'.

(** ** Executors of the DCP and collections commands
    (dcp_noop_executor.cc, dcp_buffer_acknowledgement_executor.cc,
    dcp_system_event_executor.cc and the executors next to them) *)

Module Executors.


(** The calls an executor makes outside the front end. *)
Inductive Call : Type :=
| HaveDcpPrivilege
| EngineCall.



(** The part of [dcp_noop_executor] and
    [dcp_buffer_acknowledgement_executor] before the code is remapped:
    the engine is asked only when no result is pending and the
    connection has the privilege. *)
Definition with_dcp_privilege (pending haveDcpPrivilege engine : ENGINE_ERROR_CODE)
  : ENGINE_ERROR_CODE * list Call :=
  if errc_eqb pending ENGINE_SUCCESS then
    if errc_eqb haveDcpPrivilege ENGINE_SUCCESS then
      (engine, [HaveDcpPrivilege; EngineCall])
    else (haveDcpPrivilege, [HaveDcpPrivilege])
  else (pending, []).

(** The same part of the executors that ask the engine at once. *)
Definition without_privilege_check (pending engine : ENGINE_ERROR_CODE)
  : ENGINE_ERROR_CODE * list Call :=
  if errc_eqb pending ENGINE_SUCCESS then (engine, [EngineCall])
  else (pending, []).








End Executors.

(** The code an executor finishes with, before it is remapped: the
    result that was pending; without one, the refusal of
    [mcbp::haveDcpPrivilege] for an executor that asks it; else the
    answer of the engine. *)
Definition answer (privileged : bool) (pending p r : ENGINE_ERROR_CODE)
  : ENGINE_ERROR_CODE :=
  if ENGINE_ERROR_CODE_eq_dec pending ENGINE_SUCCESS then
    if privileged then
      if ENGINE_ERROR_CODE_eq_dec p ENGINE_SUCCESS then r else p
    else r
  else pending.



(** ** The opcodes of the clients (opcode.cc) *)

Module Opcode.

Local Open Scope string_scope.

(** The enumerators of [cb::mcbp::ClientOpcode] that the switches of
    opcode.cc name, in the order of [is_valid_opcode]; [Set_] is the
    enumerator [Set]. *)
Inductive ClientOpcode : Type :=
  | Get | Set_ | Add | Replace | Delete | Increment | Decrement | Quit | Flush
  | Getq | Noop | Version | Getk | Getkq | Append | Prepend | Stat | Setq
  | Addq | Replaceq | Deleteq | Incrementq | Decrementq | Quitq | Flushq
  | Appendq | Prependq | Verbosity | Touch | Gat | Gatq | Hello
  | SaslListMechs | SaslAuth | SaslStep | IoctlGet | IoctlSet | ConfigValidate
  | ConfigReload | AuditPut | AuditConfigReload | Shutdown | Rget | Rset
  | Rsetq | Rappend | Rappendq | Rprepend | Rprependq | Rdelete | Rdeleteq
  | Rincr | Rincrq | Rdecr | Rdecrq | SetVbucket | GetVbucket | DelVbucket
  | TapConnect | TapMutation | TapDelete | TapFlush | TapOpaque
  | TapVbucketSet | TapCheckpointStart | TapCheckpointEnd | GetAllVbSeqnos
  | DcpOpen | DcpAddStream | DcpCloseStream | DcpStreamReq | DcpGetFailoverLog
  | DcpStreamEnd | DcpSnapshotMarker | DcpMutation | DcpDeletion
  | DcpExpiration | DcpSetVbucketState | DcpNoop | DcpBufferAcknowledgement
  | DcpControl | DcpSystemEvent | DcpPrepare | DcpSeqnoAcknowledged
  | DcpCommit | DcpAbort | StopPersistence | StartPersistence | SetParam
  | GetReplica | CreateBucket | DeleteBucket | ListBuckets | SelectBucket
  | ObserveSeqno | Observe | EvictKey | GetLocked | UnlockKey | GetFailoverLog
  | LastClosedCheckpoint | ResetReplicationChain | DeregisterTapClient
  | GetMeta | GetqMeta | SetWithMeta | SetqWithMeta | AddWithMeta
  | AddqWithMeta | SnapshotVbStates | VbucketBatchCount | DelWithMeta
  | DelqWithMeta | CreateCheckpoint | NotifyVbucketUpdate | EnableTraffic
  | DisableTraffic | ChangeVbFilter | CheckpointPersistence | ReturnMeta
  | CompactDb | SetClusterConfig | GetClusterConfig | GetRandomKey
  | SeqnoPersistence | GetKeys | CollectionsSetManifest
  | CollectionsGetManifest | CollectionsGetID | CollectionsGetScopeID
  | SetDriftCounterState | GetAdjustedTime | SubdocGet | SubdocExists
  | SubdocDictAdd | SubdocDictUpsert | SubdocDelete | SubdocReplace
  | SubdocArrayPushLast | SubdocArrayPushFirst | SubdocArrayInsert
  | SubdocArrayAddUnique | SubdocCounter | SubdocMultiLookup
  | SubdocMultiMutation | SubdocGetCount | Scrub | IsaslRefresh
  | SslCertsRefresh | GetCmdTimer | SetCtrlToken | GetCtrlToken
  | UpdateExternalUserPermissions | RbacRefresh | AuthProvider | DropPrivilege
  | AdjustTimeofday | EwouldblockCtl | GetErrorMap | Invalid.

(** What a function that may throw [std::invalid_argument] gives. *)
Inductive Returned (A : Type) : Type :=
| Returns (a : A)
| invalid_argument.
Arguments Returns {A} a.
Arguments invalid_argument {A}.

(** [is_valid_opcode(ClientOpcode)] *)
Definition is_valid_opcode (opcode : ClientOpcode) : bool :=
  match opcode with
  | Get | Set_ | Add | Replace | Delete | Increment | Decrement | Quit | Flush
  | Getq | Noop | Version | Getk | Getkq | Append | Prepend | Stat | Setq
  | Addq | Replaceq | Deleteq | Incrementq | Decrementq | Quitq | Flushq
  | Appendq | Prependq | Verbosity | Touch | Gat | Gatq | Hello
  | SaslListMechs | SaslAuth | SaslStep | IoctlGet | IoctlSet | ConfigValidate
  | ConfigReload | AuditPut | AuditConfigReload | Shutdown | Rget | Rset
  | Rsetq | Rappend | Rappendq | Rprepend | Rprependq | Rdelete | Rdeleteq
  | Rincr | Rincrq | Rdecr | Rdecrq | SetVbucket | GetVbucket | DelVbucket
  | TapConnect | TapMutation | TapDelete | TapFlush | TapOpaque
  | TapVbucketSet | TapCheckpointStart | TapCheckpointEnd | GetAllVbSeqnos
  | DcpOpen | DcpAddStream | DcpCloseStream | DcpStreamReq | DcpGetFailoverLog
  | DcpStreamEnd | DcpSnapshotMarker | DcpMutation | DcpDeletion
  | DcpExpiration | DcpSetVbucketState | DcpNoop | DcpBufferAcknowledgement
  | DcpControl | DcpSystemEvent | DcpPrepare | DcpSeqnoAcknowledged
  | DcpCommit | DcpAbort | StopPersistence | StartPersistence | SetParam
  | GetReplica | CreateBucket | DeleteBucket | ListBuckets | SelectBucket
  | ObserveSeqno | Observe | EvictKey | GetLocked | UnlockKey | GetFailoverLog
  | LastClosedCheckpoint | ResetReplicationChain | DeregisterTapClient
  | GetMeta | GetqMeta | SetWithMeta | SetqWithMeta | AddWithMeta
  | AddqWithMeta | SnapshotVbStates | VbucketBatchCount | DelWithMeta
  | DelqWithMeta | CreateCheckpoint | NotifyVbucketUpdate | EnableTraffic
  | DisableTraffic | ChangeVbFilter | CheckpointPersistence | ReturnMeta
  | CompactDb | SetClusterConfig | GetClusterConfig | GetRandomKey
  | SeqnoPersistence | GetKeys | CollectionsSetManifest
  | CollectionsGetManifest | CollectionsGetID | CollectionsGetScopeID
  | SetDriftCounterState | GetAdjustedTime | SubdocGet | SubdocExists
  | SubdocDictAdd | SubdocDictUpsert | SubdocDelete | SubdocReplace
  | SubdocArrayPushLast | SubdocArrayPushFirst | SubdocArrayInsert
  | SubdocArrayAddUnique | SubdocCounter | SubdocMultiLookup
  | SubdocMultiMutation | SubdocGetCount | Scrub | IsaslRefresh
  | SslCertsRefresh | GetCmdTimer | SetCtrlToken | GetCtrlToken
  | UpdateExternalUserPermissions | RbacRefresh | AuthProvider | DropPrivilege
  | AdjustTimeofday | EwouldblockCtl | GetErrorMap
      => true
  | Invalid => false
  end.

(** [to_string(cb::mcbp::ClientOpcode)] *)
Definition to_string (opcode : ClientOpcode) : Returned string :=
  match opcode with
  | Get => Returns "GET"
  | Set_ => Returns "SET"
  | Add => Returns "ADD"
  | Replace => Returns "REPLACE"
  | Delete => Returns "DELETE"
  | Increment => Returns "INCREMENT"
  | Decrement => Returns "DECREMENT"
  | Quit => Returns "QUIT"
  | Flush => Returns "FLUSH"
  | Getq => Returns "GETQ"
  | Noop => Returns "NOOP"
  | Version => Returns "VERSION"
  | Getk => Returns "GETK"
  | Getkq => Returns "GETKQ"
  | Append => Returns "APPEND"
  | Prepend => Returns "PREPEND"
  | Stat => Returns "STAT"
  | Setq => Returns "SETQ"
  | Addq => Returns "ADDQ"
  | Replaceq => Returns "REPLACEQ"
  | Deleteq => Returns "DELETEQ"
  | Incrementq => Returns "INCREMENTQ"
  | Decrementq => Returns "DECREMENTQ"
  | Quitq => Returns "QUITQ"
  | Flushq => Returns "FLUSHQ"
  | Appendq => Returns "APPENDQ"
  | Prependq => Returns "PREPENDQ"
  | Verbosity => Returns "VERBOSITY"
  | Touch => Returns "TOUCH"
  | Gat => Returns "GAT"
  | Gatq => Returns "GATQ"
  | Hello => Returns "HELLO"
  | SaslListMechs => Returns "SASL_LIST_MECHS"
  | SaslAuth => Returns "SASL_AUTH"
  | SaslStep => Returns "SASL_STEP"
  | IoctlGet => Returns "IOCTL_GET"
  | IoctlSet => Returns "IOCTL_SET"
  | ConfigValidate => Returns "CONFIG_VALIDATE"
  | ConfigReload => Returns "CONFIG_RELOAD"
  | AuditPut => Returns "AUDIT_PUT"
  | AuditConfigReload => Returns "AUDIT_CONFIG_RELOAD"
  | Shutdown => Returns "SHUTDOWN"
  | Rget => Returns "RGET"
  | Rset => Returns "RSET"
  | Rsetq => Returns "RSETQ"
  | Rappend => Returns "RAPPEND"
  | Rappendq => Returns "RAPPENDQ"
  | Rprepend => Returns "RPREPEND"
  | Rprependq => Returns "RPREPENDQ"
  | Rdelete => Returns "RDELETE"
  | Rdeleteq => Returns "RDELETEQ"
  | Rincr => Returns "RINCR"
  | Rincrq => Returns "RINCRQ"
  | Rdecr => Returns "RDECR"
  | Rdecrq => Returns "RDECRQ"
  | SetVbucket => Returns "SET_VBUCKET"
  | GetVbucket => Returns "GET_VBUCKET"
  | DelVbucket => Returns "DEL_VBUCKET"
  | TapConnect => Returns "TAP_CONNECT"
  | TapMutation => Returns "TAP_MUTATION"
  | TapDelete => Returns "TAP_DELETE"
  | TapFlush => Returns "TAP_FLUSH"
  | TapOpaque => Returns "TAP_OPAQUE"
  | TapVbucketSet => Returns "TAP_VBUCKET_SET"
  | TapCheckpointStart => Returns "TAP_CHECKPOINT_START"
  | TapCheckpointEnd => Returns "TAP_CHECKPOINT_END"
  | GetAllVbSeqnos => Returns "GET_ALL_VB_SEQNOS"
  | DcpOpen => Returns "DCP_OPEN"
  | DcpAddStream => Returns "DCP_ADD_STREAM"
  | DcpCloseStream => Returns "DCP_CLOSE_STREAM"
  | DcpStreamReq => Returns "DCP_STREAM_REQ"
  | DcpGetFailoverLog => Returns "DCP_GET_FAILOVER_LOG"
  | DcpStreamEnd => Returns "DCP_STREAM_END"
  | DcpSnapshotMarker => Returns "DCP_SNAPSHOT_MARKER"
  | DcpMutation => Returns "DCP_MUTATION"
  | DcpDeletion => Returns "DCP_DELETION"
  | DcpExpiration => Returns "DCP_EXPIRATION"
  | DcpSetVbucketState => Returns "DCP_SET_VBUCKET_STATE"
  | DcpNoop => Returns "DCP_NOOP"
  | DcpBufferAcknowledgement => Returns "DCP_BUFFER_ACKNOWLEDGEMENT"
  | DcpControl => Returns "DCP_CONTROL"
  | DcpSystemEvent => Returns "DCP_SYSTEM_EVENT"
  | DcpPrepare => Returns "DCP_PREPARE"
  | DcpSeqnoAcknowledged => Returns "DCP_SEQNO_ACKNOWLEDGED"
  | DcpCommit => Returns "DCP_COMMIT"
  | DcpAbort => Returns "DCP_ABORT"
  | StopPersistence => Returns "STOP_PERSISTENCE"
  | StartPersistence => Returns "START_PERSISTENCE"
  | SetParam => Returns "SET_PARAM"
  | GetReplica => Returns "GET_REPLICA"
  | CreateBucket => Returns "CREATE_BUCKET"
  | DeleteBucket => Returns "DELETE_BUCKET"
  | ListBuckets => Returns "LIST_BUCKETS"
  | SelectBucket => Returns "SELECT_BUCKET"
  | ObserveSeqno => Returns "OBSERVE_SEQNO"
  | Observe => Returns "OBSERVE"
  | EvictKey => Returns "EVICT_KEY"
  | GetLocked => Returns "GET_LOCKED"
  | UnlockKey => Returns "UNLOCK_KEY"
  | GetFailoverLog => Returns "GET_FAILOVER_LOG"
  | LastClosedCheckpoint => Returns "LAST_CLOSED_CHECKPOINT"
  | ResetReplicationChain => Returns "RESET_REPLICATION_CHAIN"
  | DeregisterTapClient => Returns "DEREGISTER_TAP_CLIENT"
  | GetMeta => Returns "GET_META"
  | GetqMeta => Returns "GETQ_META"
  | SetWithMeta => Returns "SET_WITH_META"
  | SetqWithMeta => Returns "SETQ_WITH_META"
  | AddWithMeta => Returns "ADD_WITH_META"
  | AddqWithMeta => Returns "ADDQ_WITH_META"
  | SnapshotVbStates => Returns "SNAPSHOT_VB_STATES"
  | VbucketBatchCount => Returns "VBUCKET_BATCH_COUNT"
  | DelWithMeta => Returns "DEL_WITH_META"
  | DelqWithMeta => Returns "DELQ_WITH_META"
  | CreateCheckpoint => Returns "CREATE_CHECKPOINT"
  | NotifyVbucketUpdate => Returns "NOTIFY_VBUCKET_UPDATE"
  | EnableTraffic => Returns "ENABLE_TRAFFIC"
  | DisableTraffic => Returns "DISABLE_TRAFFIC"
  | ChangeVbFilter => Returns "CHANGE_VB_FILTER"
  | CheckpointPersistence => Returns "CHECKPOINT_PERSISTENCE"
  | ReturnMeta => Returns "RETURN_META"
  | CompactDb => Returns "COMPACT_DB"
  | SetClusterConfig => Returns "SET_CLUSTER_CONFIG"
  | GetClusterConfig => Returns "GET_CLUSTER_CONFIG"
  | GetRandomKey => Returns "GET_RANDOM_KEY"
  | SeqnoPersistence => Returns "SEQNO_PERSISTENCE"
  | GetKeys => Returns "GET_KEYS"
  | CollectionsSetManifest => Returns "COLLECTIONS_SET_MANIFEST"
  | CollectionsGetManifest => Returns "COLLECTIONS_GET_MANIFEST"
  | CollectionsGetID => Returns "COLLECTIONS_GET_ID"
  | CollectionsGetScopeID => Returns "COLLECTIONS_GET_SCOPE_ID"
  | SetDriftCounterState => Returns "SET_DRIFT_COUNTER_STATE"
  | GetAdjustedTime => Returns "GET_ADJUSTED_TIME"
  | SubdocGet => Returns "SUBDOC_GET"
  | SubdocExists => Returns "SUBDOC_EXISTS"
  | SubdocDictAdd => Returns "SUBDOC_DICT_ADD"
  | SubdocDictUpsert => Returns "SUBDOC_DICT_UPSERT"
  | SubdocDelete => Returns "SUBDOC_DELETE"
  | SubdocReplace => Returns "SUBDOC_REPLACE"
  | SubdocArrayPushLast => Returns "SUBDOC_ARRAY_PUSH_LAST"
  | SubdocArrayPushFirst => Returns "SUBDOC_ARRAY_PUSH_FIRST"
  | SubdocArrayInsert => Returns "SUBDOC_ARRAY_INSERT"
  | SubdocArrayAddUnique => Returns "SUBDOC_ARRAY_ADD_UNIQUE"
  | SubdocCounter => Returns "SUBDOC_COUNTER"
  | SubdocMultiLookup => Returns "SUBDOC_MULTI_LOOKUP"
  | SubdocMultiMutation => Returns "SUBDOC_MULTI_MUTATION"
  | SubdocGetCount => Returns "SUBDOC_GET_COUNT"
  | Scrub => Returns "SCRUB"
  | IsaslRefresh => Returns "ISASL_REFRESH"
  | SslCertsRefresh => Returns "SSL_CERTS_REFRESH"
  | GetCmdTimer => Returns "GET_CMD_TIMER"
  | SetCtrlToken => Returns "SET_CTRL_TOKEN"
  | GetCtrlToken => Returns "GET_CTRL_TOKEN"
  | UpdateExternalUserPermissions => Returns "UPDATE_USER_PERMISSIONS"
  | RbacRefresh => Returns "RBAC_REFRESH"
  | AuthProvider => Returns "AUTH_PROVIDER"
  | DropPrivilege => Returns "DROP_PRIVILEGES"
  | AdjustTimeofday => Returns "ADJUST_TIMEOFDAY"
  | EwouldblockCtl => Returns "EWB_CTL"
  | GetErrorMap => Returns "GET_ERROR_MAP"
  | Invalid => invalid_argument
  end.

(** [cb::mcbp::isReorderSupported] *)
Definition isReorderSupported (opcode : ClientOpcode) : Returned bool :=
  match opcode with
  | Get | Getq | Getk | Getkq | GetLocked | UnlockKey | Touch | Gat | Gatq
  | SaslListMechs | Delete | Deleteq | IsaslRefresh | SslCertsRefresh
  | ListBuckets | GetMeta | GetqMeta | Verbosity | AuditPut | Increment
  | Decrement | Incrementq | Decrementq | IoctlGet | IoctlSet | ConfigValidate
  | ConfigReload | AuditConfigReload | Version | GetErrorMap | AuthProvider
  | RbacRefresh | EvictKey | GetCtrlToken | GetReplica | SetClusterConfig
  | GetClusterConfig | Add | Addq | Replace | Replaceq | Set_ | Setq | Append
  | Appendq | Prepend | Prependq | Scrub | AdjustTimeofday | GetCmdTimer
  | GetRandomKey | SetDriftCounterState | GetAdjustedTime
      => Returns true
  | GetVbucket | GetAllVbSeqnos | SetParam | ObserveSeqno | Observe
  | GetFailoverLog | LastClosedCheckpoint | ResetReplicationChain
  | DeregisterTapClient | SetWithMeta | SetqWithMeta | AddWithMeta
  | AddqWithMeta | SnapshotVbStates | VbucketBatchCount | DelWithMeta
  | DelqWithMeta | CreateCheckpoint | NotifyVbucketUpdate | ChangeVbFilter
  | CheckpointPersistence | ReturnMeta | CompactDb | SeqnoPersistence
  | GetKeys | CollectionsSetManifest | CollectionsGetManifest
  | CollectionsGetID | CollectionsGetScopeID | SubdocGet | SubdocExists
  | SubdocDictAdd | SubdocDictUpsert | SubdocDelete | SubdocReplace
  | SubdocArrayPushLast | SubdocArrayPushFirst | SubdocArrayInsert
  | SubdocArrayAddUnique | SubdocCounter | SubdocMultiLookup
  | SubdocMultiMutation | SubdocGetCount
      => Returns false
  | Quit | Quitq | Flush | Flushq | Noop | Hello | SaslAuth | SaslStep
  | Shutdown | SetVbucket | DelVbucket | StopPersistence | StartPersistence
  | CreateBucket | DeleteBucket | SelectBucket | EnableTraffic
  | DisableTraffic | DropPrivilege | SetCtrlToken | EwouldblockCtl | Stat
  | UpdateExternalUserPermissions
      => Returns false
  | DcpOpen | DcpAddStream | DcpCloseStream | DcpStreamReq | DcpGetFailoverLog
  | DcpStreamEnd | DcpSnapshotMarker | DcpMutation | DcpDeletion
  | DcpExpiration | DcpSetVbucketState | DcpNoop | DcpBufferAcknowledgement
  | DcpControl | DcpSystemEvent | DcpPrepare | DcpSeqnoAcknowledged
  | DcpCommit | DcpAbort
      => Returns false
  | Rget | Rset | Rsetq | Rappend | Rappendq | Rprepend | Rprependq | Rdelete
  | Rdeleteq | Rincr | Rincrq | Rdecr | Rdecrq | TapConnect | TapMutation
  | TapDelete | TapFlush | TapOpaque | TapVbucketSet | TapCheckpointStart
  | TapCheckpointEnd
      => Returns false
  | Invalid
      => invalid_argument
  end.

(** [::toupper] on a character, in the "C" locale: the letters a to z
    become A to Z and every other character is left as it is. *)
Definition toupper (c : ascii) : ascii :=
  let n := nat_of_ascii c in
  if ((97 <=? n) && (n <=? 122))%nat then ascii_of_nat (n - 32) else c.

(** [std::transform] over the characters of a string *)
Fixpoint transform (f : ascii -> ascii) (s : string) : string :=
  match s with
  | EmptyString => EmptyString
  | String c s' => String (f c) (transform f s')
  end.

(** [std::replace] *)
Definition replace (old new : ascii) (s : string) : string :=
  transform (fun c => if Ascii.eqb c old then new else c) s.

(** The first lines of [to_opcode]: the string in upper case, with '_'
    for every space. *)
Definition to_opcode_input (s : string) : string :=
  replace " "%char "_"%char (transform toupper s).

(** The enumerators, in the order of the inductive type. *)
Definition enumerators : list ClientOpcode :=
  [Get; Set_; Add; Replace; Delete; Increment; Decrement; Quit; Flush; Getq;
   Noop; Version; Getk; Getkq; Append; Prepend; Stat; Setq; Addq; Replaceq;
   Deleteq; Incrementq; Decrementq; Quitq; Flushq; Appendq; Prependq;
   Verbosity; Touch; Gat; Gatq; Hello; SaslListMechs; SaslAuth; SaslStep;
   IoctlGet; IoctlSet; ConfigValidate; ConfigReload; AuditPut;
   AuditConfigReload; Shutdown; Rget; Rset; Rsetq; Rappend; Rappendq;
   Rprepend; Rprependq; Rdelete; Rdeleteq; Rincr; Rincrq; Rdecr; Rdecrq;
   SetVbucket; GetVbucket; DelVbucket; TapConnect; TapMutation; TapDelete;
   TapFlush; TapOpaque; TapVbucketSet; TapCheckpointStart; TapCheckpointEnd;
   GetAllVbSeqnos; DcpOpen; DcpAddStream; DcpCloseStream; DcpStreamReq;
   DcpGetFailoverLog; DcpStreamEnd; DcpSnapshotMarker; DcpMutation;
   DcpDeletion; DcpExpiration; DcpSetVbucketState; DcpNoop;
   DcpBufferAcknowledgement; DcpControl; DcpSystemEvent; DcpPrepare;
   DcpSeqnoAcknowledged; DcpCommit; DcpAbort; StopPersistence;
   StartPersistence; SetParam; GetReplica; CreateBucket; DeleteBucket;
   ListBuckets; SelectBucket; ObserveSeqno; Observe; EvictKey; GetLocked;
   UnlockKey; GetFailoverLog; LastClosedCheckpoint; ResetReplicationChain;
   DeregisterTapClient; GetMeta; GetqMeta; SetWithMeta; SetqWithMeta;
   AddWithMeta; AddqWithMeta; SnapshotVbStates; VbucketBatchCount;
   DelWithMeta; DelqWithMeta; CreateCheckpoint; NotifyVbucketUpdate;
   EnableTraffic; DisableTraffic; ChangeVbFilter; CheckpointPersistence;
   ReturnMeta; CompactDb; SetClusterConfig; GetClusterConfig; GetRandomKey;
   SeqnoPersistence; GetKeys; CollectionsSetManifest; CollectionsGetManifest;
   CollectionsGetID; CollectionsGetScopeID; SetDriftCounterState;
   GetAdjustedTime; SubdocGet; SubdocExists; SubdocDictAdd; SubdocDictUpsert;
   SubdocDelete; SubdocReplace; SubdocArrayPushLast; SubdocArrayPushFirst;
   SubdocArrayInsert; SubdocArrayAddUnique; SubdocCounter; SubdocMultiLookup;
   SubdocMultiMutation; SubdocGetCount; Scrub; IsaslRefresh; SslCertsRefresh;
   GetCmdTimer; SetCtrlToken; GetCtrlToken; UpdateExternalUserPermissions;
   RbacRefresh; AuthProvider; DropPrivilege; AdjustTimeofday; EwouldblockCtl;
   GetErrorMap; Invalid].

Section ToOpcode.

(** The values of the enumerators; opcode.h, which gives them, is not
    among the sources. *)
Variable value : ClientOpcode -> Z.

(** [cb::mcbp::ClientOpcode(ii)]: the enumerator with the value [ii]; for
    a value that no enumerator has the switches take no case, so that
    [to_string] throws. *)
Definition from_int (ii : Z) : option ClientOpcode :=
  List.find (fun op => Z.eqb (value op) ii) enumerators.

(** The loop of [to_opcode], from [ii] on with [n] rounds to go;
    [std::invalid_argument] of [to_string] is caught and ignored. *)
Fixpoint to_opcode_loop (input : string) (ii : Z) (n : nat)
  : Returned ClientOpcode :=
  match n with
  | O => invalid_argument
  | S n' =>
      match from_int ii with
      | Some op =>
          match to_string op with
          | Returns str =>
              if String.eqb str input then Returns op
              else to_opcode_loop input (ii + 1) n'
          | invalid_argument => to_opcode_loop input (ii + 1) n'
          end
      | None => to_opcode_loop input (ii + 1) n'
      end
  end.

(** [to_opcode] *)
Definition to_opcode (s : string) : Returned ClientOpcode :=
  to_opcode_loop (to_opcode_input s) 0 (Z.to_nat (value Invalid)).

End ToOpcode.

(** The place of an enumerator in [enumerators]. *)
Definition position (opcode : ClientOpcode) : nat :=
  match opcode with
  | Get => 0 | Set_ => 1 | Add => 2 | Replace => 3 | Delete => 4
  | Increment => 5 | Decrement => 6 | Quit => 7 | Flush => 8 | Getq => 9
  | Noop => 10 | Version => 11 | Getk => 12 | Getkq => 13 | Append => 14
  | Prepend => 15 | Stat => 16 | Setq => 17 | Addq => 18 | Replaceq => 19
  | Deleteq => 20 | Incrementq => 21 | Decrementq => 22 | Quitq => 23
  | Flushq => 24 | Appendq => 25 | Prependq => 26 | Verbosity => 27
  | Touch => 28 | Gat => 29 | Gatq => 30 | Hello => 31 | SaslListMechs => 32
  | SaslAuth => 33 | SaslStep => 34 | IoctlGet => 35 | IoctlSet => 36
  | ConfigValidate => 37 | ConfigReload => 38 | AuditPut => 39
  | AuditConfigReload => 40 | Shutdown => 41 | Rget => 42 | Rset => 43
  | Rsetq => 44 | Rappend => 45 | Rappendq => 46 | Rprepend => 47
  | Rprependq => 48 | Rdelete => 49 | Rdeleteq => 50 | Rincr => 51
  | Rincrq => 52 | Rdecr => 53 | Rdecrq => 54 | SetVbucket => 55
  | GetVbucket => 56 | DelVbucket => 57 | TapConnect => 58
  | TapMutation => 59 | TapDelete => 60 | TapFlush => 61 | TapOpaque => 62
  | TapVbucketSet => 63 | TapCheckpointStart => 64 | TapCheckpointEnd => 65
  | GetAllVbSeqnos => 66 | DcpOpen => 67 | DcpAddStream => 68
  | DcpCloseStream => 69 | DcpStreamReq => 70 | DcpGetFailoverLog => 71
  | DcpStreamEnd => 72 | DcpSnapshotMarker => 73 | DcpMutation => 74
  | DcpDeletion => 75 | DcpExpiration => 76 | DcpSetVbucketState => 77
  | DcpNoop => 78 | DcpBufferAcknowledgement => 79 | DcpControl => 80
  | DcpSystemEvent => 81 | DcpPrepare => 82 | DcpSeqnoAcknowledged => 83
  | DcpCommit => 84 | DcpAbort => 85 | StopPersistence => 86
  | StartPersistence => 87 | SetParam => 88 | GetReplica => 89
  | CreateBucket => 90 | DeleteBucket => 91 | ListBuckets => 92
  | SelectBucket => 93 | ObserveSeqno => 94 | Observe => 95 | EvictKey => 96
  | GetLocked => 97 | UnlockKey => 98 | GetFailoverLog => 99
  | LastClosedCheckpoint => 100 | ResetReplicationChain => 101
  | DeregisterTapClient => 102 | GetMeta => 103 | GetqMeta => 104
  | SetWithMeta => 105 | SetqWithMeta => 106 | AddWithMeta => 107
  | AddqWithMeta => 108 | SnapshotVbStates => 109 | VbucketBatchCount => 110
  | DelWithMeta => 111 | DelqWithMeta => 112 | CreateCheckpoint => 113
  | NotifyVbucketUpdate => 114 | EnableTraffic => 115 | DisableTraffic => 116
  | ChangeVbFilter => 117 | CheckpointPersistence => 118 | ReturnMeta => 119
  | CompactDb => 120 | SetClusterConfig => 121 | GetClusterConfig => 122
  | GetRandomKey => 123 | SeqnoPersistence => 124 | GetKeys => 125
  | CollectionsSetManifest => 126 | CollectionsGetManifest => 127
  | CollectionsGetID => 128 | CollectionsGetScopeID => 129
  | SetDriftCounterState => 130 | GetAdjustedTime => 131 | SubdocGet => 132
  | SubdocExists => 133 | SubdocDictAdd => 134 | SubdocDictUpsert => 135
  | SubdocDelete => 136 | SubdocReplace => 137 | SubdocArrayPushLast => 138
  | SubdocArrayPushFirst => 139 | SubdocArrayInsert => 140
  | SubdocArrayAddUnique => 141 | SubdocCounter => 142
  | SubdocMultiLookup => 143 | SubdocMultiMutation => 144
  | SubdocGetCount => 145 | Scrub => 146 | IsaslRefresh => 147
  | SslCertsRefresh => 148 | GetCmdTimer => 149 | SetCtrlToken => 150
  | GetCtrlToken => 151 | UpdateExternalUserPermissions => 152
  | RbacRefresh => 153 | AuthProvider => 154 | DropPrivilege => 155
  | AdjustTimeofday => 156 | EwouldblockCtl => 157 | GetErrorMap => 158
  | Invalid => 159
  end.

(** A numbering of the enumerators: their places, [Invalid] last. *)
Definition place_value (opcode : ClientOpcode) : Z := Z.of_nat (position opcode).

(** Whether two enumerators with the same name are the same. *)
Definition names_differ : bool :=
  forallb
    (fun a =>
       forallb
         (fun b =>
            match to_string a, to_string b with
            | Returns x, Returns y =>
                implb (String.eqb x y) (Nat.eqb (position a) (position b))
            | _, _ => true
            end)
         enumerators)
    enumerators.

End Opcode.

(** ** Sending what is queued (connection_mcbp.cc) *)

Module Transmit.

Inductive TransmitResult : Type :=
| Complete
| Incomplete
| SoftError
| HardError.

(** What the calls that leave the connection answer during one
    [transmit]; each is made at most once, [ssl.morePendingOutput()]
    once before and once after the data is written. *)
Record Answers : Type := mkAnswers {
  morePendingOutput_before : bool;
  morePendingOutput_after : bool;
  hasError : bool;
  updateEvent : bool;
  (** the [int] that [::sendmsg] gives or, with SSL, the writes of
      [McbpConnection::sendmsg] add up to *)
  sendmsg_result : Z;
  (** [is_blocking(GetLastNetworkError())] *)
  is_blocking : bool
}.

(** The scatter/gather lists, whether SSL is enabled, the counters
    [totalSend] and [bytes_written] (as integers), whether the state was
    set to [conn_closing] and whether the write buffer was cleared. *)
Record t : Type := mk {
  vectors : IoVectors.t;
  ssl_isEnabled : bool;
  totalSend : Z;
  bytes_written : Z;
  closing : bool;
  write_cleared : bool
}.

(** A read or a write through [msg_iov] can leave the vector [iov]. *)
Inductive Outcome (A : Type) : Type :=
| Returns (a : A)
| OutsideIov.
Arguments Returns {A} a.
Arguments OutsideIov {A}.

Definition set_vectors (v : IoVectors.t) (s : t) : t :=
  mk v (ssl_isEnabled s) (totalSend s) (bytes_written s) (closing s)
    (write_cleared s).

(** [setState(conn_closing)] *)
Definition setState_closing (s : t) : t :=
  mk (vectors s) (ssl_isEnabled s) (totalSend s) (bytes_written s) true
    (write_cleared s).

(** [write->clear()] *)
Definition write_clear (s : t) : t :=
  mk (vectors s) (ssl_isEnabled s) (totalSend s) (bytes_written s)
    (closing s) true.

(** [McbpConnection::sendmsg]; the writes through SSL are
    [sendmsg_result]. *)
Definition sendmsg (a : Answers) (s : t) : Z * t :=
  let res := sendmsg_result a in
  if ssl_isEnabled s then (res, s)
  else if res >? 0 then
    (res,
     mk (vectors s) (ssl_isEnabled s) (totalSend s + res) (bytes_written s)
       (closing s) (write_cleared s))
  else (res, s).

(** The first loop of [transmit] on the messages from [msgcurr] on:
    finished messages are passed by. *)
Fixpoint skip_finished (msgs : list IoVectors.msghdr) (msgcurr : nat) : nat :=
  match msgs with
  | [] => msgcurr
  | m :: rest =>
      if (IoVectors.msg_iovlen m =? 0)%nat then skip_finished rest (S msgcurr)
      else msgcurr
  end.

(** The loop that takes the entries written in full from the message:
    [msg_iov], [msg_iovlen] and [res] when it ends. *)
Fixpoint remove_completed (iov : list (Z * Z)) (msg_iov msg_iovlen : nat)
    (res : Z) : Outcome (nat * nat * Z) :=
  match msg_iovlen with
  | O => Returns (msg_iov, O, res)
  | S n =>
      match nth_error iov msg_iov with
      | None => OutsideIov
      | Some (_, iov_len) =>
          if res >=? iov_len then
            remove_completed iov (S msg_iov) n (res - iov_len)
          else Returns (msg_iov, msg_iovlen, res)
      end
  end.

(** The two answers of [transmit] where SSL has output pending or the
    socket would block. *)
Definition wait_for_write (a : Answers) (check_error : bool) (s : t)
  : Outcome (TransmitResult * t) :=
  if (check_error && hasError a) || negb (updateEvent a) then
    Returns (HardError, setState_closing s)
  else Returns (SoftError, s).

(** [McbpConnection::transmit], after the SSL pipe was drained. *)
Definition transmit_data (a : Answers) (s : t) : Outcome (TransmitResult * t) :=
  let v := vectors s in
  let msgcurr :=
    skip_finished (skipn (IoVectors.msgcurr v) (IoVectors.msglist v))
      (IoVectors.msgcurr v) in
  let with_msgcurr (n : nat) (iov : list (Z * Z))
      (msglist : list IoVectors.msghdr) :=
    IoVectors.mk iov (IoVectors.iovused v) msglist n (IoVectors.msgbytes v) in
  match nth_error (IoVectors.msglist v) msgcurr with
  | Some m =>
      let '(res, s) := sendmsg a s in
      if res >? 0 then
        let s :=
          mk (vectors s) (ssl_isEnabled s) (totalSend s) (bytes_written s + res)
            (closing s) (write_cleared s) in
        match remove_completed (IoVectors.iov v) (IoVectors.msg_iov m)
                (IoVectors.msg_iovlen m) res with
        | OutsideIov => OutsideIov
        | Returns (msg_iov, msg_iovlen, res) =>
            let msglist :=
              IoVectors.assign msgcurr (IoVectors.mk_msghdr msg_iov msg_iovlen)
                (IoVectors.msglist v) in
            match nth_error (IoVectors.iov v) msg_iov with
            | None => OutsideIov
            | Some (iov_base, iov_len) =>
                let '(iov, iov_len) :=
                  if res >? 0 then
                    (IoVectors.assign msg_iov
                       (iov_base + res, size_t (iov_len - res))
                       (IoVectors.iov v),
                     size_t (iov_len - res))
                  else (IoVectors.iov v, iov_len) in
                if iov_len =? 0 then
                  let msgcurr := S msgcurr in
                  let s := set_vectors (with_msgcurr msgcurr iov msglist) s in
                  if (msgcurr =? List.length msglist)%nat then
                    if ssl_isEnabled s && morePendingOutput_after a then
                      wait_for_write a true s
                    else Returns (Complete, write_clear s)
                  else Returns (Incomplete, s)
                else
                  Returns
                    (Incomplete,
                     set_vectors (with_msgcurr msgcurr iov msglist) s)
            end
        end
      else
        let s :=
          set_vectors
            (with_msgcurr msgcurr (IoVectors.iov v) (IoVectors.msglist v)) s in
        if (res =? -1) && is_blocking a then wait_for_write a false s
        else Returns (HardError, setState_closing s)
  | None =>
      Returns
        (Complete,
         write_clear
           (set_vectors
              (with_msgcurr msgcurr (IoVectors.iov v) (IoVectors.msglist v)) s))
  end.

(** [McbpConnection::transmit] *)
Definition transmit (a : Answers) (s : t) : Outcome (TransmitResult * t) :=
  if ssl_isEnabled s && morePendingOutput_before a then wait_for_write a true s
  else transmit_data a s.

End Transmit.

(** The addresses of the bytes of a region, in order. *)
Definition region_bytes (e : Z * Z) : list Z :=
  map (fun i => fst e + Z.of_nat i) (seq 0 (Z.to_nat (snd e))).

(** The addresses of the bytes of a list of regions. *)
Definition regions_bytes (es : list (Z * Z)) : list Z :=
  List.concat (map region_bytes es).

(** The bytes a message holds. *)
Definition message_bytes (v : IoVectors.t) (m : IoVectors.msghdr) : list Z :=
  regions_bytes (IoVectors.entries v m).

(** The entries of the messages from [msgcurr] on, and their bytes:
    what is still to be sent. *)
Definition pending_entries (v : IoVectors.t) : list (Z * Z) :=
  List.concat
    (map (IoVectors.entries v)
       (skipn (IoVectors.msgcurr v) (IoVectors.msglist v))).

Definition pending_bytes (v : IoVectors.t) : list Z :=
  regions_bytes (pending_entries v).

(** The messages lie in the vector one behind the other, from [off] on
    and inside the first [bound] entries. *)
Fixpoint in_order (off : nat) (msgs : list IoVectors.msghdr) (bound : nat)
  : Prop :=
  match msgs with
  | [] => (off <= bound)%nat
  | m :: rest =>
      (off <= IoVectors.msg_iov m)%nat /\
      in_order (IoVectors.msg_iov m + IoVectors.msg_iovlen m) rest bound
  end.

(** The lists as [transmit] needs them: the messages still to be sent lie
    in order inside [iov], and their regions have a length that is not
    zero and fits [size_t]. *)
Definition sendable (v : IoVectors.t) : Prop :=
  in_order 0 (skipn (IoVectors.msgcurr v) (IoVectors.msglist v))
    (List.length (IoVectors.iov v)) /\
  Forall (fun e => 0 < snd e < 2 ^ 64) (pending_entries v).

(** The message [transmit] hands to [sendmsg], if one is left. *)
Definition current_message (v : IoVectors.t) : option IoVectors.msghdr :=
  nth_error (IoVectors.msglist v)
    (Transmit.skip_finished
       (skipn (IoVectors.msgcurr v) (IoVectors.msglist v))
       (IoVectors.msgcurr v)).

(** ** The event of a connection in libevent (connection_mcbp.cc) *)

Module Event.

(** The calls made to libevent. *)
Inductive Call : Type :=
| event_del
| event_add (timeout : option Z)
| event_assign (flags : Z)
| event_active (flags : Z).

(** What the settings, the connection and SSL answer while the event is
    changed. *)
Record Env : Type := mkEnv {
  getConnectionIdleTime : Z;
  isInternal : bool;
  isDCP : bool;
  ssl_isEnabled : bool;
  ssl_isConnected : bool;
  ssl_havePendingInputData : bool
}.

(** The members of the connection the functions use, the calls made to
    libevent, oldest first and each with whether it succeeded, the
    outcomes of the calls to come ([false] for -1; a call that finds
    none succeeds), and whether [setState(conn_closing)] was called. *)
Record t : Type := mk {
  registered_in_libevent : bool;
  ev_flags : Z;
  ev_timeout_enabled : bool;
  ev_timeout : Z;
  ev_insert_time : Z;
  socket_is_valid : bool;
  calls : list (Call * bool);
  results : list bool;
  closing : bool
}.

(** The functions return, or [cb_assert] ends the process. *)
Inductive Outcome (A : Type) : Type :=
| Returns (a : A)
| AssertionFailed.
Arguments Returns {A} a.
Arguments AssertionFailed {A}.

(** A call of libevent that can fail. *)
Definition libevent (c : Call) (s : t) : bool * t :=
  let ok := hd true (results s) in
  (ok,
   mk (registered_in_libevent s) (ev_flags s) (ev_timeout_enabled s)
     (ev_timeout s) (ev_insert_time s) (socket_is_valid s)
     (calls s ++ [(c, ok)]) (tl (results s)) (closing s)).

(** [event_active], which returns nothing. *)
Definition libevent_active (flags : Z) (s : t) : t :=
  mk (registered_in_libevent s) (ev_flags s) (ev_timeout_enabled s)
    (ev_timeout s) (ev_insert_time s) (socket_is_valid s)
    (calls s ++ [(event_active flags, true)]) (results s) (closing s).

(** [setState(conn_closing)] *)
Definition setState_closing (s : t) : t :=
  mk (registered_in_libevent s) (ev_flags s) (ev_timeout_enabled s)
    (ev_timeout s) (ev_insert_time s) (socket_is_valid s) (calls s)
    (results s) true.

(** The conversion of an integer to [int]. *)
Definition int32 (z : Z) : Z := (z + 2 ^ 31) mod 2 ^ 32 - 2 ^ 31.

Definition set_registered_in_libevent (b : bool) (s : t) : t :=
  mk b (ev_flags s) (ev_timeout_enabled s) (ev_timeout s) (ev_insert_time s)
    (socket_is_valid s) (calls s) (results s) (closing s).

Definition set_ev_flags (flags : Z) (s : t) : t :=
  mk (registered_in_libevent s) flags (ev_timeout_enabled s) (ev_timeout s)
    (ev_insert_time s) (socket_is_valid s) (calls s) (results s) (closing s).

(** [McbpConnection::unregisterEvent] *)
Definition unregisterEvent (s : t) : Outcome (bool * t) :=
  if negb (registered_in_libevent s) then Returns (false, s)
  else if negb (socket_is_valid s) then AssertionFailed
  else
    let '(ok, s) := libevent event_del s in
    if negb ok then Returns (false, s)
    else Returns (true, set_registered_in_libevent false s).

(** [McbpConnection::registerEvent]; [now] is what
    [mc_time_get_current_time()] gives. *)
Definition registerEvent (env : Env) (now : Z) (s : t) : bool * t :=
  if registered_in_libevent s then (false, s)
  else
    let no_timeout :=
      (getConnectionIdleTime env =? 0) || isInternal env || isDCP env in
    let tp := if no_timeout then None else Some (getConnectionIdleTime env) in
    let s :=
      mk (registered_in_libevent s) (ev_flags s) (negb no_timeout)
        (if no_timeout then ev_timeout s else getConnectionIdleTime env)
        now (socket_is_valid s) (calls s) (results s) (closing s) in
    let '(ok, s) := libevent (event_add tp) s in
    if negb ok then (false, s)
    else (true, set_registered_in_libevent true s).

Section UpdateEvent.

(** [EV_READ], [EV_WRITE] and [EV_PERSIST] of libevent. *)
Variables EV_READ EV_WRITE EV_PERSIST : Z.

(** [McbpConnection::updateEvent]; [now] is the time the function reads
    and [now_insert] the time [registerEvent] reads after it.  The sum
    of the times is taken in [rel_time_t], which has 32 bits, and
    [reinsert_time] is an [int]. *)
Definition updateEvent (env : Env) (new_flags now now_insert : Z) (s : t)
  : Outcome (bool * t) :=
  if ssl_isEnabled env && ssl_isConnected env
     && negb (Z.land new_flags EV_READ =? 0)
     && ssl_havePendingInputData env
  then Returns (true, libevent_active EV_READ s)
  else
    let reinsert_time := int32 (getConnectionIdleTime env / 2) in
    if (ev_flags s =? new_flags)
       && negb (ev_timeout_enabled s && (isInternal env || isDCP env))
       && (uint32 (ev_insert_time s + reinsert_time) >? now)
    then Returns (true, s)
    else
      match unregisterEvent s with
      | AssertionFailed => AssertionFailed
      | Returns (false, s) => Returns (false, s)
      | Returns (true, s) =>
          let '(ok, s) := libevent (event_assign new_flags) s in
          if negb ok then Returns (false, s)
          else Returns (registerEvent env now_insert (set_ev_flags new_flags s))
      end.

(** [McbpConnection::initializeEvent] *)
Definition initializeEvent (env : Env) (now : Z) (s : t) : bool * t :=
  let event_flags := Z.lor EV_READ EV_PERSIST in
  let '(ok, s) := libevent (event_assign event_flags) s in
  if negb ok then (false, s)
  else registerEvent env now (set_ev_flags event_flags s).

(** [McbpConnection::signalIfIdle], but for the line it logs for a busy
    connection; [state] is what [getState()] gives. *)
Definition signalIfIdle (env : Env) (isEwouldblock : bool) (state : State)
    (now now_insert : Z) (s : t) : Outcome t :=
  let idle :=
    match state with
    | read_packet_header | read_packet_body | waiting | new_cmd | ship_log
    | send_data => true
    | _ => false
    end in
  if negb isEwouldblock && idle then
    let flags := Z.lor (Z.lor EV_READ EV_WRITE) EV_PERSIST in
    if negb (registered_in_libevent s) then
      let '(ok, s) := registerEvent env now_insert (set_ev_flags flags s) in
      let s := if negb ok then setState_closing s else s in
      Returns (libevent_active EV_WRITE s)
    else
      match updateEvent env flags now now_insert s with
      | AssertionFailed => AssertionFailed
      | Returns (ok, s) =>
          let s := if negb ok then setState_closing s else s in
          Returns (libevent_active EV_WRITE s)
      end
  else Returns s.

End UpdateEvent.

End Event.

(** The calls of a connection that change its event. *)
Inductive EventOp : Type :=
| RegisterEvent (now : Z)
| UnregisterEvent
| UpdateEvent (new_flags now now_insert : Z)
| SignalIfIdle (isEwouldblock : bool) (state : State) (now now_insert : Z).

(** A series of such calls, each with what the settings, the connection
    and SSL answer at the time. *)
Fixpoint run_event_ops (EV_READ EV_WRITE EV_PERSIST : Z)
    (ops : list (Event.Env * EventOp)) (s : Event.t) : Event.Outcome Event.t :=
  match ops with
  | [] => Event.Returns s
  | (env, op) :: rest =>
      let next :=
        match op with
        | RegisterEvent now =>
            Event.Returns (snd (Event.registerEvent env now s))
        | UnregisterEvent =>
            match Event.unregisterEvent s with
            | Event.Returns (_, s) => Event.Returns s
            | Event.AssertionFailed => Event.AssertionFailed
            end
        | UpdateEvent new_flags now now_insert =>
            match Event.updateEvent EV_READ env new_flags now now_insert s with
            | Event.Returns (_, s) => Event.Returns s
            | Event.AssertionFailed => Event.AssertionFailed
            end
        | SignalIfIdle isEwouldblock state now now_insert =>
            Event.signalIfIdle EV_READ EV_WRITE EV_PERSIST env isEwouldblock
              state now now_insert s
        end in
      match next with
      | Event.Returns s => run_event_ops EV_READ EV_WRITE EV_PERSIST rest s
      | Event.AssertionFailed => Event.AssertionFailed
      end
  end.

(** Whether the event is added in libevent after the calls: the last
    [event_add] or [event_del] that succeeded decides. *)
Fixpoint event_is_added (before : bool) (calls : list (Event.Call * bool))
  : bool :=
  match calls with
  | [] => before
  | (Event.event_add _, true) :: rest => event_is_added true rest
  | (Event.event_del, true) :: rest => event_is_added false rest
  | _ :: rest => event_is_added before rest
  end.

(** The calls come in turn: [event_add] and [event_assign] only for an
    event that is not added, [event_del] only for one that is. *)
Fixpoint calls_in_turn (added : bool) (calls : list (Event.Call * bool))
  : bool :=
  match calls with
  | [] => true
  | (c, ok) :: rest =>
      match c with
      | Event.event_add _ =>
          negb added && calls_in_turn (if ok then true else added) rest
      | Event.event_del =>
          added && calls_in_turn (if ok then false else added) rest
      | Event.event_assign _ => negb added && calls_in_turn added rest
      | Event.event_active _ => calls_in_turn added rest
      end
  end.

(** What a call, or a series of calls, does to the event. *)
Definition event_step (s s' : Event.t) : Prop :=
  exists new,
    Event.calls s' = Event.calls s ++ new /\
    calls_in_turn (Event.registered_in_libevent s) new = true /\
    Event.registered_in_libevent s'
    = event_is_added (Event.registered_in_libevent s) new /\
    Event.socket_is_valid s' = Event.socket_is_valid s.


(** The last of the calls failed. *)
Definition last_failed (calls : list (Event.Call * bool)) : bool :=
  match rev calls with
  | (_, false) :: _ => true
  | _ => false
  end.
(** ** Notifications of completed IO (thread.cc) *)

Module NotifyIo.

(** A cookie, as far as [notify_io_complete] reads it. *)
Record CookieRef : Type := mkCookieRef {
  connection : option Z
}.

(** What is fixed about the connections while a thread runs: whether
    [getThread()] gives the thread, whether the connection is a
    [McbpConnection], whether it has a socket, and what
    [run_event_loop], which runs the state machine of the connection,
    leaves of the members of the connection that are kept here: for the
    number of the call and the connection, its [aiostat], [numEvents]
    and libevent flag after the call, given those before it. *)
Record Connections : Type := mkConnections {
  getThread : Z -> bool;
  is_mcbp : Z -> bool;
  has_socket : Z -> bool;
  run_event_loop :
    nat -> Z -> ENGINE_ERROR_CODE * Z * bool -> ENGINE_ERROR_CODE * Z * bool
}.

(** The thread and its connections: the [next] pointers, [pending_io],
    the [aiostat], [numEvents] and the libevent flag of every
    connection, how often [notify_thread] was called, the outcomes of
    the next calls of [registerEvent], and the connections
    [run_event_loop] was called for, oldest first, each with its
    [aiostat] and its [numEvents] at the time of the call. *)
Record t : Type := mk {
  links : PendingIoList.Links;
  pending_io : option Z;
  aiostat : Z -> ENGINE_ERROR_CODE;
  numEvents : Z -> Z;
  isRegisteredInLibevent : Z -> bool;
  registerEvent_results : list bool;
  notify_thread_calls : nat;
  run_event_loop_calls : list (Z * (ENGINE_ERROR_CODE * Z))
}.

Inductive Outcome (A : Type) : Type :=
| Returns (a : A)
| logic_error
| runtime_error
| AssertionFailed
| OutOfFuel.
Arguments Returns {A} a.
Arguments logic_error {A}.
Arguments runtime_error {A}.
Arguments AssertionFailed {A}.
Arguments OutOfFuel {A}.

(** [f] changed at [c]. *)
Definition update {A : Type} (c : Z) (a : A) (f : Z -> A) : Z -> A :=
  fun x => if x =? c then a else f x.

(** [notify_io_complete]; [cookie->validate()] is not modelled. *)
Definition notify_io_complete (conns : Connections) (fuel : nat)
    (void_cookie : option CookieRef) (status : ENGINE_ERROR_CODE) (s : t)
  : Outcome t :=
  match void_cookie with
  | None => logic_error
  | Some cookie =>
      match connection cookie with
      | None => logic_error
      | Some c =>
          if negb (getThread conns c) then runtime_error
          else
            let aiostat := update c status (aiostat s) in
            match PendingIoList.add_conn_to_pending_io_list fuel c (links s)
                    (pending_io s) with
            | PendingIoList.OutOfFuel => OutOfFuel
            | PendingIoList.AssertionFailed => AssertionFailed
            | PendingIoList.Finished (notify, pending_io, links) =>
                Returns
                  (mk links pending_io aiostat (numEvents s)
                     (isRegisteredInLibevent s) (registerEvent_results s)
                     (if notify =? 0 then notify_thread_calls s
                      else S (notify_thread_calls s))
                     (run_event_loop_calls s))
            end
      end
  end.

(** The loop of [thread_libevent_process] over the pending connections;
    [registerEvent] sets the flag when it succeeds. *)
Fixpoint run_pending (conns : Connections) (fuel : nat) (pending : option Z)
    (s : t) : Outcome t :=
  match pending with
  | None => Returns s
  | Some c =>
      match fuel with
      | O => OutOfFuel
      | S fuel' =>
          if negb (getThread conns c) then AssertionFailed
          else
            let pending := links s c in
            let links := PendingIoList.setNext c None (links s) in
            let register :=
              is_mcbp conns c && has_socket conns c
              && negb (isRegisteredInLibevent s c) in
            let registered :=
              if register && hd true (registerEvent_results s)
              then update c true (isRegisteredInLibevent s)
              else isRegisteredInLibevent s in
            let results :=
              if register then tl (registerEvent_results s)
              else registerEvent_results s in
            let numEvents :=
              if is_mcbp conns c then update c 1 (numEvents s)
              else numEvents s in
            let '(status, events, flag) :=
              run_event_loop conns (List.length (run_event_loop_calls s)) c
                (aiostat s c, numEvents c, registered c) in
            run_pending conns fuel' pending
              (mk links (pending_io s) (update c status (aiostat s))
                 (update c events numEvents) (update c flag registered)
                 results (notify_thread_calls s)
                 (run_event_loop_calls s ++ [(c, (aiostat s c, numEvents c))]))
      end
  end.

(** The part of [thread_libevent_process] that takes the pending list
    and runs the loop. *)
Definition process_pending (conns : Connections) (fuel : nat) (s : t)
  : Outcome t :=
  run_pending conns fuel (pending_io s)
    (mk (links s) None (aiostat s) (numEvents s) (isRegisteredInLibevent s)
       (registerEvent_results s) (notify_thread_calls s)
       (run_event_loop_calls s)).

(** A series of notifications. *)
Fixpoint notify_all (conns : Connections) (fuel : nat)
    (notifications : list (Z * ENGINE_ERROR_CODE)) (s : t) : Outcome t :=
  match notifications with
  | [] => Returns s
  | (c, status) :: rest =>
      match notify_io_complete conns fuel (Some (mkCookieRef (Some c)))
              status s with
      | Returns s => notify_all conns fuel rest s
      | failed => failed
      end
  end.

End NotifyIo.

(** The call of [run_event_loop] that is logged for a connection with
    these [aiostat] and [numEvents] before the loop over the pending
    connections. *)
Definition loop_call (conns : NotifyIo.Connections)
    (aiostat : Z -> ENGINE_ERROR_CODE) (numEvents : Z -> Z) (c : Z)
  : Z * (ENGINE_ERROR_CODE * Z) :=
  (c, (aiostat c, if NotifyIo.is_mcbp conns c then 1 else numEvents c)).

(** ** Reading a command of the binary protocol (mcbp_executors.cc) *)

Module ReadCommand.

(** [binary_header], with the fields in host order but [opaque], which
    is kept as it came. *)
Record Header : Type := mkHeader {
  magic : Z;
  opcode : Z;
  keylen : Z;
  extlen : Z;
  datatype : Z;
  vbucket : Z;
  bodylen : Z;
  opaque : list Z;
  cas : Z
}.

(** The number that bytes in network order stand for. *)
Definition network_order (bytes : list Z) : Z :=
  fold_left (fun n b => n * 256 + b) bytes 0.

(** The header at the start of [bytes], as [try_read_mcbp_command] takes
    it over. *)
Definition read_header (bytes : list Z) : Header :=
  mkHeader (nth 0 bytes 0) (nth 1 bytes 0)
    (network_order (firstn 2 (skipn 2 bytes)))
    (nth 4 bytes 0) (nth 5 bytes 0)
    (network_order (firstn 2 (skipn 6 bytes)))
    (network_order (firstn 4 (skipn 8 bytes)))
    (firstn 4 (skipn 12 bytes))
    (network_order (firstn 8 (skipn 16 bytes))).

(** [sizeof(protocol_binary_request_header)] *)
Definition header_size : Z := 24.

(** What [mcbp_write_packet] is called with here. *)
Inductive Response : Type :=
| RESPONSE_NOT_INITIALIZED
| RESPONSE_AUTH_ERROR
| RESPONSE_EINVAL.

(** What the settings, the server and the connection answer. *)
Record Env : Type := mkEnv {
  isRequireSasl : bool;
  getMaxPacketSize : Z;
  is_server_initialized : bool;
  isInternal : bool;
  isAuthenticated : bool;
  isDatatypeEnabled : Z -> bool;
  response_handlers : Z -> bool;
  gethrtime : Z;
  (** the size of [c->write->wdata()] *)
  wbuf_size : Z
}.

(** The read buffer ([read.curr - read.buf], the [read.bytes] bytes at
    [read.curr], and [read.size]), the outcomes of the next calls of
    [cb_realloc], and the members of the connection that are set: the
    header, [cmd], [cas], [rlbytes], [start], [noreply], whether the
    engine of the bucket is set, how often [addMsgHdr(true)] was called,
    the statuses of the responses [mcbp_write_packet] wrote,
    [write_and_go] when it was set, and the state last handed to
    [setState]. *)
Record t : Type := mk {
  read_curr : Z;
  read_bytes : list Z;
  read_size : Z;
  realloc_results : list bool;
  binary_header : Header;
  cmd : Z;
  cas_ : Z;
  rlbytes : Z;
  start : Z;
  noreply : bool;
  bucketEngine_set : bool;
  addMsgHdr_calls : nat;
  written : list Response;
  write_and_go : option State;
  state : State
}.

Inductive Outcome (A : Type) : Type :=
| Returns (a : A)
| logic_error (what : string)
| AssertionFailed
| OutOfFuel.
Arguments Returns {A} a.
Arguments logic_error {A} what.
Arguments AssertionFailed {A}.
Arguments OutOfFuel {A}.

Definition setState (next : State) (s : t) : t :=
  mk (read_curr s) (read_bytes s) (read_size s) (realloc_results s)
    (binary_header s) (cmd s) (cas_ s) (rlbytes s) (start s) (noreply s)
    (bucketEngine_set s) (addMsgHdr_calls s) (written s) (write_and_go s) next.

Definition setWriteAndGo (next : State) (s : t) : t :=
  mk (read_curr s) (read_bytes s) (read_size s) (realloc_results s)
    (binary_header s) (cmd s) (cas_ s) (rlbytes s) (start s) (noreply s)
    (bucketEngine_set s) (addMsgHdr_calls s) (written s) (Some next) (state s).

(** [mcbp_add_header] (mcbp.cc), of which the call of [addMsgHdr(true)],
    the exception for a write buffer without room for a header and the
    status of the header written are kept. *)
Definition mcbp_add_header (env : Env) (err : Response) (s : t) : Outcome t :=
  let s :=
    mk (read_curr s) (read_bytes s) (read_size s) (realloc_results s)
      (binary_header s) (cmd s) (cas_ s) (rlbytes s) (start s) (noreply s)
      (bucketEngine_set s) (S (addMsgHdr_calls s)) (written s)
      (write_and_go s) (state s) in
  if wbuf_size env <? header_size then
    logic_error "mcbp_add_header: not enough space in output buffer!"
  else
    Returns
      (mk (read_curr s) (read_bytes s) (read_size s) (realloc_results s)
         (binary_header s) (cmd s) (cas_ s) (rlbytes s) (start s) (noreply s)
         (bucketEngine_set s) (addMsgHdr_calls s) (written s ++ [err])
         (write_and_go s) (state s)).

(** [mcbp_write_packet] (mcbp.cc) for the statuses of [Response], none of
    which is success or not-my-vbucket: the header, with the error
    object of the cookie for the value, then [setState(conn_send_data)]
    and [setWriteAndGo(conn_new_cmd)]. *)
Definition mcbp_write_packet (env : Env) (err : Response) (s : t) : Outcome t :=
  match mcbp_add_header env err s with
  | Returns s => Returns (setWriteAndGo new_cmd (setState send_data s))
  | failed => failed
  end.

(** [mcbp_write_packet(c, status)] followed by
    [c->setWriteAndGo(conn_closing)] *)
Definition reject (env : Env) (status : Response) (s : t) : Outcome t :=
  match mcbp_write_packet env status s with
  | Returns s => Returns (setWriteAndGo closing s)
  | failed => failed
  end.

Definition set_read (curr : Z) (size : Z) (results : list bool) (s : t) : t :=
  mk curr (read_bytes s) size results (binary_header s) (cmd s) (cas_ s)
    (rlbytes s) (start s) (noreply s) (bucketEngine_set s)
    (addMsgHdr_calls s) (written s) (write_and_go s) (state s).

(** The loop [while (size > nsize) nsize *= 2] on [size_t]. *)
Fixpoint grow (fuel : nat) (size nsize : Z) : option Z :=
  if size >? nsize then
    match fuel with
    | O => None
    | S fuel' => grow fuel' size (size_t (nsize * 2))
    end
  else Some nsize.

(** [bin_read_chunk] *)
Definition bin_read_chunk (fuel : nat) (chunk : Z) (s : t) : Outcome t :=
  let s :=
    mk (read_curr s) (read_bytes s) (read_size s) (realloc_results s)
      (binary_header s) (cmd s) (cas_ s) chunk (start s) (noreply s)
      (bucketEngine_set s) (addMsgHdr_calls s) (written s) (write_and_go s)
      (state s) in
  let offset := read_curr s + header_size in
  if rlbytes s >? read_size s - offset then
    match grow fuel (size_t (rlbytes s + header_size)) (read_size s) with
    | None => OutOfFuel
    | Some nsize =>
        if negb (nsize =? read_size s) then
          if hd true (realloc_results s) then
            let s :=
              set_read (offset - header_size) (Event.int32 nsize)
                (tl (realloc_results s)) s in
            Returns (setState read_packet_body (set_read 0 (read_size s)
                                                  (realloc_results s) s))
          else
            Returns
              (setState closing
                 (set_read (read_curr s) (read_size s)
                    (tl (realloc_results s)) s))
        else
          Returns
            (setState read_packet_body
               (set_read 0 (read_size s) (realloc_results s) s))
    end
  else Returns (setState read_packet_body s).

Section Dispatch.

(** The constants of protocol_binary.h and memcached.h that the
    functions name. *)
Variables PROTOCOL_BINARY_REQ PROTOCOL_BINARY_RES : Z.
Variables CMD_SASL_LIST_MECHS CMD_SASL_AUTH CMD_SASL_STEP : Z.
Variables CMD_VERSION CMD_HELLO : Z.
Variable KEY_MAX_LENGTH : Z.

(** [authenticated]; [cmd] is [c->getCmd()]. *)
Definition authenticated (env : Env) (cmd : Z) : bool :=
  if (cmd =? CMD_SASL_LIST_MECHS) || (cmd =? CMD_SASL_AUTH)
     || (cmd =? CMD_SASL_STEP) || (cmd =? CMD_VERSION)
     || (cmd =? CMD_HELLO)
  then true
  else isAuthenticated env.

(** [is_initialized] *)
Definition is_initialized (env : Env) (opcode : Z) : bool :=
  if isInternal env || is_server_initialized env then true
  else
    (opcode =? CMD_SASL_LIST_MECHS) || (opcode =? CMD_SASL_AUTH)
    || (opcode =? CMD_SASL_STEP).

(** [invalid_datatype] *)
Definition invalid_datatype (env : Env) (s : t) : bool :=
  negb (isDatatypeEnabled env (datatype (binary_header s))).

(** [handle_binary_protocol_error] *)
Definition handle_binary_protocol_error (env : Env) (s : t) : Outcome t :=
  reject env RESPONSE_EINVAL s.

(** [dispatch_bin_command] *)
Definition dispatch_bin_command (env : Env) (fuel : nat) (s : t) : Outcome t :=
  let keylen := keylen (binary_header s) in
  let s :=
    mk (read_curr s) (read_bytes s) (read_size s) (realloc_results s)
      (binary_header s) (cmd s) (cas_ s) (rlbytes s) (start s) (noreply s)
      true (addMsgHdr_calls s) (written s) (write_and_go s) (state s) in
  if negb (is_initialized env (opcode (binary_header s))) then
    reject env RESPONSE_NOT_INITIALIZED s
  else if isRequireSasl env && negb (authenticated env (cmd s)) then
    reject env RESPONSE_AUTH_ERROR s
  else if invalid_datatype env s then reject env RESPONSE_EINVAL s
  else
    let s :=
      mk (read_curr s) (read_bytes s) (read_size s) (realloc_results s)
        (binary_header s) (cmd s) (cas_ s) (rlbytes s)
        (if start s =? 0 then gethrtime env else start s) (noreply s)
        (bucketEngine_set s) (addMsgHdr_calls s) (written s) (write_and_go s)
        (state s) in
    if keylen >? KEY_MAX_LENGTH then handle_binary_protocol_error env s
    else
      let s :=
        mk (read_curr s) (read_bytes s) (read_size s) (realloc_results s)
          (binary_header s) (cmd s) (cas_ s) (rlbytes s) (start s) false
          (bucketEngine_set s) (addMsgHdr_calls s) (written s)
          (write_and_go s) (state s) in
      if bodylen (binary_header s) >? getMaxPacketSize env then
        reject env RESPONSE_EINVAL s
      else bin_read_chunk fuel (bodylen (binary_header s)) s.

(** [try_read_mcbp_command] for a connection that is not null, in a
    build without [NEED_ALIGN]. *)
Definition try_read_mcbp_command (env : Env) (fuel : nat) (s : t) : Outcome t :=
  if negb (read_curr s <=? read_size s) then AssertionFailed
  else if negb (len (read_bytes s) >=? header_size) then AssertionFailed
  else
    let header := read_header (read_bytes s) in
    let s :=
      mk (read_curr s) (read_bytes s) (read_size s) (realloc_results s)
        header (cmd s) (cas_ s) (rlbytes s) (start s) (noreply s)
        (bucketEngine_set s) (addMsgHdr_calls s) (written s) (write_and_go s)
        (state s) in
    if negb (magic header =? PROTOCOL_BINARY_REQ)
       && negb ((magic header =? PROTOCOL_BINARY_RES)
                && response_handlers env (opcode header))
    then Returns (setState closing s)
    else
      let s :=
        mk (read_curr s) (read_bytes s) (read_size s) (realloc_results s)
          (binary_header s) (opcode header) 0 (rlbytes s) (start s)
          (noreply s) (bucketEngine_set s) (S (addMsgHdr_calls s))
          (written s) (write_and_go s) (state s) in
      match dispatch_bin_command env fuel s with
      | Returns s =>
          Returns
            (mk (read_curr s + header_size) (skipn 24 (read_bytes s))
               (read_size s) (realloc_results s) (binary_header s) (cmd s)
               (cas_ s) (rlbytes s) (start s) (noreply s)
               (bucketEngine_set s) (addMsgHdr_calls s) (written s)
               (write_and_go s) (state s))
      | failed => failed
      end.

End Dispatch.

End ReadCommand.

(** The status [dispatch_bin_command] rejects a command with, if any,
    for the header [h] and the answer [authenticated] gives for its
    opcode; the checks are made in this order. *)
Definition rejection (LIST_MECHS AUTH STEP KEY_MAX_LENGTH : Z)
    (env : ReadCommand.Env) (authenticated : bool) (h : ReadCommand.Header)
  : option ReadCommand.Response :=
  if negb (ReadCommand.is_initialized LIST_MECHS AUTH STEP env
             (ReadCommand.opcode h))
  then Some ReadCommand.RESPONSE_NOT_INITIALIZED
  else if ReadCommand.isRequireSasl env && negb authenticated
  then Some ReadCommand.RESPONSE_AUTH_ERROR
  else if negb (ReadCommand.isDatatypeEnabled env (ReadCommand.datatype h))
          || (ReadCommand.keylen h >? KEY_MAX_LENGTH)
          || (ReadCommand.bodylen h >? ReadCommand.getMaxPacketSize env)
  then Some ReadCommand.RESPONSE_EINVAL
  else None.

(** ** The producers of DCP messages (mcbp_executors.cc) *)

Module DcpProducers.

(** The [n] bytes of [v] in network order. *)
Fixpoint to_network_order (n : nat) (v : Z) : list Z :=
  match n with
  | O => []
  | S n' => to_network_order n' (v / 256) ++ [v mod 256]
  end.

(** The bytes of a header in memory, field by field as request.h
    declares them; a field is assigned the value in network order, but
    [opaque], which is assigned as it is and given by its four bytes. *)
Definition header_bytes (h : ReadCommand.Header) : list Z :=
  [ReadCommand.magic h; ReadCommand.opcode h]
  ++ to_network_order 2 (ReadCommand.keylen h)
  ++ [ReadCommand.extlen h; ReadCommand.datatype h]
  ++ to_network_order 2 (ReadCommand.vbucket h)
  ++ to_network_order 4 (ReadCommand.bodylen h)
  ++ ReadCommand.opaque h
  ++ to_network_order 8 (ReadCommand.cas h).

(** The command of the connection, its write pipe (the address of the
    first free byte, the room behind it and the bytes produced so far)
    and its scatter/gather lists. *)
Record t : Type := mk {
  cmd : Z;
  wdata : Z;
  wdata_size : Z;
  produced : list Z;
  vectors : IoVectors.t
}.

Definition setCmd (c : Z) (s : t) : t :=
  mk c (wdata s) (wdata_size s) (produced s) (vectors s).

Section Producers.

Variable IOV_MAX : nat.

(** The magics and the opcodes of protocol_binary.h. *)
Variables PROTOCOL_BINARY_REQ PROTOCOL_BINARY_RES : Z.
Variables CMD_DCP_GET_FAILOVER_LOG CMD_DCP_ADD_STREAM : Z.
Variables CMD_DCP_SNAPSHOT_MARKER CMD_DCP_SET_VBUCKET_STATE : Z.
Variables CMD_DCP_STREAM_END CMD_DCP_FLUSH CMD_DCP_NOOP : Z.
Variables CMD_DCP_BUFFER_ACKNOWLEDGEMENT CMD_DCP_CONTROL : Z.

(** Copying [bytes] to the free part of the pipe, [addIov] for them and
    [produced]. *)
Definition write_bytes (bytes : list Z) (s : t) : t :=
  mk (cmd s) (wdata s + len bytes) (wdata_size s - len bytes)
    (produced s ++ bytes)
    (IoVectors.addIov IOV_MAX (wdata s) (len bytes) (vectors s)).

(** [add_packet_to_pipe] *)
Definition add_packet_to_pipe (packet : list Z) (s : t)
  : ENGINE_ERROR_CODE * t :=
  if wdata_size s <? len packet then (ENGINE_E2BIG, s)
  else (ENGINE_SUCCESS, write_bytes packet s).

(** A header all of whose fields are zero but the ones given. *)
Definition header (magic opcode keylen extlen vbucket bodylen : Z)
    (opaque : list Z) : ReadCommand.Header :=
  ReadCommand.mkHeader magic opcode keylen extlen 0 vbucket bodylen opaque 0.

(** [dcp_message_get_failover_log] *)
Definition dcp_message_get_failover_log (opaque : list Z) (vbucket : Z) (s : t)
  : ENGINE_ERROR_CODE * t :=
  add_packet_to_pipe
    (header_bytes
       (header PROTOCOL_BINARY_REQ CMD_DCP_GET_FAILOVER_LOG 0 0 vbucket 0 opaque))
    (setCmd CMD_DCP_GET_FAILOVER_LOG s).

(** [dcp_message_add_stream_response]; the status of a response is
    where a request has its vbucket. *)
Definition dcp_message_add_stream_response (opaque : list Z)
    (dialogopaque status : Z) (s : t) : ENGINE_ERROR_CODE * t :=
  add_packet_to_pipe
    (header_bytes
       (header PROTOCOL_BINARY_RES CMD_DCP_ADD_STREAM 0 4 status 4 opaque)
     ++ to_network_order 4 dialogopaque)
    (setCmd CMD_DCP_ADD_STREAM s).

(** [dcp_message_marker_response] *)
Definition dcp_message_marker_response (opaque : list Z) (status : Z) (s : t)
  : ENGINE_ERROR_CODE * t :=
  add_packet_to_pipe
    (header_bytes
       (header PROTOCOL_BINARY_RES CMD_DCP_SNAPSHOT_MARKER 0 0 status 0 opaque))
    (setCmd CMD_DCP_SNAPSHOT_MARKER s).

(** [dcp_message_set_vbucket_state_response] *)
Definition dcp_message_set_vbucket_state_response (opaque : list Z)
    (status : Z) (s : t) : ENGINE_ERROR_CODE * t :=
  add_packet_to_pipe
    (header_bytes
       (header PROTOCOL_BINARY_RES CMD_DCP_SET_VBUCKET_STATE 0 0 status 0 opaque))
    (setCmd CMD_DCP_SET_VBUCKET_STATE s).

(** [dcp_message_stream_end] *)
Definition dcp_message_stream_end (opaque : list Z) (vbucket flags : Z) (s : t)
  : ENGINE_ERROR_CODE * t :=
  add_packet_to_pipe
    (header_bytes
       (header PROTOCOL_BINARY_REQ CMD_DCP_STREAM_END 0 4 vbucket 4 opaque)
     ++ to_network_order 4 flags)
    (setCmd CMD_DCP_STREAM_END s).

(** [dcp_message_flush] *)
Definition dcp_message_flush (opaque : list Z) (vbucket : Z) (s : t)
  : ENGINE_ERROR_CODE * t :=
  add_packet_to_pipe
    (header_bytes (header PROTOCOL_BINARY_REQ CMD_DCP_FLUSH 0 0 vbucket 0 opaque))
    (setCmd CMD_DCP_FLUSH s).

(** [dcp_message_noop] *)
Definition dcp_message_noop (opaque : list Z) (s : t) : ENGINE_ERROR_CODE * t :=
  add_packet_to_pipe
    (header_bytes (header PROTOCOL_BINARY_REQ CMD_DCP_NOOP 0 0 0 0 opaque))
    (setCmd CMD_DCP_NOOP s).

(** [dcp_message_buffer_acknowledgement] *)
Definition dcp_message_buffer_acknowledgement (opaque : list Z)
    (vbucket buffer_bytes : Z) (s : t) : ENGINE_ERROR_CODE * t :=
  add_packet_to_pipe
    (header_bytes
       (header PROTOCOL_BINARY_REQ CMD_DCP_BUFFER_ACKNOWLEDGEMENT 0 4 vbucket 4
          opaque)
     ++ to_network_order 4 buffer_bytes)
    (setCmd CMD_DCP_BUFFER_ACKNOWLEDGEMENT s).

(** [dcp_message_control]; [nkey] and [nvalue] are the lengths of [key]
    and [value]. *)
Definition dcp_message_control (opaque : list Z) (key value : list Z) (s : t)
  : ENGINE_ERROR_CODE * t :=
  let s := setCmd CMD_DCP_CONTROL s in
  let nkey := len key in
  let nvalue := len value in
  let packet :=
    header_bytes
      (header PROTOCOL_BINARY_REQ CMD_DCP_CONTROL nkey 0 0
         (uint32 (nvalue + nkey)) opaque) in
  if wdata_size s <? ReadCommand.header_size + nkey + nvalue
  then (ENGINE_E2BIG, s)
  else (ENGINE_SUCCESS, write_bytes (packet ++ key ++ value) s).

End Producers.

End DcpProducers.

(** The fields of a header have the width of their types. *)
Definition header_in_range (h : ReadCommand.Header) : Prop :=
  0 <= ReadCommand.magic h < 256 /\ 0 <= ReadCommand.opcode h < 256 /\
  0 <= ReadCommand.keylen h < 2 ^ 16 /\ 0 <= ReadCommand.extlen h < 256 /\
  0 <= ReadCommand.datatype h < 256 /\ 0 <= ReadCommand.vbucket h < 2 ^ 16 /\
  0 <= ReadCommand.bodylen h < 2 ^ 32 /\
  List.length (ReadCommand.opaque h) = 4%nat /\
  0 <= ReadCommand.cas h < 2 ^ 64.

(** What a producer leaves: the command of the connection is the opcode
    and, when the pipe has room for the packet, the packet is written to
    it and queued in one piece; the packet starts with a header of this
    magic, opcode, vbucket (or status) and opaque, whose body length is
    the number of bytes that follow it, and [body] follows it. *)
Definition well_framed (IOV_MAX : nat) (magic opcode vbucket : Z)
    (opaque body : list Z) (s : DcpProducers.t)
    (r : ENGINE_ERROR_CODE * DcpProducers.t) : Prop :=
  exists packet,
    (r = if DcpProducers.wdata_size s <? len packet
         then (ENGINE_E2BIG, DcpProducers.setCmd opcode s)
         else (ENGINE_SUCCESS,
               DcpProducers.write_bytes IOV_MAX packet
                 (DcpProducers.setCmd opcode s))) /\
    let h := ReadCommand.read_header packet in
    ReadCommand.magic h = magic /\ ReadCommand.opcode h = opcode /\
    ReadCommand.vbucket h = vbucket /\ ReadCommand.opaque h = opaque /\
    ReadCommand.datatype h = 0 /\ ReadCommand.cas h = 0 /\
    skipn 24 packet = body /\
    ReadCommand.bodylen h = len body /\
    ReadCommand.extlen h + ReadCommand.keylen h <= ReadCommand.bodylen h.

(** ** The revision of a cluster map (mcbp.cc) *)

Module ClusterMap.

(** The characters ["rev":] of [prefix], by their codes. *)
Definition prefix : list Z := [34; 114; 101; 118; 34; 58].

(** [isspace] and [isdigit] of the C library, in the "C" locale. *)
Definition isspace (c : Z) : bool :=
  (c =? 32) || ((9 <=? c) && (c <=? 13)).

Definition isdigit (c : Z) : bool := (48 <=? c) && (c <=? 57).

(** The function returns, or it reads behind the [mapsize] bytes of the
    map. *)
Inductive Outcome : Type :=
| Returns (revno : Z)
| ReadsBehindMap.

(** [memcmp(map + index, prefix.data(), prefix.length()) == 0], for the
    bytes [l] at [map + index]. *)
Fixpoint starts_with (p l : list Z) : bool :=
  match p, l with
  | [], _ => true
  | _ :: _, [] => false
  | a :: p', b :: l' => (a =? b) && starts_with p' l'
  end.

(** [atoi] at a digit: the number that the digits stand for; it is not
    defined by the C library when the number is not an [int]. *)
Fixpoint atoi (value : Z) (l : list Z) : Outcome :=
  match l with
  | [] => ReadsBehindMap
  | c :: l' => if isdigit c then atoi (value * 10 + (c - 48)) l' else Returns value
  end.

(** What is done once the prefix is found, for the bytes [l] behind
    it. *)
Fixpoint parse_revno (l : list Z) : Outcome :=
  match l with
  | [] => ReadsBehindMap
  | c :: l' =>
      if isspace c then parse_revno l'
      else if negb (isdigit c) then Returns (-1)
      else atoi 0 l
  end.

(** The loop over [index], with [rounds] rounds to go and [l] the bytes
    at [map + index]. *)
Fixpoint find_revno (rounds : nat) (l : list Z) : Outcome :=
  match rounds with
  | O => Returns (-1)
  | S rounds' =>
      if starts_with prefix l then parse_revno (skipn 6 l)
      else find_revno rounds' (tl l)
  end.

(** [get_clustermap_revno] *)
Definition get_clustermap_revno (map : list Z) : Outcome :=
  let mapsize := len map in
  if (mapsize =? 0) || negb (hd 0 map =? 123)
     || (mapsize <? len prefix + 1)
  then Returns (-1)
  else
    let mapsize := mapsize - len prefix in
    find_revno (Z.to_nat (mapsize - 1)) (skipn 1 map).

(** The decimal digits of a number, by their codes. *)
Fixpoint decimal_digits (fuel : nat) (n : Z) (behind : list Z) : list Z :=
  match fuel with
  | O => behind
  | S fuel' =>
      let behind := (48 + n mod 10) :: behind in
      if n / 10 =? 0 then behind else decimal_digits fuel' (n / 10) behind
  end.

Definition decimal (n : Z) : list Z := decimal_digits (S (Z.to_nat n)) n [].

(** What [get_vb_map_cb] uses of the connection: the revision of the
    cluster map it was sent last (-2 when none is known), the opcode of
    [binary_header], the four bytes of its opaque, the bytes of the
    dynamic buffer up to its offset, and the outcomes of the next calls
    of [DynamicBuffer::grow]. *)
Record Connection : Type := mkConnection {
  clustermap_revno : Z;
  request_opcode : Z;
  opaque : list Z;
  dynamicBuffer : list Z;
  grow_results : list bool
}.

Definition setClustermapRevno (revno : Z) (c : Connection) : Connection :=
  mkConnection revno (request_opcode c) (opaque c) (dynamicBuffer c)
    (grow_results c).

(** [growDynamicBuffer]: whether the buffer has room for [needed] more
    bytes now. *)
Definition growDynamicBuffer (needed : Z) (c : Connection) : bool * Connection :=
  (hd false (grow_results c),
   mkConnection (clustermap_revno c) (request_opcode c) (opaque c)
     (dynamicBuffer c) (tl (grow_results c))).

(** The two [memcpy] to [buffer.getCurrent()] and [buffer.moveOffset]. *)
Definition write_to_buffer (bytes : list Z) (c : Connection) : Connection :=
  mkConnection (clustermap_revno c) (request_opcode c) (opaque c)
    (dynamicBuffer c ++ bytes) (grow_results c).

(** The callback returns, throws or reads behind the map. *)
Inductive Callback : Type :=
| Done (ret : ENGINE_ERROR_CODE) (c : Connection)
| runtime_error (what : string)
| CallbackReadsBehindMap.

Section GetVbMap.

(** [settings.isDedupeNmvbMaps()] *)
Variable isDedupeNmvbMaps : bool.

(** The magic and the status of protocol_binary.h. *)
Variables PROTOCOL_BINARY_RES PROTOCOL_BINARY_RESPONSE_NOT_MY_VBUCKET : Z.

(** The part of [get_vb_map_cb] behind the deduplication, with [mapsize]
    as that left it. *)
Definition format_response (map : list Z) (mapsize : Z) (c : Connection)
  : Callback :=
  let needed := size_t (ReadCommand.header_size + mapsize) in
  let '(grown, c) := growDynamicBuffer needed c in
  if negb grown then Done ENGINE_ENOMEM c
  else
    let header :=
      ReadCommand.mkHeader PROTOCOL_BINARY_RES (request_opcode c) 0 0 0
        PROTOCOL_BINARY_RESPONSE_NOT_MY_VBUCKET (uint32 mapsize) (opaque c) 0 in
    Done ENGINE_SUCCESS
      (write_to_buffer
         (DcpProducers.header_bytes header ++ firstn (Z.to_nat mapsize) map) c).

(** [get_vb_map_cb]; [connection] is [cookie->connection]. *)
Definition get_vb_map_cb (connection : option Connection) (map : list Z)
  : Callback :=
  match connection with
  | None =>
      runtime_error "get_vb_map_cb: cookie must represent connection"
  | Some c =>
      let mapsize := len map in
      if isDedupeNmvbMaps then
        match get_clustermap_revno map with
        | ReadsBehindMap => CallbackReadsBehindMap
        | Returns revno =>
            if revno =? clustermap_revno c then format_response map 0 c
            else if negb (revno =? -1) then
              format_response map mapsize (setClustermapRevno revno c)
            else format_response map mapsize c
        end
      else format_response map mapsize c
  end.

End GetVbMap.

(** [c'] is [c] with a response behind what its dynamic buffer had: a
    header with this magic and status, the opcode and the opaque of the
    request and the length of [body], and [body]. *)
Definition response_added (magic status : Z) (body : list Z)
    (c c' : Connection) : Prop :=
  exists header,
    List.length header = 24%nat /\
    dynamicBuffer c' = dynamicBuffer c ++ header ++ body /\
    ReadCommand.read_header header =
    ReadCommand.mkHeader magic (request_opcode c) 0 0 0 status
      (uint32 (len body)) (opaque c) 0.

End ClusterMap.

(** What [get_vb_map_cb] leaves when it has formatted a response with
    [body] for the connection [c]: it returned and kept the revision, the
    opcode and the opaque of [c]; it is a success and the response is
    added to the dynamic buffer, or there was no memory and the buffer
    has what it had. *)
Definition formatted (RES NMVB : Z) (body : list Z) (c : ClusterMap.Connection)
    (r : ClusterMap.Callback) : Prop :=
  match r with
  | ClusterMap.Done ret c' =>
      ClusterMap.clustermap_revno c' = ClusterMap.clustermap_revno c /\
      ClusterMap.request_opcode c' = ClusterMap.request_opcode c /\
      ClusterMap.opaque c' = ClusterMap.opaque c /\
      (ret = ENGINE_SUCCESS /\ ClusterMap.response_added RES NMVB body c c' \/
       ret = ENGINE_ENOMEM /\
       ClusterMap.dynamicBuffer c' = ClusterMap.dynamicBuffer c)
  | _ => False
  end.

(** * Properties *)

(** ** Error remapping *)

Lemma whitelisted_In (code : ENGINE_ERROR_CODE) :
  whitelisted code = true <-> In code whitelist.
Proof.
  unfold whitelisted. rewrite existsb_exists. split.
  - intros [x [Hin Heq]]. unfold errc_eqb in Heq.
    destruct (ENGINE_ERROR_CODE_eq_dec code x); [subst; assumption | discriminate].
  - intros Hin. exists code. split; [assumption |].
    unfold errc_eqb. destruct (ENGINE_ERROR_CODE_eq_dec code code); congruence.
Qed.

Lemma remapErrorCode_whitelist (f : Features) (code : ENGINE_ERROR_CODE) :
  In code whitelist -> remapErrorCode f code = code.
Proof.
  intros Hin. unfold remapErrorCode. destruct (xerror_support f); [reflexivity |].
  simpl in Hin.
  repeat (destruct Hin as [<- | Hin]; [reflexivity |]). contradiction.
Qed.

(** C2: without xerror, [remapErrorCode] turns eaccess, auth-stale and
    no-bucket into a disconnect, the two sync-write-in-progress codes into
    tmp-fail, the two collection codes into einval unless collections were
    negotiated, and leaves the whitelisted codes (among them every benign
    code and every transient code but locked-tmpfail) as they are; with
    xerror every code is returned unchanged. *)
Theorem C2_remapErrorCode (f : Features) (code : ENGINE_ERROR_CODE) :
  (xerror_support f = true -> remapErrorCode f code = code) /\
  (xerror_support f = false ->
   (In code [ENGINE_EACCESS; ENGINE_AUTH_STALE; ENGINE_NO_BUCKET] ->
    remapErrorCode f code = ENGINE_DISCONNECT) /\
   (In code [ENGINE_SYNC_WRITE_IN_PROGRESS; ENGINE_SYNC_WRITE_RECOMMIT_IN_PROGRESS] ->
    remapErrorCode f code = ENGINE_TMPFAIL) /\
   (In code [ENGINE_UNKNOWN_COLLECTION; ENGINE_COLLECTIONS_MANIFEST_IS_AHEAD] ->
    remapErrorCode f code =
    if collections_supported f then code else ENGINE_EINVAL) /\
   (whitelisted code = true -> remapErrorCode f code = code) /\
   (In code spec_benign -> remapErrorCode f code = code) /\
   (In code spec_transient -> code <> ENGINE_LOCKED_TMPFAIL ->
    remapErrorCode f code = code)).
Proof.
  split.
  - intros Hx. unfold remapErrorCode. rewrite Hx. reflexivity.
  - intros Hx. unfold remapErrorCode, isCollectionsSupported. rewrite Hx.
    repeat split.
    + simpl. intros [<- | [<- | [<- | []]]]; reflexivity.
    + simpl. intros [<- | [<- | []]]; reflexivity.
    + simpl. intros [<- | [<- | []]]; reflexivity.
    + intros Hw. apply whitelisted_In in Hw.
      pose proof (remapErrorCode_whitelist f code Hw) as H.
      unfold remapErrorCode in H. rewrite Hx in H. exact H.
    + simpl. intros Hin.
      repeat (destruct Hin as [<- | Hin]; [reflexivity |]). contradiction.
    + simpl. intros Hin Hne.
      repeat (destruct Hin as [<- | Hin]; [reflexivity || congruence |]).
      contradiction.
Qed.

Lemma C2_remapErrorCode_witness :
  xerror_support (mkFeatures false false) = false /\
  In ENGINE_EACCESS [ENGINE_EACCESS; ENGINE_AUTH_STALE; ENGINE_NO_BUCKET] /\
  remapErrorCode (mkFeatures false false) ENGINE_EACCESS = ENGINE_DISCONNECT.
Proof.
  split; [reflexivity |]. split; [simpl; auto |].
  apply (C2_remapErrorCode (mkFeatures false false) ENGINE_EACCESS);
    [reflexivity | simpl; auto].
Defined.

(** ** Cookie reference counts *)

Lemma uint8_small (z : Z) : 0 <= z < 256 -> Cookie.uint8 z = z.
Proof. intros H. unfold Cookie.uint8. apply Z.mod_small. exact H. Qed.

(** C9: incrementing a reference count of 255 and decrementing one of 0 are
    errors that leave no wrapped count behind; every other increment or
    decrement of a count within [uint8_t] changes it by exactly one and
    keeps it within 0..255. *)
Theorem C9_cookie_refcount (c : Cookie.t) :
  (Cookie.refcount c = 255 ->
   Cookie.incrementRefcount c =
   Throw (logic_error "Cookie::incrementRefcount(): refcount will wrap")) /\
  (Cookie.refcount c = 0 ->
   Cookie.decrementRefcount c =
   Throw (logic_error "Cookie::decrementRefcount(): refcount will wrap")) /\
  (0 <= Cookie.refcount c < 255 ->
   Cookie.incrementRefcount c =
   Ok (Cookie.set_refcount (Cookie.refcount c + 1) c)) /\
  (0 < Cookie.refcount c <= 255 ->
   Cookie.decrementRefcount c =
   Ok (Cookie.set_refcount (Cookie.refcount c - 1) c)).
Proof.
  unfold Cookie.incrementRefcount, Cookie.decrementRefcount.
  repeat split.
  - intros ->. reflexivity.
  - intros ->. reflexivity.
  - intros H. destruct (Z.eqb_spec (Cookie.refcount c) 255) as [E | _]; [lia |].
    rewrite uint8_small by lia. reflexivity.
  - intros H. destruct (Z.eqb_spec (Cookie.refcount c) 0) as [E | _]; [lia |].
    rewrite uint8_small by lia. reflexivity.
Qed.

Lemma C9_cookie_refcount_witness :
  0 <= Cookie.refcount (Cookie.set_refcount 254 Cookie.fresh) < 255 /\
  Cookie.incrementRefcount (Cookie.set_refcount 254 Cookie.fresh) =
  Ok (Cookie.set_refcount 255 Cookie.fresh) /\
  Cookie.incrementRefcount (Cookie.set_refcount 255 Cookie.fresh) =
  Throw (logic_error "Cookie::incrementRefcount(): refcount will wrap").
Proof.
  split; [simpl; lia |]. split.
  - apply (C9_cookie_refcount (Cookie.set_refcount 254 Cookie.fresh)).
    simpl. lia.
  - apply (C9_cookie_refcount (Cookie.set_refcount 255 Cookie.fresh)).
    reflexivity.
Defined.

(** ** The state machine's current state *)

Lemma State_eqb_eq (a b : State) : State_eqb a b = true <-> a = b.
Proof.
  unfold State_eqb. destruct (State_eq_dec a b); split; congruence.
Qed.

Lemma State_eqb_neq (a b : State) : State_eqb a b = false <-> a <> b.
Proof.
  unfold State_eqb. destruct (State_eq_dec a b); split; congruence.
Qed.

Lemma setCurrentState_isDCP (task : State) (c : Connection.t) :
  Connection.isDCP (StateMachine.setCurrentState task c) = Connection.isDCP c.
Proof.
  unfold StateMachine.setCurrentState.
  destruct (State_eqb task (Connection.currentState c)); reflexivity.
Qed.

(** A task other than [waiting] becomes the current state, DCP or not. *)
Lemma setCurrentState_other (task : State) (c : Connection.t) :
  task <> waiting ->
  Connection.currentState (StateMachine.setCurrentState task c) = task.
Proof.
  intros Hne. unfold StateMachine.setCurrentState.
  destruct (State_eqb task (Connection.currentState c)) eqn:E.
  - apply State_eqb_eq in E. congruence.
  - apply State_eqb_neq in Hne. rewrite Hne.
    destruct (Connection.isDCP c); reflexivity.
Qed.

Lemma setCurrentState_nondcp (task : State) (c : Connection.t) :
  Connection.isDCP c = false ->
  Connection.currentState (StateMachine.setCurrentState task c) = task.
Proof.
  intros Hd. unfold StateMachine.setCurrentState.
  destruct (State_eqb task (Connection.currentState c)) eqn:E.
  - apply State_eqb_eq in E. congruence.
  - rewrite Hd. reflexivity.
Qed.

Lemma setCurrentState_dcp_not_waiting (task : State) (c : Connection.t) :
  Connection.isDCP c = true ->
  Connection.currentState c <> waiting ->
  Connection.currentState (StateMachine.setCurrentState task c) <> waiting.
Proof.
  intros Hd Hc. unfold StateMachine.setCurrentState.
  destruct (State_eqb task (Connection.currentState c)) eqn:E; [assumption |].
  rewrite Hd. destruct (State_eqb task waiting) eqn:W; simpl.
  - discriminate.
  - apply State_eqb_neq in W. exact W.
Qed.

Lemma setCurrentStates_dcp_not_waiting (tasks : list State) :
  forall c : Connection.t,
    Connection.isDCP c = true ->
    Connection.currentState c <> waiting ->
    Connection.currentState (setCurrentStates tasks c) <> waiting.
Proof.
  unfold setCurrentStates.
  induction tasks as [| task tasks IH]; intros c Hd Hc; simpl.
  - exact Hc.
  - apply IH.
    + rewrite setCurrentState_isDCP. exact Hd.
    + apply setCurrentState_dcp_not_waiting; assumption.
Qed.

(** C8: for a DCP connection an attempt to set the state to [waiting]
    sets it to [ship_log], and no series of state changes brings it into
    [waiting]; for a connection that is not DCP the requested state is
    taken unchanged.  The DCP connection is taken in a state other than
    [waiting]: a request for the state the connection is in already
    returns before the rewrite, and from any other state no request
    brings a DCP connection into [waiting]. *)
Theorem C8_setCurrentState (task : State) (tasks : list State) (c : Connection.t) :
  (Connection.isDCP c = true ->
   Connection.currentState c <> waiting ->
   Connection.currentState (StateMachine.setCurrentState waiting c) = ship_log /\
   Connection.currentState (StateMachine.setCurrentState task c) <> waiting /\
   Connection.currentState (setCurrentStates tasks c) <> waiting) /\
  (Connection.isDCP c = false ->
   Connection.currentState (StateMachine.setCurrentState task c) = task).
Proof.
  split.
  - intros Hd Hc. repeat split.
    + unfold StateMachine.setCurrentState.
      destruct (State_eqb waiting (Connection.currentState c)) eqn:E.
      * apply State_eqb_eq in E. congruence.
      * rewrite Hd. reflexivity.
    + apply setCurrentState_dcp_not_waiting; assumption.
    + apply setCurrentStates_dcp_not_waiting; assumption.
  - apply setCurrentState_nondcp.
Qed.

Lemma C8_setCurrentState_witness :
  Connection.isDCP (set_dcp true sample_connection) = true /\
  Connection.currentState (set_dcp true sample_connection) <> waiting /\
  Connection.currentState
    (StateMachine.setCurrentState waiting (set_dcp true sample_connection)) =
  ship_log /\
  Connection.isDCP sample_connection = false /\
  Connection.currentState
    (StateMachine.setCurrentState waiting sample_connection) = waiting.
Proof.
  split; [reflexivity |]. split; [discriminate |]. split.
  - apply (C8_setCurrentState waiting [] (set_dcp true sample_connection));
      [reflexivity | discriminate].
  - split; [reflexivity |].
    apply (C8_setCurrentState waiting [] sample_connection). reflexivity.
Defined.

(** ** Signalling an idle connection *)

(** C10: [signalIfIdle] returns false and leaves the notification list
    and the thread alone whenever one of the connection's cookies is
    blocked; it pushes the connection and notifies the thread exactly when
    no cookie is blocked and the state machine is in an idle state. *)
Theorem C10_signalIfIdle (push : Z -> list Z -> list Z) (c : Connection.t)
    (thread : FrontEndThread) :
  ((exists cookie, In cookie (Connection.cookies c) /\
                   Cookie.isEwouldblock cookie = true) ->
   signalIfIdle push c thread = (false, thread)) /\
  ((forall cookie, In cookie (Connection.cookies c) ->
                   Cookie.isEwouldblock cookie = false) ->
   StateMachine.isIdleState c = true ->
   signalIfIdle push c thread =
   (true,
    mkFrontEndThread (push (Connection.id c) (notification thread))
      (S (notified thread)))) /\
  ((forall cookie, In cookie (Connection.cookies c) ->
                   Cookie.isEwouldblock cookie = false) ->
   StateMachine.isIdleState c = false ->
   signalIfIdle push c thread = (false, thread)).
Proof.
  unfold signalIfIdle.
  destruct (existsb Cookie.isEwouldblock (Connection.cookies c)) eqn:E.
  - apply existsb_exists in E. destruct E as [cookie [Hin Hb]].
    split; [reflexivity |].
    split; intros Hall; specialize (Hall cookie Hin); congruence.
  - split.
    + intros [cookie [Hin Hb]].
      assert (existsb Cookie.isEwouldblock (Connection.cookies c) = true) as F
        by (apply existsb_exists; exists cookie; split; assumption).
      congruence.
    + split; intros _ Hidle; rewrite Hidle; reflexivity.
Qed.

Lemma C10_signalIfIdle_witness :
  (exists cookie,
      In cookie
        (Connection.cookies
           (Connection.set_cookies
              (Cookie.set_ewouldblock true Cookie.fresh) [] sample_connection)) /\
      Cookie.isEwouldblock cookie = true) /\
  signalIfIdle (fun id l => l ++ [id])
    (Connection.set_cookies (Cookie.set_ewouldblock true Cookie.fresh) []
       sample_connection)
    (mkFrontEndThread [] 0) = (false, mkFrontEndThread [] 0) /\
  signalIfIdle (fun id l => l ++ [id]) sample_connection (mkFrontEndThread [] 0) =
  (true, mkFrontEndThread [1] 1).
Proof.
  assert (exists cookie,
             In cookie
               (Connection.cookies
                  (Connection.set_cookies
                     (Cookie.set_ewouldblock true Cookie.fresh) []
                     sample_connection)) /\
             Cookie.isEwouldblock cookie = true) as Hex.
  { exists (Cookie.set_ewouldblock true Cookie.fresh).
    split; [left; reflexivity | reflexivity]. }
  split; [exact Hex |]. split.
  - destruct (C10_signalIfIdle (fun id l => l ++ [id])
                (Connection.set_cookies
                   (Cookie.set_ewouldblock true Cookie.fresh) []
                   sample_connection)
                (mkFrontEndThread [] 0)) as [Hblocked _].
    exact (Hblocked Hex).
  - destruct (C10_signalIfIdle (fun id l => l ++ [id]) sample_connection
                (mkFrontEndThread [] 0)) as [_ [Hidle _]].
    apply Hidle.
    + intros cookie [<- | []]. reflexivity.
    + reflexivity.
Defined.

(** ** The send-queue watchdog *)





(** ** The validate state *)

Lemma Status_eqb_eq (a b : Status) : Status_eqb a b = true <-> a = b.
Proof.
  unfold Status_eqb. destruct (Status_eq_dec a b); split; congruence.
Qed.

Lemma sendResponse_effect (status : Status) (c : Connection.t) :
  Connection.responses (Cookie_sendResponse status c) =
  Connection.responses c ++ [status] /\
  Connection.currentState (Cookie_sendResponse status c) = send_data /\
  Connection.write_and_go (Cookie_sendResponse status c) = new_cmd.
Proof.
  unfold Cookie_sendResponse. cbn [Connection.write_and_go Connection.setWriteAndGo
    Connection.responses Connection.currentState].
  split; [| split; [| reflexivity]].
  - unfold setState, StateMachine.setCurrentState.
    destruct (State_eqb send_data _); [reflexivity |].
    destruct (Connection.isDCP _); reflexivity.
  - unfold setState. apply setCurrentState_other. discriminate.
Qed.

(** C4, the claim as stated fails: a request whose opcode-specific
    validator rejects it (no framing violation) is answered with the
    validator's status and [writeAndGo] is [closing], so the connection
    does not continue with the next command. *)
Lemma C4_counterexample :
  exists c',
    conn_validate bucket_alive (fun _ => true) rejecting_validator
      validating_connection = Ok (true, c') /\
    Connection.responses c' = [Einval] /\
    Connection.write_and_go c' = closing /\
    Connection.write_and_go c' <> new_cmd.
Proof.
  eexists. split; [vm_compute; reflexivity |].
  split; [reflexivity |]. split; [reflexivity | discriminate].
Qed.

(** C4, amended: in the validate state a request with an unknown opcode is
    answered with UnknownCommand and the connection continues with the
    next command; a request that the packet validator rejects, for a
    framing violation or in an opcode-specific check alike, is answered
    with the validator's status and [writeAndGo] is set to [closing]; a
    request with a server magic closes the connection without a response;
    a request that passes goes on to [execute]. *)
Theorem C4_conn_validate
    (is_bucket_dying : Connection.t -> bool * Connection.t)
    (is_valid_opcode : Z -> bool)
    (validator : Z -> Cookie.t -> Status * Cookie.t)
    (c c1 : Connection.t) (header : Header) :
  is_bucket_dying c = (false, c1) ->
  Cookie.packet (Connection.getCookieObject c1) = Some header ->
  is_request (hdr_magic header) = true ->
  exists c',
    conn_validate is_bucket_dying is_valid_opcode validator c = Ok (true, c') /\
    (is_client_magic (hdr_magic header) = true ->
     is_valid_opcode (hdr_opcode header) = false ->
     Connection.responses c' = Connection.responses c1 ++ [UnknownCommand] /\
     Connection.currentState c' = send_data /\
     Connection.write_and_go c' = new_cmd) /\
    (is_client_magic (hdr_magic header) = true ->
     is_valid_opcode (hdr_opcode header) = true ->
     forall result,
       fst (validator (hdr_opcode header) (Connection.getCookieObject c1)) = result ->
       (result <> Success ->
        Connection.responses c' = Connection.responses c1 ++ [result] /\
        Connection.currentState c' = send_data /\
        Connection.write_and_go c' = closing) /\
       (result = Success ->
        Connection.responses c' = Connection.responses c1 /\
        Connection.currentState c' = execute)) /\
    (is_client_magic (hdr_magic header) = false ->
     Connection.responses c' = Connection.responses c1 /\
     Connection.currentState c' = closing).
Proof.
  intros Hdying Hpacket Hreq.
  unfold conn_validate. rewrite Hdying, Hpacket, Hreq.
  destruct (is_client_magic (hdr_magic header)) eqn:Hclient.
  - destruct (is_valid_opcode (hdr_opcode header)) eqn:Hvalid; cbn [negb].
    + destruct (validator (hdr_opcode header) (Connection.getCookieObject c1))
        as [result cookie] eqn:Hv.
      destruct (Status_eqb result Success) eqn:Hs; cbn [negb].
      * apply Status_eqb_eq in Hs. subst result.
        eexists. split; [reflexivity |].
        split; [intros _ F; discriminate F |].
        split; [| intros F; discriminate F].
        intros _ _ result <-. cbn [fst]. split; [intros F; congruence |].
        intros _. split.
        -- unfold StateMachine.setCurrentState.
           destruct (State_eqb execute _); [reflexivity |].
           destruct (Connection.isDCP _); reflexivity.
        -- apply setCurrentState_other. discriminate.
      * eexists. split; [reflexivity |].
        split; [intros _ F; discriminate F |].
        split; [| intros F; discriminate F].
        intros _ _ r <-. cbn [fst]. split.
        -- intros _.
           destruct (sendResponse_effect result
                       (Connection.set_cookies cookie
                          (Connection.more_cookies c1) c1)) as [R [S _]].
           cbn [Connection.responses Connection.setWriteAndGo
                Connection.currentState Connection.write_and_go].
           split; [exact R |]. split; [exact S | reflexivity].
        -- intros ->. unfold Status_eqb in Hs.
           destruct (Status_eq_dec Success Success); congruence.
    + eexists. split; [reflexivity |].
      destruct (sendResponse_effect UnknownCommand c1) as [R [S W]].
      split; [intros _ _; split; [exact R | split; [exact S | exact W]] |].
      split; [intros _ F; discriminate F | intros F; discriminate F].
  - eexists. split; [reflexivity |].
    split; [intros F; discriminate F |].
    split; [intros F; discriminate F |].
    intros _. split.
    + unfold StateMachine.setCurrentState.
      destruct (State_eqb closing _); [reflexivity |].
      destruct (Connection.isDCP _); reflexivity.
    + apply setCurrentState_other. discriminate.
Qed.

Lemma C4_conn_validate_witness :
  bucket_alive validating_connection = (false, validating_connection) /\
  Cookie.packet (Connection.getCookieObject validating_connection) =
  Some (mkHeader ClientRequest 0) /\
  is_request (hdr_magic (mkHeader ClientRequest 0)) = true /\
  exists c',
    conn_validate bucket_alive (fun _ => true) rejecting_validator
      validating_connection = Ok (true, c') /\
    Connection.responses c' = [Einval] /\
    Connection.write_and_go c' = closing.
Proof.
  split; [reflexivity |]. split; [reflexivity |]. split; [reflexivity |].
  destruct (C4_conn_validate bucket_alive (fun _ => true) rejecting_validator
              validating_connection validating_connection
              (mkHeader ClientRequest 0) eq_refl eq_refl eq_refl)
    as [c' [Hrun [_ [Hvalidator _]]]].
  exists c'. split; [exact Hrun |].
  destruct (Hvalidator eq_refl eq_refl Einval eq_refl) as [Hreject _].
  destruct Hreject as [Hr [_ Hw]]; [discriminate |].
  split; [exact Hr | exact Hw].
Defined.

(** ** Privilege checks *)

Section CheckPrivilegeProperties.

Variable PrivilegeContext : Type.
Variable Privilege : Type.
Variable check : PrivilegeContext -> Privilege -> Rbac.PrivilegeAccess.
Variable createContext :
  Z -> string -> Domain -> string -> Rbac.CreateResult PrivilegeContext.
Variables (username : string) (domain : Domain) (bucket command : string).
Variable privilege : Privilege.
Variable ctx : PrivilegeContext.

Lemma context_after_rebuilt (n : Z) (c : PrivilegeContext) :
  0 < n ->
  rebuild createContext username domain bucket n = Rebuilt c ->
  context_after createContext username domain bucket ctx n = Some c.
Proof.
  intros Hn Hr. unfold context_after.
  destruct (Z.eqb_spec n 0); [lia |]. rewrite Hr. reflexivity.
Qed.

Lemma stale_after_context (n : Z) (c : PrivilegeContext) :
  context_after createContext username domain bucket ctx n = Some c ->
  stale_after check createContext username domain bucket privilege ctx n
  = match check c privilege with Rbac.Stale => true | _ => false end.
Proof. intros H. unfold stale_after. rewrite H. reflexivity. Qed.

Lemma checkPrivilege_loop_exit (fuel : nat) :
  forall s0 : PrivState PrivilegeContext,
    0 <= retries s0 <= max_retries ->
    max_retries - retries s0 <= Z.of_nat fuel ->
    context_after createContext username domain bucket ctx (retries s0)
    = Some (privilegeContext s0) ->
    (forall i, 0 <= i < retries s0 ->
               stale_after check createContext username domain bucket privilege ctx i
               = true) ->
    exists e,
      checkPrivilege_loop check createContext fuel username domain bucket command
        privilege s0 = Some e /\
      loop_exit_ok check createContext username domain bucket command privilege ctx
        s0 e.
Proof.
  unfold max_retries.
  induction fuel as [| fuel IH]; intros s0 Hr Hf Hctx Hstale;
    cbn [checkPrivilege_loop];
    destruct (check (privilegeContext s0) privilege) eqn:C;
    try (eexists; split; [reflexivity |]; cbn; unfold max_retries;
         repeat split; try lia; try congruence; assumption).
  - (* no fuel left: the counter has reached the maximum *)
    unfold max_retries.
    destruct (Z.ltb_spec (retries s0) 100) as [Hlt | Hge]; [lia |].
    eexists. split; [reflexivity |]. cbn. unfold max_retries.
    repeat split; try lia; try congruence; assumption.
  - unfold max_retries.
    destruct (Z.ltb_spec (retries s0) 100) as [Hlt | Hge].
    + assert (Hs0 : stale_after check createContext username domain bucket privilege
                      ctx (retries s0) = true)
        by (rewrite (stale_after_context _ _ Hctx), C; reflexivity).
      assert (Hupto : forall i, 0 <= i < retries s0 + 1 ->
                stale_after check createContext username domain bucket privilege ctx
                  i = true).
      { intros i Hi. destruct (Z.eq_dec i (retries s0)) as [-> | Hne];
          [exact Hs0 | apply Hstale; lia]. }
      assert (Hnext : forall c,
                 rebuild createContext username domain bucket (retries s0 + 1)
                 = Rebuilt c ->
                 exists e,
                   checkPrivilege_loop check createContext fuel username domain
                     bucket command privilege
                     (mkPrivState c (priv_cookie s0) (retries s0 + 1))
                   = Some e /\
                   loop_exit_ok check createContext username domain bucket command
                     privilege ctx s0 e).
      { intros c Hc.
        destruct (IH (mkPrivState c (priv_cookie s0) (retries s0 + 1)))
          as [e [He Hok]]; cbn [retries privilegeContext]; try lia.
        - apply context_after_rebuilt; [lia | exact Hc].
        - exact Hupto.
        - exists e. split; [exact He |].
          destruct e as [ret s | ret s | ex]; cbn in Hok |- *;
            unfold max_retries in *.
          + destruct Hok as (H1 & H2 & H3 & H4 & H5 & H6).
            repeat split; try assumption; lia.
          + destruct Hok as (H1 & H2 & H3 & H4 & H5 & H6).
            repeat split; try assumption; lia.
          + destruct Hok as (k & H1 & H2 & H3).
            exists k. repeat split; try assumption; lia. }
      unfold rebuild in Hnext |- *.
      remember (retries s0 + 1) as n eqn:En.
      destruct (createContext n username domain bucket) as [c | | what] eqn:Ec.
      * apply Hnext. reflexivity.
      * destruct (createContext n username domain "") as [c | | what] eqn:Ec2.
        -- apply Hnext. reflexivity.
        -- eexists. split; [reflexivity |]. cbn. exists n.
           unfold max_retries, rebuild. rewrite Ec, Ec2.
           split; [lia |]. split; [subst n; exact Hupto | reflexivity].
        -- eexists. split; [reflexivity |]. cbn. exists n.
           unfold max_retries, rebuild. rewrite Ec, Ec2.
           split; [lia |]. split; [subst n; exact Hupto | reflexivity].
      * eexists. split; [reflexivity |]. cbn [loop_exit_ok retries
          privilegeContext priv_cookie]. unfold max_retries, rebuild.
        rewrite Ec.
        split; [reflexivity |]. split; [lia |].
        split; [subst n; exact Hupto |]. split; [reflexivity |].
        split; [| reflexivity].
        subst n. replace (retries s0 + 1 - 1) with (retries s0) by lia.
        exact Hctx.
    + eexists. split; [reflexivity |]. cbn. unfold max_retries.
      repeat split; try lia; try congruence; assumption.
Qed.

End CheckPrivilegeProperties.

(** C1, amended: a privilege check always returns or throws, a Stale
    answer of the context triggers a rebuild, and one call of
    [checkPrivilege] makes at most 100 rebuilds.  With [retries] rebuilds
    made: each of them was made because the context before it (the one
    the call started with, then the one of the rebuild before) was
    stale; the connection is left with the context that
    [createContext] returned at the last of them; the call returns what
    this context answers (Ok for Fail under privilege debug), and Stale
    only when it is the context of the 100th rebuild, without a further
    retry.  A rebuild that meets an exception of the RBAC library ends
    the call with Fail and the context of the rebuild before; the
    exception of the rebuild without the bucket leaves the call. *)
Theorem C1_checkPrivilege
    (PrivilegeContext Privilege : Type)
    (check : PrivilegeContext -> Privilege -> Rbac.PrivilegeAccess)
    (createContext :
       Z -> string -> Domain -> string -> Rbac.CreateResult PrivilegeContext)
    (to_string_opcode : Z -> string) (to_string_privilege : Privilege -> string)
    (privilege_debug : bool) (username : string) (domain : Domain)
    (bucket : string) (opcode : Z)
    (privilege : Privilege) (ctx : PrivilegeContext) (cookie : Cookie.t) :
  let stale :=
    stale_after check createContext username domain bucket privilege ctx in
  let after := context_after createContext username domain bucket ctx in
  let command := to_string_opcode opcode in
  exists r,
    checkPrivilege check createContext to_string_opcode to_string_privilege
      privilege_debug (Z.to_nat max_retries) username domain bucket opcode privilege
      ctx cookie = Some r /\
    match r with
    | Ok (access, s) =>
        0 <= retries s <= max_retries /\
        (forall i, 0 <= i < retries s -> stale i = true) /\
        (access = Rbac.Stale -> retries s = max_retries) /\
        (after (retries s) = Some (privilegeContext s) /\
         (stale (retries s) = true -> retries s = max_retries) /\
         access =
         match check (privilegeContext s) privilege with
         | Rbac.Fail => if privilege_debug then Rbac.Ok else Rbac.Fail
         | answer => answer
         end /\
         priv_cookie s =
         match check (privilegeContext s) privilege with
         | Rbac.Fail =>
             if privilege_debug then cookie
             else
               Cookie.setErrorContext
                 ("Authorization failure: can't execute " ++ command ++
                  " operation without the " ++
                  to_string_privilege privilege ++ " privilege")
                 cookie
         | _ => cookie
         end
         \/
         0 < retries s /\
         rebuild createContext username domain bucket (retries s) = Refused /\
         after (retries s - 1) = Some (privilegeContext s) /\
         access = Rbac.Fail /\
         priv_cookie s =
         Cookie.setErrorContext
           ("An exception occurred. command: [" ++ command ++ "]") cookie)
    | Throw e =>
        exists k,
          0 < k <= max_retries /\
          (forall i, 0 <= i < k -> stale i = true) /\
          rebuild createContext username domain bucket k = Thrown e
    end.
Proof.
  intros stale after command. unfold checkPrivilege.
  destruct (checkPrivilege_loop_exit PrivilegeContext Privilege check
              createContext username domain bucket (to_string_opcode opcode) privilege
              ctx (Z.to_nat max_retries) (mkPrivState ctx cookie 0))
    as [e [Hrun Hok]]; cbn [retries privilegeContext]; unfold max_retries;
    try lia; try reflexivity.
  unfold max_retries in Hrun. rewrite Hrun.
  destruct e as [ret s | ret s | ex]; cbn in Hok; unfold max_retries in Hok.
  - destruct Hok as (Hr & Hupto & Hctx & Hc & Hst & Hk).
    assert (Hstale : stale (retries s) = true -> retries s = 100).
    { unfold stale. rewrite (stale_after_context _ _ _ _ _ _ _ _ _ _ _ Hctx), Hc.
      destruct ret; try discriminate. intros _. apply Hst. reflexivity. }
    destruct ret.
    + eexists. split; [reflexivity |].
      split; [lia |]. split; [exact Hupto |].
      split; [discriminate |]. left.
      rewrite Hc. repeat split; assumption.
    + destruct privilege_debug.
      * eexists. split; [reflexivity |].
        split; [lia |]. split; [exact Hupto |].
        split; [discriminate |]. left.
        rewrite Hc. repeat split; assumption.
      * eexists. split; [reflexivity |]. cbn [retries privilegeContext priv_cookie].
        split; [lia |]. split; [exact Hupto |].
        split; [discriminate |]. left.
        rewrite Hc, Hk. repeat split; assumption.
    + eexists. split; [reflexivity |].
      split; [lia |]. split; [exact Hupto |].
      split; [intros _; apply Hst; reflexivity |]. left.
      rewrite Hc. repeat split; assumption.
  - destruct Hok as (-> & Hr & Hupto & Href & Hctx & Hk).
    eexists. split; [reflexivity |].
    split; [lia |]. split; [exact Hupto |].
    split; [discriminate |]. right.
    repeat split; try assumption; lia.
  - destruct Hok as (k & Hr & Hupto & Hth).
    eexists. split; [reflexivity |].
    exists k. repeat split; try assumption; lia.
Qed.

(** C1, the claim as stated fails: the counter is local to a call of
    [checkPrivilege], and a request can check more than one privilege.
    [validate_vattr_privilege] checks two for the key $XTOC; when the
    first check rebuilds the context once and the RBAC database is
    replaced again and again during the second, the request makes 101
    rebuilds of the privilege context before the client is told that
    its authentication is stale. *)
Lemma C1_counterexample :
  Vattr.validate_vattr_privilege replaced_check replaced_createContext
    (fun _ => "SUBDOC_GET"%string) (fun _ => "XattrRead"%string) false
    (Z.to_nat max_retries) "user" Local "bucket" 197 "$XTOC"
    (Vattr.mkContext 0 Cookie.fresh Vattr.User 0)
  = Vattr.Returns ENGINE_AUTH_STALE
      (Vattr.mkContext 200 Cookie.fresh Vattr.User 101) /\
  max_retries < 101.
Proof. split; [vm_compute; reflexivity | reflexivity]. Qed.

(** A context that is stale whenever it is checked: one call makes 100
    rebuilds and reports the stale context. *)
Example checkPrivilege_stale_throughout :
  checkPrivilege stale_check stale_createContext (fun _ => "GET"%string)
    (fun _ => "Read"%string) false (Z.to_nat max_retries) "user" Local "bucket" 0
    tt tt Cookie.fresh
  = Some (Ok (Rbac.Stale, mkPrivState tt Cookie.fresh 100)).
Proof. vm_compute. reflexivity. Qed.

(** The third scenario of the specification: the first check is stale, the
    rebuilt context grants the privilege, and one rebuild was made. *)
Example checkPrivilege_stale_once :
  checkPrivilege (numbered_check 1) numbered_createContext
    (fun _ => "GET"%string) (fun _ => "Read"%string) false
    (Z.to_nat max_retries) "user" Local "bucket" 0 tt 0 Cookie.fresh =
  Some (Ok (Rbac.Ok, mkPrivState 1 Cookie.fresh 1)).
Proof. vm_compute. reflexivity. Qed.

(** A context that is stale at first and after each of 99 rebuilds, but
    not after the 100th, is not reported as stale. *)
Example checkPrivilege_stale_hundred_times :
  checkPrivilege (numbered_check 100) numbered_createContext
    (fun _ => "GET"%string) (fun _ => "Read"%string) false
    (Z.to_nat max_retries) "user" Local "bucket" 0 tt 0 Cookie.fresh =
  Some (Ok (Rbac.Ok, mkPrivState 100 Cookie.fresh 100)).
Proof. vm_compute. reflexivity. Qed.

(** ** Retrying on a CAS mismatch *)

Section SubdocProperties.

Variable SubdocCmdContext : Type.
Variable Engine : Type.
Local Abbreviation World := (Subdoc.World SubdocCmdContext Engine).
Variable subdoc_create_context : World -> option SubdocCmdContext.
Variable subdoc_fetch : ENGINE_ERROR_CODE -> Z -> World -> bool * World.
Variable subdoc_operate : World -> bool * World.
Variable subdoc_update : ENGINE_ERROR_CODE -> World -> ENGINE_ERROR_CODE * World.
Variable subdoc_response : World -> World.

Local Abbreviation attempt :=
  (Subdoc.attempt subdoc_create_context subdoc_fetch subdoc_operate
     subdoc_update subdoc_response).
Local Abbreviation attempts_loop :=
  (Subdoc.attempts_loop subdoc_create_context subdoc_fetch subdoc_operate
     subdoc_update subdoc_response).
Local Abbreviation mismatch :=
  (mismatching_attempt subdoc_create_context subdoc_fetch subdoc_operate
     subdoc_update).
Local Abbreviation mismatches :=
  (mismatching_attempts subdoc_create_context subdoc_fetch subdoc_operate
     subdoc_update).

Lemma errc_eqb_eq (a b : ENGINE_ERROR_CODE) : errc_eqb a b = true <-> a = b.
Proof.
  unfold errc_eqb. destruct (ENGINE_ERROR_CODE_eq_dec a b); split; congruence.
Qed.

(** Only a request without CAS goes round the loop again, and it does so
    with a reset command context. *)
Lemma attempt_continue (cas : Z) (ret ret' : ENGINE_ERROR_CODE) (w w' : World) :
  attempt cas ret w = Subdoc.Continue ret' w' ->
  cas = 0 /\ ret' = ENGINE_SUCCESS /\ Subdoc.commandContext w' = None.
Proof.
  unfold Subdoc.attempt.
  destruct (match Subdoc.commandContext w with
            | Some _ => Some w
            | None =>
                match subdoc_create_context w with
                | Some context =>
                    Some (Subdoc.setCommandContext (Some context) w)
                | None => None
                end
            end) as [w0 |]; [| discriminate].
  destruct (subdoc_fetch ret cas w0) as [fetched w1].
  destruct fetched; cbn [negb]; [| discriminate].
  destruct (subdoc_operate w1) as [operated w2].
  destruct operated; cbn [negb]; [| discriminate].
  destruct (subdoc_update ret w2) as [r w3].
  destruct (errc_eqb r ENGINE_KEY_EEXISTS).
  - destruct (Z.eqb_spec cas 0) as [E | _]; [| discriminate].
    intros H. inversion H; subst. repeat split.
  - destruct (negb (errc_eqb r ENGINE_SUCCESS)); discriminate.
Qed.

(** What an attempt does when the engine reports a CAS mismatch, whether
    the cookie had a command context or the attempt created it. *)
Lemma attempt_mismatch (cas : Z) (ret : ENGINE_ERROR_CODE) (w w3 : World) :
  mismatch cas ret w = Some w3 ->
  attempt cas ret w =
  if cas =? 0 then Subdoc.Continue ENGINE_SUCCESS (Subdoc.setCommandContext None w3)
  else Subdoc.Return (Subdoc.sendResponse (ByErrc ENGINE_KEY_EEXISTS) w3).
Proof.
  unfold mismatching_attempt, Subdoc.attempt.
  destruct (match Subdoc.commandContext w with
            | Some _ => Some w
            | None =>
                match subdoc_create_context w with
                | Some context =>
                    Some (Subdoc.setCommandContext (Some context) w)
                | None => None
                end
            end) as [w0 |]; [| discriminate].
  destruct (subdoc_fetch ret cas w0) as [fetched w1].
  destruct fetched; cbn [negb]; [| discriminate].
  destruct (subdoc_operate w1) as [operated w2].
  destruct operated; cbn [negb]; [| discriminate].
  destruct (subdoc_update ret w2) as [r w4].
  destruct (errc_eqb r ENGINE_KEY_EEXISTS) eqn:E; [| discriminate].
  apply errc_eqb_eq in E. subst r.
  intros H. inversion H; subst. reflexivity.
Qed.

Lemma attempts_loop_bound (fuel : nat) :
  forall (cas attempts : Z) (ret : ENGINE_ERROR_CODE) (w : World),
    0 <= attempts < MAXIMUM_ATTEMPTS ->
    MAXIMUM_ATTEMPTS - attempts <= Z.of_nat fuel ->
    exists n w',
      attempts_loop fuel cas attempts ret w = Some (n, w') /\
      attempts < n <= MAXIMUM_ATTEMPTS /\
      (cas <> 0 -> n = attempts + 1 /\ attempt cas ret w = Subdoc.Return w').
Proof.
  unfold MAXIMUM_ATTEMPTS.
  induction fuel as [| fuel IH]; intros cas attempts ret w Ha Hf; [lia |].
  cbn [Subdoc.attempts_loop].
  destruct (attempt cas ret w) as [w1 | ret1 w1] eqn:A.
  - exists (attempts + 1), w1. split; [reflexivity |]. split; [lia |].
    intros _. split; reflexivity.
  - apply attempt_continue in A. destruct A as [-> [-> _]].
    rewrite Z.eqb_refl. cbn [andb]. unfold MAXIMUM_ATTEMPTS.
    destruct (Z.ltb_spec (attempts + 1) 100) as [Hlt | Hge].
    + destruct (IH 0 (attempts + 1) ENGINE_SUCCESS w1) as [n [w' [Hrun [Hn _]]]];
        try lia.
      exists n, w'. split; [exact Hrun |]. split; [lia | intros F; congruence].
    + eexists _, _. split; [reflexivity |]. split; [lia | intros F; congruence].
Qed.

(** The loop goes through [k] mismatching attempts one by one, with the
    command context reset after each. *)
Lemma attempts_loop_mismatches (k : nat) :
  forall (fuel : nat) (attempts : Z) (ret : ENGINE_ERROR_CODE) (w wk : World),
    mismatches k ret w = Some wk ->
    attempts + Z.of_nat k < MAXIMUM_ATTEMPTS ->
    attempts_loop (k + fuel) 0 attempts ret w =
    attempts_loop fuel 0 (attempts + Z.of_nat k) (ret_after k ret) wk.
Proof.
  unfold MAXIMUM_ATTEMPTS.
  induction k as [| k IH]; intros fuel attempts ret w wk Hk Hlt.
  - cbn in Hk. inversion Hk; subst. cbn [plus ret_after].
    replace (attempts + Z.of_nat 0) with attempts by lia. reflexivity.
  - cbn [mismatching_attempts] in Hk.
    destruct (mismatch 0 ret w) as [w3 |] eqn:M; [| discriminate].
    cbn [plus Subdoc.attempts_loop].
    rewrite (attempt_mismatch 0 ret w w3 M). cbn [Z.eqb andb].
    unfold MAXIMUM_ATTEMPTS.
    destruct (Z.ltb_spec (attempts + 1) 100) as [_ | Hge]; [| lia].
    rewrite (IH fuel (attempts + 1) ENGINE_SUCCESS _ wk Hk) by lia.
    replace (attempts + 1 + Z.of_nat k) with (attempts + Z.of_nat (S k)) by lia.
    destruct k; reflexivity.
Qed.

End SubdocProperties.

Section AppendPrependProperties.

Variable Engine : Type.
Variable validateInput : Engine -> ENGINE_ERROR_CODE * Engine.
Variable getItem : Engine -> ENGINE_ERROR_CODE * Engine.
Variable allocateNewItem : Engine -> ENGINE_ERROR_CODE * Engine.
Variable bucket_store : Z -> Engine -> ENGINE_ERROR_CODE * Engine.
Variable release_items : Engine -> Engine.

Local Abbreviation step_state :=
  (AppendPrepend.step_state validateInput getItem allocateNewItem bucket_store
     release_items).
Local Abbreviation step :=
  (AppendPrepend.step validateInput getItem allocateNewItem bucket_store
     release_items).
Local Abbreviation round := (store_round getItem allocateNewItem bucket_store).
Local Abbreviation rounds :=
  (mismatching_rounds getItem allocateNewItem bucket_store release_items).

(** One state of the modelled [step]: the number of stores tried grows by
    at most one and stays within the limit, and a successful state brings
    the context closer to [Done]. *)
Lemma step_state_progress (attempts : Z) (c : AppendPrepend.Context Engine) :
  0 <= attempts < MAXIMUM_ATTEMPTS ->
  AppendPrepend.state c <> AppendPrepend.Done ->
  forall r n c',
    step_state attempts c = (r, n, c') ->
    attempts <= n <= MAXIMUM_ATTEMPTS /\
    (r = ENGINE_SUCCESS ->
     (n < MAXIMUM_ATTEMPTS \/ AppendPrepend.state c' = AppendPrepend.Done) /\
     4 * (MAXIMUM_ATTEMPTS - n) + AppendPrepend.rank (AppendPrepend.state c') <
     4 * (MAXIMUM_ATTEMPTS - attempts) + AppendPrepend.rank (AppendPrepend.state c)).
Proof.
  unfold MAXIMUM_ATTEMPTS. intros Ha Hd r n c'.
  unfold AppendPrepend.step_state, AppendPrepend.advance, AppendPrepend.set_state.
  destruct (AppendPrepend.state c) eqn:S; try congruence.
  - destruct (validateInput (AppendPrepend.engine c)) as [r0 e].
    intros H. inversion H; subst. split; [lia |].
    intros ->. change (errc_eqb ENGINE_SUCCESS ENGINE_SUCCESS) with true.
    cbn [AppendPrepend.rank AppendPrepend.state]. split; [left |]; lia.
  - intros H. inversion H; subst. split; [lia |].
    intros _. cbn [AppendPrepend.rank AppendPrepend.state]. split; [left |]; lia.
  - destruct (getItem (AppendPrepend.engine c)) as [r0 e].
    intros H. inversion H; subst. split; [lia |].
    intros ->. change (errc_eqb ENGINE_SUCCESS ENGINE_SUCCESS) with true.
    cbn [AppendPrepend.rank AppendPrepend.state]. split; [left |]; lia.
  - destruct (allocateNewItem (AppendPrepend.engine c)) as [r0 e].
    intros H. inversion H; subst. split; [lia |].
    intros ->. change (errc_eqb ENGINE_SUCCESS ENGINE_SUCCESS) with true.
    cbn [AppendPrepend.rank AppendPrepend.state]. split; [left |]; lia.
  - destruct (bucket_store (AppendPrepend.cas c) (AppendPrepend.engine c))
      as [r0 e].
    destruct (errc_eqb r0 ENGINE_SUCCESS) eqn:Es.
    + intros H. inversion H; subst. split; [lia |].
      intros _. cbn [AppendPrepend.rank AppendPrepend.state]. split; [right; reflexivity | lia].
    + destruct (errc_eqb r0 ENGINE_KEY_EEXISTS && (AppendPrepend.cas c =? 0)).
      * unfold MAXIMUM_ATTEMPTS.
        destruct (Z.ltb_spec (attempts + 1) 100) as [Hlt | Hge].
        -- intros H. inversion H; subst. split; [lia |].
           intros _. cbn [AppendPrepend.rank AppendPrepend.state]. split; [left |]; lia.
        -- intros H. inversion H; subst. split; [lia |].
           intros F. discriminate F.
      * intros H. inversion H; subst. split; [lia |].
        intros ->. unfold errc_eqb in Es.
        destruct (ENGINE_ERROR_CODE_eq_dec ENGINE_SUCCESS ENGINE_SUCCESS);
          congruence.
  - intros H. inversion H; subst. split; [lia |].
    intros _. cbn [AppendPrepend.rank AppendPrepend.state]. split; [left |]; lia.
Qed.

Lemma step_returns (fuel : nat) :
  forall (attempts : Z) (c : AppendPrepend.Context Engine),
    0 <= attempts <= MAXIMUM_ATTEMPTS ->
    attempts < MAXIMUM_ATTEMPTS \/ AppendPrepend.state c = AppendPrepend.Done ->
    4 * (MAXIMUM_ATTEMPTS - attempts) + AppendPrepend.rank (AppendPrepend.state c) <
    Z.of_nat fuel ->
    exists r n c',
      step fuel attempts c = Some (r, n, c') /\
      attempts <= n <= MAXIMUM_ATTEMPTS.
Proof.
  induction fuel as [| fuel IH]; intros attempts c Ha Hinv Hfuel.
  - unfold MAXIMUM_ATTEMPTS in *.
    assert (0 <= AppendPrepend.rank (AppendPrepend.state c))
      by (destruct (AppendPrepend.state c); cbn; lia).
    lia.
  - cbn [AppendPrepend.step].
    destruct (AppendPrepend.state c) eqn:S;
      try (exists ENGINE_SUCCESS, attempts, c; split; [reflexivity | lia]);
      (destruct Hinv as [Hlt | Hdone]; [| congruence];
       destruct (step_state attempts c) as [[r n] c'] eqn:St;
       destruct (step_state_progress attempts c) with (r := r) (n := n) (c' := c')
         as [Hn Hs]; [lia | congruence | exact St |];
       destruct (errc_eqb r ENGINE_SUCCESS) eqn:Er;
       [ apply errc_eqb_eq in Er; destruct (Hs Er) as [Hinv' Hm];
         rewrite S in Hm;
         destruct (IH n c') as [r' [n' [c'' [Hrun Hn']]]];
         [ unfold MAXIMUM_ATTEMPTS in *; lia | exact Hinv'
         | unfold MAXIMUM_ATTEMPTS in *; lia |];
         exists r', n', c''; split; [exact Hrun | lia]
       | exists r, n, c'; split; [reflexivity | lia] ]).
Qed.

(** [step] from [GetItem] through a round as far as the store. *)
Lemma step_round (fuel : nat) (attempts cas : Z) (e e3 : Engine)
    (r : ENGINE_ERROR_CODE) :
  round cas e = Some (r, e3) ->
  step (S (S (S fuel))) attempts (AppendPrepend.mkContext cas AppendPrepend.GetItem e) =
  if errc_eqb r ENGINE_SUCCESS then
    step fuel (attempts + 1) (AppendPrepend.mkContext cas AppendPrepend.Done e3)
  else if errc_eqb r ENGINE_KEY_EEXISTS && (cas =? 0) then
    if attempts + 1 <? MAXIMUM_ATTEMPTS then
      step fuel (attempts + 1)
        (AppendPrepend.mkContext cas AppendPrepend.Reset e3)
    else
      Some (ENGINE_TMPFAIL, attempts + 1,
            AppendPrepend.mkContext cas AppendPrepend.StoreItem e3)
  else
    Some (r, attempts + 1,
          AppendPrepend.mkContext cas AppendPrepend.StoreItem e3).
Proof.
  unfold store_round. intros H.
  cbn [AppendPrepend.step AppendPrepend.state].
  unfold AppendPrepend.step_state at 1.
  cbn [AppendPrepend.state AppendPrepend.engine AppendPrepend.cas].
  destruct (getItem e) as [r1 e1].
  unfold AppendPrepend.advance. cbn [AppendPrepend.state AppendPrepend.cas].
  destruct (errc_eqb r1 ENGINE_SUCCESS) eqn:E1; [| discriminate].
  cbn [AppendPrepend.state].
  unfold AppendPrepend.step_state at 1.
  cbn [AppendPrepend.state AppendPrepend.engine AppendPrepend.cas].
  destruct (allocateNewItem e1) as [r2 e2].
  unfold AppendPrepend.advance. cbn [AppendPrepend.state AppendPrepend.cas].
  destruct (errc_eqb r2 ENGINE_SUCCESS) eqn:E2; [| discriminate].
  cbn [AppendPrepend.state].
  unfold AppendPrepend.step_state at 1.
  cbn [AppendPrepend.state AppendPrepend.engine AppendPrepend.cas].
  inversion H as [Hs]. rewrite Hs.
  destruct (errc_eqb r ENGINE_SUCCESS) eqn:Es.
  - change (errc_eqb ENGINE_SUCCESS ENGINE_SUCCESS) with true. cbv iota.
    reflexivity.
  - destruct (errc_eqb r ENGINE_KEY_EEXISTS && (cas =? 0)).
    + destruct (attempts + 1 <? MAXIMUM_ATTEMPTS).
      * change (errc_eqb ENGINE_SUCCESS ENGINE_SUCCESS) with true. cbv iota.
        reflexivity.
      * change (errc_eqb ENGINE_TMPFAIL ENGINE_SUCCESS) with false. cbv iota.
        reflexivity.
    + rewrite Es. reflexivity.
Qed.

(** [step] goes through [k] mismatching rounds one by one, through the
    Reset state after each. *)
Lemma step_mismatching_rounds (k : nat) :
  forall (fuel : nat) (attempts : Z) (e ek : Engine),
    rounds k e = Some ek ->
    attempts + Z.of_nat k < MAXIMUM_ATTEMPTS ->
    step (4 * k + fuel) attempts
      (AppendPrepend.mkContext 0 AppendPrepend.GetItem e) =
    step fuel (attempts + Z.of_nat k)
      (AppendPrepend.mkContext 0 AppendPrepend.GetItem ek).
Proof.
  unfold MAXIMUM_ATTEMPTS.
  induction k as [| k IH]; intros fuel attempts e ek Hk Hlt.
  - cbn in Hk. inversion Hk; subst. cbn [Nat.mul plus].
    replace (attempts + Z.of_nat 0) with attempts by lia. reflexivity.
  - cbn [mismatching_rounds] in Hk.
    destruct (round 0 e) as [[r e3] |] eqn:R; [| discriminate].
    destruct (errc_eqb r ENGINE_KEY_EEXISTS) eqn:Er; [| discriminate].
    apply errc_eqb_eq in Er. subst r.
    replace (4 * S k + fuel)%nat with (S (S (S (S (4 * k + fuel))))) by lia.
    rewrite (step_round _ attempts 0 e e3 ENGINE_KEY_EEXISTS R).
    change (errc_eqb ENGINE_KEY_EEXISTS ENGINE_SUCCESS) with false.
    change (errc_eqb ENGINE_KEY_EEXISTS ENGINE_KEY_EEXISTS) with true.
    cbn [Z.eqb andb]. unfold MAXIMUM_ATTEMPTS.
    destruct (Z.ltb_spec (attempts + 1) 100) as [_ | Hge]; [| lia].
    cbn [AppendPrepend.step AppendPrepend.state].
    unfold AppendPrepend.step_state at 1.
    cbn [AppendPrepend.state AppendPrepend.engine AppendPrepend.cas].
    change (errc_eqb ENGINE_SUCCESS ENGINE_SUCCESS) with true. cbv iota.
    rewrite (IH fuel (attempts + 1) _ ek Hk) by lia.
    replace (attempts + 1 + Z.of_nat k) with (attempts + Z.of_nat (S k)) by lia.
    reflexivity.
Qed.

End AppendPrependProperties.

(** C6, amended.  [subdoc_executor] always returns, after at most 100
    attempts, and after exactly one when the client supplied a CAS.  A
    CAS mismatch (key-exists) from the engine, when the client supplied
    no CAS, resets the command context, and the operation is tried
    again with ENGINE_SUCCESS for its code: after [k] mismatching
    attempts, [k < 100], the executor ends as attempt number [k + 1]
    does; when the 100th attempt of the invocation meets a mismatch too,
    the context is reset and Etmpfail is sent; when the client did
    supply a CAS the mismatch is sent back at once and the context is
    kept.  The append/prepend context as the specification describes it
    does the same: its [step] returns after at most 100 stores; after
    [k] rounds with a mismatch, each followed by the Reset state, a
    store that succeeds ends it in Done with [k + 1] stores tried; the
    100th mismatch gives tmp-fail, and a mismatch with a client CAS is
    returned after one store, and [drive] sends either to the
    client. *)
Theorem C6_cas_mismatch_retry
    (SubdocCmdContext Engine : Type)
    (subdoc_create_context : Subdoc.World SubdocCmdContext Engine -> option SubdocCmdContext)
    (subdoc_fetch : ENGINE_ERROR_CODE -> Z -> Subdoc.World SubdocCmdContext Engine ->
                    bool * Subdoc.World SubdocCmdContext Engine)
    (subdoc_operate : Subdoc.World SubdocCmdContext Engine ->
                      bool * Subdoc.World SubdocCmdContext Engine)
    (subdoc_update : ENGINE_ERROR_CODE -> Subdoc.World SubdocCmdContext Engine ->
                     ENGINE_ERROR_CODE * Subdoc.World SubdocCmdContext Engine)
    (subdoc_response : Subdoc.World SubdocCmdContext Engine ->
                       Subdoc.World SubdocCmdContext Engine)
    (validateInput getItem allocateNewItem : Engine -> ENGINE_ERROR_CODE * Engine)
    (bucket_store : Z -> Engine -> ENGINE_ERROR_CODE * Engine)
    (release_items : Engine -> Engine)
    (f : Features) :
  let executor :=
    Subdoc.subdoc_executor subdoc_create_context subdoc_fetch subdoc_operate
      subdoc_update subdoc_response (Z.to_nat MAXIMUM_ATTEMPTS) in
  let attempt :=
    Subdoc.attempt subdoc_create_context subdoc_fetch subdoc_operate
      subdoc_update subdoc_response in
  let mismatch :=
    mismatching_attempt subdoc_create_context subdoc_fetch subdoc_operate
      subdoc_update in
  let mismatches :=
    mismatching_attempts subdoc_create_context subdoc_fetch subdoc_operate
      subdoc_update in
  let step :=
    AppendPrepend.step validateInput getItem allocateNewItem bucket_store
      release_items 406 0 in
  let round := store_round getItem allocateNewItem bucket_store in
  let rounds :=
    mismatching_rounds getItem allocateNewItem bucket_store release_items in
  (forall cas aiostat w,
      exists n w',
        executor cas aiostat w = Some (n, w') /\
        1 <= n <= MAXIMUM_ATTEMPTS /\
        (cas <> 0 -> n = 1 /\ attempt cas aiostat w = Subdoc.Return w')) /\
  (forall cas ret w w3,
      mismatch cas ret w = Some w3 ->
      attempt cas ret w =
      if cas =? 0 then
        Subdoc.Continue ENGINE_SUCCESS (Subdoc.setCommandContext None w3)
      else Subdoc.Return (Subdoc.sendResponse (ByErrc ENGINE_KEY_EEXISTS) w3)) /\
  (forall k aiostat w wk,
      (k < 100)%nat ->
      mismatches k aiostat w = Some wk ->
      (forall w',
          attempt 0 (ret_after k aiostat) wk = Subdoc.Return w' ->
          executor 0 aiostat w = Some (Z.of_nat k + 1, w')) /\
      (forall w3,
          k = 99%nat ->
          mismatch 0 (ret_after k aiostat) wk = Some w3 ->
          executor 0 aiostat w =
          Some (MAXIMUM_ATTEMPTS,
                Subdoc.sendResponse (ByStatus Etmpfail)
                  (Subdoc.setCommandContext None w3)))) /\
  (forall cas aiostat w w3,
      cas <> 0 ->
      mismatch cas aiostat w = Some w3 ->
      executor cas aiostat w =
      Some (1, Subdoc.sendResponse (ByErrc ENGINE_KEY_EEXISTS) w3)) /\
  (forall c, exists r n c', step c = Some (r, n, c') /\ 0 <= n <= MAXIMUM_ATTEMPTS) /\
  (forall k e ek e',
      (k < 100)%nat ->
      rounds k e = Some ek ->
      (round 0 ek = Some (ENGINE_SUCCESS, e') ->
       step (AppendPrepend.mkContext 0 AppendPrepend.GetItem e) =
       Some (ENGINE_SUCCESS, Z.of_nat k + 1,
             AppendPrepend.mkContext 0 AppendPrepend.Done e')) /\
      (k = 99%nat ->
       round 0 ek = Some (ENGINE_KEY_EEXISTS, e') ->
       step (AppendPrepend.mkContext 0 AppendPrepend.GetItem e) =
       Some (ENGINE_TMPFAIL, MAXIMUM_ATTEMPTS,
             AppendPrepend.mkContext 0 AppendPrepend.StoreItem e') /\
       AppendPrepend.drive_result f ENGINE_TMPFAIL =
       AppendPrepend.Responded (ByErrc ENGINE_TMPFAIL))) /\
  (forall cas e e',
      cas <> 0 ->
      round cas e = Some (ENGINE_KEY_EEXISTS, e') ->
      step (AppendPrepend.mkContext cas AppendPrepend.GetItem e) =
      Some (ENGINE_KEY_EEXISTS, 1,
            AppendPrepend.mkContext cas AppendPrepend.StoreItem e') /\
      AppendPrepend.drive_result f ENGINE_KEY_EEXISTS =
      AppendPrepend.Responded (ByErrc ENGINE_KEY_EEXISTS)).
Proof.
  intros executor attempt mismatch mismatches step round rounds.
  split; [| split; [| split; [| split; [| split; [| split]]]]].
  - intros cas aiostat w. unfold executor, Subdoc.subdoc_executor.
    destruct (attempts_loop_bound SubdocCmdContext Engine subdoc_create_context
                subdoc_fetch subdoc_operate subdoc_update subdoc_response
                (Z.to_nat MAXIMUM_ATTEMPTS) cas 0 aiostat w)
      as [n [w' [Hrun [Hn Hcas]]]]; unfold MAXIMUM_ATTEMPTS; try lia.
    exists n, w'. split; [exact Hrun |]. unfold MAXIMUM_ATTEMPTS in Hn.
    split; [lia |]. intros Hc. destruct (Hcas Hc) as [-> Ha].
    split; [reflexivity | exact Ha].
  - intros cas ret w w3 M.
    exact (attempt_mismatch SubdocCmdContext Engine subdoc_create_context
             subdoc_fetch subdoc_operate subdoc_update subdoc_response cas ret
             w w3 M).
  - intros k aiostat w wk Hk Hm.
    assert (Hloop :
              executor 0 aiostat w =
              Subdoc.attempts_loop subdoc_create_context subdoc_fetch
                subdoc_operate subdoc_update subdoc_response (100 - k) 0
                (Z.of_nat k) (ret_after k aiostat) wk).
    { unfold executor, Subdoc.subdoc_executor.
      replace (Z.to_nat MAXIMUM_ATTEMPTS) with (k + (100 - k))%nat
        by (unfold MAXIMUM_ATTEMPTS; lia).
      rewrite (attempts_loop_mismatches SubdocCmdContext Engine
                 subdoc_create_context subdoc_fetch subdoc_operate
                 subdoc_update subdoc_response k (100 - k) 0 aiostat w wk Hm)
        by (unfold MAXIMUM_ATTEMPTS; lia).
      reflexivity. }
    replace (100 - k)%nat with (S (99 - k)) in Hloop by lia.
    cbn [Subdoc.attempts_loop] in Hloop.
    split.
    + intros w' Ha. rewrite Hloop. fold attempt. rewrite Ha. reflexivity.
    + intros w3 -> M. rewrite Hloop.
      rewrite (attempt_mismatch SubdocCmdContext Engine subdoc_create_context
                 subdoc_fetch subdoc_operate subdoc_update subdoc_response 0 _
                 wk w3 M).
      reflexivity.
  - intros cas aiostat w w3 Hc M. unfold executor, Subdoc.subdoc_executor.
    change (Z.to_nat MAXIMUM_ATTEMPTS) with (S 99).
    cbn [Subdoc.attempts_loop].
    rewrite (attempt_mismatch SubdocCmdContext Engine subdoc_create_context
               subdoc_fetch subdoc_operate subdoc_update subdoc_response cas _
               w w3 M).
    destruct (Z.eqb_spec cas 0); [contradiction | reflexivity].
  - intros c. unfold step.
    destruct (step_returns Engine validateInput getItem allocateNewItem
                bucket_store release_items 406%nat 0 c)
      as [r [n [c' [Hrun Hn]]]]; unfold MAXIMUM_ATTEMPTS; try lia.
    + assert (AppendPrepend.rank (AppendPrepend.state c) <= 5)
        by (destruct (AppendPrepend.state c); cbn; lia).
      lia.
    + exists r, n, c'. split; [exact Hrun | exact Hn].
  - intros k e ek e' Hk Hr.
    assert (Hrun :
              step (AppendPrepend.mkContext 0 AppendPrepend.GetItem e) =
              AppendPrepend.step validateInput getItem allocateNewItem
                bucket_store release_items (S (S (S (S (402 - 4 * k)))))
                (Z.of_nat k)
                (AppendPrepend.mkContext 0 AppendPrepend.GetItem ek)).
    { unfold step.
      replace 406%nat with (4 * k + S (S (S (S (402 - 4 * k)))))%nat by lia.
      rewrite (step_mismatching_rounds Engine validateInput getItem
                 allocateNewItem bucket_store release_items k _ 0 e ek Hr)
        by (unfold MAXIMUM_ATTEMPTS; lia).
      reflexivity. }
    split.
    + intros R. rewrite Hrun.
      rewrite (step_round Engine validateInput getItem allocateNewItem
                 bucket_store release_items _ _ 0 ek e' ENGINE_SUCCESS R).
      reflexivity.
    + intros -> R. split.
      * rewrite Hrun.
        rewrite (step_round Engine validateInput getItem allocateNewItem
                   bucket_store release_items _ _ 0 ek e' ENGINE_KEY_EEXISTS R).
        reflexivity.
      * unfold AppendPrepend.drive_result, remapErrorCode.
        destruct (xerror_support f); reflexivity.
  - intros cas e e' Hc R. split.
    + unfold step.
      change 406%nat with (S (S (S 403))).
      rewrite (step_round Engine validateInput getItem allocateNewItem
                 bucket_store release_items _ _ cas e e' ENGINE_KEY_EEXISTS R).
      change (errc_eqb ENGINE_KEY_EEXISTS ENGINE_SUCCESS) with false.
      change (errc_eqb ENGINE_KEY_EEXISTS ENGINE_KEY_EEXISTS) with true.
      destruct (Z.eqb_spec cas 0); [contradiction | reflexivity].
    + unfold AppendPrepend.drive_result, remapErrorCode.
      destruct (xerror_support f); reflexivity.
Qed.

Lemma C6_cas_mismatch_retry_witness :
  exists w99 w3,
    mismatching_attempts contended_create contended_fetch contended_operate
      contended_update 99 ENGINE_SUCCESS fresh_world = Some w99 /\
    mismatching_attempt contended_create contended_fetch contended_operate
      contended_update 0 ENGINE_SUCCESS w99 = Some w3 /\
    Subdoc.subdoc_executor contended_create contended_fetch contended_operate
      contended_update contended_response (Z.to_nat MAXIMUM_ATTEMPTS) 0
      ENGINE_SUCCESS fresh_world =
    Some (MAXIMUM_ATTEMPTS,
          Subdoc.sendResponse (ByStatus Etmpfail)
            (Subdoc.setCommandContext None w3)).
Proof.
  exists (Subdoc.mkWorld None [] 99), (Subdoc.mkWorld (Some tt) [] 100).
  assert (H1 : mismatching_attempts contended_create contended_fetch
                 contended_operate contended_update 99 ENGINE_SUCCESS
                 fresh_world = Some (Subdoc.mkWorld None [] 99))
    by (vm_compute; reflexivity).
  assert (H2 : mismatching_attempt contended_create contended_fetch
                 contended_operate contended_update 0
                 (ret_after 99 ENGINE_SUCCESS) (Subdoc.mkWorld None [] 99)
               = Some (Subdoc.mkWorld (Some tt) [] 100))
    by (vm_compute; reflexivity).
  split; [exact H1 |]. split; [exact H2 |].
  destruct (C6_cas_mismatch_retry unit Z contended_create contended_fetch
              contended_operate contended_update contended_response
              (fun e => (ENGINE_SUCCESS, e)) (fun e => (ENGINE_SUCCESS, e))
              (fun e => (ENGINE_SUCCESS, e)) (fun _ e => (ENGINE_KEY_EEXISTS, e))
              (fun e => e) (mkFeatures false false))
    as [_ [_ [Hretry _]]].
  destruct (Hretry 99%nat ENGINE_SUCCESS fresh_world
              (Subdoc.mkWorld None [] 99)) as [_ Hgiveup];
    [lia | exact H1 |].
  exact (Hgiveup (Subdoc.mkWorld (Some tt) [] 100) eq_refl H2).
Defined.

(** C6, the claim as stated fails: the counter of the attempts is local
    to an invocation of [subdoc_executor], and the executor is invoked
    again for a request whose fetch blocked.  For a document under
    contention the first invocation makes 50 attempts, the last of which
    blocks in the fetch without a response; the second makes 100 more
    before it sends Etmpfail: 150 attempts and 149 stores for one
    request without CAS. *)
Lemma C6_counterexample :
  let executor :=
    Subdoc.subdoc_executor blocking_create blocking_fetch blocking_operate
      blocking_update blocking_response (Z.to_nat MAXIMUM_ATTEMPTS) 0
      ENGINE_SUCCESS in
  executor (Subdoc.mkWorld None [] (0, false))
  = Some (50, Subdoc.mkWorld (Some tt) [] (49, true)) /\
  executor (Subdoc.mkWorld (Some tt) [] (49, true))
  = Some (100, Subdoc.mkWorld None [ByStatus Etmpfail] (149, true)) /\
  MAXIMUM_ATTEMPTS < 50 + 100.
Proof.
  split; [vm_compute; reflexivity |].
  split; [vm_compute; reflexivity | reflexivity].
Qed.

(** The contended document of the sample: a hundred stores are tried, then
    Etmpfail is the only response. *)
Example subdoc_executor_contended :
  Subdoc.subdoc_executor contended_create contended_fetch contended_operate
    contended_update contended_response (Z.to_nat MAXIMUM_ATTEMPTS) 0
    ENGINE_SUCCESS fresh_world =
  Some (100, Subdoc.mkWorld None [ByStatus Etmpfail] 100).
Proof. vm_compute. reflexivity. Qed.

(** With a client CAS the same document is tried once and key-exists is
    the response. *)
Example subdoc_executor_client_cas :
  Subdoc.subdoc_executor contended_create contended_fetch contended_operate
    contended_update contended_response (Z.to_nat MAXIMUM_ATTEMPTS) 7
    ENGINE_SUCCESS fresh_world =
  Some (1, Subdoc.mkWorld (Some tt) [ByErrc ENGINE_KEY_EEXISTS] 1).
Proof. vm_compute. reflexivity. Qed.

(** ** Error objects in responses *)

Lemma string_empty_nil (s : string) : string_empty s = true <-> s = ""%string.
Proof.
  unfold string_empty. destruct s; cbn; split; congruence.
Qed.

Lemma strlen_pos (s : string) :
  (if Mcbp.strlen s >? 0 then s else ""%string) = s.
Proof.
  destruct s as [| a s]; [reflexivity |].
  unfold Mcbp.strlen. cbn [String.length].
  destruct (Z.gtb_spec (Z.of_nat (S (String.length s))) 0); [reflexivity | lia].
Qed.

Lemma status_switch {A : Type} (status : Status) (x y : A) :
  match status with
  | Success | SubdocSuccessDeleted | SubdocMultiPathFailure | NotMyVbucket
  | Rollback => x
  | _ => y
  end = if keeps_payload status then x else y.
Proof. destruct status; reflexivity. Qed.

(** What [mcbp_response_handler] formats: for a status outside the five
    the error object of the cookie, without key and extras and with the
    JSON datatype, or the raw one when the object is empty; for the five
    statuses the key, the extras and the payload it was handed, the
    payload inflated for a client without Snappy and stripped of its
    xattrs as for every status. *)
Lemma mcbp_response_handler_payload
    (inflate : string -> option string) (get_body : string -> string)
    (getEnabledDatatypes : Z -> Z) (getErrorJson : Cookie.t -> string)
    (key ext body : string) (datatype : Z) (status : Status) (cas_ : Z)
    (c c' : Mcbp.McbpConnection) :
  let json := getErrorJson (Mcbp.cookie c) in
  Mcbp.mcbp_response_handler inflate get_body getEnabledDatatypes getErrorJson
    key ext body datatype status cas_ c = (true, c') ->
  exists p,
    Mcbp.dynamicBuffer c' = Some (Mcbp.buffered c ++ [p]) /\
    Mcbp.iov c' = Mcbp.iov c /\
    Mcbp.r_status p = status /\
    (keeps_payload status = false ->
     Mcbp.r_value p = json /\
     Mcbp.r_keylen p = 0 /\ Mcbp.r_extlen p = 0 /\
     Mcbp.r_key p = ""%string /\ Mcbp.r_ext p = ""%string /\
     Mcbp.r_datatype p =
     (if string_empty json then PROTOCOL_BINARY_RAW_BYTES
      else PROTOCOL_BINARY_DATATYPE_JSON)) /\
    (keeps_payload status = true ->
     Mcbp.r_keylen p = Mcbp.strlen key /\ Mcbp.r_extlen p = Mcbp.strlen ext /\
     Mcbp.r_key p = key /\ Mcbp.r_ext p = ext /\
     (Mcbp.r_value p = body \/ Mcbp.r_value p = get_body body \/
      exists inflated,
        inflate body = Some inflated /\
        (Mcbp.r_value p = inflated \/ Mcbp.r_value p = get_body inflated)) /\
     (Mcbp.snappy_enabled c = true \/ is_snappy datatype = false ->
      is_xattr datatype = false ->
      Mcbp.r_value p = body /\
      Mcbp.r_datatype p = getEnabledDatatypes datatype)).
Proof.
  intros json. unfold Mcbp.mcbp_response_handler.
  destruct (negb (Mcbp.snappy_enabled c) && is_snappy datatype) eqn:Hinfl.
  + (* the payload is inflated *)
    destruct (inflate body) as [inflated |] eqn:Hi; [| discriminate].
    destruct (is_xattr (Z.land datatype (Z.lnot PROTOCOL_BINARY_DATATYPE_SNAPPY)));
      rewrite status_switch;
      destruct (keeps_payload status) eqn:K;
      destruct (Mcbp.can_allocate c); cbn [negb]; try discriminate;
      intros H; inversion H; subst c'; clear H;
      eexists; (split; [reflexivity |]); (split; [reflexivity |]);
      (split; [reflexivity |]);
      cbn [Mcbp.r_value Mcbp.r_keylen Mcbp.r_extlen Mcbp.r_key Mcbp.r_ext
           Mcbp.r_datatype];
      (split; [intros F; try discriminate F | intros F; try discriminate F]);
      try (repeat split; reflexivity);
      rewrite !strlen_pos;
      (split; [reflexivity |]); (split; [reflexivity |]);
      (split; [reflexivity |]); (split; [reflexivity |]);
      (split;
       [ right; right; exists inflated; split; [reflexivity | auto]
       | intros [Hs | Hs] _;
         apply andb_true_iff in Hinfl; destruct Hinfl as [Hn Hsn];
         [ rewrite Hs in Hn; discriminate Hn | congruence ] ]).
  + (* the payload is taken as it is *)
    destruct (is_xattr datatype) eqn:Hx;
      rewrite status_switch;
      destruct (keeps_payload status) eqn:K;
      destruct (Mcbp.can_allocate c); cbn [negb]; try discriminate;
      intros H; inversion H; subst c'; clear H;
      eexists; (split; [reflexivity |]); (split; [reflexivity |]);
      (split; [reflexivity |]);
      cbn [Mcbp.r_value Mcbp.r_keylen Mcbp.r_extlen Mcbp.r_key Mcbp.r_ext
           Mcbp.r_datatype];
      (split; [intros F; try discriminate F | intros F; try discriminate F]);
      try (repeat split; reflexivity);
      rewrite !strlen_pos;
      (split; [reflexivity |]); (split; [reflexivity |]);
      (split; [reflexivity |]); (split; [reflexivity |]);
      (split;
       [ auto
       | intros _ Hx'; try discriminate Hx'; split; reflexivity ]).
Qed.

(** What [mcbp_write_packet] sends for a status other than Success, and
    other than NotMyVbucket when the engine has a vbucket map: with room
    in the write buffer, a response that is all the iov holds, with the
    error object of the cookie for its value and the JSON datatype, or
    the raw one when the object is empty; without room it throws. *)
Lemma mcbp_write_packet_error_object
    (bucket_get_engine_vb_map :
       Mcbp.McbpConnection -> ENGINE_ERROR_CODE * Mcbp.McbpConnection)
    (getErrorJson : Cookie.t -> string) (status : Status)
    (c : Mcbp.McbpConnection) :
  let json := getErrorJson (Mcbp.cookie c) in
  status <> Success ->
  (status = NotMyVbucket -> Mcbp.has_get_engine_vb_map c = false) ->
  Mcbp.mcbp_write_packet bucket_get_engine_vb_map getErrorJson c status =
  if Mcbp.wbuf_has_room c then
    Ok (Mcbp.setWriteAndGo new_cmd
          (Mcbp.setState send_data
             (Mcbp.set_iov
                [Mcbp.mkResponsePacket (Mcbp.cmd c) 0 0
                   (if string_empty json then PROTOCOL_BINARY_RAW_BYTES
                    else PROTOCOL_BINARY_DATATYPE_JSON)
                   status (uint32 (Mcbp.strlen json)) (Mcbp.opaque c)
                   (Mcbp.cas c) "" "" json] c)))
  else Throw (logic_error "mcbp_add_header: not enough space in output buffer!").
Proof.
  intros json Hs Hn. unfold Mcbp.mcbp_write_packet.
  replace (Status_eqb status Success) with false
    by (destruct status; try reflexivity; contradiction Hs; reflexivity).
  replace (Status_eqb status NotMyVbucket && Mcbp.has_get_engine_vb_map c)
    with false
    by (destruct status; try reflexivity; rewrite (Hn eq_refl); reflexivity).
  unfold Mcbp.mcbp_add_header. fold json.
  destruct (Mcbp.wbuf_has_room c); reflexivity.
Qed.

(** The two functions agree outside the five statuses: whatever the
    handler was handed, the response carries the error object of the
    cookie, a key and extras length of zero and the JSON datatype, or
    the raw one when the error object is empty. *)
Theorem error_object_outside_the_five
    (inflate : string -> option string) (get_body : string -> string)
    (getEnabledDatatypes : Z -> Z)
    (bucket_get_engine_vb_map :
       Mcbp.McbpConnection -> ENGINE_ERROR_CODE * Mcbp.McbpConnection)
    (getErrorJson : Cookie.t -> string)
    (key ext body : string) (datatype : Z) (status : Status) (cas_ : Z)
    (c : Mcbp.McbpConnection) :
  let json := getErrorJson (Mcbp.cookie c) in
  let packet cas :=
    Mcbp.mkResponsePacket (Mcbp.cmd c) 0 0
      (if string_empty json then PROTOCOL_BINARY_RAW_BYTES
       else PROTOCOL_BINARY_DATATYPE_JSON)
      status (uint32 (Mcbp.strlen json)) (Mcbp.opaque c) cas "" "" json in
  keeps_payload status = false ->
  (Mcbp.can_allocate c = true ->
   Mcbp.mcbp_response_handler inflate get_body getEnabledDatatypes getErrorJson
     key ext body datatype status cas_ c
   = (true,
      Mcbp.set_dynamicBuffer (Some (Mcbp.buffered c ++ [packet cas_])) c) \/
   negb (Mcbp.snappy_enabled c) && is_snappy datatype = true /\
   inflate body = None /\
   Mcbp.mcbp_response_handler inflate get_body getEnabledDatatypes getErrorJson
     key ext body datatype status cas_ c = (false, c)) /\
  (Mcbp.wbuf_has_room c = true ->
   Mcbp.mcbp_write_packet bucket_get_engine_vb_map getErrorJson c status
   = Ok (Mcbp.setWriteAndGo new_cmd
           (Mcbp.setState send_data
              (Mcbp.set_iov [packet (Mcbp.cas c)] c)))).
Proof.
  intros json packet K. split.
  - intros Halloc. unfold Mcbp.mcbp_response_handler.
    destruct (negb (Mcbp.snappy_enabled c) && is_snappy datatype) eqn:Hinfl.
    + destruct (inflate body) as [inflated |] eqn:Hi.
      * left.
        destruct (is_xattr (Z.land datatype
                              (Z.lnot PROTOCOL_BINARY_DATATYPE_SNAPPY)));
          rewrite status_switch, K, Halloc; cbn [negb];
          unfold packet; fold json;
          replace (Mcbp.strlen json + 0 + 0 + 24 - 24) with (Mcbp.strlen json)
            by lia; reflexivity.
      * right. repeat split.
    + left.
      destruct (is_xattr datatype);
        rewrite status_switch, K, Halloc; cbn [negb];
        unfold packet; fold json;
        replace (Mcbp.strlen json + 0 + 0 + 24 - 24) with (Mcbp.strlen json)
          by lia; reflexivity.
  - intros Hroom.
    rewrite mcbp_write_packet_error_object.
    + rewrite Hroom. reflexivity.
    + intros ->. discriminate K.
    + intros ->. discriminate K.
Qed.

Lemma error_object_outside_the_five_witness :
  keeps_payload Einval = false /\
  Mcbp.wbuf_has_room failing_mcbp_connection = true /\
  exists c',
    Mcbp.mcbp_write_packet no_vb_map sample_getErrorJson
      failing_mcbp_connection Einval = Ok c' /\
    Mcbp.iov c' =
    [Mcbp.mkResponsePacket 0 0 0 PROTOCOL_BINARY_DATATYPE_JSON Einval 39 7 0
       "" "" (sample_getErrorJson (Mcbp.cookie failing_mcbp_connection))].
Proof.
  split; [reflexivity |]. split; [reflexivity |].
  destruct (error_object_outside_the_five (fun s => Some s) (fun s => s)
              (fun d => d) no_vb_map sample_getErrorJson "" "" "" 0 Einval 0
              failing_mcbp_connection eq_refl)
    as [_ Hwrite].
  eexists. split; [exact (Hwrite eq_refl) | reflexivity].
Defined.



(** ** The DCP mutation producer *)

Lemma narrow_ok {S : Type} (bits z : Z) (s : S) :
  0 <= z < 2 ^ bits -> narrow bits z s = (Ok z, s).
Proof.
  intros [H0 H1]. unfold narrow.
  destruct (Z.leb_spec 0 z); [| lia].
  destruct (Z.ltb_spec z (2 ^ bits)); [| lia].
  reflexivity.
Qed.

Lemma copy_step (data : list Z) (s : MutState) :
  on_connection (copyToOutputStream data) s =
  if is_nil data then (Ok tt, s)
  else if libevent_result (fst s) 0 then
         (Ok tt, (queued (Copied data) (fst s), snd s))
       else (Throw bad_alloc, (refused (fst s), snd s)).
Proof.
  destruct s as [c owner]. unfold on_connection, copyToOutputStream.
  cbn [fst snd]. destruct (is_nil data); [reflexivity |].
  unfold libevent_call, libevent_result. cbn [drop].
  destruct (hd true (Connection.libevent_results c)); reflexivity.
Qed.

Lemma chain_step (buffer : list Z) (it : Item) (c : Connection.t) :
  is_nil buffer = false ->
  chain_value buffer (c, Some it) =
  if libevent_result c 0 then
    (Ok tt, (queued (Referenced buffer it) c, None))
  else (Throw bad_alloc, (release_item it (refused c), None)).
Proof.
  intros Hb. unfold chain_value, chainDataToOutputStream_ref. rewrite Hb.
  unfold libevent_call, libevent_result. cbn [drop].
  destruct (hd true (Connection.libevent_results c)); reflexivity.
Qed.

Lemma queued_output (seg : Segment) (c : Connection.t) :
  Connection.output (queued seg c) = Connection.output c ++ [seg].
Proof. reflexivity. Qed.

Lemma queued_released (seg : Segment) (c : Connection.t) :
  Connection.released (queued seg c) = Connection.released c.
Proof. reflexivity. Qed.

Lemma queued_result (seg : Segment) (c : Connection.t) (i : nat) :
  libevent_result (queued seg c) i = libevent_result c (S i).
Proof. reflexivity. Qed.

Lemma drain_released (n : nat) :
  forall c : Connection.t,
    Connection.released (evbuffer_drain n c) =
    Connection.released c ++ referenced_items (firstn n (Connection.output c)).
Proof.
  induction n as [| n IH]; intros c; cbn [evbuffer_drain firstn].
  - cbn. rewrite app_nil_r. reflexivity.
  - rewrite IH. unfold evbuffer_drain_segment.
    destruct (Connection.output c) as [| [d | d it] rest] eqn:E.
    + rewrite E. destruct n; cbn; reflexivity.
    + cbn. reflexivity.
    + cbn. rewrite <- app_assoc. reflexivity.
Qed.

Lemma transmit_all_released (c : Connection.t) :
  Connection.released (transmit_all c) =
  Connection.released c ++ referenced_items (Connection.output c).
Proof.
  unfold transmit_all. rewrite drain_released, firstn_all. reflexivity.
Qed.

Lemma referenced_items_app (a b : list Segment) :
  referenced_items (a ++ b) = referenced_items a ++ referenced_items b.
Proof.
  induction a as [| [d | d it] a IH]; cbn; [reflexivity | exact IH |].
  rewrite IH. reflexivity.
Qed.

Lemma stream_id_bytes (sid : Z) :
  0 < sid < 65536 ->
  DcpStreamIdFrameInfo sid = [34; sid / 256; sid mod 256].
Proof.
  intros H. unfold DcpStreamIdFrameInfo, FrameInfoId_DcpStreamId.
  cbn [be]. change (8 * Z.of_nat 1) with 8. change (8 * Z.of_nat 0) with 0.
  change 255 with (Z.ones 8). rewrite !Z.land_ones by lia.
  rewrite Z.shiftr_0_r, Z.shiftr_div_pow2 by lia.
  change (2 ^ 8) with 256.
  rewrite (Z.mod_small (sid / 256) 256)
    by (split; [apply Z.div_pos; lia | apply Z.div_lt_upper_bound; lia]).
  reflexivity.
Qed.

Lemma bind_ok {S A B : Type} (m : M S A) (k : A -> M S B) (s s' : S) (a : A) :
  m s = (Ok a, s') -> bind m k s = k a s'.
Proof. intros H. unfold bind. rewrite H. reflexivity. Qed.

Lemma release_item_output (it : Item) (c : Connection.t) :
  Connection.output (release_item it c) = Connection.output c.
Proof. reflexivity. Qed.

Lemma release_item_released (it : Item) (c : Connection.t) :
  Connection.released (release_item it c) = Connection.released c ++ [it].
Proof. reflexivity. Qed.

Lemma refused_output (c : Connection.t) :
  Connection.output (refused c) = Connection.output c.
Proof. reflexivity. Qed.

Lemma refused_released (c : Connection.t) :
  Connection.released (refused c) = Connection.released c.
Proof. reflexivity. Qed.

Ltac queue_facts :=
  cbn [destroy_it fst snd firstn existsb is_referenced orb is_nil];
  rewrite ?release_item_output, ?release_item_released, ?refused_output,
    ?refused_released, ?queued_output, ?queued_released, <- ?app_assoc,
    ?app_nil_r.

Ltac results_upto :=
  let i := fresh "i" in
  let Hi := fresh "Hi" in
  intros i Hi; cbn [List.length] in Hi;
  repeat (destruct i as [| i]; [assumption |]); lia.

Ltac failed_at k :=
  exists k;
  split; [cbn [List.length]; lia |];
  split; [assumption |];
  split; [results_upto |];
  split; [queue_facts; reflexivity | queue_facts; reflexivity].

Lemma bind_copy_step {A : Type} (data : list Z) (k : unit -> M MutState A)
    (s : MutState) :
  bind (on_connection (copyToOutputStream data)) k s =
  if is_nil data then k tt s
  else if libevent_result (fst s) 0 then
         k tt (queued (Copied data) (fst s), snd s)
       else (Throw bad_alloc, (refused (fst s), snd s)).
Proof.
  unfold bind. rewrite copy_step.
  destruct (is_nil data); [reflexivity |].
  destruct (libevent_result (fst s) 0); reflexivity.
Qed.

Lemma bind_chain_step {A : Type} (buffer : list Z) (it : Item)
    (k : unit -> M MutState A) (c : Connection.t) :
  is_nil buffer = false ->
  bind (chain_value buffer) k (c, Some it) =
  if libevent_result c 0 then k tt (queued (Referenced buffer it) c, None)
  else (Throw bad_alloc, (release_item it (refused c), None)).
Proof.
  intros Hb. unfold bind. rewrite chain_step by exact Hb.
  destruct (libevent_result c 0); reflexivity.
Qed.

Lemma bind_ret {S A B : Type} (a : A) (k : A -> M S B) (s : S) :
  bind (ret a) k s = k a s.
Proof. reflexivity. Qed.

Lemma bind_copy_nil {A : Type} (k : unit -> M MutState A) (s : MutState) :
  bind (on_connection (copyToOutputStream [])) k s = k tt s.
Proof. rewrite bind_copy_step. reflexivity. Qed.

Ltac queue_step HR :=
  first [ rewrite bind_copy_nil in HR
        | rewrite bind_copy_step in HR
        | rewrite bind_chain_step in HR by reflexivity
        | rewrite bind_ret in HR ];
  cbn [fst snd is_nil] in HR;
  rewrite ?queued_result in HR;
  try match type of HR with
      | context [is_nil ?d] =>
          match goal with
          | H : is_nil d = false |- _ => rewrite H in HR
          end
      end;
  cbv beta iota in HR.
Lemma mutation_try_block (hdr finfo extras key value meta : list Z) (it : Item)
    (c : Connection.t) :
  is_nil hdr = false -> is_nil finfo = false -> is_nil extras = false ->
  let frame :=
    [Copied hdr; Copied finfo; Copied extras]
      ++ (if is_nil key then [] else [Copied key])
      ++ (if is_nil value then [] else [Referenced value it])
      ++ (if is_nil meta then [] else [Copied meta]) in
  exists r s',
    catch_bad_alloc
      (on_connection (copyToOutputStream hdr) ;;;
       on_connection (copyToOutputStream finfo) ;;;
       on_connection (copyToOutputStream extras) ;;;
       on_connection (copyToOutputStream key) ;;;
       (if negb (is_nil value) then chain_value value else ret tt) ;;;
       on_connection (copyToOutputStream meta) ;;;
       ret ENGINE_SUCCESS)
      (ret ENGINE_DISCONNECT) (c, Some it) = (Ok r, s') /\
    let c' := destroy_it s' in
    ((r = ENGINE_SUCCESS /\
      (forall i, (i < List.length frame)%nat -> libevent_result c i = true) /\
      Connection.output c' = Connection.output c ++ frame /\
      Connection.released c' =
      Connection.released c ++ (if is_nil value then [it] else [])) \/
     (r = ENGINE_DISCONNECT /\
      exists k,
        (k < List.length frame)%nat /\
        libevent_result c k = false /\
        (forall i, (i < k)%nat -> libevent_result c i = true) /\
        Connection.output c' = Connection.output c ++ firstn k frame /\
        Connection.released c' =
        Connection.released c ++
        (if existsb is_referenced (firstn k frame) then [] else [it]))).
Proof.
  intros Hh Hf He frame. subst frame.
  destruct key as [| k0 key']; destruct value as [| v0 value'];
    destruct meta as [| m0 meta']; cbn [is_nil negb app].
  all: match goal with
  | |- context [catch_bad_alloc ?a ?b ?s] =>
      remember (catch_bad_alloc a b s) as R eqn:HR
  end.
  all: unfold catch_bad_alloc in HR.
  all: repeat (queue_step HR;
               try match type of HR with
                   | context [libevent_result ?conn ?i] =>
                       destruct (libevent_result conn i) eqn:?;
                       cbv beta iota in HR
                   end).
  all: unfold ret in HR; cbv beta iota in HR.
  all: eexists; eexists; (split; [exact HR |]); cbv zeta.
  all: try (left; split; [reflexivity |]; split; [results_upto |];
            split; queue_facts; reflexivity).
  all: try (right; split; [reflexivity |];
            first [ failed_at 0%nat | failed_at 1%nat | failed_at 2%nat
                 | failed_at 3%nat | failed_at 4%nat | failed_at 5%nat ]).
Qed.

Lemma is_nil_header (r : Request.t) : is_nil (Request.bytes r) = false.
Proof. reflexivity. Qed.

Lemma is_nil_frame_info (sid : Z) : is_nil (DcpStreamIdFrameInfo sid) = false.
Proof. reflexivity. Qed.

Lemma is_nil_extras (a b f e l n r : Z) :
  is_nil (DcpMutationPayload a b f e l n r) = false.
Proof. reflexivity. Qed.

(** With a stream id and sizes that fit their fields, [mutation_body]
    comes down to its [try] block, run on the header of the frame. *)
Lemma mutation_body_prologue (strip : list Z -> list Z) (opaque : Z)
    (info : item_info) (vbucket by_seqno rev_seqno lock_time : Z)
    (meta : list Z) (nru sid : Z) (s : MutState) :
  sid <> 0 ->
  0 <= len (mutation_key strip (fst s) info) <= 255 ->
  0 <= info_exptime info < 2 ^ 32 ->
  0 <= 31 + len (mutation_key strip (fst s) info) + len meta +
       len (info_value info) + 3 < 2 ^ 32 ->
  mutation_body strip opaque info vbucket by_seqno rev_seqno lock_time meta nru
    sid s =
  catch_bad_alloc
    (on_connection
       (copyToOutputStream
          (Request.bytes
             (mutation_header opaque vbucket info
                (mutation_key strip (fst s) info) meta))) ;;;
     on_connection (copyToOutputStream (DcpStreamIdFrameInfo sid)) ;;;
     on_connection
       (copyToOutputStream
          (mutation_extras info by_seqno rev_seqno lock_time meta nru)) ;;;
     on_connection (copyToOutputStream (mutation_key strip (fst s) info)) ;;;
     (if negb (is_nil (info_value info)) then chain_value (info_value info)
      else ret tt) ;;;
     on_connection (copyToOutputStream meta) ;;;
     ret ENGINE_SUCCESS)
    (ret ENGINE_DISCONNECT) s.
Proof.
  intros Hsid Hkey Hexp Hbody. unfold mutation_body.
  fold (mutation_key strip (fst s) info).
  destruct (Z.eqb_spec sid 0) as [E | _]; [contradiction |]. cbn [negb].
  rewrite (bind_ok _ _ s s (info_exptime info)) by (apply narrow_ok; exact Hexp).
  rewrite (bind_ok _ _ s s
             (Request.mk (magic_byte AltClientRequest) 0 0 0 0 0 0 0 0 0))
    by reflexivity.
  rewrite (bind_ok _ _ s s sizeof_DcpMutationPayload)
    by (apply narrow_ok; unfold sizeof_DcpMutationPayload; lia).
  rewrite (bind_ok _ _ s s (len (mutation_key strip (fst s) info)))
    by (apply narrow_ok; lia).
  rewrite (bind_ok _ _ s s
             (Request.mk (magic_byte AltClientRequest) DcpMutation 0
                (len (mutation_key strip (fst s) info))
                sizeof_DcpMutationPayload 0 0 0 0 0)).
  2: { unfold Request.setKeylen.
       change (Request.is_alternative_encoding _) with true. cbv iota.
       rewrite (bind_ok _ _ s s (len (mutation_key strip (fst s) info)))
         by (apply narrow_ok; lia).
       reflexivity. }
  rewrite (bind_ok _ _ s s
             (sizeof_DcpMutationPayload + len (mutation_key strip (fst s) info) +
              len meta + len (info_value info) + sizeof_DcpStreamIdFrameInfo))
    by (apply narrow_ok; unfold sizeof_DcpMutationPayload,
        sizeof_DcpStreamIdFrameInfo; lia).
  reflexivity.
Qed.

Lemma len_nonneg (l : list Z) : 0 <= len l.
Proof. unfold len. lia. Qed.

Lemma frame_bytes (hdr finfo extras key value meta : list Z) (it : Item) :
  stream_bytes
    ([Copied hdr; Copied finfo; Copied extras]
       ++ (if is_nil key then [] else [Copied key])
       ++ (if is_nil value then [] else [Referenced value it])
       ++ (if is_nil meta then [] else [Copied meta])) =
  hdr ++ finfo ++ extras ++ key ++ value ++ meta.
Proof.
  unfold stream_bytes.
  destruct key as [| k0 key]; destruct value as [| v0 value];
    destruct meta as [| m0 meta];
    cbn [is_nil app flat_map segment_data]; rewrite ?app_nil_r; reflexivity.
Qed.

Lemma frame_referenced (hdr finfo extras key value meta : list Z) (it : Item) :
  referenced_items
    ([Copied hdr; Copied finfo; Copied extras]
       ++ (if is_nil key then [] else [Copied key])
       ++ (if is_nil value then [] else [Referenced value it])
       ++ (if is_nil meta then [] else [Copied meta])) =
  if is_nil value then [] else [it].
Proof.
  destruct key as [| k0 key]; destruct value as [| v0 value];
    destruct meta as [| m0 meta]; reflexivity.
Qed.

Lemma drop_nil {A : Type} (i : nat) : drop i (@nil A) = [].
Proof. induction i as [| i IH]; [reflexivity | exact IH]. Qed.

(** C5: a mutation produced with a non-zero stream id, for an item whose
    info is available and whose sizes fit the header, is framed with the
    alt-client-request magic and a framing-extras length of three; the
    first thing after the header is the DcpStreamId frame info (0x22 and
    the two bytes of the stream id), followed by the 31 bytes of mutation
    extras, the key, the value and the meta section; the value is a
    referenced segment that holds the item, which is not handed back when
    [mutation] returns but when the queue has been transmitted.  The call
    returns success exactly when libevent accepts every segment; when
    libevent refuses one, it returns Disconnect and the segments queued
    before stay in the output. *)
Theorem C5_mutation_with_stream_id
    (strip : list Z -> list Z) (opaque : Z) (it : Item) (info : item_info)
    (vbucket by_seqno rev_seqno lock_time : Z) (meta : list Z) (nru sid : Z)
    (c : Connection.t) :
  item_get_info it = Some info ->
  0 < sid < 65536 ->
  len (mutation_key strip c info) <= 255 ->
  0 <= info_exptime info < 2 ^ 32 ->
  31 + len (mutation_key strip c info) + len meta + len (info_value info) + 3 <
  2 ^ 32 ->
  let key := mutation_key strip c info in
  let value := info_value info in
  let header := mutation_header opaque vbucket info key meta in
  let extras := mutation_extras info by_seqno rev_seqno lock_time meta nru in
  let frame :=
    mutation_frame opaque it info vbucket by_seqno rev_seqno lock_time key
      meta nru sid in
  (hd 0 (Request.bytes header) = magic_byte AltClientRequest /\
   nth 2 (Request.bytes header) 0 = sizeof_DcpStreamIdFrameInfo /\
   List.length (Request.bytes header) = 24%nat /\
   DcpStreamIdFrameInfo sid = [34; sid / 256; sid mod 256] /\
   List.length extras = 31%nat /\
   stream_bytes frame =
   Request.bytes header ++ DcpStreamIdFrameInfo sid ++ extras ++ key ++ value
     ++ meta /\
   (value <> [] ->
    In (Referenced value it) frame /\ referenced_items frame = [it])) /\
  exists r c',
    mutation strip opaque it vbucket by_seqno rev_seqno lock_time meta nru sid c =
    (Ok r, c') /\
    ((r = ENGINE_SUCCESS /\
      (forall i, (i < List.length frame)%nat -> libevent_result c i = true) /\
      Connection.output c' = Connection.output c ++ frame /\
      (value <> [] -> Connection.released c' = Connection.released c) /\
      Connection.released (transmit_all c') =
      Connection.released c' ++ referenced_items (Connection.output c) ++
      (if is_nil value then [] else [it]) /\
      In it (Connection.released (transmit_all c'))) \/
     (r = ENGINE_DISCONNECT /\
      exists k,
        (k < List.length frame)%nat /\
        libevent_result c k = false /\
        (forall i, (i < k)%nat -> libevent_result c i = true) /\
        Connection.output c' = Connection.output c ++ firstn k frame)).
Proof.
  intros Hinfo Hsid Hkey Hexp Hbody key value header extras frame.
  pose proof (len_nonneg key) as Hk0.
  pose proof (len_nonneg meta) as Hm0.
  pose proof (len_nonneg value) as Hv0.
  split.
  - split; [reflexivity |]. split; [reflexivity |]. split; [reflexivity |].
    split; [apply stream_id_bytes; exact Hsid |].
    split; [reflexivity |].
    split; [apply frame_bytes |].
    intros Hv. split.
    + unfold frame, mutation_frame. fold value.
      destruct value as [| v0 value']; [congruence |].
      cbn [is_nil]. apply in_or_app. right. apply in_or_app. right.
      apply in_or_app. left. left. reflexivity.
    + unfold frame, mutation_frame. rewrite frame_referenced. fold value.
      destruct value; [congruence | reflexivity].
  - unfold mutation. rewrite Hinfo.
    rewrite mutation_body_prologue; cbn [fst];
      try (unfold key, value in *; lia).
    fold key. fold value.
    destruct (mutation_try_block (Request.bytes header) (DcpStreamIdFrameInfo sid)
                extras key value meta it c (is_nil_header header)
                (is_nil_frame_info sid)
                (is_nil_extras by_seqno rev_seqno (info_flags info)
                   (info_exptime info) lock_time (len meta) nru))
      as [r [s' [Hrun Hcases]]].
    fold header. fold extras. rewrite Hrun.
    exists r, (destroy_it s'). split; [reflexivity |].
    cbv zeta in Hcases.
    destruct Hcases as [[Hr [Hall [Hout Hrel]]] | [Hr [k [Hk [Hfail [Hbefore [Hout _]]]]]]].
    + left. split; [exact Hr |]. split; [exact Hall |]. split; [exact Hout |].
      assert (Connection.released (transmit_all (destroy_it s')) =
              Connection.released (destroy_it s') ++
              referenced_items (Connection.output c) ++
              (if is_nil value then [] else [it])) as Htx.
      { rewrite transmit_all_released, Hout, referenced_items_app.
        rewrite frame_referenced. reflexivity. }
      split.
      { intros Hv. rewrite Hrel. destruct value; [congruence |].
        cbn [is_nil]. apply app_nil_r. }
      split; [exact Htx |].
      rewrite Htx, Hrel. destruct value; cbn [is_nil].
      * apply in_or_app. left. apply in_or_app. right. left. reflexivity.
      * apply in_or_app. right. apply in_or_app. right. left. reflexivity.
    + right. split; [exact Hr |]. exists k.
      split; [exact Hk |]. split; [exact Hfail |]. split; [exact Hbefore |].
      exact Hout.
Qed.

Lemma C5_mutation_with_stream_id_witness :
  item_get_info sample_item = Some sample_info /\
  0 < 7 < 65536 /\
  len (mutation_key keep_key sample_connection sample_info) <= 255 /\
  0 <= info_exptime sample_info < 2 ^ 32 /\
  31 + len (mutation_key keep_key sample_connection sample_info) + len [9; 9] +
  len (info_value sample_info) + 3 < 2 ^ 32 /\
  DcpStreamIdFrameInfo 7 = [34; 0; 7] /\
  exists c',
    mutation keep_key 99 sample_item 3 10 11 0 [9; 9] 0 7 sample_connection =
    (Ok ENGINE_SUCCESS, c') /\
    Connection.released c' = [] /\
    Connection.released (transmit_all c') = [sample_item].
Proof.
  assert (0 < 7 < 65536) as Hsid by lia.
  assert (len (mutation_key keep_key sample_connection sample_info) <= 255)
    as Hkey by (vm_compute; discriminate).
  assert (0 <= info_exptime sample_info < 2 ^ 32) as Hexp
    by (vm_compute; split; [discriminate | reflexivity]).
  assert (31 + len (mutation_key keep_key sample_connection sample_info) +
          len [9; 9] + len (info_value sample_info) + 3 < 2 ^ 32) as Hbody
    by (vm_compute; reflexivity).
  split; [reflexivity |]. split; [exact Hsid |]. split; [exact Hkey |].
  split; [exact Hexp |]. split; [exact Hbody |].
  destruct (C5_mutation_with_stream_id keep_key 99 sample_item sample_info 3 10
              11 0 [9; 9] 0 7 sample_connection eq_refl Hsid Hkey Hexp Hbody)
    as [[_ [_ [_ [Hfi _]]]] [r [c' [Hrun Hcases]]]].
  split; [exact Hfi |].
  exists c'.
  destruct Hcases as [[Hr [_ [_ [Hrel [Htx _]]]]] | [_ [k [Hk [Hfail _]]]]].
  - subst r. split; [exact Hrun |].
    split; [apply Hrel; discriminate |].
    rewrite Htx, Hrel by discriminate. reflexivity.
  - exfalso. clear - Hfail.
    assert (libevent_result sample_connection k = true) as Hall
      by (unfold libevent_result, sample_connection;
          cbn [Connection.libevent_results]; rewrite drop_nil; reflexivity).
    rewrite Hall in Hfail. discriminate Hfail.
Defined.

(** The fifth scenario of the specification, computed: the bytes queued for
    a mutation with stream id 7. *)
Example mutation_stream_id_7 :
  stream_bytes
    (Connection.output
       (snd (mutation keep_key 99 sample_item 3 10 11 0 [9; 9] 0 7
               sample_connection))) =
  [8; 87; 3; 2; 31; 0; 0; 3; 0; 0; 0; 41; 99; 0; 0; 0; 0; 0; 0; 0; 0; 0; 0; 42]
    ++ [34; 0; 7]
    ++ [0; 0; 0; 0; 0; 0; 0; 10; 0; 0; 0; 0; 0; 0; 0; 11; 0; 0; 0; 0;
        0; 0; 0; 0; 0; 0; 0; 0; 0; 2; 0]
    ++ [107; 49] ++ [1; 2; 3] ++ [9; 9].
Proof. vm_compute. reflexivity. Qed.

(** When libevent refuses the value, the call returns Disconnect with the
    header, the frame info, the extras and the key already queued, and the
    item is handed back at once. *)
Example mutation_value_refused :
  let c := Connection.set_libevent_results [true; true; true; true; false]
             sample_connection in
  let run := mutation keep_key 99 sample_item 3 10 11 0 [9; 9] 0 7 c in
  fst run = Ok ENGINE_DISCONNECT /\
  List.length (Connection.output (snd run)) = 4%nat /\
  Connection.released (snd run) = [sample_item].
Proof. vm_compute. repeat split. Qed.

(** * Properties of the further parts *)

(** ** Scheduling statistics *)

Lemma addCpuTime_max (ns : Z) (t : CpuTimes) :
  max_sched_time (addCpuTime ns t) = ns.
Proof. unfold addCpuTime. cbn [max_sched_time]. lia. Qed.

Lemma addCpuTime_fold_min (samples : list Z) :
  forall t : CpuTimes,
    min_sched_time (fold_left (fun acc s => addCpuTime s acc) samples t) =
    fold_left Z.min samples (min_sched_time t).
Proof.
  induction samples as [| s samples IH]; intros t; [reflexivity |].
  cbn [fold_left]. rewrite IH. reflexivity.
Qed.

Lemma addCpuTime_fold_total (samples : list Z) :
  forall t : CpuTimes,
    total_cpu_time (fold_left (fun acc s => addCpuTime s acc) samples t) =
    total_cpu_time t + fold_right Z.add 0 samples.
Proof.
  induction samples as [| s samples IH]; intros t; cbn [fold_left fold_right].
  - lia.
  - rewrite IH. cbn [addCpuTime total_cpu_time]. lia.
Qed.

(** X1: after any series of calls of [addCpuTime], [total_cpu_time] has
    grown by the sum of the durations and [min_sched_time] is the least
    of its old value and the durations, but [max_sched_time] is the
    duration of the last call, whatever came before: the maximum is
    taken against the minimum just stored. *)
Theorem addCpuTime_series (samples : list Z) (ns : Z) (t : CpuTimes) :
  let t' := fold_left (fun acc s => addCpuTime s acc) (samples ++ [ns]) t in
  total_cpu_time t' = total_cpu_time t + fold_right Z.add 0 (samples ++ [ns]) /\
  min_sched_time t' = fold_left Z.min (samples ++ [ns]) (min_sched_time t) /\
  max_sched_time t' = ns.
Proof.
  cbv zeta. split; [apply addCpuTime_fold_total |].
  split; [apply addCpuTime_fold_min |].
  rewrite fold_left_app. cbn [fold_left]. apply addCpuTime_max.
Qed.

(** A long slice followed by a short one: the recorded maximum is the
    short one. *)
Example addCpuTime_forgets_the_maximum :
  max_sched_time
    (addCpuTime 5 (addCpuTime 900 (mkCpuTimes 0 1000000 0))) = 5.
Proof. reflexivity. Qed.

(** ** Agent name and connection id *)

Lemma c_str_terminated (l r : list Z) : c_str (l ++ 0 :: r) = c_str l.
Proof.
  induction l as [| ch l IH]; cbn [c_str app]; [reflexivity |].
  destruct (ch =? 0); [reflexivity | rewrite IH; reflexivity].
Qed.

Lemma c_str_length (l : list Z) : (List.length (c_str l) <= List.length l)%nat.
Proof.
  induction l as [| ch l IH]; cbn [c_str List.length]; [lia |].
  destruct (ch =? 0); cbn [List.length]; lia.
Qed.

Lemma firstn_min_length {A : Type} (n : nat) (l : list A) :
  firstn (Nat.min (List.length l) n) l = firstn n l.
Proof.
  destruct (Nat.le_gt_cases n (List.length l)) as [H | H].
  - rewrite Nat.min_r by exact H. reflexivity.
  - rewrite Nat.min_l by lia. rewrite !firstn_all2 by lia. reflexivity.
Qed.

Lemma copy_size (name array : list Z) :
  (1 <= List.length array)%nat -> len array < 2 ^ 64 ->
  Z.to_nat (Z.min (len name) (size_t (len array - 1))) =
  Nat.min (List.length name) (List.length array - 1).
Proof.
  intros H1 H2. unfold size_t, len in *.
  rewrite Z.mod_small by lia. lia.
Qed.

(** X2: [setAgentName] and [setConnectionId] keep the array at its size
    and leave a NUL-terminated string in it: read as a C string the
    array holds the name cut to one character less than the array is
    long (and at the first NUL of the name), so the string is always
    shorter than the array. *)
Theorem names_are_truncated_and_terminated (name array : list Z) :
  (1 <= List.length array)%nat -> len array < 2 ^ 64 ->
  let capacity := (List.length array - 1)%nat in
  (List.length (setAgentName name array) = List.length array /\
   c_str (setAgentName name array) = c_str (firstn capacity name) /\
   (List.length (c_str (setAgentName name array)) <= capacity)%nat) /\
  (List.length (setConnectionId name array) = List.length array /\
   c_str (setConnectionId name array) = c_str (firstn capacity name) /\
   (List.length (c_str (setConnectionId name array)) <= capacity)%nat).
Proof.
  intros H1 H2 capacity.
  assert (List.length (setAgentName name array) = List.length array /\
          c_str (setAgentName name array) = c_str (firstn capacity name) /\
          (List.length (c_str (setAgentName name array)) <= capacity)%nat) as H.
  { unfold setAgentName. cbv zeta. rewrite copy_size by assumption.
    fold capacity. rewrite firstn_min_length. cbn [app].
    rewrite c_str_terminated.
    split; [| split; [reflexivity |]].
    - rewrite length_app. cbn [List.length]. rewrite length_skipn, length_firstn.
      subst capacity. lia.
    - pose proof (c_str_length (firstn capacity name)) as Hl.
      rewrite length_firstn in Hl. lia. }
  split; [exact H | exact H].
Qed.

Lemma names_are_truncated_and_terminated_witness :
  (1 <= List.length [7; 7; 7; 7])%nat /\
  len [7; 7; 7; 7] < 2 ^ 64 /\
  setAgentName [65; 66; 67; 68; 69] [7; 7; 7; 7] = [65; 66; 67; 0] /\
  c_str (setAgentName [65; 66; 67; 68; 69] [7; 7; 7; 7]) = [65; 66; 67].
Proof.
  assert (1 <= List.length [7; 7; 7; 7])%nat as H1 by (cbn; lia).
  assert (len [7; 7; 7; 7] < 2 ^ 64) as H2 by (vm_compute; reflexivity).
  split; [exact H1 |]. split; [exact H2 |]. split; [reflexivity |].
  destruct (names_are_truncated_and_terminated [65; 66; 67; 68; 69]
              [7; 7; 7; 7] H1 H2) as [[_ [Hs _]] _].
  rewrite Hs. reflexivity.
Defined.

(** ** The event budget *)

Lemma maybeYield_calls_within (k : nat) :
  forall b : EventBudget,
    Z.of_nat k <= numEvents b ->
    maybeYield_calls k b =
    Yielded (repeat false k)
      (mkEventBudget (max_reqs_per_event b) (numEvents b - Z.of_nat k)
         (yields b) (conn_yields b) (triggered b)).
Proof.
  induction k as [| k IH]; intros b Hk.
  - cbn [maybeYield_calls repeat]. destruct b as [m n y cy tr].
    cbn [numEvents max_reqs_per_event yields conn_yields triggered].
    replace (n - Z.of_nat 0) with n by lia. reflexivity.
  - cbn [maybeYield_calls repeat]. unfold maybeYield, INT_MIN.
    destruct (Z.eqb_spec (numEvents b) (- 2 ^ 31)) as [Hmin | _]; [lia |].
    destruct (Z.geb_spec (numEvents b - 1) 0) as [Hge | Hlt]; [| lia].
    rewrite IH by (cbn [numEvents]; lia).
    cbn [numEvents max_reqs_per_event yields conn_yields triggered].
    replace (numEvents b - 1 - Z.of_nat k) with (numEvents b - Z.of_nat (S k))
      by lia.
    reflexivity.
Qed.

Lemma maybeYield_exhausted (b : EventBudget) :
  INT_MIN < numEvents b <= 0 ->
  maybeYield b =
  Yielded true
    (mkEventBudget (max_reqs_per_event b) (numEvents b - 1) (yields b + 1)
       (conn_yields b + 1) (S (triggered b))).
Proof.
  intros H. unfold maybeYield.
  destruct (Z.eqb_spec (numEvents b) INT_MIN) as [Hmin | _]; [lia |].
  destruct (Z.geb_spec (numEvents b - 1) 0) as [Hge | Hlt]; [lia | reflexivity].
Qed.

(** Calls for a budget that is used up ask for a yield each, as long as
    the counter stays an [int]. *)
Lemma maybeYield_calls_exhausted (k : nat) :
  forall b : EventBudget,
    numEvents b <= 0 ->
    INT_MIN <= numEvents b - Z.of_nat k ->
    maybeYield_calls k b =
    Yielded (repeat true k)
      (mkEventBudget (max_reqs_per_event b) (numEvents b - Z.of_nat k)
         (yields b + Z.of_nat k) (conn_yields b + Z.of_nat k)
         (k + triggered b)).
Proof.
  induction k as [| k IH]; intros b Hb Hk.
  - cbn [maybeYield_calls repeat Nat.add]. destruct b as [m n y cy tr].
    cbn [numEvents max_reqs_per_event yields conn_yields triggered].
    f_equal. f_equal; lia.
  - cbn [maybeYield_calls repeat]. rewrite maybeYield_exhausted by lia.
    rewrite IH by (cbn [numEvents]; lia).
    cbn [numEvents max_reqs_per_event yields conn_yields triggered].
    f_equal. f_equal; lia.
Qed.

Lemma maybeYield_calls_app (j k : nat) :
  forall b : EventBudget,
    maybeYield_calls (j + k) b =
    match maybeYield_calls j b with
    | SignedOverflow => SignedOverflow
    | Yielded rs b' =>
        match maybeYield_calls k b' with
        | SignedOverflow => SignedOverflow
        | Yielded rs' b'' => Yielded (rs ++ rs') b''
        end
    end.
Proof.
  induction j as [| j IH]; intros b; cbn [maybeYield_calls Nat.add app].
  - destruct (maybeYield_calls k b); reflexivity.
  - destruct (maybeYield b) as [r b1 |]; [| reflexivity]. rewrite IH.
    destruct (maybeYield_calls j b1) as [rs b2 |]; [| reflexivity].
    destruct (maybeYield_calls k b2) as [rs' b3 |]; reflexivity.
Qed.

(** X3: once [runEventLoop] has set the budget to [max_reqs_per_event],
    [maybeYield] lets exactly that many requests through and asks for a
    yield at the next one, counting it in [yields] and in the thread's
    [conn_yields] and triggering the bufferevent once; until the budget is
    set again every further call asks for a yield too, as long as the
    counter, an [int] that every call decrements, has not reached the
    least [int]: the call that finds it there is not defined. *)
Theorem maybeYield_budget (b : EventBudget) :
  0 <= max_reqs_per_event b <= INT_MAX ->
  let n := Z.to_nat (max_reqs_per_event b) in
  exists b1,
    maybeYield_calls (S n) (reset_numEvents b) =
    Yielded (repeat false n ++ [true]) b1 /\
    numEvents b1 = -1 /\
    yields b1 = yields b + 1 /\
    conn_yields b1 = conn_yields b + 1 /\
    triggered b1 = S (triggered b) /\
    (forall k : nat,
       Z.of_nat k < 2 ^ 31 ->
       exists b2,
         maybeYield_calls k b1 = Yielded (repeat true k) b2 /\
         numEvents b2 = -1 - Z.of_nat k /\
         yields b2 = yields b1 + Z.of_nat k /\
         triggered b2 = (k + triggered b1)%nat) /\
    maybeYield_calls (Z.to_nat (2 ^ 31)) b1 = SignedOverflow.
Proof.
  intros Hmax n.
  replace (S n) with (n + 1)%nat by lia.
  rewrite maybeYield_calls_app.
  rewrite maybeYield_calls_within
    by (unfold reset_numEvents; cbn [numEvents]; subst n; lia).
  cbn [maybeYield_calls].
  rewrite maybeYield_exhausted
    by (unfold reset_numEvents, INT_MIN;
        cbn [numEvents max_reqs_per_event]; subst n; lia).
  unfold reset_numEvents.
  cbn [numEvents max_reqs_per_event yields conn_yields triggered].
  eexists. split; [reflexivity |].
  cbn [numEvents max_reqs_per_event yields conn_yields triggered].
  split; [subst n; lia |].
  do 3 (split; [reflexivity |]).
  assert (Hrest : forall k : nat,
            Z.of_nat k < 2 ^ 31 ->
            maybeYield_calls k
              (mkEventBudget (max_reqs_per_event b)
                 (max_reqs_per_event b - Z.of_nat n - 1) (yields b + 1)
                 (conn_yields b + 1) (S (triggered b))) =
            Yielded (repeat true k)
              (mkEventBudget (max_reqs_per_event b)
                 (max_reqs_per_event b - Z.of_nat n - 1 - Z.of_nat k)
                 (yields b + 1 + Z.of_nat k) (conn_yields b + 1 + Z.of_nat k)
                 (k + S (triggered b)))).
  { intros k Hk.
    rewrite maybeYield_calls_exhausted;
      cbn [numEvents max_reqs_per_event yields conn_yields triggered];
      unfold INT_MIN; subst n; try lia. reflexivity. }
  split.
  - intros k Hk. eexists. split; [apply Hrest; exact Hk |].
    cbn [numEvents yields triggered]. subst n. repeat split; lia.
  - replace (Z.to_nat (2 ^ 31)) with (Z.to_nat (2 ^ 31 - 1) + 1)%nat by lia.
    rewrite maybeYield_calls_app, Hrest by lia.
    cbn [maybeYield_calls]. unfold maybeYield.
    cbn [numEvents]. unfold INT_MIN.
    replace (max_reqs_per_event b - Z.of_nat n - 1 -
             Z.of_nat (Z.to_nat (2 ^ 31 - 1)) =? - 2 ^ 31)
      with true by (symmetry; apply Z.eqb_eq; subst n; lia).
    reflexivity.
Qed.

Lemma maybeYield_budget_witness :
  0 <= 3 <= INT_MAX /\
  exists b1,
    maybeYield_calls 4 (reset_numEvents (mkEventBudget 3 0 0 0 0)) =
    Yielded [false; false; false; true] b1.
Proof.
  assert (H : 0 <= 3 <= INT_MAX) by (unfold INT_MAX; lia).
  split; [exact H |].
  destruct (maybeYield_budget (mkEventBudget 3 0 0 0 0) H) as [b1 [Hrun _]].
  exists b1. exact Hrun.
Defined.

(** ** Packets that are copied to the output *)

Lemma copy_then {A : Type} (data : list Z) (k : M Connection.t A)
    (c : Connection.t) :
  (copyToOutputStream data ;;; k) c =
  if is_nil data then k c
  else if libevent_result c 0 then k (queued (Copied data) c)
       else (Throw bad_alloc, refused c).
Proof.
  unfold bind, copyToOutputStream.
  destruct (is_nil data); [reflexivity |].
  unfold libevent_call, libevent_result. cbn [drop].
  destruct (hd true (Connection.libevent_results c)); reflexivity.
Qed.

Lemma queued_totalSend (seg : Segment) (c : Connection.t) :
  Connection.totalSend (queued seg c) =
  Connection.totalSend c + len (segment_data seg).
Proof. reflexivity. Qed.

Lemma refused_totalSend (c : Connection.t) :
  Connection.totalSend (refused c) = Connection.totalSend c.
Proof. reflexivity. Qed.

Lemma stream_bytes_copied (regions : list (list Z)) :
  stream_bytes (copied_segments regions) = List.concat regions.
Proof.
  unfold stream_bytes, copied_segments.
  induction regions as [| d regions IH]; [reflexivity |].
  cbn [filter List.concat]. destruct d as [| x d]; cbn [is_nil negb].
  - exact IH.
  - cbn [map flat_map segment_data]. rewrite IH. reflexivity.
Qed.

Lemma map_copied_not_referenced (l : list (list Z)) :
  referenced_items (map Copied l) = [].
Proof. induction l as [| d l IH]; [reflexivity | exact IH]. Qed.

Lemma copied_not_referenced (regions : list (list Z)) :
  referenced_items (copied_segments regions) = [].
Proof. unfold copied_segments. apply map_copied_not_referenced. Qed.

(** What a run of copies does, by the answers of libevent: either every
    region that is not empty is accepted and the run goes on with [k], or
    the first refusal ends it with [bad_alloc] and the regions accepted
    before stay queued. *)
Lemma copy_all_then_outcome {A : Type} (regions : list (list Z))
    (k : M Connection.t A) :
  forall c : Connection.t,
    let segs := copied_segments regions in
    (exists c',
        copy_all_then regions k c = k c' /\
        (forall i, (i < List.length segs)%nat -> libevent_result c i = true) /\
        Connection.output c' = Connection.output c ++ segs /\
        Connection.totalSend c' =
        Connection.totalSend c + len (stream_bytes segs) /\
        Connection.released c' = Connection.released c) \/
    (exists j c',
        copy_all_then regions k c = (Throw bad_alloc, c') /\
        (j < List.length segs)%nat /\
        libevent_result c j = false /\
        (forall i, (i < j)%nat -> libevent_result c i = true) /\
        Connection.output c' = Connection.output c ++ firstn j segs /\
        Connection.totalSend c' =
        Connection.totalSend c + len (stream_bytes (firstn j segs)) /\
        Connection.released c' = Connection.released c).
Proof.
  induction regions as [| d regions IH]; intros c segs.
  - left. exists c. subst segs. cbn [copy_all_then copied_segments filter map].
    split; [reflexivity |]. split; [intros i Hi; cbn in Hi; lia |].
    rewrite app_nil_r. split; [reflexivity |].
    split; [cbn; lia | reflexivity].
  - cbn [copy_all_then]. rewrite copy_then.
    destruct d as [| x d].
    + cbn [is_nil]. subst segs. unfold copied_segments. cbn [filter is_nil negb].
      apply IH.
    + cbn [is_nil]. subst segs. unfold copied_segments.
      cbn [filter is_nil negb map]. fold (copied_segments regions).
      set (seg := Copied (x :: d)).
      destruct (libevent_result c 0) eqn:H0.
      * destruct (IH (queued seg c))
          as [[c' [Hrun [Hall [Hout [Htot Hrel]]]]]
             | [j [c' [Hrun [Hj [Hfail [Hbefore [Hout [Htot Hrel]]]]]]]]].
        -- left. exists c'. split; [exact Hrun |].
           split.
           { intros [| i] Hi; [exact H0 |].
             rewrite <- queued_result with (seg := seg). apply Hall.
             cbn [List.length] in Hi. lia. }
           rewrite Hout, Htot, Hrel, queued_output, queued_totalSend,
             queued_released, <- app_assoc.
           split; [reflexivity |]. split; [| reflexivity].
           unfold stream_bytes. cbn [flat_map]. unfold len.
           rewrite length_app. lia.
        -- right. exists (S j), c'. split; [exact Hrun |].
           split; [cbn [List.length]; lia |].
           split; [rewrite <- queued_result with (seg := seg); exact Hfail |].
           split.
           { intros [| i] Hi; [exact H0 |].
             rewrite <- queued_result with (seg := seg). apply Hbefore. lia. }
           rewrite Hout, Htot, Hrel, queued_output, queued_totalSend,
             queued_released, <- app_assoc.
           cbn [firstn]. split; [reflexivity |]. split; [| reflexivity].
           unfold stream_bytes. cbn [flat_map]. unfold len.
           rewrite length_app. lia.
      * right. exists 0%nat, (refused c). split; [reflexivity |].
        split; [cbn [List.length]; lia |]. split; [exact H0 |].
        split; [intros i Hi; lia |].
        cbn [firstn]. rewrite app_nil_r, refused_output, refused_totalSend,
          refused_released.
        split; [reflexivity |]. split; [cbn; lia | reflexivity].
Qed.

(** X4: [add_packet_to_send_pipe] is all or nothing.  An empty packet is a
    success that does not reach libevent; a packet libevent accepts is
    queued whole, as a copy, and counted in [totalSend]; a packet libevent
    refuses gives [ENGINE_E2BIG] and leaves the queue and [totalSend] as
    they were.  It never asks for a disconnect and never throws. *)
Theorem add_packet_to_send_pipe_all_or_nothing (packet : list Z)
    (c : Connection.t) :
  let run := add_packet_to_send_pipe packet c in
  (is_nil packet = true -> run = (Ok ENGINE_SUCCESS, c)) /\
  (is_nil packet = false -> libevent_result c 0 = true ->
   fst run = Ok ENGINE_SUCCESS /\
   Connection.output (snd run) = Connection.output c ++ [Copied packet] /\
   Connection.totalSend (snd run) = Connection.totalSend c + len packet) /\
  (is_nil packet = false -> libevent_result c 0 = false ->
   fst run = Ok ENGINE_E2BIG /\
   Connection.output (snd run) = Connection.output c /\
   Connection.totalSend (snd run) = Connection.totalSend c) /\
  (fst run = Ok ENGINE_SUCCESS \/ fst run = Ok ENGINE_E2BIG) /\
  Connection.released (snd run) = Connection.released c.
Proof.
  cbv zeta. unfold add_packet_to_send_pipe, catch_bad_alloc.
  rewrite copy_then. unfold ret.
  destruct (is_nil packet); [| destruct (libevent_result c 0)]; cbn [fst snd].
  - repeat split; try discriminate; auto.
  - repeat split; try discriminate; auto.
  - repeat split; try discriminate; auto.
Qed.

(** A packet that libevent refuses: nothing of it stays behind. *)
Example add_packet_to_send_pipe_refused :
  add_packet_to_send_pipe [1; 2; 3]
    (Connection.set_libevent_results [false] sample_connection) =
  (Ok ENGINE_E2BIG, sample_connection).
Proof. reflexivity. Qed.

(** X5: [deletionInner] copies the packet, the key, the value and the
    extended meta data to the output in this order, every one as a copy:
    no region of the item stays referenced and nothing has to be
    released later.  It returns Success when libevent accepts every
    region that is not empty, and the output then ends with the bytes of
    the four regions; at the first refusal it returns Disconnect, with
    the regions accepted before left in the output. *)
Theorem deletionInner_copies (value packet extendedMeta key : list Z)
    (c : Connection.t) :
  let segs := copied_segments [packet; key; value; extendedMeta] in
  exists r c',
    deletionInner value packet extendedMeta key c = (Ok r, c') /\
    Connection.released c' = Connection.released c /\
    referenced_items (Connection.output c') =
    referenced_items (Connection.output c) /\
    ((r = ENGINE_SUCCESS /\
      (forall i, (i < List.length segs)%nat -> libevent_result c i = true) /\
      Connection.output c' = Connection.output c ++ segs /\
      stream_bytes (Connection.output c') =
      stream_bytes (Connection.output c) ++
      packet ++ key ++ value ++ extendedMeta /\
      Connection.totalSend c' =
      Connection.totalSend c +
      len (packet ++ key ++ value ++ extendedMeta)) \/
     (r = ENGINE_DISCONNECT /\
      exists j,
        (j < List.length segs)%nat /\
        libevent_result c j = false /\
        (forall i, (i < j)%nat -> libevent_result c i = true) /\
        Connection.output c' = Connection.output c ++ firstn j segs)).
Proof.
  intros segs.
  change (deletionInner value packet extendedMeta key c)
    with (catch_bad_alloc
            (copy_all_then [packet; key; value; extendedMeta]
               (ret ENGINE_SUCCESS))
            (ret ENGINE_DISCONNECT) c).
  unfold catch_bad_alloc.
  destruct (copy_all_then_outcome [packet; key; value; extendedMeta]
              (ret (S := Connection.t) ENGINE_SUCCESS) c)
    as [[c' [Hrun [Hall [Hout [Htot Hrel]]]]]
       | [j [c' [Hrun [Hj [Hfail [Hbefore [Hout [Htot Hrel]]]]]]]]];
    rewrite Hrun; unfold ret; fold segs in Hout, Htot.
  - exists ENGINE_SUCCESS, c'. split; [reflexivity |]. split; [exact Hrel |].
    split.
    { rewrite Hout, referenced_items_app. subst segs.
      rewrite copied_not_referenced, app_nil_r. reflexivity. }
    left. split; [reflexivity |]. split; [exact Hall |].
    split; [exact Hout |].
    assert (stream_bytes segs = packet ++ key ++ value ++ extendedMeta) as Hb.
    { subst segs. rewrite stream_bytes_copied. cbn [List.concat].
      rewrite app_nil_r. reflexivity. }
    split.
    + rewrite Hout. unfold stream_bytes in *. rewrite flat_map_app, Hb.
      reflexivity.
    + rewrite Htot, Hb. reflexivity.
  - exists ENGINE_DISCONNECT, c'. split; [reflexivity |]. split; [exact Hrel |].
    split.
    { rewrite Hout, referenced_items_app.
      assert (referenced_items (firstn j segs) = []) as Hn.
      { subst segs. unfold copied_segments. rewrite firstn_map.
        apply map_copied_not_referenced. }
      rewrite Hn, app_nil_r. reflexivity. }
    right. split; [reflexivity |]. exists j.
    split; [exact Hj |]. split; [exact Hfail |]. split; [exact Hbefore |].
    exact Hout.
Qed.

(** A deletion whose key libevent refuses: the header stays queued and
    the producer asks for a disconnect. *)
Example deletionInner_key_refused :
  let run :=
    deletionInner [1; 2] [128; 88] [] [107]
      (Connection.set_libevent_results [true; false] sample_connection) in
  fst run = Ok ENGINE_DISCONNECT /\
  Connection.output (snd run) = [Copied [128; 88]].
Proof. split; reflexivity. Qed.

(** ** The external authentication manager *)

Section MapProperties.

Context {K V : Type}.
Variable eqb : K -> K -> bool.
Hypothesis eqb_eq : forall a b, eqb a b = true <-> a = b.

Local Abbreviation find := (ExternalAuthManagerThread.find eqb).
Local Abbreviation erase := (ExternalAuthManagerThread.erase eqb).
Local Abbreviation store := (ExternalAuthManagerThread.store eqb).

Lemma eqb_refl_of (a : K) : eqb a a = true.
Proof. apply eqb_eq. reflexivity. Qed.

Lemma eqb_neq_of (a b : K) : a <> b -> eqb a b = false.
Proof.
  intros H. destruct (eqb a b) eqn:E; [| reflexivity].
  apply eqb_eq in E. contradiction.
Qed.

Lemma find_store_same (k : K) (v : V) (m : list (K * V)) :
  find k (store k v m) = Some v.
Proof.
  induction m as [| [k' v'] m IH]; cbn.
  - rewrite eqb_refl_of. reflexivity.
  - destruct (eqb k k') eqn:E; cbn; rewrite E; [reflexivity | exact IH].
Qed.

Lemma find_store_other (k k' : K) (v : V) (m : list (K * V)) :
  k <> k' -> find k' (store k v m) = find k' m.
Proof.
  intros Hne. induction m as [| [k1 v1] m IH]; cbn.
  - rewrite eqb_neq_of by congruence. reflexivity.
  - destruct (eqb k k1) eqn:E; cbn.
    + apply eqb_eq in E. subst k1.
      rewrite eqb_neq_of by congruence. reflexivity.
    + destruct (eqb k' k1); [reflexivity | exact IH].
Qed.

Lemma find_erase_same (k : K) (m : list (K * V)) : find k (erase k m) = None.
Proof.
  induction m as [| [k1 v1] m IH]; cbn; [reflexivity |].
  destruct (eqb k k1) eqn:E; cbn; [exact IH | rewrite E; exact IH].
Qed.

Lemma find_erase_other (k k' : K) (m : list (K * V)) :
  k <> k' -> find k' (erase k m) = find k' m.
Proof.
  intros Hne. induction m as [| [k1 v1] m IH]; cbn; [reflexivity |].
  destruct (eqb k k1) eqn:E; cbn.
  - apply eqb_eq in E. subst k1.
    rewrite eqb_neq_of by congruence. exact IH.
  - destruct (eqb k' k1); [reflexivity | exact IH].
Qed.

Lemma find_in_keys (k : K) (m : list (K * V)) :
  In k (map fst m) <-> find k m <> None.
Proof.
  induction m as [| [k1 v1] m IH]; cbn.
  - split; [contradiction | congruence].
  - destruct (eqb k k1) eqn:E.
    + apply eqb_eq in E. subst k1. split; [discriminate | auto].
    + rewrite <- IH. split; [| auto].
      intros [H | H]; [| exact H].
      subst k1. rewrite eqb_refl_of in E. discriminate.
Qed.

Lemma store_fresh (k : K) (v : V) (m : list (K * V)) :
  find k m = None -> store k v m = m ++ [(k, v)].
Proof.
  induction m as [| [k1 v1] m IH]; cbn; [reflexivity |].
  destruct (eqb k k1); [discriminate |].
  intros H. rewrite IH by exact H. reflexivity.
Qed.

Lemma store_keys_present (k : K) (v : V) (m : list (K * V)) :
  find k m <> None -> map fst (store k v m) = map fst m.
Proof.
  induction m as [| [k1 v1] m IH]; cbn; [congruence |].
  destruct (eqb k k1); [reflexivity |].
  intros H. cbn. rewrite IH by exact H. reflexivity.
Qed.

Lemma store_keys_nodup (k : K) (v : V) (m : list (K * V)) :
  NoDup (map fst m) -> NoDup (map fst (store k v m)).
Proof.
  intros Hnd. destruct (find k m) eqn:E.
  - rewrite store_keys_present by congruence. exact Hnd.
  - rewrite store_fresh by exact E. rewrite map_app. cbn [map fst].
    apply NoDup_app; [exact Hnd | constructor; [intros [] | constructor] |].
    intros a Ha [Hk | []]. subst a.
    apply find_in_keys in Ha. congruence.
Qed.

Lemma erase_keys_nodup (k : K) (m : list (K * V)) :
  NoDup (map fst m) -> NoDup (map fst (erase k m)).
Proof.
  induction m as [| [k1 v1] m IH]; cbn; [auto |].
  intros Hnd. inversion Hnd as [| ? ? Hnot Hrest]; subst.
  destruct (eqb k k1); cbn; [apply IH; exact Hrest |].
  constructor; [| apply IH; exact Hrest].
  intros Hin. apply Hnot.
  unfold ExternalAuthManagerThread.erase in Hin.
  apply in_map_iff in Hin. destruct Hin as [[k2 v2] [Hk Hin]].
  apply filter_In in Hin. destruct Hin as [Hin _].
  apply in_map_iff. exists (k2, v2). split; [exact Hk | exact Hin].
Qed.

Lemma erase_fresh (k : K) (m : list (K * V)) :
  find k m = None -> erase k m = m.
Proof.
  induction m as [| [k1 v1] m IH]; cbn; [reflexivity |].
  destruct (eqb k k1); [discriminate |].
  intros H. cbn. f_equal. apply IH. exact H.
Qed.

Lemma find_app_fresh (k : K) (m m' : list (K * V)) :
  find k m = None -> find k (m ++ m') = find k m'.
Proof.
  induction m as [| [k1 v1] m IH]; cbn; [reflexivity |].
  destruct (eqb k k1); [discriminate | exact IH].
Qed.

Lemma erase_app (k : K) (m m' : list (K * V)) :
  erase k (m ++ m') = erase k m ++ erase k m'.
Proof. unfold ExternalAuthManagerThread.erase. apply filter_app. Qed.

End MapProperties.

Lemma counter_small (bits z : Z) :
  0 <= z < 2 ^ bits -> ExternalAuthManagerThread.counter bits z = z.
Proof. intros H. unfold ExternalAuthManagerThread.counter. apply Z.mod_small. exact H. Qed.

Lemma active_count_find (bits : Z) (users : ExternalAuthManagerThread.Users)
    (user : string) :
  users_well_formed bits users ->
  (ExternalAuthManagerThread.find String.eqb user users = None <->
   active_count users user = 0) /\
  (forall n,
      ExternalAuthManagerThread.find String.eqb user users = Some n ->
      active_count users user = n /\ 1 <= n < 2 ^ bits).
Proof.
  intros [_ Hpos]. unfold active_count.
  destruct (ExternalAuthManagerThread.find String.eqb user users) as [n |] eqn:E.
  - pose proof (Hpos user n E) as Hn. split.
    + split; [discriminate | lia].
    + intros n' Hn'. injection Hn' as <-. split; [reflexivity | exact Hn].
  - split; [tauto | discriminate].
Qed.

Lemma active_count_store (users : ExternalAuthManagerThread.Users)
    (user v : string) (n : Z) :
  active_count (ExternalAuthManagerThread.store String.eqb user n users) v =
  if String.eqb user v then n else active_count users v.
Proof.
  unfold active_count. destruct (String.eqb_spec user v) as [<- | Hne].
  - rewrite (find_store_same String.eqb String.eqb_eq). reflexivity.
  - rewrite (find_store_other String.eqb String.eqb_eq) by exact Hne.
    reflexivity.
Qed.

Lemma active_count_erase (users : ExternalAuthManagerThread.Users)
    (user v : string) :
  active_count (ExternalAuthManagerThread.erase String.eqb user users) v =
  if String.eqb user v then 0 else active_count users v.
Proof.
  unfold active_count. destruct (String.eqb_spec user v) as [<- | Hne].
  - rewrite (find_erase_same String.eqb). reflexivity.
  - rewrite (find_erase_other String.eqb String.eqb_eq) by exact Hne.
    reflexivity.
Qed.

Lemma well_formed_store (bits : Z) (users : ExternalAuthManagerThread.Users)
    (user : string) (n : Z) :
  users_well_formed bits users -> 1 <= n < 2 ^ bits ->
  users_well_formed bits (ExternalAuthManagerThread.store String.eqb user n users).
Proof.
  intros [Hnd Hpos] Hn. split.
  - apply (store_keys_nodup String.eqb String.eqb_eq). exact Hnd.
  - intros u m. destruct (String.eqb_spec user u) as [<- | Hne].
    + rewrite (find_store_same String.eqb String.eqb_eq).
      intros H. injection H as <-. exact Hn.
    + rewrite (find_store_other String.eqb String.eqb_eq) by exact Hne.
      apply Hpos.
Qed.

Lemma well_formed_erase (bits : Z) (users : ExternalAuthManagerThread.Users)
    (user : string) (n : Z) :
  users_well_formed bits users ->
  users_well_formed bits
    (ExternalAuthManagerThread.erase String.eqb user
       (ExternalAuthManagerThread.store String.eqb user n users)).
Proof.
  intros [Hnd Hpos]. split.
  - apply (erase_keys_nodup String.eqb).
    apply (store_keys_nodup String.eqb String.eqb_eq). exact Hnd.
  - intros u m. destruct (String.eqb_spec user u) as [<- | Hne].
    + rewrite (find_erase_same String.eqb). discriminate.
    + rewrite (find_erase_other String.eqb String.eqb_eq) by exact Hne.
      rewrite (find_store_other String.eqb String.eqb_eq) by exact Hne.
      apply Hpos.
Qed.

(** X6: the active users are counted per name.  On a map in which every
    name occurs once and with a count that is not zero, [login] adds one
    to the count of the user and [logoff] takes one away, both leave the
    other users alone and keep the map in that shape, so a [login]
    followed by a [logoff] gives back the counts there were; [logoff] of
    a user who is not logged in throws and changes nothing; and [to_json]
    lists exactly the users whose count is positive. *)
Theorem active_users_are_counted (counter_bits : Z)
    (users : ExternalAuthManagerThread.Users) (user : string) :
  0 < counter_bits ->
  users_well_formed counter_bits users ->
  let login := ExternalAuthManagerThread.login counter_bits in
  let logoff := ExternalAuthManagerThread.logoff counter_bits in
  (active_count users user + 1 < 2 ^ counter_bits ->
   users_well_formed counter_bits (login user users) /\
   (forall v,
       active_count (login user users) v =
       active_count users v + (if String.eqb user v then 1 else 0)) /\
   exists users',
     logoff user (login user users) = ExternalAuthManagerThread.Done users' /\
     forall v, active_count users' v = active_count users v) /\
  (active_count users user = 0 ->
   logoff user users =
   ExternalAuthManagerThread.runtime_error
     "ActiveUsers::logoff: Failed to find user") /\
  (0 < active_count users user ->
   exists users',
     logoff user users = ExternalAuthManagerThread.Done users' /\
     users_well_formed counter_bits users' /\
     forall v,
       active_count users' v =
       active_count users v - (if String.eqb user v then 1 else 0)) /\
  (forall v,
      In v (ExternalAuthManagerThread.to_json users) <->
      0 < active_count users v).
Proof.
  intros Hbits Hwf login logoff.
  assert (2 <= 2 ^ counter_bits) as Hpow.
  { replace 2 with (2 ^ 1) at 1 by reflexivity.
    apply Z.pow_le_mono_r; lia. }
  assert (forall us u,
             users_well_formed counter_bits us -> 0 < active_count us u ->
             exists us',
               logoff u us = ExternalAuthManagerThread.Done us' /\
               users_well_formed counter_bits us' /\
               forall v,
                 active_count us' v =
                 active_count us v - (if String.eqb u v then 1 else 0))
    as Hlogoff.
  { intros us u Hus Hcount.
    destruct (active_count_find counter_bits us u Hus) as [Hnone Hsome].
    subst logoff. unfold ExternalAuthManagerThread.logoff.
    destruct (ExternalAuthManagerThread.find String.eqb u us) as [n |] eqn:E.
    - destruct (Hsome n eq_refl) as [Hc Hn]. cbv zeta.
      rewrite counter_small by lia.
      destruct (Z.eqb_spec (n - 1) 0) as [H0 | H0].
      + eexists. split; [reflexivity |].
        split; [apply well_formed_erase; exact Hus |].
        intros v. rewrite active_count_erase, active_count_store.
        destruct (String.eqb_spec u v) as [<- | Hne]; lia.
      + eexists. split; [reflexivity |].
        split; [apply well_formed_store; [exact Hus | lia] |].
        intros v. rewrite active_count_store.
        destruct (String.eqb_spec u v) as [<- | Hne]; lia.
    - destruct Hnone as [Hnone _]. specialize (Hnone eq_refl). lia. }
  split; [| split; [| split]].
  - intros Hroom.
    destruct (active_count_find counter_bits users user Hwf) as [Hnone Hsome].
    assert (users_well_formed counter_bits (login user users) /\
            forall v,
              active_count (login user users) v =
              active_count users v + (if String.eqb user v then 1 else 0))
      as [Hwf' Hcounts].
    { subst login. unfold ExternalAuthManagerThread.login.
      destruct (ExternalAuthManagerThread.find String.eqb user users)
        as [n |] eqn:E.
      - destruct (Hsome n eq_refl) as [Hc Hn].
        rewrite counter_small by lia.
        split; [apply well_formed_store; [exact Hwf | lia] |].
        intros v. rewrite active_count_store.
        destruct (String.eqb_spec user v) as [<- | Hne]; lia.
      - destruct Hnone as [Hnone _]. specialize (Hnone eq_refl).
        rewrite counter_small by lia.
        split; [apply well_formed_store; [exact Hwf | lia] |].
        intros v. rewrite active_count_store.
        destruct (String.eqb_spec user v) as [<- | Hne]; lia. }
    split; [exact Hwf' |]. split; [exact Hcounts |].
    destruct (Hlogoff (login user users) user Hwf') as [us' [Hrun [_ Hc]]].
    { rewrite Hcounts. rewrite String.eqb_refl.
      destruct Hwf as [_ Hpos]. unfold active_count.
      destruct (ExternalAuthManagerThread.find String.eqb user users)
        as [n |] eqn:E; [pose proof (Hpos user n E) |]; lia. }
    exists us'. split; [exact Hrun |].
    intros v. rewrite Hc, Hcounts. lia.
  - intros Hzero.
    destruct (active_count_find counter_bits users user Hwf) as [Hnone _].
    subst logoff. unfold ExternalAuthManagerThread.logoff.
    rewrite (proj2 Hnone Hzero). reflexivity.
  - apply Hlogoff. exact Hwf.
  - intros v. unfold ExternalAuthManagerThread.to_json.
    rewrite (find_in_keys String.eqb String.eqb_eq).
    destruct (active_count_find counter_bits users v Hwf) as [Hnone Hsome].
    destruct (ExternalAuthManagerThread.find String.eqb v users) as [n |] eqn:E.
    + destruct (Hsome n eq_refl) as [Hc Hn]. split; [lia | discriminate].
    + destruct Hnone as [Hnone _]. specialize (Hnone eq_refl).
      split; [congruence | lia].
Qed.

Lemma active_users_are_counted_witness :
  0 < 32 /\
  users_well_formed 32 [("ann"%string, 2)] /\
  active_count (ExternalAuthManagerThread.login 32 "bob" [("ann"%string, 2)])
    "bob" = 1 /\
  (In "bob"%string (ExternalAuthManagerThread.to_json [("ann"%string, 2)]) <->
   0 < 0).
Proof.
  assert (0 < 32) as Hbits by lia.
  assert (users_well_formed 32 [("ann"%string, 2)]) as Hwf.
  { split.
    - constructor; [intros [] | constructor].
    - intros user n. cbn. destruct (String.eqb user "ann"); [| discriminate].
      intros H. injection H as <-. split; [lia | reflexivity]. }
  split; [exact Hbits |]. split; [exact Hwf |].
  destruct (active_users_are_counted 32 [("ann"%string, 2)] "bob" Hbits Hwf)
    as [Hlogin [_ [_ Hjson]]].
  split.
  - destruct Hlogin as [_ [Hc _]]; [vm_compute; reflexivity |].
    rewrite Hc. reflexivity.
  - exact (Hjson "bob"%string).
Defined.

Lemma find_numbered_below (provider : option Z) (requests : list Z) :
  forall next id,
    id < next ->
    ExternalAuthManagerThread.find Z.eqb id
      (map (map_entry provider) (numbered next requests)) = None.
Proof.
  induction requests as [| r requests IH]; intros next id Hid; [reflexivity |].
  cbn [numbered map map_entry fst snd ExternalAuthManagerThread.find].
  destruct (Z.eqb_spec id next); [lia |].
  apply IH. lia.
Qed.

Lemma cancel_requests_fresh (requests : list Z) :
  forall responses rmap next,
    0 <= next -> next + len requests < 2 ^ 32 ->
    (forall id,
        next <= id < next + len requests ->
        ExternalAuthManagerThread.find Z.eqb id rmap = None) ->
    ExternalAuthManagerThread.cancel_requests requests responses rmap next =
    (responses ++ map down_response (numbered next requests),
     rmap ++ map (map_entry None) (numbered next requests),
     next + len requests).
Proof.
  induction requests as [| r requests IH]; intros responses rmap next H0 Hn Hfresh.
  - cbn [ExternalAuthManagerThread.cancel_requests numbered map].
    rewrite !app_nil_r. unfold len. cbn [List.length]. f_equal. lia.
  - unfold len in *. cbn [List.length] in *.
    cbn [ExternalAuthManagerThread.cancel_requests].
    rewrite (store_fresh Z.eqb) by (apply Hfresh; lia).
    assert (uint32 (next + 1) = next + 1) as Hu
      by (unfold uint32; apply Z.mod_small;
          change 4294967296 with (2 ^ 32); lia).
    rewrite Hu, IH.
    + cbn [numbered map]. rewrite <- !app_assoc. cbn [app].
      unfold down_response at 2, map_entry at 2. cbn [fst snd].
      f_equal. lia.
    + lia.
    + lia.
    + intros id Hid. rewrite (find_app_fresh Z.eqb) by (apply Hfresh; lia).
      cbn [ExternalAuthManagerThread.find].
      destruct (Z.eqb_spec id next); [lia | reflexivity].
Qed.

Lemma build_events_fresh (getTs : Z -> option Z) (ticks provider then_ epoch : Z)
    (requests : list Z) :
  forall events rmap next,
    0 <= next -> next + len requests < 2 ^ 32 ->
    (forall id,
        next <= id < next + len requests ->
        ExternalAuthManagerThread.find Z.eqb id rmap = None) ->
    exists events',
      ExternalAuthManagerThread.build_events getTs ticks provider then_ epoch
        requests events rmap next =
      (events ++ events',
       rmap ++ map (map_entry (Some provider)) (numbered next requests),
       next + len requests) /\
      map (fun ev =>
             (ExternalAuthManagerThread.ev_id ev,
              ExternalAuthManagerThread.ev_request ev)) events' =
      numbered next requests.
Proof.
  induction requests as [| r requests IH]; intros events rmap next H0 Hn Hfresh.
  - exists []. cbn [ExternalAuthManagerThread.build_events numbered map].
    rewrite !app_nil_r. unfold len. cbn [List.length].
    split; [f_equal; lia | reflexivity].
  - unfold len in *. cbn [List.length] in *.
    cbn [ExternalAuthManagerThread.build_events]. cbv zeta.
    rewrite (store_fresh Z.eqb) by (apply Hfresh; lia).
    assert (uint32 (next + 1) = next + 1) as Hu
      by (unfold uint32; apply Z.mod_small;
          change 4294967296 with (2 ^ 32); lia).
    rewrite Hu.
    match goal with
    | |- context [ExternalAuthManagerThread.build_events _ _ _ _ _ _
                    (events ++ [?ev]) ?m (next + 1)] =>
        destruct (IH (events ++ [ev]) m (next + 1)) as [events' [Hrun Hids]];
        [lia | lia | | exists (ev :: events')]
    end.
    + intros id Hid. rewrite (find_app_fresh Z.eqb) by (apply Hfresh; lia).
      cbn [ExternalAuthManagerThread.find].
      destruct (Z.eqb_spec id next); [lia | reflexivity].
    + rewrite Hrun. cbn [numbered map]. rewrite <- !app_assoc. cbn [app].
      unfold map_entry at 2. cbn [fst snd].
      split; [f_equal; lia |].
      cbn [ExternalAuthManagerThread.ev_id ExternalAuthManagerThread.ev_request].
      rewrite Hids. reflexivity.
Qed.

Lemma deliver_responses_fresh (provider : option Z) (requests : list Z) :
  forall rmap delivered next,
    (forall id,
        next <= id < next + len requests ->
        ExternalAuthManagerThread.find Z.eqb id rmap = None) ->
    ExternalAuthManagerThread.deliver_responses
      (map down_response (numbered next requests))
      (rmap ++ map (map_entry provider) (numbered next requests)) delivered =
    (rmap,
     delivered ++
     map (fun r => (snd r, down_response r)) (numbered next requests)).
Proof.
  induction requests as [| r requests IH]; intros rmap delivered next Hfresh.
  - cbn [numbered map ExternalAuthManagerThread.deliver_responses].
    rewrite !app_nil_r. reflexivity.
  - unfold len in *. cbn [List.length] in *.
    cbn [numbered map ExternalAuthManagerThread.deliver_responses].
    change (ExternalAuthManagerThread.response_opaque (down_response (next, r)))
      with next.
    change (map_entry provider (next, r)) with (next, (provider, r)).
    cbn [snd].
    rewrite (find_app_fresh Z.eqb) by (apply Hfresh; lia).
    cbn [ExternalAuthManagerThread.find]. rewrite Z.eqb_refl.
    rewrite (erase_app Z.eqb).
    rewrite (erase_fresh Z.eqb next rmap) by (apply Hfresh; lia).
    replace (ExternalAuthManagerThread.erase Z.eqb next
               ((next, (provider, r))
                :: map (map_entry provider) (numbered (next + 1) requests)))
      with (map (map_entry provider) (numbered (next + 1) requests)).
    + rewrite IH by (intros id Hid; apply Hfresh; lia).
      rewrite <- app_assoc. reflexivity.
    + unfold ExternalAuthManagerThread.erase at 1. cbn [filter fst].
      rewrite Z.eqb_refl. cbn [negb].
      symmetry. apply (erase_fresh Z.eqb).
      apply find_numbered_below. lia.
Qed.

(** *** The visit of [requestMap] *)

Lemma insert_by_permutation (rank : Z -> Z) (entry : Z * (option Z * Z))
    (visited : list (Z * (option Z * Z))) :
  Permutation (ExternalAuthManagerThread.insert_by rank entry visited)
    (entry :: visited).
Proof.
  induction visited as [| x rest IH]; cbn [ExternalAuthManagerThread.insert_by].
  - apply Permutation_refl.
  - destruct (rank (fst entry) <=? rank (fst x)).
    + apply Permutation_refl.
    + apply Permutation_trans with (x :: entry :: rest).
      * apply perm_skip. exact IH.
      * apply perm_swap.
Qed.

(** Whatever the order of the visit, every entry is visited once. *)
Lemma visit_order_permutation
    (position : list (Z * (option Z * Z)) -> Z -> Z)
    (rmap : list (Z * (option Z * Z))) :
  Permutation (ExternalAuthManagerThread.visit_order position rmap) rmap.
Proof.
  unfold ExternalAuthManagerThread.visit_order.
  generalize (position rmap) as rank. intros rank.
  induction rmap as [| entry rmap IH]; cbn [fold_right].
  - apply Permutation_refl.
  - apply Permutation_trans with (entry :: fold_right
        (ExternalAuthManagerThread.insert_by rank) [] rmap).
    + apply insert_by_permutation.
    + apply perm_skip. exact IH.
Qed.

Lemma filter_permutation {A : Type} (f : A -> bool) (l l' : list A) :
  Permutation l l' -> Permutation (filter f l) (filter f l').
Proof.
  induction 1 as [| x l l' _ IH | x y l | l l' l'' _ IH1 _ IH2]; cbn [filter].
  - apply Permutation_refl.
  - destruct (f x); [apply perm_skip |]; exact IH.
  - destruct (f x), (f y);
      try apply Permutation_refl. apply perm_swap.
  - apply Permutation_trans with (filter f l'); assumption.
Qed.

Lemma fail_requests_loop_filter (connection : Z)
    (visited : list (Z * (option Z * Z))) :
  ExternalAuthManagerThread.fail_requests_loop connection visited =
  map down_for (filter (waits_for connection) visited).
Proof.
  induction visited as [| [id [[p |] task]] rest IH];
    cbn [ExternalAuthManagerThread.fail_requests_loop filter];
    [reflexivity | |].
  - unfold waits_for at 1. cbn [snd].
    destruct (p =? connection); cbn [map]; rewrite IH; reflexivity.
  - unfold waits_for at 1. cbn [snd]. exact IH.
Qed.

Lemma waits_for_others (connection : Z) (rmap : list (Z * (option Z * Z))) :
  (forall id task, ~ In (id, (Some connection, task)) rmap) ->
  filter (waits_for connection) rmap = [] /\
  map (ExternalAuthManagerThread.clear_provider connection) rmap = rmap.
Proof.
  intros Hothers.
  induction rmap as [| [id [[p |] task]] rmap IH]; [split; reflexivity | |].
  - destruct IH as [IHf IHm];
      [intros id' task' Hin; apply (Hothers id' task'); right; exact Hin |].
    cbn [filter map ExternalAuthManagerThread.clear_provider].
    unfold waits_for at 1. cbn [snd].
    destruct (Z.eqb_spec p connection) as [-> | Hne].
    + exfalso. apply (Hothers id task). left. reflexivity.
    + rewrite IHf, IHm. split; reflexivity.
  - destruct IH as [IHf IHm];
      [intros id' task' Hin; apply (Hothers id' task'); right; exact Hin |].
    cbn [filter map ExternalAuthManagerThread.clear_provider].
    unfold waits_for at 1. cbn [snd].
    rewrite IHf, IHm. split; reflexivity.
Qed.

Lemma waits_for_waiting (connection : Z) (waiting : list (Z * Z)) :
  filter (waits_for connection) (map (map_entry (Some connection)) waiting) =
  map (map_entry (Some connection)) waiting /\
  map (ExternalAuthManagerThread.clear_provider connection)
    (map (map_entry (Some connection)) waiting) =
  map (map_entry None) waiting.
Proof.
  induction waiting as [| [id task] waiting [IHf IHm]]; [split; reflexivity |].
  change (map (map_entry (Some connection)) ((id, task) :: waiting))
    with ((id, (Some connection, task))
          :: map (map_entry (Some connection)) waiting).
  change (map (map_entry None) ((id, task) :: waiting))
    with ((id, (@None Z, task)) :: map (map_entry None) waiting).
  cbn [map filter ExternalAuthManagerThread.clear_provider].
  unfold waits_for at 1. cbn [snd]. rewrite Z.eqb_refl, IHf, IHm.
  split; reflexivity.
Qed.

(** The inner loop of the purge, for a map whose requests for the
    connection are [waiting]: each gets the response once, in the order
    of the visit, and loses its provider. *)
Lemma fail_requests_of_waiting
    (position : list (Z * (option Z * Z)) -> Z -> Z) (connection : Z)
    (rmap : list (Z * (option Z * Z))) (waiting : list (Z * Z)) :
  (forall id task, ~ In (id, (Some connection, task)) rmap) ->
  exists visited,
    Permutation waiting visited /\
    ExternalAuthManagerThread.fail_requests_of position connection
      (rmap ++ map (map_entry (Some connection)) waiting) =
    (map down_response visited, rmap ++ map (map_entry None) waiting).
Proof.
  intros Hothers.
  destruct (waits_for_others connection rmap Hothers) as [Hf Hm].
  destruct (waits_for_waiting connection waiting) as [Hfw Hmw].
  pose proof (filter_permutation (waits_for connection) _ _
                (visit_order_permutation position
                   (rmap ++ map (map_entry (Some connection)) waiting)))
    as Hperm.
  rewrite filter_app, Hf, Hfw in Hperm. cbn [app] in Hperm.
  apply Permutation_map_inv in Hperm. destruct Hperm as [visited [Hv Hp]].
  exists visited. split; [exact Hp |].
  unfold ExternalAuthManagerThread.fail_requests_of.
  rewrite fail_requests_loop_filter, Hv, map_app, Hm, Hmw, map_map.
  reflexivity.
Qed.

Lemma numbered_range (requests : list Z) :
  forall next r,
    In r (numbered next requests) -> next <= fst r < next + len requests.
Proof.
  induction requests as [| x requests IH]; intros next r Hin; [destruct Hin |].
  unfold len in *. cbn [List.length numbered] in *.
  destruct Hin as [<- | Hin].
  - cbn [fst]. lia.
  - specialize (IH (next + 1) r Hin). lia.
Qed.

Lemma numbered_keys_nodup (requests : list Z) :
  forall next, NoDup (map fst (numbered next requests)).
Proof.
  induction requests as [| x requests IH]; intros next; cbn [numbered map fst].
  - constructor.
  - constructor; [| apply IH].
    intros Hin. apply in_map_iff in Hin. destruct Hin as [r [Hr Hin]].
    apply numbered_range in Hin. lia.
Qed.

Lemma find_waiting (provider : option Z) (before after : list (Z * Z))
    (r : Z * Z) :
  ~ In (fst r) (map fst before) ->
  ExternalAuthManagerThread.find Z.eqb (fst r)
    (map (map_entry provider) (before ++ r :: after)) = Some (provider, snd r).
Proof.
  induction before as [| x before IH]; intros Hnew;
    cbn [app map ExternalAuthManagerThread.find map_entry fst snd].
  - rewrite Z.eqb_refl. reflexivity.
  - unfold map_entry at 1.
    destruct (Z.eqb_spec (fst r) (fst x)) as [E | _].
    + exfalso. apply Hnew. left. symmetry. exact E.
    + apply IH. intros Hin. apply Hnew. right. exact Hin.
Qed.

Lemma erase_waiting (provider : option Z) (before after : list (Z * Z))
    (r : Z * Z) :
  NoDup (map fst (before ++ r :: after)) ->
  ExternalAuthManagerThread.erase Z.eqb (fst r)
    (map (map_entry provider) (before ++ r :: after)) =
  map (map_entry provider) (before ++ after).
Proof.
  intros Hnodup. rewrite map_app in Hnodup. cbn [map] in Hnodup.
  pose proof (NoDup_remove_2 _ _ _ Hnodup) as Hnot.
  assert (Hkeep : forall l : list (Z * Z),
            ~ In (fst r) (map fst l) ->
            ExternalAuthManagerThread.erase Z.eqb (fst r)
              (map (map_entry provider) l) = map (map_entry provider) l).
  { induction l as [| x l IH]; intros Hl; [reflexivity |].
    unfold ExternalAuthManagerThread.erase in *. cbn [map filter].
    unfold map_entry at 1. cbn [fst].
    destruct (Z.eqb_spec (fst r) (fst x)) as [E | _].
    - exfalso. apply Hl. left. symmetry. exact E.
    - cbn [negb]. fold (map_entry provider x). f_equal.
      apply IH. intros Hin. apply Hl. right. exact Hin. }
  rewrite !map_app. cbn [map]. rewrite (erase_app Z.eqb).
  rewrite Hkeep by (intros Hin; apply Hnot, in_or_app; left; exact Hin).
  f_equal.
  unfold ExternalAuthManagerThread.erase at 1. cbn [filter].
  unfold map_entry at 1. cbn [fst]. rewrite Z.eqb_refl. cbn [negb].
  apply Hkeep. intros Hin. apply Hnot, in_or_app. right. exact Hin.
Qed.

(** Responses for the waiting requests are delivered in the order they
    were queued in, whatever that is, each to its task, and their entries
    leave the map. *)
Lemma deliver_responses_permuted (rmap : list (Z * (option Z * Z)))
    (visited : list (Z * Z)) :
  forall (waiting : list (Z * Z))
         (delivered : list (Z * ExternalAuthManagerThread.AuthResponse)),
    NoDup (map fst waiting) ->
    (forall r,
        In r waiting -> ExternalAuthManagerThread.find Z.eqb (fst r) rmap = None) ->
    Permutation waiting visited ->
    ExternalAuthManagerThread.deliver_responses (map down_response visited)
      (rmap ++ map (map_entry None) waiting) delivered =
    (rmap, delivered ++ map (fun r => (snd r, down_response r)) visited).
Proof.
  induction visited as [| r visited IH]; intros waiting delivered Hnodup Hfresh Hperm.
  - apply Permutation_sym, Permutation_nil in Hperm. subst waiting.
    cbn [map ExternalAuthManagerThread.deliver_responses].
    rewrite !app_nil_r. reflexivity.
  - assert (Hin : In r waiting)
      by (apply (Permutation_in r (Permutation_sym Hperm)); left; reflexivity).
    apply in_split in Hin. destruct Hin as [before [after ->]].
    apply Permutation_sym, Permutation_cons_app_inv, Permutation_sym in Hperm.
    cbn [map ExternalAuthManagerThread.deliver_responses].
    change (ExternalAuthManagerThread.response_opaque (down_response r))
      with (fst r).
    rewrite (find_app_fresh Z.eqb)
      by (apply Hfresh, in_or_app; right; left; reflexivity).
    rewrite find_waiting
      by (rewrite map_app in Hnodup; cbn [map] in Hnodup;
          intros Hin; apply (NoDup_remove_2 _ _ _ Hnodup), in_or_app;
          left; exact Hin).
    rewrite (erase_app Z.eqb).
    rewrite (erase_fresh Z.eqb (fst r) rmap)
      by (apply Hfresh, in_or_app; right; left; reflexivity).
    rewrite erase_waiting by exact Hnodup.
    rewrite IH.
    + rewrite <- app_assoc. reflexivity.
    + rewrite map_app in *. cbn [map] in Hnodup.
      apply (NoDup_remove_1 _ _ _ Hnodup).
    + intros x Hx. apply Hfresh. apply in_app_or in Hx.
      apply in_or_app. destruct Hx as [Hx | Hx]; [left | right; right]; exact Hx.
    + exact Hperm.
Qed.

(** X7: without a provider every queued request is cancelled.
    [processRequestQueue] empties the queue, gives the requests the ids
    from [next] on, in order, and queues for each the response that the
    service is down, handing nothing to a connection; the next
    [processResponseQueue] delivers these responses to their tasks in
    the same order, each once, and leaves [requestMap] as it was. *)
Theorem requests_without_a_provider (getExternalUserTimestamp : Z -> option Z)
    (ticks_per_second now : Z) (m : ExternalAuthManagerThread.t) :
  let requests := ExternalAuthManagerThread.incomingRequests m in
  let first := ExternalAuthManagerThread.next m in
  ExternalAuthManagerThread.connections m = [] ->
  ExternalAuthManagerThread.incommingResponse m = [] ->
  0 <= first -> first + len requests < 2 ^ 32 ->
  (forall id,
      first <= id < first + len requests ->
      ExternalAuthManagerThread.find Z.eqb id
        (ExternalAuthManagerThread.requestMap m) = None) ->
  let m1 :=
    ExternalAuthManagerThread.processRequestQueue getExternalUserTimestamp
      ticks_per_second now m in
  let m2 := ExternalAuthManagerThread.processResponseQueue m1 in
  ExternalAuthManagerThread.incomingRequests m1 = [] /\
  ExternalAuthManagerThread.incommingResponse m1 =
  map down_response (numbered first requests) /\
  ExternalAuthManagerThread.next m1 = first + len requests /\
  ExternalAuthManagerThread.enqueued m1 = ExternalAuthManagerThread.enqueued m /\
  ExternalAuthManagerThread.signalled m1 = ExternalAuthManagerThread.signalled m /\
  ExternalAuthManagerThread.incommingResponse m2 = [] /\
  ExternalAuthManagerThread.delivered m2 =
  ExternalAuthManagerThread.delivered m ++
  map (fun r => (snd r, down_response r)) (numbered first requests) /\
  ExternalAuthManagerThread.requestMap m2 = ExternalAuthManagerThread.requestMap m.
Proof.
  intros requests first Hnone Hempty H0 Hn Hfresh m1 m2.
  subst m2 m1. unfold ExternalAuthManagerThread.processRequestQueue.
  rewrite Hnone, Hempty.
  fold requests. fold first.
  rewrite (cancel_requests_fresh requests [] _ first H0 Hn Hfresh).
  cbn [app].
  unfold ExternalAuthManagerThread.processResponseQueue.
  cbn [ExternalAuthManagerThread.incomingRequests
       ExternalAuthManagerThread.incommingResponse
       ExternalAuthManagerThread.next ExternalAuthManagerThread.enqueued
       ExternalAuthManagerThread.signalled ExternalAuthManagerThread.requestMap
       ExternalAuthManagerThread.delivered].
  rewrite (deliver_responses_fresh None requests _ _ first Hfresh).
  cbn [ExternalAuthManagerThread.incomingRequests
       ExternalAuthManagerThread.incommingResponse
       ExternalAuthManagerThread.next ExternalAuthManagerThread.enqueued
       ExternalAuthManagerThread.signalled ExternalAuthManagerThread.requestMap
       ExternalAuthManagerThread.delivered].
  repeat (split; [reflexivity |]). reflexivity.
Qed.

Lemma requests_without_a_provider_witness :
  let m :=
    ExternalAuthManagerThread.enqueueRequest 71
      (ExternalAuthManagerThread.enqueueRequest 70 idle_manager) in
  ExternalAuthManagerThread.delivered
    (ExternalAuthManagerThread.processResponseQueue
       (ExternalAuthManagerThread.processRequestQueue (fun _ => None) 1 0 m)) =
  [(70, down_response (0, 70)); (71, down_response (1, 71))].
Proof.
  cbv zeta.
  destruct (requests_without_a_provider (fun _ => None) 1 0
              (ExternalAuthManagerThread.enqueueRequest 71
                 (ExternalAuthManagerThread.enqueueRequest 70 idle_manager)))
    as [_ [_ [_ [_ [_ [_ [Hd _]]]]]]];
    [reflexivity | reflexivity | cbn; lia | vm_compute; reflexivity
    | intros id _; reflexivity | exact Hd].
Defined.

(** X8: requests that were sent to a provider which then goes away are
    failed.  With a provider connected, [processRequestQueue] hands the
    first connection one server event per request, with the ids from
    [next] on, signals it once and queues no response; after [remove] of
    the provider, [purgePendingDeadConnections] drops the reference to
    the connection, signals it and queues for each of the requests the
    response that the service is down, in the order in which the loop
    visits the map, which is not specified; [processResponseQueue]
    delivers these to the tasks in that order, each once, leaving
    [requestMap] as it was before the requests came in. *)
Theorem requests_of_a_lost_provider
    (position : list (Z * (option Z * Z)) -> Z -> Z)
    (getExternalUserTimestamp : Z -> option Z)
    (ticks_per_second now provider : Z) (others : list Z)
    (m : ExternalAuthManagerThread.t) :
  let requests := ExternalAuthManagerThread.incomingRequests m in
  let first := ExternalAuthManagerThread.next m in
  ExternalAuthManagerThread.connections m = provider :: others ->
  ExternalAuthManagerThread.pendingRemoveConnection m = [] ->
  ExternalAuthManagerThread.incommingResponse m = [] ->
  0 <= first -> first + len requests < 2 ^ 32 ->
  (forall id,
      first <= id < first + len requests ->
      ExternalAuthManagerThread.find Z.eqb id
        (ExternalAuthManagerThread.requestMap m) = None) ->
  (forall id task,
      ~ In (id, (Some provider, task)) (ExternalAuthManagerThread.requestMap m)) ->
  let m1 :=
    ExternalAuthManagerThread.processRequestQueue getExternalUserTimestamp
      ticks_per_second now m in
  let m2 := ExternalAuthManagerThread.remove provider m1 in
  let m3 := ExternalAuthManagerThread.purgePendingDeadConnections position m2 in
  let m4 := ExternalAuthManagerThread.processResponseQueue m3 in
  (exists events,
      ExternalAuthManagerThread.enqueued m1 =
      ExternalAuthManagerThread.enqueued m ++ map (pair provider) events /\
      map (fun ev =>
             (ExternalAuthManagerThread.ev_id ev,
              ExternalAuthManagerThread.ev_request ev)) events =
      numbered first requests) /\
  ExternalAuthManagerThread.incomingRequests m1 = [] /\
  ExternalAuthManagerThread.incommingResponse m1 = [] /\
  ExternalAuthManagerThread.signalled m1 =
  ExternalAuthManagerThread.signalled m ++ [provider] /\
  ExternalAuthManagerThread.connections m2 = others /\
  ExternalAuthManagerThread.pendingRemoveConnection m3 = [] /\
  ExternalAuthManagerThread.refcount_calls m3 =
  ExternalAuthManagerThread.refcount_calls m ++ [(provider, -1)] /\
  ExternalAuthManagerThread.signalled m3 =
  ExternalAuthManagerThread.signalled m1 ++ [provider] /\
  (exists visited,
      Permutation (numbered first requests) visited /\
      ExternalAuthManagerThread.incommingResponse m3 =
      map down_response visited /\
      ExternalAuthManagerThread.delivered m4 =
      ExternalAuthManagerThread.delivered m ++
      map (fun r => (snd r, down_response r)) visited) /\
  ExternalAuthManagerThread.incommingResponse m4 = [] /\
  ExternalAuthManagerThread.requestMap m4 = ExternalAuthManagerThread.requestMap m.
Proof.
  intros requests first Hconn Hpending Hempty H0 Hn Hfresh Hothers m1 m2 m3 m4.
  destruct (build_events_fresh getExternalUserTimestamp ticks_per_second
              provider
              (now - 2 * ExternalAuthManagerThread.activeUsersPushInterval m)
              (ExternalAuthManagerThread.rbacCacheEpoch m) requests []
              (ExternalAuthManagerThread.requestMap m) first H0 Hn Hfresh)
    as [events [Hbuild Hids]].
  assert (m1 =
          ExternalAuthManagerThread.mk (provider :: others) [] [] []
            (ExternalAuthManagerThread.requestMap m ++
             map (map_entry (Some provider)) (numbered first requests))
            (first + len requests)
            (ExternalAuthManagerThread.rbacCacheEpoch m)
            (ExternalAuthManagerThread.activeUsersPushInterval m)
            (ExternalAuthManagerThread.refcount_calls m)
            (ExternalAuthManagerThread.signalled m ++ [provider])
            (ExternalAuthManagerThread.enqueued m ++ map (pair provider) events)
            (ExternalAuthManagerThread.delivered m)) as H1.
  { subst m1. unfold ExternalAuthManagerThread.processRequestQueue.
    rewrite Hconn. cbv zeta. fold requests. fold first.
    rewrite Hbuild, Hpending, Hempty. reflexivity. }
  assert (m2 =
          ExternalAuthManagerThread.mk others [provider] [] []
            (ExternalAuthManagerThread.requestMap m ++
             map (map_entry (Some provider)) (numbered first requests))
            (first + len requests)
            (ExternalAuthManagerThread.rbacCacheEpoch m)
            (ExternalAuthManagerThread.activeUsersPushInterval m)
            (ExternalAuthManagerThread.refcount_calls m)
            (ExternalAuthManagerThread.signalled m ++ [provider])
            (ExternalAuthManagerThread.enqueued m ++ map (pair provider) events)
            (ExternalAuthManagerThread.delivered m)) as H2.
  { subst m2. rewrite H1. unfold ExternalAuthManagerThread.remove.
    cbn [ExternalAuthManagerThread.connections existsb
         ExternalAuthManagerThread.erase_first].
    rewrite Z.eqb_refl. reflexivity. }
  destruct (fail_requests_of_waiting position provider
              (ExternalAuthManagerThread.requestMap m)
              (numbered first requests) Hothers)
    as [visited [Hperm Hfail]].
  assert (m3 =
          ExternalAuthManagerThread.mk others [] []
            (map down_response visited)
            (ExternalAuthManagerThread.requestMap m ++
             map (map_entry None) (numbered first requests))
            (first + len requests)
            (ExternalAuthManagerThread.rbacCacheEpoch m)
            (ExternalAuthManagerThread.activeUsersPushInterval m)
            (ExternalAuthManagerThread.refcount_calls m ++ [(provider, -1)])
            ((ExternalAuthManagerThread.signalled m ++ [provider]) ++ [provider])
            (ExternalAuthManagerThread.enqueued m ++ map (pair provider) events)
            (ExternalAuthManagerThread.delivered m)) as H3.
  { subst m3. rewrite H2.
    unfold ExternalAuthManagerThread.purgePendingDeadConnections.
    cbn [ExternalAuthManagerThread.pendingRemoveConnection
         ExternalAuthManagerThread.purge_connections
         ExternalAuthManagerThread.requestMap].
    rewrite Hfail. reflexivity. }
  assert (m4 =
          ExternalAuthManagerThread.mk others [] [] []
            (ExternalAuthManagerThread.requestMap m)
            (first + len requests)
            (ExternalAuthManagerThread.rbacCacheEpoch m)
            (ExternalAuthManagerThread.activeUsersPushInterval m)
            (ExternalAuthManagerThread.refcount_calls m ++ [(provider, -1)])
            ((ExternalAuthManagerThread.signalled m ++ [provider]) ++ [provider])
            (ExternalAuthManagerThread.enqueued m ++ map (pair provider) events)
            (ExternalAuthManagerThread.delivered m ++
             map (fun r => (snd r, down_response r)) visited))
    as H4.
  { subst m4. rewrite H3.
    unfold ExternalAuthManagerThread.processResponseQueue.
    cbn [ExternalAuthManagerThread.incommingResponse
         ExternalAuthManagerThread.requestMap
         ExternalAuthManagerThread.delivered].
    rewrite (deliver_responses_permuted _ visited (numbered first requests)).
    - reflexivity.
    - apply numbered_keys_nodup.
    - intros r Hr. apply Hfresh. apply numbered_range. exact Hr.
    - exact Hperm. }
  rewrite H1, H2, H3, H4.
  split; [exists events; split; [reflexivity | exact Hids] |].
  repeat (split; [reflexivity |]).
  split; [| split; reflexivity].
  exists visited. split; [exact Hperm |]. split; reflexivity.
Qed.

Lemma requests_of_a_lost_provider_witness :
  let m :=
    ExternalAuthManagerThread.enqueueRequest 70
      (ExternalAuthManagerThread.add 5 idle_manager) in
  ExternalAuthManagerThread.requestMap
    (ExternalAuthManagerThread.processResponseQueue
       (ExternalAuthManagerThread.purgePendingDeadConnections (fun _ id => - id)
          (ExternalAuthManagerThread.remove 5
             (ExternalAuthManagerThread.processRequestQueue (fun _ => None) 1
                0 m)))) = [].
Proof.
  cbv zeta.
  destruct (requests_of_a_lost_provider (fun _ id => - id) (fun _ => None) 1 0
              5 []
              (ExternalAuthManagerThread.enqueueRequest 70
                 (ExternalAuthManagerThread.add 5 idle_manager)))
    as [_ [_ [_ [_ [_ [_ [_ [_ [_ [_ Hmap]]]]]]]]]];
    [reflexivity | reflexivity | reflexivity | cbn; lia
    | vm_compute; reflexivity | intros id _; reflexivity
    | intros id task [] | exact Hmap].
Defined.

(** With three requests and a map that is visited from the newest entry
    to the oldest, the tasks are answered in that order. *)
Example requests_answered_in_visit_order :
  let m :=
    ExternalAuthManagerThread.enqueueRequest 72
      (ExternalAuthManagerThread.enqueueRequest 71
         (ExternalAuthManagerThread.enqueueRequest 70
            (ExternalAuthManagerThread.add 5 idle_manager))) in
  map fst
    (ExternalAuthManagerThread.delivered
       (ExternalAuthManagerThread.processResponseQueue
          (ExternalAuthManagerThread.purgePendingDeadConnections
             (fun _ id => - id)
             (ExternalAuthManagerThread.remove 5
                (ExternalAuthManagerThread.processRequestQueue (fun _ => None)
                   1 0 m))))) = [72; 71; 70].
Proof. vm_compute. reflexivity. Qed.

(** X9: registering a provider and taking it away again balance.  [remove]
    of a connection that is not registered changes nothing; for a
    connection that is not registered yet, [add] followed by [remove]
    leaves the list of providers as it was and the connection waiting to
    be purged; and when no request waits for it the purge calls
    [decrementRefcount] once for the [incrementRefcount] of [add],
    signals the connection and queues no response. *)
Theorem provider_registration_balances
    (position : list (Z * (option Z * Z)) -> Z -> Z) (connection : Z)
    (m : ExternalAuthManagerThread.t) :
  ~ In connection (ExternalAuthManagerThread.connections m) ->
  ExternalAuthManagerThread.pendingRemoveConnection m = [] ->
  (forall id task,
      ~ In (id, (Some connection, task)) (ExternalAuthManagerThread.requestMap m)) ->
  let m1 := ExternalAuthManagerThread.add connection m in
  let m2 := ExternalAuthManagerThread.remove connection m1 in
  let m3 := ExternalAuthManagerThread.purgePendingDeadConnections position m2 in
  ExternalAuthManagerThread.remove connection m = m /\
  ExternalAuthManagerThread.connections m2 =
  ExternalAuthManagerThread.connections m /\
  ExternalAuthManagerThread.pendingRemoveConnection m2 = [connection] /\
  ExternalAuthManagerThread.connections m3 =
  ExternalAuthManagerThread.connections m /\
  ExternalAuthManagerThread.pendingRemoveConnection m3 = [] /\
  ExternalAuthManagerThread.refcount_calls m3 =
  ExternalAuthManagerThread.refcount_calls m ++
  [(connection, 1); (connection, -1)] /\
  ExternalAuthManagerThread.signalled m3 =
  ExternalAuthManagerThread.signalled m ++ [connection] /\
  ExternalAuthManagerThread.incommingResponse m3 =
  ExternalAuthManagerThread.incommingResponse m /\
  ExternalAuthManagerThread.requestMap m3 = ExternalAuthManagerThread.requestMap m.
Proof.
  intros Hnew Hpending Hothers m1 m2 m3.
  assert (existsb (Z.eqb connection) (ExternalAuthManagerThread.connections m)
          = false) as Hnot.
  { destruct (existsb _ _) eqn:E; [| reflexivity].
    apply existsb_exists in E. destruct E as [x [Hin Hx]].
    apply Z.eqb_eq in Hx. subst x. contradiction. }
  assert (forall l,
             ~ In connection l ->
             ExternalAuthManagerThread.erase_first connection (l ++ [connection])
             = l) as Herase.
  { induction l as [| x l IH]; intros Hl;
      cbn [app ExternalAuthManagerThread.erase_first].
    - rewrite Z.eqb_refl. reflexivity.
    - destruct (Z.eqb_spec x connection) as [-> | Hne].
      + exfalso. apply Hl. left. reflexivity.
      + rewrite IH; [reflexivity |]. intros Hin. apply Hl. right. exact Hin. }
  split.
  { unfold ExternalAuthManagerThread.remove. rewrite Hnot. reflexivity. }
  assert (m2 =
          ExternalAuthManagerThread.mk (ExternalAuthManagerThread.connections m)
            [connection] (ExternalAuthManagerThread.incomingRequests m)
            (ExternalAuthManagerThread.incommingResponse m)
            (ExternalAuthManagerThread.requestMap m)
            (ExternalAuthManagerThread.next m)
            (ExternalAuthManagerThread.rbacCacheEpoch m)
            (ExternalAuthManagerThread.activeUsersPushInterval m)
            (ExternalAuthManagerThread.refcount_calls m ++ [(connection, 1)])
            (ExternalAuthManagerThread.signalled m)
            (ExternalAuthManagerThread.enqueued m)
            (ExternalAuthManagerThread.delivered m)) as H2.
  { subst m2 m1. unfold ExternalAuthManagerThread.remove, ExternalAuthManagerThread.add.
    cbn [ExternalAuthManagerThread.connections
         ExternalAuthManagerThread.pendingRemoveConnection
         ExternalAuthManagerThread.incomingRequests
         ExternalAuthManagerThread.incommingResponse
         ExternalAuthManagerThread.requestMap ExternalAuthManagerThread.next
         ExternalAuthManagerThread.rbacCacheEpoch
         ExternalAuthManagerThread.activeUsersPushInterval
         ExternalAuthManagerThread.refcount_calls
         ExternalAuthManagerThread.signalled ExternalAuthManagerThread.enqueued
         ExternalAuthManagerThread.delivered].
    rewrite existsb_app. cbn [existsb]. rewrite Z.eqb_refl, orb_true_r.
    cbn [orb]. rewrite Herase by exact Hnew. rewrite Hpending. reflexivity. }
  subst m3. rewrite H2.
  unfold ExternalAuthManagerThread.purgePendingDeadConnections.
  cbn [ExternalAuthManagerThread.pendingRemoveConnection
       ExternalAuthManagerThread.purge_connections
       ExternalAuthManagerThread.requestMap].
  destruct (fail_requests_of_waiting position connection
              (ExternalAuthManagerThread.requestMap m) [] Hothers)
    as [visited [Hperm Hfail]].
  apply Permutation_nil in Hperm. subst visited.
  cbn [map] in Hfail. rewrite !app_nil_r in Hfail. rewrite Hfail.
  cbn [ExternalAuthManagerThread.connections
       ExternalAuthManagerThread.pendingRemoveConnection
       ExternalAuthManagerThread.refcount_calls
       ExternalAuthManagerThread.signalled
       ExternalAuthManagerThread.incommingResponse
       ExternalAuthManagerThread.requestMap].
  rewrite <- app_assoc, app_nil_r.
  repeat (split; [reflexivity |]). reflexivity.
Qed.

Lemma provider_registration_balances_witness :
  ExternalAuthManagerThread.refcount_calls
    (ExternalAuthManagerThread.purgePendingDeadConnections (fun _ id => id)
       (ExternalAuthManagerThread.remove 5
          (ExternalAuthManagerThread.add 5 idle_manager))) =
  [(5, 1); (5, -1)].
Proof.
  destruct (provider_registration_balances (fun _ id => id) 5 idle_manager)
    as [_ [_ [_ [_ [_ [Hr _]]]]]];
    [intros [] | reflexivity | intros id task [] | exact Hr].
Defined.

(** ** The list of connections with pending IO *)

Lemma is_list_functional (links : PendingIoList.Links) (l1 : list Z) :
  forall head l2,
    PendingIoList.is_list links head l1 ->
    PendingIoList.is_list links head l2 -> l1 = l2.
Proof.
  induction l1 as [| x l1 IH]; intros head [| y l2] H1 H2;
    cbn [PendingIoList.is_list] in *.
  - reflexivity.
  - destruct H2 as [H2 _]. congruence.
  - destruct H1 as [H1 _]. congruence.
  - destruct H1 as [H1 H1'], H2 as [H2 H2'].
    assert (x = y) by congruence. subst y.
    f_equal. apply (IH (links x)); assumption.
Qed.

Lemma is_list_suffix (links : PendingIoList.Links) (a : list Z) :
  forall head b,
    PendingIoList.is_list links head (a ++ b) ->
    exists head', PendingIoList.is_list links head' b.
Proof.
  induction a as [| x a IH]; intros head b H; cbn [app] in H.
  - exists head. exact H.
  - destruct H as [_ H]. apply (IH _ _ H).
Qed.

Lemma is_list_nodup (links : PendingIoList.Links) (l : list Z) :
  forall head, PendingIoList.is_list links head l -> NoDup l.
Proof.
  induction l as [| x l IH]; intros head H; [constructor |].
  destruct H as [Hhead Hrest]. constructor; [| apply (IH _ Hrest)].
  intros Hin. apply in_split in Hin. destruct Hin as [a [b Hl]].
  rewrite Hl in Hrest.
  destruct (is_list_suffix links a _ _ Hrest) as [head' Hsuf].
  destruct Hsuf as [_ Hb].
  pose proof (is_list_functional links _ _ _ Hrest Hb) as Heq.
  apply (f_equal (@List.length Z)) in Heq.
  rewrite length_app in Heq. cbn [List.length] in Heq. lia.
Qed.

Lemma is_list_setNext_outside (links : PendingIoList.Links) (c : Z)
    (n : option Z) (l : list Z) :
  forall head,
    PendingIoList.is_list links head l -> ~ In c l ->
    PendingIoList.is_list (PendingIoList.setNext c n links) head l.
Proof.
  induction l as [| x l IH]; intros head H Hc; [exact H |].
  destruct H as [Hhead Hrest]. split; [exact Hhead |].
  unfold PendingIoList.setNext at 2.
  destruct (Z.eqb_spec x c) as [-> | Hne].
  - exfalso. apply Hc. left. reflexivity.
  - apply IH; [exact Hrest |]. intros Hin. apply Hc. right. exact Hin.
Qed.

Lemma list_contains_is_list (links : PendingIoList.Links) (needle : Z)
    (l : list Z) :
  forall head fuel,
    PendingIoList.is_list links head l -> (List.length l <= fuel)%nat ->
    PendingIoList.list_contains fuel links head needle =
    Some (existsb (Z.eqb needle) l).
Proof.
  induction l as [| x l IH]; intros head fuel H Hfuel.
  - cbn [PendingIoList.is_list] in H. subst head.
    destruct fuel; reflexivity.
  - destruct H as [-> Hrest]. cbn [List.length] in Hfuel.
    destruct fuel as [| fuel]; [lia |].
    cbn [PendingIoList.list_contains existsb].
    destruct (needle =? x); [reflexivity |].
    cbn [orb]. apply IH; [exact Hrest | lia].
Qed.

Lemma number_of_pending_is_list (links : PendingIoList.Links) (c : Z)
    (l : list Z) :
  forall head fuel rv,
    PendingIoList.is_list links head l -> (List.length l <= fuel)%nat ->
    PendingIoList.number_of_pending_loop fuel links c head rv =
    Some (rv + Z.of_nat (count_occ Z.eq_dec l c)).
Proof.
  induction l as [| x l IH]; intros head fuel rv H Hfuel.
  - cbn [PendingIoList.is_list] in H. subst head.
    destruct fuel; cbn; f_equal; lia.
  - destruct H as [-> Hrest]. cbn [List.length] in Hfuel.
    destruct fuel as [| fuel]; [lia |].
    cbn [PendingIoList.number_of_pending_loop count_occ].
    rewrite (IH _ _ _ Hrest) by lia.
    destruct (Z.eqb_spec x c) as [-> | Hne].
    + destruct (Z.eq_dec c c); [| contradiction]. f_equal. lia.
    + destruct (Z.eq_dec x c); [contradiction |]. reflexivity.
Qed.

Lemma count_occ_nodup (l : list Z) (c : Z) :
  NoDup l ->
  Z.of_nat (count_occ Z.eq_dec l c) = if existsb (Z.eqb c) l then 1 else 0.
Proof.
  induction l as [| x l IH]; intros Hnd; [reflexivity |].
  inversion Hnd as [| ? ? Hnot Hrest]; subst.
  cbn [count_occ existsb].
  destruct (Z.eq_dec x c) as [-> | Hne].
  - rewrite Z.eqb_refl. cbn [orb].
    assert (count_occ Z.eq_dec l c = 0%nat) as H0
      by (apply count_occ_not_In; exact Hnot).
    rewrite H0. reflexivity.
  - destruct (Z.eqb_spec c x); [congruence |]. cbn [orb]. apply IH. exact Hrest.
Qed.

Lemma list_remove_is_list (links : PendingIoList.Links) (needle : Z)
    (l : list Z) :
  forall head fuel,
    PendingIoList.is_list links head l -> (List.length l <= fuel)%nat ->
    exists head' links',
      PendingIoList.list_remove fuel links head needle = Some (head', links') /\
      PendingIoList.is_list links' head' (List.remove Z.eq_dec needle l) /\
      (In needle l -> links' needle = None) /\
      (forall x, ~ In x l -> links' x = links x).
Proof.
  induction l as [| x l IH]; intros head fuel H Hfuel.
  - cbn [PendingIoList.is_list] in H. subst head.
    exists None, links. destruct fuel; cbn; repeat split; auto; contradiction.
  - pose proof (is_list_nodup links _ _ H) as Hnd.
    inversion Hnd as [| ? ? Hnot Hnd']; subst.
    destruct H as [-> Hrest]. cbn [List.length] in Hfuel.
    cbn [List.remove].
    destruct (Z.eq_dec needle x) as [<- | Hne].
    + exists (links needle), (PendingIoList.setNext needle None links).
      assert (PendingIoList.list_remove fuel links (Some needle) needle =
              Some (links needle, PendingIoList.setNext needle None links)) as Hrun
        by (destruct fuel; cbn; rewrite Z.eqb_refl; reflexivity).
      split; [exact Hrun |]. rewrite notin_remove by exact Hnot.
      split; [apply is_list_setNext_outside; assumption |].
      split.
      * intros _. unfold PendingIoList.setNext. rewrite Z.eqb_refl. reflexivity.
      * intros y Hy. unfold PendingIoList.setNext.
        destruct (Z.eqb_spec y needle) as [-> | Hyn]; [| reflexivity].
        exfalso. apply Hy. left. reflexivity.
    + destruct fuel as [| fuel]; [lia |].
      destruct (IH (links x) fuel Hrest) as [rest [links' [Hrun [Hlist [Hneedle Hout]]]]];
        [lia |].
      exists (Some x), (PendingIoList.setNext x rest links').
      cbn [PendingIoList.list_remove].
      destruct (Z.eqb_spec x needle) as [Heq | _]; [congruence |].
      rewrite Hrun. split; [reflexivity |].
      split.
      * split; [reflexivity |].
        unfold PendingIoList.setNext at 2. rewrite Z.eqb_refl.
        apply is_list_setNext_outside; [exact Hlist |].
        intros Hin. apply in_remove in Hin. destruct Hin as [Hin _].
        contradiction.
      * split.
        -- intros [Hx | Hin]; [congruence |].
           unfold PendingIoList.setNext.
           destruct (Z.eqb_spec needle x); [congruence |]. apply Hneedle. exact Hin.
        -- intros y Hy. unfold PendingIoList.setNext.
           destruct (Z.eqb_spec y x) as [-> | Hyx].
           ++ exfalso. apply Hy. left. reflexivity.
           ++ apply Hout. intros Hin. apply Hy. right. exact Hin.
Qed.

Lemma is_list_after (links : PendingIoList.Links) (a : list Z) :
  forall head x b,
    PendingIoList.is_list links head (a ++ x :: b) ->
    PendingIoList.is_list links (links x) b.
Proof.
  induction a as [| y a IH]; intros head x b H; cbn [app] in H.
  - destruct H as [_ H]. exact H.
  - destruct H as [_ H]. apply (IH _ _ _ H).
Qed.

Lemma has_cycle_loop_is_list (links : PendingIoList.Links) (fuel : nat) :
  forall slow pre f rest,
    PendingIoList.is_list links slow (pre ++ f :: rest) ->
    (List.length rest <= fuel)%nat ->
    PendingIoList.has_cycle_loop fuel links slow f = Some false.
Proof.
  induction fuel as [| fuel IH]; intros slow pre f rest H Hfuel.
  - destruct rest as [| f1 rest]; [| cbn in Hfuel; lia].
    pose proof (is_list_after links pre _ _ _ H) as Hf. cbn in Hf.
    destruct slow as [s |]; [| reflexivity].
    cbn [PendingIoList.has_cycle_loop]. rewrite Hf. reflexivity.
  - pose proof (is_list_nodup links _ _ H) as Hnd.
    pose proof (is_list_after links pre _ _ _ H) as Hf.
    destruct slow as [s |]; [| reflexivity].
    cbn [PendingIoList.has_cycle_loop].
    destruct rest as [| f1 rest]; [cbn in Hf; rewrite Hf; reflexivity |].
    destruct Hf as [Hf Hf1]. rewrite Hf.
    destruct rest as [| f2 rest]; [cbn in Hf1; rewrite Hf1; reflexivity |].
    destruct Hf1 as [Hf1 Hf2]. rewrite Hf1.
    cbn [List.length] in Hfuel.
    destruct pre as [| p pre]; cbn [app] in H, Hnd; destruct H as [Hs Hrest];
      injection Hs as Hs; subst s.
    + inversion Hnd as [| ? ? Hnot _]; subst.
      destruct (Z.eqb_spec f f1) as [-> | _];
        [exfalso; apply Hnot; left; reflexivity |].
      destruct (Z.eqb_spec f f2) as [-> | _];
        [exfalso; apply Hnot; right; left; reflexivity |].
      cbn [orb]. rewrite Hf.
      apply (IH (Some f1) [f1] f2 rest); [| lia].
      cbn [app PendingIoList.is_list]. split; [reflexivity |].
      rewrite Hf1. split; [reflexivity | exact Hf2].
    + inversion Hnd as [| ? ? Hnot _]; subst.
      destruct (Z.eqb_spec p f1) as [-> | _];
        [exfalso; apply Hnot; apply in_or_app; right; right; left; reflexivity |].
      destruct (Z.eqb_spec p f2) as [-> | _];
        [exfalso; apply Hnot; apply in_or_app; right; right; right; left;
         reflexivity |].
      cbn [orb].
      apply (IH (links p) (pre ++ [f; f1]) f2 rest); [| lia].
      rewrite <- app_assoc. exact Hrest.
Qed.

Lemma has_cycle_is_list (links : PendingIoList.Links) (head : option Z)
    (l : list Z) (fuel : nat) :
  PendingIoList.is_list links head l -> (List.length l <= fuel)%nat ->
  PendingIoList.has_cycle fuel links head = Some false.
Proof.
  intros H Hfuel. destruct l as [| x l].
  - cbn in H. subst head. reflexivity.
  - pose proof H as [-> _]. cbn [PendingIoList.has_cycle].
    apply (has_cycle_loop_is_list links fuel (Some x) [] x l); [exact H |].
    cbn [List.length] in Hfuel. lia.
Qed.

(** X10: on a list of connections that ends in [nullptr], the functions
    that walk the [next] pointers return, and they agree with the list:
    [list_contains] tells whether the connection is in it,
    [number_of_pending] counts it once or not at all, [has_cycle] finds
    no cycle, and [list_remove] gives the list without the connection,
    the others in their order, with the [next] pointer of the connection
    cleared and the connections outside the list untouched. *)
Theorem pending_io_list_operations (links : PendingIoList.Links)
    (head : option Z) (l : list Z) (c : Z) (fuel : nat) :
  PendingIoList.is_list links head l -> (List.length l <= fuel)%nat ->
  PendingIoList.list_contains fuel links head c =
  Some (existsb (Z.eqb c) l) /\
  PendingIoList.number_of_pending fuel links c head =
  Some (if existsb (Z.eqb c) l then 1 else 0) /\
  PendingIoList.has_cycle fuel links head = Some false /\
  exists head' links',
    PendingIoList.list_remove fuel links head c = Some (head', links') /\
    PendingIoList.is_list links' head' (List.remove Z.eq_dec c l) /\
    ~ In c (List.remove Z.eq_dec c l) /\
    (forall x, x <> c -> In x l -> In x (List.remove Z.eq_dec c l)) /\
    (In c l -> links' c = None) /\
    (forall x, ~ In x l -> links' x = links x).
Proof.
  intros H Hfuel.
  split; [apply list_contains_is_list; assumption |].
  split.
  { unfold PendingIoList.number_of_pending.
    rewrite (number_of_pending_is_list links c l head fuel 0 H Hfuel).
    rewrite count_occ_nodup by (apply (is_list_nodup links l head H)).
    reflexivity. }
  split; [apply (has_cycle_is_list links head l); assumption |].
  destruct (list_remove_is_list links c l head fuel H Hfuel)
    as [head' [links' [Hrun [Hlist [Hneedle Hout]]]]].
  exists head', links'. split; [exact Hrun |]. split; [exact Hlist |].
  split; [apply remove_In |].
  split; [intros x Hx Hin; apply in_in_remove; assumption |].
  split; assumption.
Qed.

Lemma pending_io_list_operations_witness :
  PendingIoList.is_list three_links (Some 1) [1; 2; 3] /\
  (List.length [1; 2; 3] <= 3)%nat /\
  PendingIoList.list_contains 3 three_links (Some 1) 2 = Some true /\
  option_map fst (PendingIoList.list_remove 3 three_links (Some 1) 2) =
  Some (Some 1).
Proof.
  assert (PendingIoList.is_list three_links (Some 1) [1; 2; 3]) as H
    by (cbn; repeat split).
  assert (List.length [1; 2; 3] <= 3)%nat as Hfuel by (cbn; lia).
  split; [exact H |]. split; [exact Hfuel |].
  destruct (pending_io_list_operations three_links (Some 1) [1; 2; 3] 2 3 H
              Hfuel) as [Hc _].
  split; [exact Hc | reflexivity].
Defined.

Lemma existsb_eqb_in (c : Z) (l : list Z) :
  existsb (Z.eqb c) l = true <-> In c l.
Proof.
  rewrite existsb_exists. split.
  - intros [x [Hin Hx]]. apply Z.eqb_eq in Hx. subst x. exact Hin.
  - intros Hin. exists c. split; [exact Hin | apply Z.eqb_refl].
Qed.

Lemma enlist_conn_is_list (links : PendingIoList.Links) (head : option Z)
    (l : list Z) (c : Z) (fuel : nat) :
  PendingIoList.is_list links head l -> (List.length l <= fuel)%nat ->
  ~ In c l ->
  (links c = None ->
   PendingIoList.enlist_conn fuel c links head =
   PendingIoList.Finished (Some c, PendingIoList.setNext c head links) /\
   PendingIoList.is_list (PendingIoList.setNext c head links) (Some c) (c :: l)) /\
  (links c <> None ->
   PendingIoList.enlist_conn fuel c links head = PendingIoList.AssertionFailed).
Proof.
  intros H Hfuel Hnot.
  assert (existsb (Z.eqb c) l = false) as Hex.
  { destruct (existsb (Z.eqb c) l) eqn:E; [| reflexivity].
    apply existsb_eqb_in in E. contradiction. }
  unfold PendingIoList.enlist_conn.
  rewrite (list_contains_is_list links c l head fuel H Hfuel), Hex.
  split.
  - intros Hc. rewrite Hc. cbv zeta.
    assert (PendingIoList.is_list (PendingIoList.setNext c head links) (Some c)
              (c :: l)) as Hnew.
    { split; [reflexivity |].
      unfold PendingIoList.setNext at 2. rewrite Z.eqb_refl.
      apply is_list_setNext_outside; assumption. }
    split; [| exact Hnew].
    assert (PendingIoList.list_contains fuel
              (PendingIoList.setNext c head links) (Some c) c = Some true) as Hin
      by (destruct fuel; cbn; rewrite Z.eqb_refl; reflexivity).
    rewrite Hin.
    cbn [PendingIoList.has_cycle].
    rewrite (has_cycle_loop_is_list _ fuel (Some c) [] c l Hnew Hfuel).
    reflexivity.
  - intros Hc. destruct (links c); [reflexivity | congruence].
Qed.

(** X11: [add_conn_to_pending_io_list] keeps the pending list free of
    duplicates.  A connection that is in the list already is not added
    again, and no notification is asked for; a connection that is not in
    it, and whose [next] pointer is null, becomes the new head of the
    list, and the thread has to be notified exactly when the list was
    empty.  Adding the same connection once more changes nothing.  A
    connection outside the list whose [next] pointer is set trips the
    assertion of [enlist_conn]. *)
Theorem add_conn_to_pending_io_list_once (links : PendingIoList.Links)
    (pending_io : option Z) (l : list Z) (c : Z) (fuel : nat) :
  PendingIoList.is_list links pending_io l -> (S (List.length l) <= fuel)%nat ->
  (In c l ->
   PendingIoList.add_conn_to_pending_io_list fuel c links pending_io =
   PendingIoList.Finished (0, pending_io, links)) /\
  (~ In c l -> links c = None ->
   let links' := PendingIoList.setNext c pending_io links in
   PendingIoList.add_conn_to_pending_io_list fuel c links pending_io =
   PendingIoList.Finished (if is_nil l then 1 else 0, Some c, links') /\
   PendingIoList.is_list links' (Some c) (c :: l) /\
   PendingIoList.add_conn_to_pending_io_list fuel c links' (Some c) =
   PendingIoList.Finished (0, Some c, links')) /\
  (~ In c l -> links c <> None ->
   PendingIoList.add_conn_to_pending_io_list fuel c links pending_io =
   PendingIoList.AssertionFailed).
Proof.
  intros H Hfuel.
  assert (forall lk hd lst,
             PendingIoList.is_list lk hd lst -> (List.length lst <= fuel)%nat ->
             In c lst ->
             PendingIoList.add_conn_to_pending_io_list fuel c lk hd =
             PendingIoList.Finished (0, hd, lk)) as Hin.
  { intros lk hd lst Hl Hf Hc.
    unfold PendingIoList.add_conn_to_pending_io_list,
      PendingIoList.number_of_pending.
    rewrite (number_of_pending_is_list lk c lst hd fuel 0 Hl Hf).
    rewrite count_occ_nodup by (apply (is_list_nodup lk lst hd Hl)).
    rewrite (proj2 (existsb_eqb_in c lst) Hc). reflexivity. }
  assert (~ In c l ->
          PendingIoList.number_of_pending fuel links c pending_io = Some 0)
    as Hzero.
  { intros Hnot. unfold PendingIoList.number_of_pending.
    rewrite (number_of_pending_is_list links c l pending_io fuel 0 H) by lia.
    rewrite count_occ_nodup by (apply (is_list_nodup links l pending_io H)).
    destruct (existsb (Z.eqb c) l) eqn:E; [| reflexivity].
    apply existsb_eqb_in in E. contradiction. }
  split; [intros Hc; apply (Hin links pending_io l H); [lia | exact Hc] |].
  split.
  - intros Hnot Hnull links'.
    destruct (enlist_conn_is_list links pending_io l c fuel H) as [Hok _];
      [lia | exact Hnot |].
    destruct (Hok Hnull) as [Hrun Hnew].
    split; [| split; [exact Hnew |]].
    + unfold PendingIoList.add_conn_to_pending_io_list.
      rewrite (Hzero Hnot). cbn [Z.eqb]. rewrite Hrun.
      destruct l as [| x l]; cbn [is_nil].
      * cbn in H. subst pending_io. reflexivity.
      * destruct H as [-> _]. reflexivity.
    + apply (Hin links' (Some c) (c :: l) Hnew);
        [cbn [List.length]; lia | left; reflexivity].
  - intros Hnot Hset.
    destruct (enlist_conn_is_list links pending_io l c fuel H) as [_ Hfail];
      [lia | exact Hnot |].
    unfold PendingIoList.add_conn_to_pending_io_list.
    rewrite (Hzero Hnot). cbn [Z.eqb]. rewrite (Hfail Hset). reflexivity.
Qed.

Lemma add_conn_to_pending_io_list_once_witness :
  PendingIoList.is_list three_links (Some 1) [1; 2; 3] /\
  (S (List.length [1; 2; 3]) <= 4)%nat /\
  PendingIoList.add_conn_to_pending_io_list 4 2 three_links (Some 1) =
  PendingIoList.Finished (0, Some 1, three_links) /\
  (exists links',
      PendingIoList.add_conn_to_pending_io_list 4 9 three_links (Some 1) =
      PendingIoList.Finished (0, Some 9, links')).
Proof.
  assert (PendingIoList.is_list three_links (Some 1) [1; 2; 3]) as H
    by (cbn; repeat split).
  assert (S (List.length [1; 2; 3]) <= 4)%nat as Hfuel by (cbn; lia).
  split; [exact H |]. split; [exact Hfuel |].
  destruct (add_conn_to_pending_io_list_once three_links (Some 1) [1; 2; 3] 2 4
              H Hfuel) as [Hin _].
  split; [apply Hin; right; left; reflexivity |].
  destruct (add_conn_to_pending_io_list_once three_links (Some 1) [1; 2; 3] 9 4
              H Hfuel) as [_ [Hnew _]].
  eexists. apply Hnew; [| reflexivity].
  intros [E | [E | [E | []]]]; discriminate E.
Defined.

(** ** Handing new connections to the worker threads *)

Lemma dispatch_all_app (a b : list (Z * Z)) (d : Dispatcher) :
  dispatch_all (a ++ b) d = dispatch_all b (dispatch_all a d).
Proof. unfold dispatch_all. apply fold_left_app. Qed.

(** The threads that [k] dispatches starting after thread [from] go to. *)
Lemma dispatch_all_round_robin (sockets : list (Z * Z)) :
  forall d : Dispatcher,
    0 < num_worker_threads d ->
    -1 <= last_thread d < num_worker_threads d ->
    push_results d = [] ->
    let d' := dispatch_all sockets d in
    num_worker_threads d' = num_worker_threads d /\
    push_results d' = [] /\
    closed_sockets d' = closed_sockets d /\
    last_thread d' =
    (if is_nil sockets then last_thread d
     else (last_thread d + len (map fst sockets)) mod num_worker_threads d) /\
    pushed d' =
    pushed d ++
    map (fun i =>
           ((last_thread d + 1 + Z.of_nat i) mod num_worker_threads d,
            nth i sockets (0, 0)))
      (seq 0 (List.length sockets)).
Proof.
  induction sockets as [| s sockets IH] using rev_ind; intros d Hn Hlast Hres d'.
  - subst d'. cbn. rewrite app_nil_r. repeat split; auto.
  - subst d'. rewrite dispatch_all_app.
    destruct (IH d Hn Hlast Hres) as [Hn' [Hres' [Hclosed [Hlast' Hpushed]]]].
    set (d1 := dispatch_all sockets d) in *.
    assert (dispatch_all [s] d1 =
            mkDispatcher (Z.rem (last_thread d1 + 1) (num_worker_threads d1))
              (num_worker_threads d1)
              (pushed d1 ++
               [(Z.rem (last_thread d1 + 1) (num_worker_threads d1),
                 (fst s, snd s))])
              (notified_threads d1 ++
               [Z.rem (last_thread d1 + 1) (num_worker_threads d1)])
              (closed_sockets d1) []) as Hstep.
    { unfold dispatch_all. cbn [fold_left]. unfold dispatch_conn_new.
      rewrite Hres'. reflexivity. }
    rewrite Hstep.
    cbn [num_worker_threads push_results closed_sockets last_thread pushed].
    assert (-1 <= last_thread d1 < num_worker_threads d) as Hrange.
    { rewrite Hlast'. destruct (is_nil sockets); [exact Hlast |].
      pose proof (Z.mod_pos_bound (last_thread d + len (map fst sockets))
                    (num_worker_threads d) Hn). lia. }
    assert (Z.rem (last_thread d1 + 1) (num_worker_threads d1) =
            (last_thread d + len (map fst (sockets ++ [s])))
              mod num_worker_threads d) as Htid.
    { rewrite Hn'. rewrite Z.rem_mod_nonneg by lia.
      rewrite Hlast'. unfold len. rewrite !length_map, length_app.
      cbn [List.length]. destruct sockets as [| s0 sockets]; cbn [is_nil].
      - cbn [List.length]. f_equal.
      - rewrite Zplus_mod_idemp_l. f_equal. lia. }
    rewrite Htid. split; [exact Hn' |]. split; [reflexivity |].
    split; [exact Hclosed |].
    split.
    + destruct (sockets ++ [s]) eqn:E; [| reflexivity].
      destruct sockets; discriminate E.
    + rewrite Hpushed, length_app. cbn [List.length].
      rewrite Nat.add_1_r, seq_S, (map_app _ (seq 0 (List.length sockets))),
        <- app_assoc.
      cbn [map Nat.add]. f_equal. f_equal.
      * apply map_ext_in. intros i Hi. apply in_seq in Hi.
        rewrite app_nth1 by lia. reflexivity.
      * rewrite nth_middle. destruct s as [sfd port]. cbn [fst snd].
        f_equal. f_equal. f_equal.
        unfold len. rewrite length_map, length_app. cbn [List.length]. lia.
Qed.

(** X12: [dispatch_conn_new] deals the new connections out to the worker
    threads in turn.  From the start, when every item can be allocated,
    the connection accepted as number [i] (counting from 0) is pushed on
    the queue of thread [i mod n], for [n] worker threads, with its
    socket and port, and that thread is notified; no socket is closed. *)
Theorem dispatch_conn_new_round_robin (threads : Z) (sockets : list (Z * Z)) :
  0 < threads ->
  let d := dispatch_all sockets (fresh_dispatcher threads) in
  pushed d =
  map (fun i => (Z.of_nat i mod threads, nth i sockets (0, 0)))
    (seq 0 (List.length sockets)) /\
  notified_threads d = map fst (pushed d) /\
  closed_sockets d = [].
Proof.
  intros Hn d.
  destruct (dispatch_all_round_robin sockets (fresh_dispatcher threads))
    as [_ [_ [Hclosed [_ Hpushed]]]];
    [exact Hn | cbn; lia | reflexivity |].
  fold d in Hclosed, Hpushed.
  split.
  - rewrite Hpushed. cbn [fresh_dispatcher pushed last_thread
                          num_worker_threads app].
    apply map_ext. intros i. f_equal; try (f_equal; lia).
  - split; [| exact Hclosed].
    subst d. clear Hclosed Hpushed.
    assert (forall d0,
               push_results d0 = [] ->
               notified_threads d0 = map fst (pushed d0) ->
               push_results (dispatch_all sockets d0) = [] /\
               notified_threads (dispatch_all sockets d0) =
               map fst (pushed (dispatch_all sockets d0))) as Hinv.
    { induction sockets as [| s sockets IH]; intros d0 Hres Hnot;
        [split; assumption |].
      unfold dispatch_all. cbn [fold_left]. apply IH.
      - unfold dispatch_conn_new. rewrite Hres. reflexivity.
      - unfold dispatch_conn_new. rewrite Hres. cbn [hd notified_threads pushed].
        rewrite Hnot, map_app. reflexivity. }
    apply Hinv; reflexivity.
Qed.

Lemma dispatch_conn_new_round_robin_witness :
  0 < 2 /\
  map fst (pushed (dispatch_all [(10, 1); (11, 1); (12, 1)] (fresh_dispatcher 2)))
  = [0; 1; 0].
Proof.
  split; [lia |].
  destruct (dispatch_conn_new_round_robin 2 [(10, 1); (11, 1); (12, 1)])
    as [H _]; [lia |].
  rewrite H. reflexivity.
Defined.

(** ** The scatter/gather lists *)

Lemma firstn_add_skipn {A : Type} (a b : nat) (l : list A) :
  firstn (a + b) l = firstn a l ++ firstn b (skipn a l).
Proof.
  revert l. induction a as [| a IH]; intros l; [reflexivity |].
  destruct l as [| x l]; cbn [Nat.add firstn skipn app].
  - rewrite firstn_nil. reflexivity.
  - rewrite IH. reflexivity.
Qed.

Lemma skipn_add {A : Type} (a b : nat) (l : list A) :
  skipn b (skipn a l) = skipn (a + b) l.
Proof.
  revert l. induction a as [| a IH]; intros l; [reflexivity |].
  destruct l as [| x l]; cbn [Nat.add skipn]; [apply skipn_nil | apply IH].
Qed.

Lemma firstn_assign_before {A : Type} (n : nat) (x : A) (v : list A) :
  firstn n (IoVectors.assign n x v) = firstn n v.
Proof.
  revert v. induction n as [| n IH]; intros v; [reflexivity |].
  destruct v as [| y v]; cbn [IoVectors.assign firstn]; [reflexivity |].
  rewrite IH. reflexivity.
Qed.

Lemma firstn_assign_at {A : Type} (n : nat) (x : A) (v : list A) :
  (n < List.length v)%nat ->
  firstn (S n) (IoVectors.assign n x v) = firstn n v ++ [x].
Proof.
  revert v. induction n as [| n IH]; intros v Hn;
    destruct v as [| y v]; cbn [List.length] in Hn; try lia.
  - reflexivity.
  - cbn [IoVectors.assign]. cbn [firstn app]. f_equal.
    apply IH. lia.
Qed.

Lemma length_assign {A : Type} (n : nat) (x : A) (v : list A) :
  List.length (IoVectors.assign n x v) = List.length v.
Proof.
  revert n. induction v as [| y v IH]; intros n; [destruct n; reflexivity |].
  destruct n; cbn [IoVectors.assign List.length]; [reflexivity |].
  rewrite IH. reflexivity.
Qed.

Lemma total_entries_app (a b : list IoVectors.msghdr) :
  IoVectors.total_entries (a ++ b) =
  (IoVectors.total_entries a + IoVectors.total_entries b)%nat.
Proof.
  induction a as [| m a IH]; [reflexivity |].
  cbn [app IoVectors.total_entries fold_right] in *.
  fold (IoVectors.total_entries (a ++ b)). fold (IoVectors.total_entries a).
  rewrite IH. lia.
Qed.

Lemma laid_out_app (IOV_MAX : nat) (a b : list IoVectors.msghdr) :
  forall off,
    IoVectors.laid_out IOV_MAX off (a ++ b) <->
    IoVectors.laid_out IOV_MAX off a /\
    IoVectors.laid_out IOV_MAX (off + IoVectors.total_entries a) b.
Proof.
  induction a as [| m a IH]; intros off.
  - cbn [app IoVectors.laid_out IoVectors.total_entries fold_right].
    rewrite Nat.add_0_r. tauto.
  - cbn [app IoVectors.laid_out IoVectors.total_entries fold_right].
    fold (IoVectors.total_entries a). rewrite IH.
    replace (off + (IoVectors.msg_iovlen m + IoVectors.total_entries a))%nat
      with (off + IoVectors.msg_iovlen m + IoVectors.total_entries a)%nat by lia.
    tauto.
Qed.

Lemma repoint_laid_out (IOV_MAX : nat) (msgs : list IoVectors.msghdr) :
  forall off,
    IoVectors.laid_out IOV_MAX off msgs -> IoVectors.repoint msgs off = msgs.
Proof.
  induction msgs as [| [p n] msgs IH]; intros off H; [reflexivity |].
  cbn [IoVectors.laid_out IoVectors.msg_iov IoVectors.msg_iovlen] in H.
  destruct H as [-> [_ H]].
  cbn [IoVectors.repoint IoVectors.msg_iovlen]. rewrite IH by exact H.
  reflexivity.
Qed.

(** Messages that are laid out one after the other cover the entries in
    use, in order. *)
Lemma queued_entries_laid_out (IOV_MAX : nat) (v : list (Z * Z))
    (msgs : list IoVectors.msghdr) :
  forall off,
    IoVectors.laid_out IOV_MAX off msgs ->
    List.concat
      (map (fun m =>
              firstn (IoVectors.msg_iovlen m)
                (skipn (IoVectors.msg_iov m) v)) msgs) =
    firstn (IoVectors.total_entries msgs) (skipn off v).
Proof.
  induction msgs as [| m msgs IH]; intros off H; [reflexivity |].
  destruct H as [Hoff [_ H]].
  cbn [map List.concat IoVectors.total_entries fold_right].
  fold (IoVectors.total_entries msgs).
  rewrite (IH _ H), Hoff, firstn_add_skipn, skipn_add. reflexivity.
Qed.

Lemma queued_entries_well_formed (IOV_MAX : nat) (s : IoVectors.t) :
  IoVectors.well_formed IOV_MAX s ->
  IoVectors.queued_entries s = firstn (IoVectors.iovused s) (IoVectors.iov s).
Proof.
  intros [_ [Hlay [Htot _]]]. unfold IoVectors.queued_entries, IoVectors.entries.
  rewrite (queued_entries_laid_out IOV_MAX _ _ 0 Hlay), Htot. reflexivity.
Qed.

(** X13: [addIov] appends one entry to the scatter/gather list.  On lists
    in the shape [addMsgHdr] and [addIov] leave them in (a last [msghdr]
    exists, the [msghdr]s cover the used entries of [iov] one after the
    other, none has more than [IOV_MAX] entries), adding a region of a
    length that is not zero keeps that shape, growing [iov] or opening a
    new [msghdr] where needed, and what is queued is what was queued
    followed by the new region; a region of length zero is not added.
    [addMsgHdr(true)] starts over with one empty [msghdr]. *)
Theorem addIov_appends (IOV_MAX : nat) (buf len : Z) (s : IoVectors.t) :
  (0 < IOV_MAX)%nat ->
  IoVectors.well_formed IOV_MAX s ->
  (len = 0 -> IoVectors.addIov IOV_MAX buf len s = s) /\
  (len <> 0 ->
   let s' := IoVectors.addIov IOV_MAX buf len s in
   IoVectors.well_formed IOV_MAX s' /\
   IoVectors.queued_entries s' = IoVectors.queued_entries s ++ [(buf, len)] /\
   IoVectors.iovused s' = S (IoVectors.iovused s)) /\
  (let s0 := IoVectors.addMsgHdr true s in
   IoVectors.well_formed IOV_MAX s0 /\ IoVectors.queued_entries s0 = []).
Proof.
  intros Hmax Hwf. split; [| split].
  - intros ->. reflexivity.
  - intros Hlen s'.
    pose proof (queued_entries_well_formed IOV_MAX s Hwf) as Hq.
    destruct Hwf as [Hne [Hlay [Htot [Hused Hsize]]]].
    (* the list after a new msghdr was opened where the last one is full *)
    set (s1 := if (IoVectors.msg_iovlen
                     (last (IoVectors.msglist s) (IoVectors.mk_msghdr 0 0))
                   =? IOV_MAX)%nat
               then IoVectors.addMsgHdr false s else s).
    assert (IoVectors.iov s1 = IoVectors.iov s /\
            IoVectors.iovused s1 = IoVectors.iovused s /\
            exists front m,
              IoVectors.msglist s1 = front ++ [m] /\
              IoVectors.laid_out IOV_MAX 0 (front ++ [m]) /\
              IoVectors.total_entries (front ++ [m]) = IoVectors.iovused s /\
              (IoVectors.msg_iovlen m < IOV_MAX)%nat) as [Hiov1 [Hused1 Hmsgs1]].
    { destruct (exists_last Hne) as [front [m Hm]].
      subst s1. rewrite Hm, last_last.
      destruct (Nat.eqb_spec (IoVectors.msg_iovlen m) IOV_MAX) as [Hfull | Hroom].
      - unfold IoVectors.addMsgHdr.
        cbn [IoVectors.iov IoVectors.iovused IoVectors.msglist].
        split; [reflexivity |]. split; [reflexivity |].
        exists (IoVectors.msglist s), (IoVectors.mk_msghdr (IoVectors.iovused s) 0).
        split; [reflexivity |].
        split.
        + apply laid_out_app. split; [exact Hlay |].
          cbn [IoVectors.laid_out IoVectors.msg_iov IoVectors.msg_iovlen].
          rewrite Htot. split; [reflexivity |]. split; [lia | exact I].
        + split; [| cbn [IoVectors.msg_iovlen]; lia].
          rewrite total_entries_app, Htot. cbn. lia.
      - split; [reflexivity |]. split; [reflexivity |].
        exists front, m. rewrite <- Hm.
        split; [reflexivity |]. split; [exact Hlay |]. split; [exact Htot |].
        rewrite Hm in Hlay. apply laid_out_app in Hlay.
        destruct Hlay as [_ [_ [Hle _]]]. lia. }
    destruct Hmsgs1 as [front [m [Hm [Hlay1 [Htot1 Hroom]]]]].
    (* the list after ensureIovSpace *)
    set (s2 := IoVectors.ensureIovSpace s1).
    assert (IoVectors.msglist s2 = front ++ [m] /\
            IoVectors.iovused s2 = IoVectors.iovused s /\
            firstn (IoVectors.iovused s) (IoVectors.iov s2) =
            firstn (IoVectors.iovused s) (IoVectors.iov s) /\
            (IoVectors.iovused s < List.length (IoVectors.iov s2))%nat)
      as [Hm2 [Hused2 [Hfirst2 Hspace]]].
    { subst s2. unfold IoVectors.ensureIovSpace. rewrite Hused1, Hiov1.
      destruct (Nat.ltb_spec (IoVectors.iovused s)
                  (List.length (IoVectors.iov s))) as [Hlt | Hge].
      - rewrite Hm, Hused1, Hiov1.
        split; [reflexivity |]. split; [reflexivity |].
        split; [reflexivity | exact Hlt].
      - cbn [IoVectors.msglist IoVectors.iovused IoVectors.iov].
        rewrite Hm, (repoint_laid_out IOV_MAX _ 0 Hlay1).
        split; [reflexivity |]. split; [reflexivity |].
        split.
        + rewrite firstn_app.
          replace (IoVectors.iovused s - List.length (IoVectors.iov s))%nat
            with 0%nat by lia.
          cbn [firstn]. rewrite app_nil_r. reflexivity.
        + rewrite length_app, repeat_length. lia. }
    assert (IoVectors.msg_iov m + IoVectors.msg_iovlen m = IoVectors.iovused s)%nat
      as Hat.
    { pose proof Hlay1 as Hl. apply laid_out_app in Hl.
      destruct Hl as [_ [Hoff _]].
      rewrite total_entries_app in Htot1. cbn in Htot1, Hoff. lia. }
    assert (s' =
            IoVectors.mk
              (IoVectors.assign (IoVectors.iovused s) (buf, len)
                 (IoVectors.iov s2))
              (S (IoVectors.iovused s))
              (front ++
               [IoVectors.mk_msghdr (IoVectors.msg_iov m)
                  (S (IoVectors.msg_iovlen m))])
              (IoVectors.msgcurr s2) (size_t (IoVectors.msgbytes s2 + len)))
      as Hs'.
    { subst s'. unfold IoVectors.addIov.
      destruct (Z.eqb_spec len 0) as [H0 | _]; [contradiction |].
      cbv zeta. fold s1. fold s2.
      rewrite Hm2, last_last, removelast_last, Hat, Hused2. reflexivity. }
    rewrite Hs'.
    assert (IoVectors.laid_out IOV_MAX 0
              (front ++
               [IoVectors.mk_msghdr (IoVectors.msg_iov m)
                  (S (IoVectors.msg_iovlen m))]) /\
            IoVectors.total_entries
              (front ++
               [IoVectors.mk_msghdr (IoVectors.msg_iov m)
                  (S (IoVectors.msg_iovlen m))]) = S (IoVectors.iovused s))
      as [Hlay' Htot'].
    { apply laid_out_app in Hlay1. destruct Hlay1 as [Hfront [Hoff _]].
      rewrite total_entries_app in Htot1. cbn in Htot1.
      split.
      - apply laid_out_app. split; [exact Hfront |].
        cbn [IoVectors.laid_out IoVectors.msg_iov IoVectors.msg_iovlen].
        split; [exact Hoff |]. split; [lia | exact I].
      - rewrite total_entries_app. cbn. lia. }
    assert (IoVectors.well_formed IOV_MAX
              (IoVectors.mk
                 (IoVectors.assign (IoVectors.iovused s) (buf, len)
                    (IoVectors.iov s2))
                 (S (IoVectors.iovused s))
                 (front ++
                  [IoVectors.mk_msghdr (IoVectors.msg_iov m)
                     (S (IoVectors.msg_iovlen m))])
                 (IoVectors.msgcurr s2) (size_t (IoVectors.msgbytes s2 + len))))
      as Hwf'.
    { unfold IoVectors.well_formed.
      cbn [IoVectors.msglist IoVectors.iovused IoVectors.iov].
      rewrite length_assign.
      split; [intros E; apply app_eq_nil in E; destruct E as [_ E]; discriminate E |].
      split; [exact Hlay' |]. split; [exact Htot' |]. lia. }
    split; [exact Hwf' |]. split; [| reflexivity].
    rewrite (queued_entries_well_formed IOV_MAX _ Hwf'), Hq.
    cbn [IoVectors.iovused IoVectors.iov].
    rewrite firstn_assign_at by exact Hspace. rewrite Hfirst2. reflexivity.
  - intros s0. destruct Hwf as [_ [_ [_ [_ Hsize]]]].
    subst s0. unfold IoVectors.addMsgHdr, IoVectors.well_formed,
      IoVectors.queued_entries, IoVectors.entries.
    cbn. repeat split; try lia. discriminate.
Qed.

Lemma addIov_appends_witness :
  let s := IoVectors.addMsgHdr true (IoVectors.mk [(0, 0)] 0 [] 0 0) in
  (0 < 2)%nat /\
  IoVectors.queued_entries
    (IoVectors.addIov 2 300 7 (IoVectors.addIov 2 200 6 (IoVectors.addIov 2 100 5 s)))
  = [(100, 5); (200, 6); (300, 7)] /\
  map IoVectors.msg_iovlen
    (IoVectors.msglist
       (IoVectors.addIov 2 300 7
          (IoVectors.addIov 2 200 6 (IoVectors.addIov 2 100 5 s)))) = [2; 1]%nat.
Proof.
  cbv zeta. assert (0 < 2)%nat as Hmax by lia.
  split; [exact Hmax |].
  assert (IoVectors.well_formed 2
            (IoVectors.addMsgHdr true (IoVectors.mk [(0, 0)] 0 [] 0 0))) as H0.
  { unfold IoVectors.well_formed. cbn. repeat split; try lia. discriminate. }
  destruct (addIov_appends 2 100 5 _ Hmax H0) as [_ [H1 _]].
  destruct (H1 ltac:(discriminate)) as [Hwf1 [Hq1 _]].
  destruct (addIov_appends 2 200 6 _ Hmax Hwf1) as [_ [H2 _]].
  destruct (H2 ltac:(discriminate)) as [Hwf2 [Hq2 _]].
  destruct (addIov_appends 2 300 7 _ Hmax Hwf2) as [_ [H3 _]].
  destruct (H3 ltac:(discriminate)) as [_ [Hq3 _]].
  split; [| reflexivity].
  rewrite Hq3, Hq2, Hq1. reflexivity.
Defined.

(** ** Reading from the network *)

Lemma recv_outcome (nbytes : Z) (s : ReadNetwork.t) :
  0 < nbytes ->
  exists res got s',
    ReadNetwork.recv nbytes s = (res, got, s') /\
    ReadNetwork.incoming s = got ++ ReadNetwork.incoming s' /\
    ReadNetwork.read_data s' = ReadNetwork.read_data s /\
    ReadNetwork.read_size s' = ReadNetwork.read_size s /\
    ReadNetwork.socket_end s' = ReadNetwork.socket_end s /\
    ReadNetwork.closing s' = ReadNetwork.closing s /\
    ReadNetwork.isPipeConnection s' = ReadNetwork.isPipeConnection s /\
    ReadNetwork.realloc_results s' = ReadNetwork.realloc_results s /\
    len got <= nbytes /\
    ((got = [] /\
      res = match ReadNetwork.socket_end s with
            | ReadNetwork.PeerClosed => 0
            | _ => -1
            end) \/
     (0 < res /\ res = len got)).
Proof.
  intros Hn. unfold ReadNetwork.recv.
  destruct (ReadNetwork.incoming s) as [| b rest] eqn:E.
  - exists (match ReadNetwork.socket_end s with
            | ReadNetwork.PeerClosed => 0
            | _ => -1
            end), [], s.
    split; [destruct (ReadNetwork.socket_end s); reflexivity |].
    rewrite E. repeat (split; [reflexivity |]).
    split; [cbn; lia |]. left. split; reflexivity.
  - eexists. eexists. eexists. split; [reflexivity |].
    cbn [ReadNetwork.incoming ReadNetwork.read_data ReadNetwork.read_size
         ReadNetwork.socket_end ReadNetwork.closing
         ReadNetwork.isPipeConnection ReadNetwork.realloc_results].
    split; [symmetry; apply firstn_skipn |].
    repeat (split; [reflexivity |]).
    assert (Z.to_nat nbytes = S (Nat.pred (Z.to_nat nbytes))) as Hs by lia.
    split.
    + unfold len. rewrite length_firstn. lia.
    + right. split; [| reflexivity].
      rewrite Hs. cbn [firstn]. unfold len. cbn [List.length]. lia.
Qed.

Lemma realloc_account_none (r : ReadNetwork.TryReadResult)
    (s s' : ReadNetwork.t) :
  ReadNetwork.realloc_results s' = ReadNetwork.realloc_results s ->
  r <> ReadNetwork.MemoryError ->
  realloc_account 0 r s s'.
Proof.
  intros Hsame Hr. unfold realloc_account. cbn [Z.to_nat skipn].
  split; [intros i Hi; lia |]. split; [intros _; exact Hsame |].
  intros E. contradiction.
Qed.

(** A doubling before a run that is accounted for. *)
Lemma realloc_account_doubled (k : Z) (r : ReadNetwork.TryReadResult)
    (s1 s s' : ReadNetwork.t) :
  0 <= k ->
  hd true (ReadNetwork.realloc_results s) = true ->
  ReadNetwork.realloc_results s1 = tl (ReadNetwork.realloc_results s) ->
  realloc_account k r s1 s' ->
  realloc_account (k + 1) r s s'.
Proof.
  intros Hk Hhd Htl [Hfirst [Hok Hmem]]. unfold realloc_account.
  rewrite Htl in *.
  replace (Z.to_nat (k + 1)) with (S (Z.to_nat k)) by lia.
  assert (Hnth : forall i,
            nth (S i) (ReadNetwork.realloc_results s) true =
            nth i (tl (ReadNetwork.realloc_results s)) true)
    by (intros i; destruct (ReadNetwork.realloc_results s);
        [destruct i |]; reflexivity).
  assert (Hskip : forall n,
            skipn (S n) (ReadNetwork.realloc_results s) =
            skipn n (tl (ReadNetwork.realloc_results s)))
    by (intros n; destruct (ReadNetwork.realloc_results s);
        [destruct n |]; reflexivity).
  split; [| split].
  - intros [| i] Hi.
    + destruct (ReadNetwork.realloc_results s); [reflexivity | exact Hhd].
    + rewrite Hnth. apply Hfirst. lia.
  - intros Hr. rewrite Hskip. apply Hok. exact Hr.
  - intros Hr. rewrite Hnth, Hskip. apply Hmem. exact Hr.
Qed.

Lemma receive_outcome
    (continue_ : ReadNetwork.t ->
                 option (ReadNetwork.TryReadResult * ReadNetwork.t))
    (gotdata : ReadNetwork.TryReadResult) (num_allocs : Z) (s : ReadNetwork.t) :
  gotdata = ReadNetwork.NoDataReceived \/ gotdata = ReadNetwork.DataReceived ->
  0 <= num_allocs <= 4 ->
  len (ReadNetwork.read_data s) < ReadNetwork.read_size s ->
  (forall s2,
      ReadNetwork.read_size s2 = ReadNetwork.read_size s ->
      len (ReadNetwork.read_data s2) = ReadNetwork.read_size s2 ->
      ReadNetwork.realloc_results s2 = ReadNetwork.realloc_results s ->
      read_outcome ReadNetwork.DataReceived num_allocs s2 (continue_ s2)) ->
  read_outcome gotdata num_allocs s (ReadNetwork.receive continue_ gotdata s).
Proof.
  intros Hgot Hallocs Hroom Hcont. unfold ReadNetwork.receive. cbv zeta.
  destruct (recv_outcome (ReadNetwork.read_size s - len (ReadNetwork.read_data s)) s)
    as [res [got [s1 [Hrecv [Hin [Hdata [Hsize [Hend [Hclosing [Hpipe [Hallocd [Hle Hres]]]]]]]]]]]];
    [lia |].
  rewrite Hrecv. cbv beta iota zeta.
  destruct Hres as [[Hnone Hres] | [Hpos Hres]].
  - (* nothing to read *)
    subst got. rewrite app_nil_l in Hin.
    assert (forall r,
               (r = ReadNetwork.DataReceived -> gotdata = ReadNetwork.DataReceived) ->
               (ReadNetwork.isPipeConnection s = false ->
                r = ReadNetwork.NoDataReceived ->
                gotdata = ReadNetwork.NoDataReceived) ->
               r <> ReadNetwork.MemoryError ->
               read_outcome gotdata num_allocs s (Some (r, s1))) as Hret.
    { intros r Hr1 Hr2 Hr3. exists r, s1, 0. split; [reflexivity |].
      split; [lia |]. split; [rewrite Hsize; lia |].
      split; [rewrite Hdata, Hsize; lia |]. split; [exact Hpipe |].
      exists []. split; [exact Hin |].
      split; [intros _; rewrite app_nil_r; split; assumption |].
      split; [intros E; contradiction |].
      split; [intros E; left; apply Hr1; exact E |].
      split; [intros Hp E; split; [apply Hr2; assumption | reflexivity] |].
      apply realloc_account_none; assumption. }
    rewrite Hend.
    destruct (ReadNetwork.socket_end s) eqn:Eend; subst res; cbn [Z.gtb Z.eqb Z.compare].
    + apply Hret; [tauto | tauto |].
      destruct Hgot as [-> | ->]; discriminate.
    + rewrite Hpipe.
      destruct (ReadNetwork.isPipeConnection s) eqn:Ep;
        apply Hret; try discriminate; congruence.
    + apply Hret; discriminate.
  - (* some bytes were read *)
    destruct (Z.gtb_spec res 0) as [_ | Hn]; [| lia].
    assert (got <> []) as Hgot' by (intros ->; cbn in Hres; lia).
    destruct (Z.eqb_spec res (ReadNetwork.read_size s - len (ReadNetwork.read_data s)))
      as [Hfull | Hpart].
    + (* the buffer is full: another round *)
      match goal with
      | |- read_outcome _ _ _ (continue_ ?s2) =>
          destruct (Hcont s2) as [r [s' [k [Hrun [Hk [Hsz [Hfit [Hp [taken Htaken]]]]]]]]]
      end.
      * cbn [ReadNetwork.read_size]. exact Hsize.
      * cbn [ReadNetwork.read_data ReadNetwork.read_size].
        rewrite Hdata, Hsize. unfold len in *. rewrite length_app. lia.
      * cbn [ReadNetwork.realloc_results]. exact Hallocd.
      * cbn [ReadNetwork.read_data ReadNetwork.read_size ReadNetwork.incoming
             ReadNetwork.closing ReadNetwork.isPipeConnection] in *.
        destruct Htaken as [Hin2 [Hok [Hmem [_ [Hnd Hacc]]]]].
        exists r, s', k. split; [exact Hrun |]. split; [exact Hk |].
        split; [rewrite Hsz, Hsize; reflexivity |]. split; [exact Hfit |].
        split; [rewrite Hp; exact Hpipe |].
        exists (got ++ taken).
        split; [rewrite Hin, Hin2, app_assoc; reflexivity |].
        split.
        { intros Hr. destruct (Hok Hr) as [Hd Hc].
          rewrite Hd, Hdata, Hc, Hclosing, app_assoc. split; reflexivity. }
        split; [exact Hmem |].
        split.
        { intros _. right. intros E. apply app_eq_nil in E. tauto. }
        split.
        { intros Hps Hr. rewrite Hpipe in Hnd.
          destruct (Hnd Hps Hr) as [E _]. discriminate E. }
        unfold realloc_account in *.
        cbn [ReadNetwork.realloc_results] in Hacc.
        rewrite Hallocd in Hacc. exact Hacc.
    + (* a partial read ends the loop *)
      eexists ReadNetwork.DataReceived, _, 0. split; [reflexivity |].
      cbn [ReadNetwork.read_data ReadNetwork.read_size ReadNetwork.incoming
           ReadNetwork.closing ReadNetwork.isPipeConnection].
      split; [lia |]. split; [rewrite Hsize; lia |].
      split; [unfold len in *; rewrite length_app; rewrite Hdata, Hsize; lia |].
      split; [exact Hpipe |].
      exists got. split; [exact Hin |].
      split; [intros _; rewrite Hdata, Hclosing; split; reflexivity |].
      split; [discriminate |].
      split; [intros _; right; exact Hgot' |].
      split; [discriminate |].
      apply realloc_account_none;
        [cbn [ReadNetwork.realloc_results]; exact Hallocd | discriminate].
Qed.

Lemma tryReadNetwork_loop_outcome (fuel : nat) :
  forall gotdata num_allocs s,
    gotdata = ReadNetwork.NoDataReceived \/ gotdata = ReadNetwork.DataReceived ->
    0 <= num_allocs <= 4 ->
    0 < ReadNetwork.read_size s ->
    len (ReadNetwork.read_data s) <= ReadNetwork.read_size s ->
    (if len (ReadNetwork.read_data s) >=? ReadNetwork.read_size s
     then 5 - num_allocs else 6 - num_allocs) <= Z.of_nat fuel ->
    read_outcome gotdata num_allocs s
      (ReadNetwork.tryReadNetwork_loop fuel gotdata num_allocs s).
Proof.
  induction fuel as [| fuel IH]; intros gotdata num_allocs s Hgot Hallocs Hsize Hfit Hfuel.
  - destruct (len (ReadNetwork.read_data s) >=? ReadNetwork.read_size s); lia.
  - cbn [ReadNetwork.tryReadNetwork_loop].
    destruct (Z.geb_spec (len (ReadNetwork.read_data s)) (ReadNetwork.read_size s))
      as [Hfull | Hroom].
    + destruct (Z.eqb_spec num_allocs 4) as [H4 | H4].
      * exists gotdata, s, 0. split; [reflexivity |].
        split; [lia |]. split; [lia |]. split; [exact Hfit |].
        split; [reflexivity |]. exists [].
        split; [reflexivity |].
        split; [intros _; rewrite app_nil_r; split; reflexivity |].
        split; [intros ->; destruct Hgot; discriminate |].
        split; [intros E; left; congruence |].
        split; [intros _ E; split; [congruence | reflexivity] |].
        apply realloc_account_none; [reflexivity |].
        intros ->. destruct Hgot; discriminate.
      * destruct (hd true (ReadNetwork.realloc_results s)) eqn:Ealloc; cbn [negb].
        -- (* the buffer is doubled *)
           match goal with
           | |- read_outcome _ _ _ (ReadNetwork.receive ?c _ ?s1) =>
               destruct (receive_outcome c gotdata (num_allocs + 1) s1 Hgot)
                 as [r [s' [k [Hrun [Hk [Hsz [Hfit' [Hp [taken Htaken]]]]]]]]]
           end.
           ++ lia.
           ++ cbn [ReadNetwork.read_data ReadNetwork.read_size]. lia.
           ++ intros s2 Hs2 Hfull2 _. apply IH.
              ** right. reflexivity.
              ** lia.
              ** rewrite Hs2. cbn [ReadNetwork.read_size]. lia.
              ** lia.
              ** destruct (Z.geb_spec (len (ReadNetwork.read_data s2))
                             (ReadNetwork.read_size s2)); lia.
           ++ cbn [ReadNetwork.read_data ReadNetwork.read_size
                   ReadNetwork.incoming ReadNetwork.closing
                   ReadNetwork.isPipeConnection] in *.
              exists r, s', (k + 1). split; [exact Hrun |]. split; [lia |].
              split; [rewrite Hsz, Z.pow_add_r by lia; lia |].
              split; [exact Hfit' |]. split; [exact Hp |].
              exists taken.
              destruct Htaken as [Hin [Hok [Hmem [Hdr [Hnd Hacc]]]]].
              repeat (split; [assumption |]).
              eapply realloc_account_doubled;
                [lia | exact Ealloc | | exact Hacc].
              reflexivity.
        -- (* no memory *)
           eexists ReadNetwork.MemoryError, _, 0. split; [reflexivity |].
           cbn [ReadNetwork.read_data ReadNetwork.read_size ReadNetwork.incoming
                ReadNetwork.closing ReadNetwork.isPipeConnection].
           split; [lia |]. split; [lia |]. split; [cbn; lia |].
           split; [reflexivity |]. exists [].
           split; [reflexivity |].
           split; [intros E; contradiction |].
           split; [intros _; split; reflexivity |].
           split; [discriminate |]. split; [discriminate |].
           unfold realloc_account. cbn [ReadNetwork.realloc_results Z.to_nat].
           split; [intros i Hi; lia |]. split; [intros E; contradiction |].
           intros _. split.
           ++ destruct (ReadNetwork.realloc_results s); [discriminate Ealloc |].
              exact Ealloc.
           ++ destruct (ReadNetwork.realloc_results s); reflexivity.
    + apply receive_outcome; [exact Hgot | exact Hallocs | lia |].
      intros s2 Hs2 Hfull2 _. apply IH.
      * right. reflexivity.
      * exact Hallocs.
      * rewrite Hs2. exact Hsize.
      * lia.
      * destruct (Z.geb_spec (len (ReadNetwork.read_data s2))
                    (ReadNetwork.read_size s2)); lia.
Qed.

(** X14: [tryReadNetwork] returns after at most four doublings of the
    read buffer, so a call never makes the buffer more than sixteen
    times as large and never takes more bytes from the socket than fit.
    The bytes it takes are added behind what the buffer held, in order,
    and the rest stays in the socket; it reports DataReceived only when
    it took some, and on a socket that is not a pipe NoDataReceived only
    when it took none.  When the buffer cannot be grown the buffer is
    given up, the connection is told to close and MemoryError is
    returned; MemoryError is returned exactly then: every call of
    [cb_realloc] but the last one of such a run succeeded and doubled the
    buffer, and a call for a full buffer whose first [cb_realloc] fails
    returns MemoryError. *)
Theorem tryReadNetwork_is_bounded (fuel : nat) (s : ReadNetwork.t) :
  (6 <= fuel)%nat ->
  0 < ReadNetwork.read_size s ->
  len (ReadNetwork.read_data s) <= ReadNetwork.read_size s ->
  exists r s' k taken,
    ReadNetwork.tryReadNetwork fuel s = Some (r, s') /\
    0 <= k <= 4 /\
    ReadNetwork.read_size s' = 2 ^ k * ReadNetwork.read_size s /\
    ReadNetwork.read_size s' <= 16 * ReadNetwork.read_size s /\
    len (ReadNetwork.read_data s') <= ReadNetwork.read_size s' /\
    ReadNetwork.incoming s = taken ++ ReadNetwork.incoming s' /\
    (r <> ReadNetwork.MemoryError ->
     ReadNetwork.read_data s' = ReadNetwork.read_data s ++ taken /\
     ReadNetwork.closing s' = ReadNetwork.closing s) /\
    (r = ReadNetwork.MemoryError ->
     ReadNetwork.read_data s' = [] /\ ReadNetwork.closing s' = true) /\
    (r = ReadNetwork.DataReceived -> taken <> []) /\
    (ReadNetwork.isPipeConnection s = false ->
     r = ReadNetwork.NoDataReceived -> taken = []) /\
    (forall i, (i < Z.to_nat k)%nat ->
               nth i (ReadNetwork.realloc_results s) true = true) /\
    (r <> ReadNetwork.MemoryError ->
     ReadNetwork.realloc_results s' =
     skipn (Z.to_nat k) (ReadNetwork.realloc_results s)) /\
    (r = ReadNetwork.MemoryError ->
     nth (Z.to_nat k) (ReadNetwork.realloc_results s) true = false /\
     ReadNetwork.realloc_results s' =
     skipn (S (Z.to_nat k)) (ReadNetwork.realloc_results s)) /\
    (len (ReadNetwork.read_data s) = ReadNetwork.read_size s ->
     hd true (ReadNetwork.realloc_results s) = false ->
     r = ReadNetwork.MemoryError).
Proof.
  intros Hfuel Hsize Hfit. unfold ReadNetwork.tryReadNetwork. cbv zeta.
  match goal with
  | |- context [ReadNetwork.tryReadNetwork_loop fuel _ 0 ?s0] =>
      destruct (tryReadNetwork_loop_outcome fuel ReadNetwork.NoDataReceived 0 s0)
        as [r [s' [k [Hrun [Hk [Hsz [Hfit' [Hp [taken Htaken]]]]]]]]]
  end.
  - left. reflexivity.
  - lia.
  - destruct (ReadNetwork.read_at_start s); exact Hsize.
  - destruct (ReadNetwork.read_at_start s); exact Hfit.
  - destruct (_ >=? _); lia.
  - exists r, s', k, taken. split; [exact Hrun |].
    assert (ReadNetwork.read_size s' = 2 ^ k * ReadNetwork.read_size s) as Hsz'
      by (destruct (ReadNetwork.read_at_start s); exact Hsz).
    split; [lia |]. split; [exact Hsz' |].
    split.
    { rewrite Hsz'. apply Z.mul_le_mono_nonneg_r; [lia |].
      change 16 with (2 ^ 4). apply Z.pow_le_mono_r; lia. }
    split; [exact Hfit' |].
    destruct Htaken as [Hin [Hok [Hmem [Hdr [Hnd Hacc]]]]].
    assert (Hfailed :
              len (ReadNetwork.read_data s) = ReadNetwork.read_size s ->
              hd true (ReadNetwork.realloc_results s) = false ->
              r = ReadNetwork.MemoryError).
    { intros Hfull Hhd. destruct fuel as [| fuel]; [lia |].
      cbn [ReadNetwork.tryReadNetwork_loop] in Hrun.
      destruct (ReadNetwork.read_at_start s);
        cbn [ReadNetwork.read_data ReadNetwork.read_size
             ReadNetwork.realloc_results] in Hrun;
        rewrite Hfull, Hhd in Hrun;
        (destruct (Z.geb_spec (ReadNetwork.read_size s) (ReadNetwork.read_size s));
         [| lia]);
        cbn [Z.eqb negb] in Hrun; congruence. }
    unfold realloc_account in Hacc.
    destruct (ReadNetwork.read_at_start s);
      cbn [ReadNetwork.incoming ReadNetwork.read_data ReadNetwork.closing
           ReadNetwork.isPipeConnection ReadNetwork.realloc_results] in *.
    + repeat (split; [assumption |]). split.
      * intros E. destruct (Hdr E) as [E' | E']; [discriminate | exact E'].
      * split; [intros Hpipe E; apply (Hnd Hpipe E) |].
        destruct Hacc as [H1 [H2 H3]]. repeat (split; [assumption |]).
        exact Hfailed.
    + repeat (split; [assumption |]). split.
      * intros E. destruct (Hdr E) as [E' | E']; [discriminate | exact E'].
      * split; [intros Hpipe E; apply (Hnd Hpipe E) |].
        destruct Hacc as [H1 [H2 H3]]. repeat (split; [assumption |]).
        exact Hfailed.
Qed.

Lemma tryReadNetwork_is_bounded_witness :
  let s :=
    ReadNetwork.mk [1] 2 true [2; 3; 4; 5; 6] ReadNetwork.WouldBlock [] false
      false in
  (6 <= 6)%nat /\ 0 < 2 /\ len [1] <= 2 /\
  exists s',
    ReadNetwork.tryReadNetwork 6 s = Some (ReadNetwork.DataReceived, s') /\
    ReadNetwork.read_data s' = [1; 2; 3; 4; 5; 6] /\
    ReadNetwork.read_size s' = 8.
Proof.
  cbv zeta.
  assert (6 <= 6)%nat as Hfuel by lia.
  assert (0 < 2) as Hsize by lia.
  assert (len [1] <= 2) as Hfit by (vm_compute; discriminate).
  split; [exact Hfuel |]. split; [exact Hsize |]. split; [exact Hfit |].
  destruct (tryReadNetwork_is_bounded 6
              (ReadNetwork.mk [1] 2 true [2; 3; 4; 5; 6] ReadNetwork.WouldBlock
                 [] false false) Hfuel Hsize Hfit)
    as [r [s' [k [taken [Hrun _]]]]].
  vm_compute in Hrun. injection Hrun as <- <-.
  eexists. split; [vm_compute; reflexivity |]. split; reflexivity.
Defined.

(** ** The executors of the DCP commands *)

Lemma with_dcp_privilege_pending (pending p e : ENGINE_ERROR_CODE) :
  pending <> ENGINE_SUCCESS ->
  Executors.with_dcp_privilege pending p e = (pending, []).
Proof.
  intros H. unfold Executors.with_dcp_privilege, errc_eqb.
  destruct (ENGINE_ERROR_CODE_eq_dec pending ENGINE_SUCCESS); [contradiction | reflexivity].
Qed.

Lemma without_privilege_check_pending (pending e : ENGINE_ERROR_CODE) :
  pending <> ENGINE_SUCCESS ->
  Executors.without_privilege_check pending e = (pending, []).
Proof.
  intros H. unfold Executors.without_privilege_check, errc_eqb.
  destruct (ENGINE_ERROR_CODE_eq_dec pending ENGINE_SUCCESS); [contradiction | reflexivity].
Qed.

Lemma with_dcp_privilege_refused (p e : ENGINE_ERROR_CODE) :
  p <> ENGINE_SUCCESS ->
  Executors.with_dcp_privilege ENGINE_SUCCESS p e = (p, [Executors.HaveDcpPrivilege]).
Proof.
  intros H. unfold Executors.with_dcp_privilege, errc_eqb. cbn.
  destruct (ENGINE_ERROR_CODE_eq_dec p ENGINE_SUCCESS); [contradiction | reflexivity].
Qed.





(** ** The names of the opcodes *)

Lemma enumerators_position (op : Opcode.ClientOpcode) :
  nth_error Opcode.enumerators (Opcode.position op) = Some op.
Proof. destruct op; reflexivity. Qed.

Lemma enumerators_complete (op : Opcode.ClientOpcode) :
  In op Opcode.enumerators.
Proof. eapply nth_error_In. apply enumerators_position. Qed.

Lemma position_injective (a b : Opcode.ClientOpcode) :
  Opcode.position a = Opcode.position b -> a = b.
Proof.
  intros H. pose proof (enumerators_position a) as Ha.
  rewrite H, enumerators_position in Ha. congruence.
Qed.

Lemma opcode_names_unique (a b : Opcode.ClientOpcode) (s : string) :
  Opcode.to_string a = Opcode.Returns s ->
  Opcode.to_string b = Opcode.Returns s -> a = b.
Proof.
  intros Ha Hb.
  assert (Hall : Opcode.names_differ = true) by (vm_compute; reflexivity).
  unfold Opcode.names_differ in Hall.
  rewrite forallb_forall in Hall.
  specialize (Hall a (enumerators_complete a)).
  rewrite forallb_forall in Hall.
  specialize (Hall b (enumerators_complete b)).
  rewrite Ha, Hb, String.eqb_refl in Hall. cbn in Hall.
  apply position_injective. apply Nat.eqb_eq. exact Hall.
Qed.

Lemma opcode_names_upper_case (op : Opcode.ClientOpcode) (s : string) :
  Opcode.to_string op = Opcode.Returns s -> Opcode.to_opcode_input s = s.
Proof.
  destruct op; intros H; first [discriminate H | injection H as <-; reflexivity].
Qed.

Lemma find_the_one {A : Type} (f : A -> bool) (l : list A) (a : A) :
  In a l -> f a = true -> (forall x, In x l -> f x = true -> x = a) ->
  List.find f l = Some a.
Proof.
  induction l as [| x l IH]; intros Hin Hfa Huniq; [contradiction |].
  cbn. destruct (f x) eqn:Hfx.
  - f_equal. apply Huniq; [left; reflexivity | exact Hfx].
  - destruct Hin as [-> | Hin]; [congruence |].
    apply IH; [exact Hin | exact Hfa |].
    intros y Hy. apply Huniq. right. exact Hy.
Qed.

Section ToOpcodeProperties.

Variable value : Opcode.ClientOpcode -> Z.
Hypothesis value_injective : forall a b, value a = value b -> a = b.

Lemma from_int_value (op : Opcode.ClientOpcode) :
  Opcode.from_int value (value op) = Some op.
Proof.
  unfold Opcode.from_int. apply find_the_one.
  - apply enumerators_complete.
  - apply Z.eqb_refl.
  - intros x _ H. apply value_injective. apply Z.eqb_eq. exact H.
Qed.

Lemma from_int_some (ii : Z) (op : Opcode.ClientOpcode) :
  Opcode.from_int value ii = Some op -> value op = ii.
Proof.
  unfold Opcode.from_int. intros H. apply find_some in H.
  apply Z.eqb_eq. apply H.
Qed.

Lemma to_opcode_loop_returns (input : string) (n : nat) :
  forall (ii : Z) (op : Opcode.ClientOpcode),
    Opcode.to_opcode_loop value input ii n = Opcode.Returns op ->
    Opcode.to_string op = Opcode.Returns input /\
    ii <= value op < ii + Z.of_nat n.
Proof.
  induction n as [| n IH]; intros ii op H; [discriminate H |].
  cbn [Opcode.to_opcode_loop] in H.
  assert (Hnext : Opcode.to_opcode_loop value input (ii + 1) n = Opcode.Returns op ->
                  Opcode.to_string op = Opcode.Returns input /\
                  ii <= value op < ii + Z.of_nat (S n)).
  { intros H'. destruct (IH _ _ H') as [Hs Hr]. split; [exact Hs | lia]. }
  destruct (Opcode.from_int value ii) as [op' |] eqn:Hfrom; [| auto].
  destruct (Opcode.to_string op') as [str |] eqn:Hstr; [| auto].
  destruct (String.eqb str input) eqn:Heq; [| auto].
  injection H as <-. apply String.eqb_eq in Heq. subst str.
  split; [exact Hstr |]. apply from_int_some in Hfrom. lia.
Qed.

Lemma to_opcode_loop_finds (input : string) (op : Opcode.ClientOpcode) :
  Opcode.to_string op = Opcode.Returns input ->
  forall (n : nat) (ii : Z),
    ii <= value op < ii + Z.of_nat n ->
    Opcode.to_opcode_loop value input ii n = Opcode.Returns op.
Proof.
  intros Hname. induction n as [| n IH]; intros ii Hr; [lia |].
  cbn [Opcode.to_opcode_loop].
  destruct (Z.eq_dec (value op) ii) as [<- | Hne].
  - rewrite from_int_value, Hname, String.eqb_refl. reflexivity.
  - assert (Hnext : Opcode.to_opcode_loop value input (ii + 1) n = Opcode.Returns op)
      by (apply IH; lia).
    destruct (Opcode.from_int value ii) as [op' |] eqn:Hfrom; [| exact Hnext].
    destruct (Opcode.to_string op') as [str |] eqn:Hstr; [| exact Hnext].
    destruct (String.eqb str input) eqn:Heq; [| exact Hnext].
    apply String.eqb_eq in Heq. subst str.
    f_equal. apply (opcode_names_unique op' op input); assumption.
Qed.

End ToOpcodeProperties.

Lemma valid_opcode_has_name (op : Opcode.ClientOpcode) :
  Opcode.is_valid_opcode op = true <->
  exists s, Opcode.to_string op = Opcode.Returns s.
Proof.
  destruct op; cbn; split; intros H;
    first [reflexivity | discriminate H | eexists; reflexivity
          | destruct H as [s H]; discriminate H].
Qed.

Lemma valid_opcode_has_reorder (op : Opcode.ClientOpcode) :
  Opcode.is_valid_opcode op = true <->
  exists b, Opcode.isReorderSupported op = Opcode.Returns b.
Proof.
  destruct op; cbn; split; intros H;
    first [reflexivity | discriminate H | eexists; reflexivity
          | destruct H as [s H]; discriminate H].
Qed.

(** X16: the three tables of opcode.cc agree and the names are a code:
    an opcode is valid exactly when [to_string] names it and exactly
    when [isReorderSupported] answers for it; with the enumerators
    numbered apart and below [Invalid], [to_opcode] gives back the
    opcode of every name, also when the name comes in lower case or
    with spaces for the underscores; what [to_opcode] returns is a valid
    opcode whose name is the input in upper case, and it throws exactly
    when no opcode has that name. *)
Theorem opcode_names_round_trip (value : Opcode.ClientOpcode -> Z) :
  (forall a b, value a = value b -> a = b) ->
  (forall op, op <> Opcode.Invalid -> 0 <= value op < value Opcode.Invalid) ->
  (forall op, Opcode.is_valid_opcode op = true <->
              exists s, Opcode.to_string op = Opcode.Returns s) /\
  (forall op, Opcode.is_valid_opcode op = true <->
              exists b, Opcode.isReorderSupported op = Opcode.Returns b) /\
  (forall op s s',
     Opcode.to_string op = Opcode.Returns s ->
     Opcode.to_opcode_input s' = s ->
     Opcode.to_opcode value s' = Opcode.Returns op) /\
  (forall op s,
     Opcode.to_string op = Opcode.Returns s ->
     Opcode.to_opcode value s = Opcode.Returns op) /\
  (forall s op,
     Opcode.to_opcode value s = Opcode.Returns op ->
     Opcode.is_valid_opcode op = true /\
     Opcode.to_string op = Opcode.Returns (Opcode.to_opcode_input s)) /\
  (forall s,
     Opcode.to_opcode value s = Opcode.invalid_argument <->
     forall op, Opcode.to_string op <> Opcode.Returns (Opcode.to_opcode_input s)).
Proof.
  intros Hinj Hrange.
  assert (Hfind : forall op s s',
            Opcode.to_string op = Opcode.Returns s ->
            Opcode.to_opcode_input s' = s ->
            Opcode.to_opcode value s' = Opcode.Returns op).
  { intros op s s' Hname Hin. unfold Opcode.to_opcode. rewrite Hin.
    apply (to_opcode_loop_finds value Hinj _ op Hname).
    assert (Hop : op <> Opcode.Invalid) by (intros ->; discriminate Hname).
    specialize (Hrange op Hop). lia. }
  assert (Hback : forall s op,
            Opcode.to_opcode value s = Opcode.Returns op ->
            Opcode.to_string op = Opcode.Returns (Opcode.to_opcode_input s)).
  { intros s op H. unfold Opcode.to_opcode in H.
    apply (to_opcode_loop_returns value) in H. apply H. }
  split; [exact valid_opcode_has_name |].
  split; [exact valid_opcode_has_reorder |].
  split; [exact Hfind |].
  split.
  { intros op s Hname. apply (Hfind op s s Hname).
    apply (opcode_names_upper_case op). exact Hname. }
  split.
  { intros s op H. specialize (Hback s op H). split; [| exact Hback].
    apply valid_opcode_has_name. eexists. exact Hback. }
  intros s. split.
  - intros H op Hname.
    rewrite (Hfind op _ s Hname eq_refl) in H. discriminate H.
  - intros Hnone.
    destruct (Opcode.to_opcode value s) as [op |] eqn:H; [| reflexivity].
    exfalso. apply (Hnone op). apply Hback. exact H.
Qed.

Lemma place_value_injective (a b : Opcode.ClientOpcode) :
  Opcode.place_value a = Opcode.place_value b -> a = b.
Proof.
  unfold Opcode.place_value. intros H. apply position_injective. lia.
Qed.

Lemma place_value_range (op : Opcode.ClientOpcode) :
  op <> Opcode.Invalid ->
  0 <= Opcode.place_value op < Opcode.place_value Opcode.Invalid.
Proof.
  intros H. destruct op; first [contradiction H; reflexivity | vm_compute; split; congruence].
Qed.

Lemma opcode_names_round_trip_witness :
  Opcode.to_opcode Opcode.place_value "get cluster config"
  = Opcode.Returns Opcode.GetClusterConfig /\
  Opcode.to_opcode Opcode.place_value "INVALID" = Opcode.invalid_argument.
Proof.
  destruct (opcode_names_round_trip Opcode.place_value
              place_value_injective place_value_range)
    as (_ & _ & Hfind & _ & _ & Hnone).
  split.
  - apply (Hfind Opcode.GetClusterConfig "GET_CLUSTER_CONFIG"%string);
      reflexivity.
  - vm_compute. reflexivity.
Defined.
(** ** Sending what is queued *)

Lemma region_bytes_length (b l : Z) :
  0 <= l -> len (region_bytes (b, l)) = l.
Proof.
  intros H. unfold len, region_bytes. cbn [snd].
  rewrite length_map, length_seq. lia.
Qed.

Lemma map_seq_shift (b r : Z) (n : nat) :
  0 <= r ->
  forall k,
    map (fun i => b + r + Z.of_nat i) (seq k n) =
    map (fun i => b + Z.of_nat i) (seq (Z.to_nat r + k) n).
Proof.
  intros Hr. induction n as [| n IH]; intros k; [reflexivity |].
  cbn [seq map]. f_equal; [lia |].
  rewrite IH. f_equal. f_equal. lia.
Qed.

Lemma region_bytes_skip (b l r : Z) :
  0 <= r <= l ->
  region_bytes (b + r, l - r) = skipn (Z.to_nat r) (region_bytes (b, l)).
Proof.
  intros H. unfold region_bytes. cbn [fst snd].
  rewrite skipn_map, skipn_seq, map_seq_shift by lia.
  f_equal. f_equal; lia.
Qed.

Lemma window_cons {A : Type} (iov : list A) (n : nat) :
  forall (i : nat) (e : A),
    nth_error iov i = Some e ->
    firstn (S n) (skipn i iov) = e :: firstn n (skipn (S i) iov).
Proof.
  induction iov as [| x iov IH]; intros i e H; [destruct i; discriminate H |].
  destruct i as [| i].
  - cbn in H. injection H as <-. reflexivity.
  - cbn [nth_error] in H. cbn [skipn]. rewrite (IH i e H). reflexivity.
Qed.

Lemma window_split {A : Type} (iov : list A) (i k n : nat) :
  firstn (k + n) (skipn i iov) =
  firstn k (skipn i iov) ++ firstn n (skipn (i + k) iov).
Proof. rewrite firstn_add_skipn, skipn_add. reflexivity. Qed.

Lemma regions_bytes_cons (e : Z * Z) (es : list (Z * Z)) :
  regions_bytes (e :: es) = region_bytes e ++ regions_bytes es.
Proof. reflexivity. Qed.

Lemma regions_bytes_app (a b : list (Z * Z)) :
  regions_bytes (a ++ b) = regions_bytes a ++ regions_bytes b.
Proof. unfold regions_bytes. rewrite map_app, concat_app. reflexivity. Qed.

Lemma regions_bytes_length_nonneg (es : list (Z * Z)) : 0 <= len (regions_bytes es).
Proof. unfold len. lia. Qed.

Lemma remove_completed_spec (iov : list (Z * Z)) (n : nat) :
  forall (i : nat) (res : Z),
    (i + n <= List.length iov)%nat ->
    Forall (fun e => 0 < snd e) (firstn n (skipn i iov)) ->
    0 <= res <= len (regions_bytes (firstn n (skipn i iov))) ->
    exists (i' n' : nat) (res' : Z),
      Transmit.remove_completed iov i n res = Transmit.Returns (i', n', res') /\
      (i' + n' = i + n)%nat /\ (i <= i')%nat /\ 0 <= res' /\
      skipn (Z.to_nat res) (regions_bytes (firstn n (skipn i iov))) =
      skipn (Z.to_nat res') (regions_bytes (firstn n' (skipn i' iov))) /\
      (n' = 0%nat -> res' = 0) /\
      (forall e, nth_error iov i' = Some e -> n' <> 0%nat -> res' < snd e).
Proof.
  induction n as [| n IH]; intros i res Hlen Hpos Hres.
  - exists i, 0%nat, res. cbn [Transmit.remove_completed].
    cbn [firstn] in Hres. cbn in Hres.
    repeat split; try reflexivity; try lia.
  - destruct (nth_error iov i) as [[b l] |] eqn:Hnth.
    2:{ apply nth_error_None in Hnth. lia. }
    rewrite (window_cons iov n i (b, l) Hnth) in Hpos, Hres.
    rewrite (window_cons iov n i (b, l) Hnth).
    rewrite regions_bytes_cons in *.
    inversion Hpos as [| ? ? Hl Hpos']; subst. cbn [snd] in Hl.
    assert (Hlenb : List.length (region_bytes (b, l)) = Z.to_nat l).
    { pose proof (region_bytes_length b l ltac:(lia)) as H. unfold len in H. lia. }
    unfold len in Hres. rewrite length_app, Hlenb in Hres.
    cbn [Transmit.remove_completed]. rewrite Hnth.
    destruct (res >=? l) eqn:Hge.
    + apply Z.geb_le in Hge.
      destruct (IH (S i) (res - l)) as (i' & n' & res' & Hrun & Hsum & Hle & Hr0 & Hskip & Hz & Hlt).
      * lia.
      * exact Hpos'.
      * unfold len. lia.
      * exists i', n', res'. rewrite Hrun.
        repeat split; try assumption; try lia.
        rewrite skipn_app, Hlenb.
        rewrite (skipn_all2 (region_bytes (b, l))) by lia.
        cbn [app].
        replace (Z.to_nat res - Z.to_nat l)%nat with (Z.to_nat (res - l)) by lia.
        exact Hskip.
    + assert (Hlt : res < l).
      { destruct (Z.geb_spec res l); [discriminate | lia]. }
      exists i, (S n), res.
      rewrite (window_cons iov n i (b, l) Hnth), regions_bytes_cons.
      split; [reflexivity |]. split; [lia |]. split; [lia |].
      split; [lia |]. split; [reflexivity |]. split.
      * intros H. discriminate H.
      * intros e He _. rewrite Hnth in He. injection He as <-. exact Hlt.
Qed.

Lemma skip_finished_spec (msgs : list IoVectors.msghdr) :
  forall k : nat,
    exists finished rest,
      msgs = finished ++ rest /\
      Forall (fun m => IoVectors.msg_iovlen m = 0%nat) finished /\
      Transmit.skip_finished msgs k = (k + List.length finished)%nat /\
      match rest with
      | [] => True
      | m :: _ => IoVectors.msg_iovlen m <> 0%nat
      end.
Proof.
  induction msgs as [| m msgs IH]; intros k.
  - exists [], []. cbn. repeat split; [constructor | lia].
  - cbn [Transmit.skip_finished].
    destruct (IoVectors.msg_iovlen m =? 0)%nat eqn:Hm.
    + apply Nat.eqb_eq in Hm.
      destruct (IH (S k)) as (finished & rest & -> & Hall & Hk & Hrest).
      exists (m :: finished), rest. cbn [app List.length].
      repeat split; [constructor; assumption | lia | exact Hrest].
    + apply Nat.eqb_neq in Hm.
      exists [], (m :: msgs). cbn. repeat split; [constructor | lia | exact Hm].
Qed.

Lemma nth_error_skipn_hd {A : Type} (l : list A) :
  forall n, nth_error l n = hd_error (skipn n l).
Proof.
  induction l as [| x l IH]; intros [| n]; try reflexivity. cbn. apply IH.
Qed.

Lemma skipn_assign_at {A : Type} (y : A) (l : list A) :
  forall (k : nat) (x : A),
    nth_error l k = Some x ->
    skipn k (IoVectors.assign k y l) = y :: skipn (S k) l.
Proof.
  induction l as [| z l IH]; intros [| k] x H; try discriminate H.
  - reflexivity.
  - cbn [nth_error] in H. cbn [IoVectors.assign skipn]. apply (IH k x H).
Qed.

Lemma skipn_assign_before {A : Type} (y : A) (l : list A) :
  forall j i : nat,
    (j < i)%nat -> skipn i (IoVectors.assign j y l) = skipn i l.
Proof.
  induction l as [| z l IH]; intros j i H.
  - destruct j; reflexivity.
  - destruct i as [| i]; [lia |]. destruct j as [| j]; [reflexivity |].
    cbn [IoVectors.assign skipn]. apply IH. lia.
Qed.

Lemma nth_error_assign_at {A : Type} (y : A) (l : list A) :
  forall (k : nat) (x : A),
    nth_error l k = Some x -> nth_error (IoVectors.assign k y l) k = Some y.
Proof.
  induction l as [| z l IH]; intros [| k] x H; try discriminate H.
  - reflexivity.
  - cbn [nth_error] in H. cbn [IoVectors.assign nth_error]. apply (IH k x H).
Qed.

Lemma in_order_weaken (msgs : list IoVectors.msghdr) (off off' bound : nat) :
  (off' <= off)%nat -> in_order off msgs bound -> in_order off' msgs bound.
Proof.
  destruct msgs as [| m msgs]; cbn [in_order]; intros H.
  - lia.
  - intros [H1 H2]. split; [lia | exact H2].
Qed.

Lemma in_order_app (a b : list IoVectors.msghdr) (bound : nat) :
  forall off, in_order off (a ++ b) bound -> in_order off b bound.
Proof.
  induction a as [| m a IH]; intros off H; [exact H |].
  cbn [app in_order] in H. destruct H as [H1 H2].
  apply (in_order_weaken b (IoVectors.msg_iov m + IoVectors.msg_iovlen m)); [lia |].
  apply IH. exact H2.
Qed.

Lemma in_order_bound (msgs : list IoVectors.msghdr) (bound : nat) :
  forall off, in_order off msgs bound -> (off <= bound)%nat.
Proof.
  induction msgs as [| m msgs IH]; intros off H; [exact H |].
  cbn [in_order] in H. destruct H as [H1 H2]. apply IH in H2. lia.
Qed.

Lemma entries_finished (iov : list (Z * Z)) (finished : list IoVectors.msghdr) :
  Forall (fun m => IoVectors.msg_iovlen m = 0%nat) finished ->
  List.concat
    (map (fun m => firstn (IoVectors.msg_iovlen m)
                     (skipn (IoVectors.msg_iov m) iov)) finished) = [].
Proof.
  induction 1 as [| m finished Hm _ IH]; [reflexivity |].
  cbn [map List.concat]. rewrite Hm, IH. reflexivity.
Qed.

Lemma entries_assign_before (iov : list (Z * Z)) (j : nat) (x : Z * Z)
    (msgs : list IoVectors.msghdr) (bound : nat) :
  forall off,
    (j < off)%nat -> in_order off msgs bound ->
    map (fun m => firstn (IoVectors.msg_iovlen m)
                    (skipn (IoVectors.msg_iov m) (IoVectors.assign j x iov))) msgs =
    map (fun m => firstn (IoVectors.msg_iovlen m)
                    (skipn (IoVectors.msg_iov m) iov)) msgs.
Proof.
  induction msgs as [| m msgs IH]; intros off Hj H; [reflexivity |].
  cbn [in_order] in H. destruct H as [H1 H2]. cbn [map].
  rewrite skipn_assign_before by lia. f_equal.
  apply (IH (IoVectors.msg_iov m + IoVectors.msg_iovlen m)%nat); [lia | exact H2].
Qed.

Lemma skipn_bytes_within (a b : list Z) (n : nat) :
  (n <= List.length a)%nat -> skipn n (a ++ b) = skipn n a ++ b.
Proof.
  intros H. rewrite skipn_app.
  replace (n - List.length a)%nat with 0%nat by lia. reflexivity.
Qed.

Lemma current_message_split (v : IoVectors.t) (m : IoVectors.msghdr) :
  current_message v = Some m ->
  exists finished rest,
    skipn (IoVectors.msgcurr v) (IoVectors.msglist v) = finished ++ m :: rest /\
    Forall (fun m => IoVectors.msg_iovlen m = 0%nat) finished /\
    Transmit.skip_finished
      (skipn (IoVectors.msgcurr v) (IoVectors.msglist v)) (IoVectors.msgcurr v)
    = (IoVectors.msgcurr v + List.length finished)%nat /\
    skipn (S (IoVectors.msgcurr v + List.length finished)) (IoVectors.msglist v)
    = rest /\
    IoVectors.msg_iovlen m <> 0%nat.
Proof.
  unfold current_message. intros Hcur.
  destruct (skip_finished_spec
              (skipn (IoVectors.msgcurr v) (IoVectors.msglist v))
              (IoVectors.msgcurr v))
    as (finished & rest & Hsplit & Hfin & Hk & Hrest).
  rewrite Hk, nth_error_skipn_hd, <- skipn_add, Hsplit in Hcur.
  rewrite skipn_app, skipn_all, Nat.sub_diag in Hcur. cbn [app skipn] in Hcur.
  destruct rest as [| m' rest]; [discriminate Hcur |].
  cbn in Hcur. injection Hcur as ->.
  exists finished, rest. repeat split; try assumption.
  replace (S (IoVectors.msgcurr v + List.length finished))
    with (IoVectors.msgcurr v + (List.length finished + 1))%nat by lia.
  rewrite <- skipn_add, Hsplit, <- skipn_add.
  rewrite skipn_app, skipn_all, Nat.sub_diag. reflexivity.
Qed.

Lemma no_current_message (v : IoVectors.t) :
  current_message v = None ->
  pending_entries v = [] /\
  skipn (Transmit.skip_finished
           (skipn (IoVectors.msgcurr v) (IoVectors.msglist v))
           (IoVectors.msgcurr v)) (IoVectors.msglist v) = [].
Proof.
  unfold current_message, pending_entries. intros Hcur.
  destruct (skip_finished_spec
              (skipn (IoVectors.msgcurr v) (IoVectors.msglist v))
              (IoVectors.msgcurr v))
    as (finished & rest & Hsplit & Hfin & Hk & Hrest).
  rewrite Hk in *. rewrite nth_error_skipn_hd, <- skipn_add, Hsplit in Hcur.
  rewrite skipn_app, skipn_all, Nat.sub_diag in Hcur. cbn [app skipn] in Hcur.
  destruct rest as [| m' rest]; [| discriminate Hcur].
  rewrite <- skipn_add, Hsplit, app_nil_r. split.
  - apply (entries_finished (IoVectors.iov v)). exact Hfin.
  - apply skipn_all.
Qed.

Lemma transmit_writes (a : Transmit.Answers) (s : Transmit.t)
    (m : IoVectors.msghdr) :
  Transmit.ssl_isEnabled s = false ->
  sendable (Transmit.vectors s) ->
  current_message (Transmit.vectors s) = Some m ->
  0 < Transmit.sendmsg_result a <= len (message_bytes (Transmit.vectors s) m) ->
  match Transmit.transmit a s with
  | Transmit.OutsideIov =>
      Transmit.sendmsg_result a = len (message_bytes (Transmit.vectors s) m) /\
      (IoVectors.msg_iov m + IoVectors.msg_iovlen m)%nat =
      List.length (IoVectors.iov (Transmit.vectors s))
  | Transmit.Returns (r, s') =>
      (r = Transmit.Complete \/ r = Transmit.Incomplete) /\
      pending_bytes (Transmit.vectors s') =
      skipn (Z.to_nat (Transmit.sendmsg_result a))
        (pending_bytes (Transmit.vectors s)) /\
      sendable (Transmit.vectors s') /\
      Transmit.totalSend s' = Transmit.totalSend s + Transmit.sendmsg_result a /\
      Transmit.bytes_written s' =
      Transmit.bytes_written s + Transmit.sendmsg_result a /\
      Transmit.closing s' = Transmit.closing s /\
      (r = Transmit.Complete ->
       pending_bytes (Transmit.vectors s') = [] /\
       Transmit.write_cleared s' = true)
  end.
Proof.
  destruct s as [[vec used msglist msgcurr mb] ssl ts bw cl wc].
  destruct a as [pending_before pending_after has_error update_ok res blocking].
  cbn [Transmit.sendmsg_result].
  cbn [Transmit.ssl_isEnabled Transmit.vectors Transmit.totalSend
       Transmit.bytes_written Transmit.closing].
  intros -> [Hord Hpos] Hcur Hres.
  destruct (current_message_split _ m Hcur)
    as (finished & rest & Hsplit & Hfin & Hk & Hrest & Hm).
  cbn [IoVectors.msgcurr IoVectors.msglist] in Hsplit, Hk, Hrest.
  unfold current_message in Hcur.
  cbn [IoVectors.msgcurr IoVectors.msglist] in Hcur. rewrite Hk in Hcur.
  set (k := (msgcurr + List.length finished)%nat) in *.
  destruct m as [i n]. cbn [IoVectors.msg_iov IoVectors.msg_iovlen] in *.
  set (ents := fun (l : list (Z * Z)) (m : IoVectors.msghdr) =>
                 firstn (IoVectors.msg_iovlen m) (skipn (IoVectors.msg_iov m) l)).
  assert (Hpend : pending_entries (IoVectors.mk vec used msglist msgcurr mb)
                  = firstn n (skipn i vec) ++ List.concat (map (ents vec) rest)).
  { unfold pending_entries. cbn [IoVectors.msgcurr IoVectors.msglist].
    rewrite Hsplit, map_app, concat_app.
    change (map (IoVectors.entries (IoVectors.mk vec used msglist msgcurr mb)) finished)
      with (map (ents vec) finished).
    unfold ents at 1. rewrite (entries_finished vec finished Hfin). reflexivity. }
  cbn [IoVectors.msgcurr IoVectors.msglist IoVectors.iov] in Hord.
  rewrite Hsplit in Hord. apply in_order_app in Hord.
  cbn [in_order IoVectors.msg_iov IoVectors.msg_iovlen] in Hord.
  destruct Hord as [_ Hord].
  pose proof (in_order_bound _ _ _ Hord) as Hbound.
  rewrite Hpend in Hpos. apply Forall_app in Hpos. destruct Hpos as [Hposm Hposr].
  unfold message_bytes, IoVectors.entries in Hres.
  cbn [IoVectors.msg_iov IoVectors.msg_iovlen IoVectors.iov] in Hres.
  unfold message_bytes, IoVectors.entries.
  cbn [IoVectors.msg_iov IoVectors.msg_iovlen IoVectors.iov].
  unfold pending_bytes at 2. rewrite Hpend, regions_bytes_app.
  destruct (remove_completed_spec vec n i res)
    as (i' & n' & res' & Hrun & Hsum & Hle & Hres0 & Hskip & Hzero & Hlt).
  { exact Hbound. }
  { eapply Forall_impl; [| exact Hposm]. cbn. intros e He. lia. }
  { lia. }
  unfold Transmit.transmit, Transmit.transmit_data.
  cbn [Transmit.ssl_isEnabled Transmit.vectors andb IoVectors.msgcurr
       IoVectors.msglist IoVectors.iov IoVectors.iovused IoVectors.msgbytes].
  rewrite Hk. fold k. rewrite Hcur.
  unfold Transmit.sendmsg. cbn [Transmit.ssl_isEnabled Transmit.vectors
    Transmit.totalSend Transmit.bytes_written Transmit.closing Transmit.write_cleared].
  cbn [Transmit.sendmsg_result].
  assert (Hgt : (res >? 0) = true) by (apply Z.gtb_lt; lia).
  rewrite Hgt. cbv beta iota. rewrite Hgt.
  cbn [IoVectors.msg_iov IoVectors.msg_iovlen Transmit.ssl_isEnabled
       Transmit.vectors Transmit.totalSend Transmit.bytes_written
       Transmit.closing Transmit.write_cleared Transmit.set_vectors andb].
  rewrite Hrun, length_assign.
  assert (Hsk : skipn k (IoVectors.assign k (IoVectors.mk_msghdr i' n') msglist)
                = IoVectors.mk_msghdr i' n' :: rest).
  { rewrite (skipn_assign_at _ _ _ _ Hcur), Hrest. reflexivity. }
  assert (HskS : skipn (S k) (IoVectors.assign k (IoVectors.mk_msghdr i' n') msglist)
                 = rest).
  { rewrite skipn_assign_before by lia. exact Hrest. }
  assert (Hfit : (Z.to_nat res
                  <= List.length (regions_bytes (firstn n (skipn i vec))))%nat)
    by (unfold len in Hres; lia).
  rewrite (skipn_bytes_within _ _ _ Hfit).
  rewrite Hskip.
  assert (Hsuffix : Forall (fun e : Z * Z => 0 < snd e < 2 ^ 64)
                      (firstn n' (skipn i' vec))).
  { replace n with ((i' - i) + n')%nat in Hposm by lia.
    rewrite window_split in Hposm.
    replace (i + (i' - i))%nat with i' in Hposm by lia.
    apply Forall_app in Hposm. apply Hposm. }
  assert (Hord0 : in_order 0 rest (List.length vec)).
  { apply (in_order_weaken rest (i + n)); [lia | exact Hord]. }
  destruct (nth_error vec i') as [[b l] |] eqn:Hnth.
  2:{ apply nth_error_None in Hnth.
      assert (Hn' : n' = 0%nat) by lia.
      specialize (Hzero Hn'). subst n' res'.
      cbn [firstn skipn] in Hskip. change (regions_bytes []) with (@nil Z) in Hskip.
      rewrite skipn_nil in Hskip.
      apply (f_equal (@List.length Z)) in Hskip. rewrite length_skipn in Hskip.
      cbn [List.length] in Hskip. unfold len in *. split; lia. }
  destruct (res' >? 0) eqn:Hres'.
  - apply Z.gtb_lt in Hres'.
    assert (Hn' : n' <> 0%nat) by (intros H0; apply Hzero in H0; lia).
    specialize (Hlt _ eq_refl Hn'). cbn [snd] in Hlt.
    destruct n' as [| n'']; [contradiction Hn'; reflexivity |].
    rewrite (window_cons vec n'' i' (b, l) Hnth) in Hsuffix, Hskip.
    apply Forall_cons_iff in Hsuffix. destruct Hsuffix as [Hl Htail].
    cbn [snd] in Hl.
    assert (Hsz : size_t (l - res') = l - res').
    { unfold size_t. apply Z.mod_small. lia. }
    rewrite Hsz.
    assert (Hne : (l - res' =? 0) = false) by (apply Z.eqb_neq; lia).
    cbv beta iota. rewrite Hne.
    cbn [Transmit.vectors Transmit.set_vectors Transmit.totalSend
         Transmit.bytes_written Transmit.closing].
    assert (Hnew : pending_entries
              (IoVectors.mk (IoVectors.assign i' (b + res', l - res') vec) used
                 (IoVectors.assign k (IoVectors.mk_msghdr i' (S n'')) msglist) k mb)
            = (b + res', l - res') :: firstn n'' (skipn (S i') vec)
              ++ List.concat (map (ents vec) rest)).
    { unfold pending_entries. cbn [IoVectors.msgcurr IoVectors.msglist].
      rewrite Hsk. cbn [map List.concat].
      unfold IoVectors.entries at 1.
      cbn [IoVectors.msg_iov IoVectors.msg_iovlen IoVectors.iov].
      assert (Hnth' : nth_error (IoVectors.assign i' (b + res', l - res') vec) i'
                      = Some (b + res', l - res'))
        by (apply (nth_error_assign_at _ _ _ _ Hnth)).
      rewrite (window_cons _ n'' i' _ Hnth').
      rewrite skipn_assign_before by lia.
      cbn [app]. f_equal. f_equal. f_equal.
      apply (entries_assign_before vec i' _ rest (List.length vec) (i + n)%nat);
        [lia | exact Hord]. }
    split; [right; reflexivity |].
    split.
    { unfold pending_bytes. rewrite Hnew.
      rewrite regions_bytes_cons, regions_bytes_app.
      rewrite (window_cons vec n'' i' (b, l) Hnth), regions_bytes_cons.
      rewrite region_bytes_skip by lia.
      rewrite app_assoc. f_equal.
      rewrite skipn_bytes_within; [reflexivity |].
      pose proof (region_bytes_length b l ltac:(lia)) as Hlen.
      unfold len in Hlen. lia. }
    split.
    { split.
      - cbn [IoVectors.msgcurr IoVectors.msglist IoVectors.iov].
        rewrite Hsk, length_assign. cbn [in_order IoVectors.msg_iov IoVectors.msg_iovlen].
        split; [lia |]. rewrite Hsum. exact Hord.
      - rewrite Hnew. constructor; [cbn [snd]; lia |].
        apply Forall_app. split; assumption. }
    split; [reflexivity |]. split; [reflexivity |]. split; [reflexivity |].
    intros Hc; discriminate Hc.
  - assert (Hr0 : res' = 0).
    { destruct (Z.gtb_spec res' 0); [discriminate | lia]. }
    subst res'. cbv beta iota. cbn [skipn].
    change (Z.to_nat 0) with 0%nat. cbn [skipn].
    assert (Hnew_k : pending_entries
              (IoVectors.mk vec used
                 (IoVectors.assign k (IoVectors.mk_msghdr i' n') msglist) k mb)
            = firstn n' (skipn i' vec) ++ List.concat (map (ents vec) rest)).
    { unfold pending_entries. cbn [IoVectors.msgcurr IoVectors.msglist].
      rewrite Hsk. reflexivity. }
    assert (Hnew_S : pending_entries
              (IoVectors.mk vec used
                 (IoVectors.assign k (IoVectors.mk_msghdr i' n') msglist) (S k) mb)
            = List.concat (map (ents vec) rest)).
    { unfold pending_entries. cbn [IoVectors.msgcurr IoVectors.msglist].
      rewrite HskS. reflexivity. }
    assert (Hsend_S : sendable
              (IoVectors.mk vec used
                 (IoVectors.assign k (IoVectors.mk_msghdr i' n') msglist) (S k) mb)).
    { split.
      - cbn [IoVectors.msgcurr IoVectors.msglist IoVectors.iov].
        rewrite HskS. exact Hord0.
      - rewrite Hnew_S. exact Hposr. }
    assert (Hsend_k : sendable
              (IoVectors.mk vec used
                 (IoVectors.assign k (IoVectors.mk_msghdr i' n') msglist) k mb)).
    { split.
      - cbn [IoVectors.msgcurr IoVectors.msglist IoVectors.iov].
        rewrite Hsk. cbn [in_order IoVectors.msg_iov IoVectors.msg_iovlen].
        split; [lia |]. rewrite Hsum. exact Hord.
      - rewrite Hnew_k. apply Forall_app. split; assumption. }
    destruct (l =? 0) eqn:Hl0.
    + apply Z.eqb_eq in Hl0. subst l.
      assert (Hn' : n' = 0%nat).
      { destruct n' as [| n'']; [reflexivity |]. exfalso.
        rewrite (window_cons vec n'' i' _ Hnth) in Hsuffix.
        apply Forall_cons_iff in Hsuffix. cbn [snd] in Hsuffix. lia. }
      subst n'. cbn [firstn]. change (regions_bytes []) with (@nil Z).
      cbn [app].
      destruct (S k =? List.length msglist)%nat eqn:Hlast.
      * apply Nat.eqb_eq in Hlast.
        assert (Hnone : rest = []).
        { rewrite <- Hrest, Hlast. apply skipn_all. }
        cbn [Transmit.vectors Transmit.set_vectors Transmit.write_clear
             Transmit.totalSend Transmit.bytes_written Transmit.closing
             Transmit.write_cleared].
        assert (Hbytes : pending_bytes
                  (IoVectors.mk vec used
                     (IoVectors.assign k (IoVectors.mk_msghdr i' 0) msglist)
                     (S k) mb)
                = regions_bytes (List.concat (map (ents vec) rest))).
        { unfold pending_bytes. rewrite Hnew_S. reflexivity. }
        split; [left; reflexivity |].
        split; [exact Hbytes |].
        split; [exact Hsend_S |].
        split; [reflexivity |]. split; [reflexivity |]. split; [reflexivity |].
        intros _. split; [| reflexivity].
        rewrite Hbytes, Hnone. reflexivity.
      * cbn [Transmit.vectors Transmit.set_vectors
             Transmit.totalSend Transmit.bytes_written Transmit.closing].
        split; [right; reflexivity |].
        split; [unfold pending_bytes; rewrite Hnew_S; reflexivity |].
        split; [exact Hsend_S |].
        split; [reflexivity |]. split; [reflexivity |]. split; [reflexivity |].
        intros Hc; discriminate Hc.
    + cbn [Transmit.vectors Transmit.set_vectors
           Transmit.totalSend Transmit.bytes_written Transmit.closing].
      split; [right; reflexivity |].
      split.
      { unfold pending_bytes. rewrite Hnew_k. apply regions_bytes_app. }
      split; [exact Hsend_k |].
      split; [reflexivity |]. split; [reflexivity |]. split; [reflexivity |].
      intros Hc; discriminate Hc.
Qed.

Lemma transmit_nothing_left (a : Transmit.Answers) (s : Transmit.t) :
  Transmit.ssl_isEnabled s = false ->
  current_message (Transmit.vectors s) = None ->
  pending_bytes (Transmit.vectors s) = [] /\
  exists s',
    Transmit.transmit a s = Transmit.Returns (Transmit.Complete, s') /\
    pending_bytes (Transmit.vectors s') = [] /\
    Transmit.write_cleared s' = true /\
    Transmit.totalSend s' = Transmit.totalSend s /\
    Transmit.bytes_written s' = Transmit.bytes_written s /\
    Transmit.closing s' = Transmit.closing s.
Proof.
  destruct s as [[vec used msglist msgcurr mb] ssl ts bw cl wc].
  cbn [Transmit.ssl_isEnabled Transmit.vectors Transmit.totalSend
       Transmit.bytes_written Transmit.closing].
  intros -> Hcur.
  destruct (no_current_message _ Hcur) as [Hnone Hskip].
  cbn [IoVectors.msgcurr IoVectors.msglist] in Hskip.
  split; [unfold pending_bytes; rewrite Hnone; reflexivity |].
  unfold Transmit.transmit, Transmit.transmit_data.
  cbn [Transmit.ssl_isEnabled Transmit.vectors andb IoVectors.msgcurr
       IoVectors.msglist IoVectors.iov IoVectors.iovused IoVectors.msgbytes].
  unfold current_message in Hcur.
  cbn [IoVectors.msgcurr IoVectors.msglist] in Hcur. rewrite Hcur.
  eexists. split; [reflexivity |].
  cbn [Transmit.vectors Transmit.set_vectors Transmit.write_clear
       Transmit.totalSend Transmit.bytes_written Transmit.closing
       Transmit.write_cleared].
  repeat split.
  unfold pending_bytes, pending_entries.
  cbn [IoVectors.msgcurr IoVectors.msglist]. rewrite Hskip. reflexivity.
Qed.

Lemma transmit_not_written (a : Transmit.Answers) (s : Transmit.t)
    (m : IoVectors.msghdr) :
  Transmit.ssl_isEnabled s = false ->
  current_message (Transmit.vectors s) = Some m ->
  Transmit.sendmsg_result a <= 0 ->
  let retry :=
    (Transmit.sendmsg_result a =? -1) && Transmit.is_blocking a
    && Transmit.updateEvent a in
  exists s',
    Transmit.transmit a s
    = Transmit.Returns
        ((if retry then Transmit.SoftError else Transmit.HardError), s') /\
    pending_bytes (Transmit.vectors s') = pending_bytes (Transmit.vectors s) /\
    Transmit.totalSend s' = Transmit.totalSend s /\
    Transmit.bytes_written s' = Transmit.bytes_written s /\
    Transmit.closing s' = (if retry then Transmit.closing s else true) /\
    Transmit.write_cleared s' = Transmit.write_cleared s.
Proof.
  destruct s as [[vec used msglist msgcurr mb] ssl ts bw cl wc].
  destruct a as [pending_before pending_after has_error update_ok res blocking].
  cbn [Transmit.ssl_isEnabled Transmit.vectors Transmit.totalSend
       Transmit.bytes_written Transmit.closing Transmit.write_cleared
       Transmit.sendmsg_result Transmit.is_blocking Transmit.updateEvent].
  intros -> Hcur Hres.
  destruct (current_message_split _ m Hcur)
    as (finished & rest & Hsplit & Hfin & Hk & Hrest & Hm).
  cbn [IoVectors.msgcurr IoVectors.msglist] in Hsplit, Hk, Hrest.
  unfold current_message in Hcur.
  cbn [IoVectors.msgcurr IoVectors.msglist] in Hcur. rewrite Hk in Hcur.
  assert (Hsame :
            pending_bytes
              (IoVectors.mk vec used msglist
                 (msgcurr + List.length finished) mb)
            = pending_bytes (IoVectors.mk vec used msglist msgcurr mb)).
  { unfold pending_bytes, pending_entries.
    cbn [IoVectors.msgcurr IoVectors.msglist]. f_equal.
    rewrite <- skipn_add, Hsplit, skipn_app, skipn_all, Nat.sub_diag.
    cbn [skipn app]. rewrite map_app, concat_app.
    change (map (IoVectors.entries (IoVectors.mk vec used msglist msgcurr mb))
              finished)
      with (map (fun m => firstn (IoVectors.msg_iovlen m)
                            (skipn (IoVectors.msg_iov m) vec)) finished).
    rewrite (entries_finished vec finished Hfin). reflexivity. }
  unfold Transmit.transmit, Transmit.transmit_data.
  cbn [Transmit.ssl_isEnabled Transmit.vectors andb IoVectors.msgcurr
       IoVectors.msglist IoVectors.iov IoVectors.iovused IoVectors.msgbytes].
  rewrite Hk, Hcur.
  unfold Transmit.sendmsg.
  cbn [Transmit.ssl_isEnabled Transmit.vectors Transmit.sendmsg_result
       Transmit.totalSend Transmit.bytes_written Transmit.closing
       Transmit.write_cleared].
  assert (Hgt : (res >? 0) = false).
  { destruct (Z.gtb_spec res 0); [lia | reflexivity]. }
  rewrite Hgt. cbv beta iota. rewrite Hgt.
  unfold Transmit.wait_for_write.
  cbn [Transmit.is_blocking Transmit.updateEvent Transmit.hasError andb orb].
  destruct ((res =? -1) && blocking) eqn:Hblock; cbn [andb];
    [destruct update_ok; cbn [negb] |];
    (eexists; split; [reflexivity |]);
    cbn [Transmit.vectors Transmit.set_vectors Transmit.setState_closing
         Transmit.totalSend Transmit.bytes_written Transmit.closing
         Transmit.write_cleared];
    (split; [exact Hsame |]); repeat split.
Qed.

(** X17: without SSL and on lists whose unsent messages lie in order
    inside [iov] with regions of a length that is not zero, [transmit]
    takes from the queue exactly the bytes [sendmsg] wrote: when nothing
    is left it returns Complete without calling [sendmsg]; when [sendmsg]
    wrote [res] bytes of the current message the bytes still to be sent
    are the old ones without the first [res], the counters grow by [res],
    the lists keep their shape, the result is Incomplete or Complete, and
    Complete only with nothing left to send; when all bytes of a message
    that ends at the end of [iov] were written, the entry behind the
    vector is read; when [sendmsg] wrote nothing, nothing is taken from
    the queue and the result is SoftError if the socket would block and
    the write event could be set, and otherwise HardError with the
    connection set to closing. *)
Theorem transmit_sends_in_order (a : Transmit.Answers) (s : Transmit.t) :
  Transmit.ssl_isEnabled s = false ->
  sendable (Transmit.vectors s) ->
  match current_message (Transmit.vectors s) with
  | None =>
      pending_bytes (Transmit.vectors s) = [] /\
      exists s',
        Transmit.transmit a s = Transmit.Returns (Transmit.Complete, s') /\
        pending_bytes (Transmit.vectors s') = [] /\
        Transmit.write_cleared s' = true /\
        Transmit.totalSend s' = Transmit.totalSend s /\
        Transmit.bytes_written s' = Transmit.bytes_written s /\
        Transmit.closing s' = Transmit.closing s
  | Some m =>
      (0 < Transmit.sendmsg_result a
       <= len (message_bytes (Transmit.vectors s) m) ->
       match Transmit.transmit a s with
       | Transmit.OutsideIov =>
           Transmit.sendmsg_result a
           = len (message_bytes (Transmit.vectors s) m) /\
           (IoVectors.msg_iov m + IoVectors.msg_iovlen m)%nat =
           List.length (IoVectors.iov (Transmit.vectors s))
       | Transmit.Returns (r, s') =>
           (r = Transmit.Complete \/ r = Transmit.Incomplete) /\
           pending_bytes (Transmit.vectors s') =
           skipn (Z.to_nat (Transmit.sendmsg_result a))
             (pending_bytes (Transmit.vectors s)) /\
           sendable (Transmit.vectors s') /\
           Transmit.totalSend s'
           = Transmit.totalSend s + Transmit.sendmsg_result a /\
           Transmit.bytes_written s'
           = Transmit.bytes_written s + Transmit.sendmsg_result a /\
           Transmit.closing s' = Transmit.closing s /\
           (r = Transmit.Complete ->
            pending_bytes (Transmit.vectors s') = [] /\
            Transmit.write_cleared s' = true)
       end) /\
      (Transmit.sendmsg_result a <= 0 ->
       let retry :=
         (Transmit.sendmsg_result a =? -1) && Transmit.is_blocking a
         && Transmit.updateEvent a in
       exists s',
         Transmit.transmit a s
         = Transmit.Returns
             ((if retry then Transmit.SoftError else Transmit.HardError), s') /\
         pending_bytes (Transmit.vectors s')
         = pending_bytes (Transmit.vectors s) /\
         Transmit.totalSend s' = Transmit.totalSend s /\
         Transmit.bytes_written s' = Transmit.bytes_written s /\
         Transmit.closing s' = (if retry then Transmit.closing s else true) /\
         Transmit.write_cleared s' = Transmit.write_cleared s)
  end.
Proof.
  intros Hssl Hsend.
  destruct (current_message (Transmit.vectors s)) as [m |] eqn:Hcur.
  - split.
    + intros Hres. apply (transmit_writes a s m Hssl Hsend Hcur Hres).
    + intros Hres. apply (transmit_not_written a s m Hssl Hcur Hres).
  - apply (transmit_nothing_left a s Hssl Hcur).
Qed.

Lemma transmit_sends_in_order_witness :
  let s :=
    Transmit.mk
      (IoVectors.mk [(100, 5); (200, 6); (0, 0); (0, 0)] 2
         [IoVectors.mk_msghdr 0 2] 0 11)
      false 0 0 false false in
  let a := Transmit.mkAnswers false false false true 7 false in
  sendable (Transmit.vectors s) /\
  pending_bytes (Transmit.vectors s)
  = [100; 101; 102; 103; 104; 200; 201; 202; 203; 204; 205] /\
  exists s',
    Transmit.transmit a s = Transmit.Returns (Transmit.Incomplete, s') /\
    pending_bytes (Transmit.vectors s') = [202; 203; 204; 205] /\
    Transmit.totalSend s' = 7.
Proof.
  intros s a.
  assert (Hsend : sendable (Transmit.vectors s)).
  { split; [cbn; lia |]. repeat constructor; cbn; lia. }
  split; [exact Hsend |]. split; [reflexivity |].
  pose proof (transmit_sends_in_order a s eq_refl Hsend) as H.
  change (current_message (Transmit.vectors s))
    with (Some (IoVectors.mk_msghdr 0 2)) in H.
  destruct H as [H _].
  assert (Hres : 0 < Transmit.sendmsg_result a
                 <= len (message_bytes (Transmit.vectors s)
                           (IoVectors.mk_msghdr 0 2)))
    by (vm_compute; split; [reflexivity | discriminate]).
  specialize (H Hres).
  destruct (Transmit.transmit a s) as [[r s'] |] eqn:Hrun;
    [| vm_compute in Hrun; discriminate Hrun].
  destruct H as (_ & Hbytes & _ & Htotal & _).
  assert (Hr : r = Transmit.Incomplete)
    by (vm_compute in Hrun; injection Hrun as <- _; reflexivity).
  exists s'. rewrite Hr, Hbytes, Htotal. repeat split.
Defined.

Example transmit_reads_behind_iov :
  Transmit.transmit (Transmit.mkAnswers false false false true 5 false)
    (Transmit.mk (IoVectors.mk [(100, 5)] 1 [IoVectors.mk_msghdr 0 1] 0 5)
       false 0 0 false false)
  = Transmit.OutsideIov.
Proof. reflexivity. Qed.

Lemma laid_out_in_order (IOV_MAX bound : nat) (msgs : list IoVectors.msghdr) :
  forall off,
    IoVectors.laid_out IOV_MAX off msgs ->
    (off + IoVectors.total_entries msgs <= bound)%nat ->
    in_order off msgs bound.
Proof.
  induction msgs as [| m msgs IH]; intros off Hlay Hb.
  - cbn in *. lia.
  - cbn [IoVectors.laid_out] in Hlay. destruct Hlay as (Hoff & _ & Hlay).
    cbn [IoVectors.total_entries fold_right] in Hb.
    fold (IoVectors.total_entries msgs) in Hb.
    cbn [in_order]. split; [lia |].
    rewrite Hoff. apply IH; [exact Hlay | lia].
Qed.

Lemma well_formed_sendable (IOV_MAX : nat) (v : IoVectors.t) :
  IoVectors.well_formed IOV_MAX v ->
  IoVectors.msgcurr v = 0%nat ->
  Forall (fun e => 0 < snd e < 2 ^ 64) (IoVectors.queued_entries v) ->
  sendable v.
Proof.
  intros (_ & Hlay & Htot & Hused & _) Hcur Hpos. split.
  - rewrite Hcur. cbn [skipn].
    apply (laid_out_in_order IOV_MAX); [exact Hlay | lia].
  - unfold pending_entries. rewrite Hcur. exact Hpos.
Qed.
(** ** The event of a connection in libevent *)

Lemma calls_in_turn_app (a b : list (Event.Call * bool)) :
  forall added,
    calls_in_turn added (a ++ b)
    = calls_in_turn added a && calls_in_turn (event_is_added added a) b.
Proof.
  induction a as [| [c ok] a IH]; intros added; [reflexivity |].
  cbn [app calls_in_turn event_is_added].
  destruct c, ok, added; cbn [negb andb]; try reflexivity; apply IH.
Qed.

Lemma event_is_added_app (a b : list (Event.Call * bool)) :
  forall added,
    event_is_added added (a ++ b) = event_is_added (event_is_added added a) b.
Proof.
  induction a as [| [c ok] a IH]; intros added; [reflexivity |].
  cbn [app event_is_added]. destruct c, ok; apply IH.
Qed.

Lemma event_step_refl (s : Event.t) : event_step s s.
Proof.
  exists []. rewrite app_nil_r. repeat split.
Qed.

Lemma event_step_trans (a b c : Event.t) :
  event_step a b -> event_step b c -> event_step a c.
Proof.
  intros (n1 & Hc1 & Ht1 & Hr1 & Hs1) (n2 & Hc2 & Ht2 & Hr2 & Hs2).
  exists (n1 ++ n2). rewrite Hc2, Hc1, app_assoc.
  rewrite calls_in_turn_app, event_is_added_app, Ht1, <- Hr1, Ht2, Hr2.
  repeat split. congruence.
Qed.

Ltac event_step_now :=
  unfold event_step;
  cbn [Event.calls Event.registered_in_libevent Event.socket_is_valid];
  eexists;
  split;
  [ first [ symmetry; apply app_nil_r | rewrite <- ?app_assoc; reflexivity ]
  | cbn; repeat split ].

Lemma libevent_active_step (flags : Z) (s : Event.t) :
  event_step s (Event.libevent_active flags s).
Proof. destruct s as [[] ? ? ? ? ? ? ? ?]; event_step_now. Qed.

Lemma setState_closing_step (s : Event.t) :
  event_step s (Event.setState_closing s).
Proof. destruct s as [[] ? ? ? ? ? ? ? ?]; event_step_now. Qed.

Lemma set_ev_flags_step (flags : Z) (s : Event.t) :
  event_step s (Event.set_ev_flags flags s).
Proof. destruct s as [[] ? ? ? ? ? ? ? ?]; event_step_now. Qed.

Lemma registerEvent_step (env : Event.Env) (now : Z) (s : Event.t) :
  let r := Event.registerEvent env now s in
  event_step s (snd r) /\
  (fst r = true ->
   Event.registered_in_libevent s = false /\
   Event.registered_in_libevent (snd r) = true) /\
  (fst r = false ->
   Event.registered_in_libevent (snd r) = Event.registered_in_libevent s) /\
  Event.ev_flags (snd r) = Event.ev_flags s /\
  Event.closing (snd r) = Event.closing s.
Proof.
  destruct s as [reg fl te to it sv cs rs cl].
  unfold Event.registerEvent, Event.libevent.
  cbn [Event.registered_in_libevent Event.ev_flags Event.ev_timeout_enabled
       Event.ev_timeout Event.ev_insert_time Event.socket_is_valid Event.calls
       Event.results Event.closing].
  destruct reg.
  - cbn. split; [apply event_step_refl |]. repeat split; discriminate.
  - destruct rs as [| [] rs]; cbn [hd tl negb fst snd
      Event.set_registered_in_libevent Event.registered_in_libevent
      Event.ev_flags Event.closing];
      (split; [event_step_now |]); repeat split; discriminate.
Qed.

Lemma unregisterEvent_step (s : Event.t) :
  match Event.unregisterEvent s with
  | Event.Returns (ok, s') =>
      event_step s s' /\
      (ok = true ->
       Event.registered_in_libevent s = true /\
       Event.registered_in_libevent s' = false) /\
      (ok = false ->
       Event.registered_in_libevent s' = Event.registered_in_libevent s) /\
      Event.ev_flags s' = Event.ev_flags s /\
      Event.closing s' = Event.closing s
  | Event.AssertionFailed =>
      Event.registered_in_libevent s = true /\ Event.socket_is_valid s = false
  end.
Proof.
  destruct s as [reg fl te to it sv cs rs cl].
  unfold Event.unregisterEvent, Event.libevent.
  cbn [Event.registered_in_libevent Event.ev_flags Event.ev_timeout_enabled
       Event.ev_timeout Event.ev_insert_time Event.socket_is_valid Event.calls
       Event.results Event.closing].
  destruct reg; cbn [negb].
  - destruct sv; cbn [negb]; [| split; reflexivity].
    destruct rs as [| [] rs]; cbn [hd tl negb
      Event.set_registered_in_libevent Event.registered_in_libevent
      Event.ev_flags Event.closing];
      (split; [event_step_now |]); repeat split; discriminate.
  - split; [apply event_step_refl |]. repeat split; discriminate.
Qed.
Ltac event_facts :=
  repeat split;
  try discriminate;
  try reflexivity;
  try (intros _; first [left; reflexivity | right; discriminate]);
  try (intros _; split; [reflexivity | left; reflexivity]).

Lemma updateEvent_step (EV_READ : Z) (env : Event.Env)
    (new_flags now now_insert : Z) (s : Event.t) :
  match Event.updateEvent EV_READ env new_flags now now_insert s with
  | Event.Returns (ok, s') =>
      exists new,
        Event.calls s' = Event.calls s ++ new /\
        calls_in_turn (Event.registered_in_libevent s) new = true /\
        Event.registered_in_libevent s'
        = event_is_added (Event.registered_in_libevent s) new /\
        Event.socket_is_valid s' = Event.socket_is_valid s /\
        (ok = true ->
         Event.registered_in_libevent s' = Event.registered_in_libevent s /\
         (Event.ev_flags s' = new_flags \/
          Event.ssl_havePendingInputData env = true /\
          Event.ev_flags s' = Event.ev_flags s) /\
         forallb snd new = true) /\
        (ok = false ->
         (Event.registered_in_libevent s = false /\ new = []) \/
         last_failed new = true) /\
        Event.closing s' = Event.closing s
  | Event.AssertionFailed =>
      Event.registered_in_libevent s = true /\ Event.socket_is_valid s = false
  end.
Proof.
  unfold Event.updateEvent.
  destruct (Event.ssl_isEnabled env && Event.ssl_isConnected env
            && negb (Z.land new_flags EV_READ =? 0)
            && Event.ssl_havePendingInputData env) eqn:Hssl.
  { exists [(Event.event_active EV_READ, true)].
    apply andb_true_iff in Hssl. destruct Hssl as [_ Hpending].
    destruct s as [[] fl te to it sv cs rs cl]; cbn;
      repeat split; try discriminate;
      try (right; split; [exact Hpending | reflexivity]). }
  destruct ((Event.ev_flags s =? new_flags)
            && negb (Event.ev_timeout_enabled s
                     && (Event.isInternal env || Event.isDCP env))
            && (uint32 (Event.ev_insert_time s
                        + Event.int32 (Event.getConnectionIdleTime env / 2))
                >? now)) eqn:Hsame.
  { exists []. rewrite app_nil_r.
    apply andb_true_iff in Hsame. destruct Hsame as [Hsame _].
    apply andb_true_iff in Hsame. destruct Hsame as [Hsame _].
    apply Z.eqb_eq in Hsame.
    repeat split; try discriminate. left. exact Hsame. }
  clear Hssl Hsame.
  destruct s as [reg fl te to it sv cs rs cl].
  unfold Event.unregisterEvent, Event.registerEvent, Event.libevent,
    Event.set_ev_flags, Event.set_registered_in_libevent.
  cbn [Event.registered_in_libevent Event.ev_flags Event.ev_timeout_enabled
       Event.ev_timeout Event.ev_insert_time Event.socket_is_valid Event.calls
       Event.results Event.closing].
  destruct reg; cbn [negb].
  2:{ exists []. rewrite app_nil_r. repeat split; try discriminate.
      intros _. left. split; reflexivity. }
  destruct sv; cbn [negb]; [| split; reflexivity].
  destruct ((Event.getConnectionIdleTime env =? 0) || Event.isInternal env
            || Event.isDCP env);
    destruct rs as [| [] [| [] [| [] rs]]];
    cbn [hd tl negb Event.registered_in_libevent Event.ev_flags
         Event.ev_timeout_enabled Event.ev_timeout Event.ev_insert_time
         Event.socket_is_valid Event.calls Event.results Event.closing];
    eexists;
    (split; [rewrite <- ?app_assoc; reflexivity |]);
    cbn; repeat split; try discriminate;
    try (intros _; right; reflexivity);
    left; reflexivity.
Qed.

Lemma signalIfIdle_step (EV_READ EV_WRITE EV_PERSIST : Z) (env : Event.Env)
    (isEwouldblock : bool) (state : State) (now now_insert : Z) (s : Event.t) :
  match Event.signalIfIdle EV_READ EV_WRITE EV_PERSIST env isEwouldblock state
          now now_insert s with
  | Event.Returns s' => event_step s s'
  | Event.AssertionFailed =>
      Event.registered_in_libevent s = true /\ Event.socket_is_valid s = false
  end.
Proof.
  unfold Event.signalIfIdle.
  destruct (negb isEwouldblock
            && match state with
               | read_packet_header | read_packet_body | waiting | new_cmd
               | ship_log | send_data => true
               | _ => false
               end); [| apply event_step_refl].
  destruct (Event.registered_in_libevent s) eqn:Hreg; cbn [negb].
  - pose proof (updateEvent_step EV_READ env
                  (Z.lor (Z.lor EV_READ EV_WRITE) EV_PERSIST) now now_insert s)
      as Hup.
    destruct (Event.updateEvent EV_READ env
                (Z.lor (Z.lor EV_READ EV_WRITE) EV_PERSIST) now now_insert s)
      as [[ok s1] |]; [| split; [reflexivity | apply Hup]].
    destruct Hup as (new & Hc & Ht & Hr & Hv & _).
    assert (Hstep : event_step s s1)
      by (exists new; repeat split; assumption).
    apply (event_step_trans _ s1); [exact Hstep |].
    apply (event_step_trans _ (if negb ok then Event.setState_closing s1 else s1));
      [| apply libevent_active_step].
    destruct ok; cbn [negb];
      [apply event_step_refl | apply setState_closing_step].
  - pose proof (registerEvent_step env now_insert
                  (Event.set_ev_flags (Z.lor (Z.lor EV_READ EV_WRITE) EV_PERSIST) s))
      as Hreg'.
    destruct (Event.registerEvent env now_insert
                (Event.set_ev_flags (Z.lor (Z.lor EV_READ EV_WRITE) EV_PERSIST) s))
      as [ok s1].
    cbn [fst snd] in Hreg'. destruct Hreg' as (Hstep & _).
    apply (event_step_trans _
             (Event.set_ev_flags (Z.lor (Z.lor EV_READ EV_WRITE) EV_PERSIST) s));
      [apply set_ev_flags_step |].
    apply (event_step_trans _ s1); [exact Hstep |].
    apply (event_step_trans _ (if negb ok then Event.setState_closing s1 else s1));
      [| apply libevent_active_step].
    destruct ok; cbn [negb];
      [apply event_step_refl | apply setState_closing_step].
Qed.

Lemma event_step_socket (s s' : Event.t) :
  event_step s s' -> Event.socket_is_valid s' = Event.socket_is_valid s.
Proof. intros (new & _ & _ & _ & H). exact H. Qed.

Lemma run_event_ops_step (EV_READ EV_WRITE EV_PERSIST : Z)
    (ops : list (Event.Env * EventOp)) :
  forall s : Event.t,
    match run_event_ops EV_READ EV_WRITE EV_PERSIST ops s with
    | Event.Returns s' => event_step s s'
    | Event.AssertionFailed => Event.socket_is_valid s = false
    end.
Proof.
  induction ops as [| [env op] ops IH]; intros s; [apply event_step_refl |].
  cbn [run_event_ops].
  assert (Hnext : forall s1,
            event_step s s1 ->
            match run_event_ops EV_READ EV_WRITE EV_PERSIST ops s1 with
            | Event.Returns s' => event_step s s'
            | Event.AssertionFailed => Event.socket_is_valid s = false
            end).
  { intros s1 Hstep. specialize (IH s1).
    destruct (run_event_ops EV_READ EV_WRITE EV_PERSIST ops s1) as [s' |].
    - apply (event_step_trans _ s1); assumption.
    - rewrite <- (event_step_socket s s1 Hstep). exact IH. }
  destruct op as [now | | new_flags now now_insert | ewb state now now_insert].
  - apply Hnext. apply registerEvent_step.
  - pose proof (unregisterEvent_step s) as H.
    destruct (Event.unregisterEvent s) as [[ok s1] |]; [| apply H].
    apply Hnext. apply H.
  - pose proof (updateEvent_step EV_READ env new_flags now now_insert s) as H.
    destruct (Event.updateEvent EV_READ env new_flags now now_insert s)
      as [[ok s1] |]; [| apply H].
    apply Hnext. destruct H as (new & Hc & Ht & Hr & Hv & _).
    exists new. repeat split; assumption.
  - pose proof (signalIfIdle_step EV_READ EV_WRITE EV_PERSIST env ewb state
                  now now_insert s) as H.
    destruct (Event.signalIfIdle EV_READ EV_WRITE EV_PERSIST env ewb state
                now now_insert s) as [s1 |]; [| apply H].
    apply Hnext. exact H.
Qed.

(** X18: the flag [registered_in_libevent] mirrors libevent.  Over any
    series of [registerEvent], [unregisterEvent], [updateEvent] and
    [signalIfIdle], whatever libevent answers, the flag is true exactly
    when the last [event_add] or [event_del] that succeeded was an
    [event_add]; [event_add] and [event_assign] are only called for an
    event that is not added and [event_del] only for one that is; the
    series can only end in the assertion of [unregisterEvent], and only
    for a connection without a socket.  An [updateEvent] that returns
    true leaves the flag as it was and [ev_flags] at the new flags
    (unless SSL had input pending), and every call it made to libevent
    succeeded; it returns false only for a connection that is not
    registered, without a call to libevent, or when the last call it
    made to libevent failed. *)
Theorem event_registration_mirrors_libevent (EV_READ EV_WRITE EV_PERSIST : Z)
    (s : Event.t) :
  (forall ops : list (Event.Env * EventOp),
     match run_event_ops EV_READ EV_WRITE EV_PERSIST ops s with
     | Event.Returns s' =>
         exists new,
           Event.calls s' = Event.calls s ++ new /\
           calls_in_turn (Event.registered_in_libevent s) new = true /\
           Event.registered_in_libevent s'
           = event_is_added (Event.registered_in_libevent s) new
     | Event.AssertionFailed => Event.socket_is_valid s = false
     end) /\
  (forall (env : Event.Env) (new_flags now now_insert : Z),
     match Event.updateEvent EV_READ env new_flags now now_insert s with
     | Event.Returns (true, s') =>
         Event.registered_in_libevent s' = Event.registered_in_libevent s /\
         (Event.ev_flags s' = new_flags \/
          Event.ssl_havePendingInputData env = true /\
          Event.ev_flags s' = Event.ev_flags s) /\
         exists new,
           Event.calls s' = Event.calls s ++ new /\ forallb snd new = true
     | Event.Returns (false, s') =>
         exists new,
           Event.calls s' = Event.calls s ++ new /\
           ((Event.registered_in_libevent s = false /\ new = []) \/
            last_failed new = true)
     | Event.AssertionFailed =>
         Event.registered_in_libevent s = true /\
         Event.socket_is_valid s = false
     end).
Proof.
  split.
  - intros ops.
    pose proof (run_event_ops_step EV_READ EV_WRITE EV_PERSIST ops s) as H.
    destruct (run_event_ops EV_READ EV_WRITE EV_PERSIST ops s) as [s' |];
      [| exact H].
    destruct H as (new & Hcalls & Hturn & Hreg & _).
    exists new. repeat split; assumption.
  - intros env new_flags now now_insert.
    pose proof (updateEvent_step EV_READ env new_flags now now_insert s) as H.
    destruct (Event.updateEvent EV_READ env new_flags now now_insert s)
      as [[[] s'] |]; [| | exact H];
      destruct H as (new & Hc & _ & _ & _ & Htrue & Hfalse & _).
    + destruct (Htrue eq_refl) as (Hr & Hf & Hall).
      split; [exact Hr |]. split; [exact Hf |].
      exists new. split; assumption.
    + exists new. split; [exact Hc | apply Hfalse; reflexivity].
Qed.

Example event_ops_sample :
  let env := Event.mkEnv 300 false false false false false in
  let s := Event.mk false 0 false 0 0 true [] [true; false] false in
  match run_event_ops 2 4 16
          [(env, RegisterEvent 10); (env, UpdateEvent 6 20 21);
           (env, SignalIfIdle false waiting 30 31)] s with
  | Event.Returns s' =>
      Event.calls s'
      = [(Event.event_add (Some 300), true); (Event.event_del, false);
         (Event.event_del, true); (Event.event_assign 22, true);
         (Event.event_add (Some 300), true); (Event.event_active 4, true)] /\
      Event.registered_in_libevent s' = true /\
      Event.closing s' = false
  | Event.AssertionFailed => False
  end.
Proof. vm_compute. repeat split. Qed.
(** ** Notifications of completed IO *)

Lemma add_conn_present (links : PendingIoList.Links) (head : option Z)
    (l : list Z) (c : Z) (fuel : nat) :
  PendingIoList.is_list links head l -> (List.length l <= fuel)%nat ->
  In c l ->
  PendingIoList.add_conn_to_pending_io_list fuel c links head
  = PendingIoList.Finished (0, head, links).
Proof.
  intros Hl Hf Hc.
  unfold PendingIoList.add_conn_to_pending_io_list,
    PendingIoList.number_of_pending.
  rewrite (number_of_pending_is_list links c l head fuel 0 Hl Hf).
  rewrite count_occ_nodup by (apply (is_list_nodup links l head Hl)).
  rewrite (proj2 (existsb_eqb_in c l) Hc). reflexivity.
Qed.

Lemma add_conn_new (links : PendingIoList.Links) (head : option Z)
    (l : list Z) (c : Z) (fuel : nat) :
  PendingIoList.is_list links head l -> (S (List.length l) <= fuel)%nat ->
  ~ In c l -> links c = None ->
  PendingIoList.add_conn_to_pending_io_list fuel c links head
  = PendingIoList.Finished
      ((if is_nil l then 1 else 0), Some c, PendingIoList.setNext c head links) /\
  PendingIoList.is_list (PendingIoList.setNext c head links) (Some c) (c :: l).
Proof.
  intros Hl Hf Hnot Hnull.
  destruct (enlist_conn_is_list links head l c fuel Hl ltac:(lia) Hnot)
    as [Hok _].
  destruct (Hok Hnull) as [Hrun Hnew]. split; [| exact Hnew].
  unfold PendingIoList.add_conn_to_pending_io_list,
    PendingIoList.number_of_pending.
  rewrite (number_of_pending_is_list links c l head fuel 0 Hl) by lia.
  rewrite count_occ_nodup by (apply (is_list_nodup links l head Hl)).
  destruct (existsb (Z.eqb c) l) eqn:E.
  { apply existsb_eqb_in in E. contradiction. }
  cbn [Z.add Z.eqb]. rewrite Hrun.
  destruct l as [| x l]; cbn [PendingIoList.is_list] in Hl.
  - subst head. reflexivity.
  - destruct Hl as [-> _]. reflexivity.
Qed.
Lemma update_same {A : Type} (c : Z) (a : A) (f : Z -> A) :
  NotifyIo.update c a f c = a.
Proof. unfold NotifyIo.update. rewrite Z.eqb_refl. reflexivity. Qed.

Lemma update_other {A : Type} (c x : Z) (a : A) (f : Z -> A) :
  x <> c -> NotifyIo.update c a f x = f x.
Proof.
  intros H. unfold NotifyIo.update.
  destruct (Z.eqb_spec x c); [contradiction | reflexivity].
Qed.

Lemma notify_all_spec (conns : NotifyIo.Connections) (fuel : nat)
    (ns : list (Z * ENGINE_ERROR_CODE)) :
  forall (s : NotifyIo.t) (l : list Z),
    (forall c, In c (map fst ns) -> NotifyIo.getThread conns c = true) ->
    PendingIoList.is_list (NotifyIo.links s) (NotifyIo.pending_io s) l ->
    (forall c, ~ In c l -> NotifyIo.links s c = None) ->
    (S (List.length l + List.length ns) <= fuel)%nat ->
    exists (s' : NotifyIo.t) (l' : list Z),
      NotifyIo.notify_all conns fuel ns s = NotifyIo.Returns s' /\
      PendingIoList.is_list (NotifyIo.links s') (NotifyIo.pending_io s') l' /\
      (forall c, In c l' <-> In c l \/ In c (map fst ns)) /\
      (forall c, ~ In c l' -> NotifyIo.links s' c = None) /\
      (List.length l' <= List.length l + List.length ns)%nat /\
      NotifyIo.notify_thread_calls s'
      = (NotifyIo.notify_thread_calls s
         + (if is_nil l && negb (is_nil ns) then 1 else 0))%nat /\
      NotifyIo.run_event_loop_calls s' = NotifyIo.run_event_loop_calls s /\
      NotifyIo.numEvents s' = NotifyIo.numEvents s /\
      NotifyIo.isRegisteredInLibevent s' = NotifyIo.isRegisteredInLibevent s /\
      NotifyIo.registerEvent_results s' = NotifyIo.registerEvent_results s /\
      (forall c, ~ In c (map fst ns) ->
                 NotifyIo.aiostat s' c = NotifyIo.aiostat s c) /\
      (forall before c status after,
         ns = before ++ (c, status) :: after ->
         ~ In c (map fst after) -> NotifyIo.aiostat s' c = status).
Proof.
  induction ns as [| [c st] ns IH]; intros s l Hthr Hl Hnull Hfuel.
  - exists s, l. cbn [NotifyIo.notify_all map List.length is_nil negb].
    rewrite andb_false_r, Nat.add_0_r.
    repeat split; try reflexivity; try tauto; try lia; try assumption.
    + intros [H | []]. exact H.
    + intros before c st after H. destruct before; discriminate H.
  - cbn [NotifyIo.notify_all NotifyIo.notify_io_complete NotifyIo.connection].
    rewrite (Hthr c) by (left; reflexivity). cbn [negb].
    cbn [List.length] in Hfuel.
    assert (Hthr' : forall x, In x (map fst ns) -> NotifyIo.getThread conns x = true).
    { intros x Hx. apply Hthr. right. exact Hx. }
    destruct (in_dec Z.eq_dec c l) as [Hin | Hnot].
    + rewrite (add_conn_present _ _ l c fuel Hl ltac:(lia) Hin).
      cbn [Z.eqb].
      destruct (IH (NotifyIo.mk (NotifyIo.links s) (NotifyIo.pending_io s)
                      (NotifyIo.update c st (NotifyIo.aiostat s))
                      (NotifyIo.numEvents s) (NotifyIo.isRegisteredInLibevent s)
                      (NotifyIo.registerEvent_results s)
                      (NotifyIo.notify_thread_calls s)
                      (NotifyIo.run_event_loop_calls s)) l Hthr' Hl Hnull
                  ltac:(lia))
        as (s' & l' & Hrun & Hl' & Hmem & Hnull' & Hlen & Hcalls & Hloop & Hnum
            & Hreg & Hres & Hkeep & Hlast).
      exists s', l'. rewrite Hrun.
      cbn [NotifyIo.notify_thread_calls NotifyIo.run_event_loop_calls
           NotifyIo.numEvents NotifyIo.isRegisteredInLibevent
           NotifyIo.registerEvent_results NotifyIo.aiostat] in *.
      split; [reflexivity |]. split; [exact Hl' |].
      split.
      { intros x. rewrite Hmem. cbn [map fst In]. split; [tauto |].
        intros [H | [<- | H]]; tauto. }
      split; [exact Hnull' |]. split; [cbn [List.length]; lia |].
      split.
      { rewrite Hcalls. destruct l; [contradiction Hin | reflexivity]. }
      split; [exact Hloop |]. split; [exact Hnum |]. split; [exact Hreg |].
      split; [exact Hres |].
      split.
      { intros x Hx. cbn [map fst In] in Hx. rewrite Hkeep by tauto.
        apply update_other. intros ->. tauto. }
      intros before x status after Heq Hafter.
      destruct before as [| b before]; cbn [app] in Heq.
      * injection Heq as -> -> ->. rewrite Hkeep by exact Hafter.
        apply update_same.
      * injection Heq as _ ->. apply (Hlast before x status after eq_refl Hafter).
    + destruct (add_conn_new _ _ l c fuel Hl ltac:(lia) Hnot (Hnull c Hnot))
        as [Hadd Hl1].
      rewrite Hadd.
      assert (Hnull1 : forall x, ~ In x (c :: l) ->
                PendingIoList.setNext c (NotifyIo.pending_io s)
                  (NotifyIo.links s) x = None).
      { intros x Hx. unfold PendingIoList.setNext.
        destruct (Z.eqb_spec x c) as [-> | Hne]; [exfalso; apply Hx; left; reflexivity |].
        apply Hnull. intros H. apply Hx. right. exact H. }
      destruct (IH (NotifyIo.mk
                      (PendingIoList.setNext c (NotifyIo.pending_io s)
                         (NotifyIo.links s))
                      (Some c)
                      (NotifyIo.update c st (NotifyIo.aiostat s))
                      (NotifyIo.numEvents s) (NotifyIo.isRegisteredInLibevent s)
                      (NotifyIo.registerEvent_results s)
                      (if (if is_nil l then 1 else 0) =? 0
                       then NotifyIo.notify_thread_calls s
                       else S (NotifyIo.notify_thread_calls s))
                      (NotifyIo.run_event_loop_calls s)) (c :: l) Hthr' Hl1
                  Hnull1 ltac:(cbn [List.length]; lia))
        as (s' & l' & Hrun & Hl' & Hmem & Hnull' & Hlen & Hcalls & Hloop & Hnum
            & Hreg & Hres & Hkeep & Hlast).
      exists s', l'. rewrite Hrun.
      cbn [NotifyIo.notify_thread_calls NotifyIo.run_event_loop_calls
           NotifyIo.numEvents NotifyIo.isRegisteredInLibevent
           NotifyIo.registerEvent_results NotifyIo.aiostat] in *.
      split; [reflexivity |]. split; [exact Hl' |].
      split.
      { intros x. rewrite Hmem. cbn [map fst In]. tauto. }
      split; [exact Hnull' |].
      split; [cbn [List.length] in *; lia |].
      split.
      { rewrite Hcalls. cbn [is_nil andb]. destruct l; cbn; lia. }
      split; [exact Hloop |]. split; [exact Hnum |]. split; [exact Hreg |].
      split; [exact Hres |].
      split.
      { intros x Hx. cbn [map fst In] in Hx. rewrite Hkeep by tauto.
        apply update_other. intros ->. tauto. }
      intros before x status after Heq Hafter.
      destruct before as [| b before]; cbn [app] in Heq.
      * injection Heq as -> -> ->. rewrite Hkeep by exact Hafter.
        apply update_same.
      * injection Heq as _ ->. apply (Hlast before x status after eq_refl Hafter).
Qed.

(** The call of [run_event_loop] that the loop makes for a connection
    of the list [l]: with the [aiostat] the connection had before the
    loop, and with a [numEvents] of 1 when it is a [McbpConnection]. *)
Lemma run_pending_spec (conns : NotifyIo.Connections) (l : list Z) :
  forall (fuel : nat) (pending : option Z) (s : NotifyIo.t),
    PendingIoList.is_list (NotifyIo.links s) pending l ->
    (forall c, In c l -> NotifyIo.getThread conns c = true) ->
    (List.length l <= fuel)%nat ->
    exists s',
      NotifyIo.run_pending conns fuel pending s = NotifyIo.Returns s' /\
      NotifyIo.run_event_loop_calls s' =
      NotifyIo.run_event_loop_calls s ++
      map (loop_call conns (NotifyIo.aiostat s) (NotifyIo.numEvents s)) l /\
      (forall c, In c l -> NotifyIo.links s' c = None) /\
      (forall c, ~ In c l -> NotifyIo.links s' c = NotifyIo.links s c) /\
      (forall c, ~ In c l ->
                 NotifyIo.numEvents s' c = NotifyIo.numEvents s c /\
                 NotifyIo.aiostat s' c = NotifyIo.aiostat s c) /\
      NotifyIo.pending_io s' = NotifyIo.pending_io s /\
      NotifyIo.notify_thread_calls s' = NotifyIo.notify_thread_calls s.
Proof.
  induction l as [| x l IH]; intros fuel pending s Hl Hthr Hfuel.
  - cbn [PendingIoList.is_list] in Hl. subst pending.
    exists s. destruct fuel; cbn [NotifyIo.run_pending map];
      rewrite app_nil_r; repeat split; intros c [].
  - pose proof (is_list_nodup _ _ _ Hl) as Hnd.
    apply NoDup_cons_iff in Hnd. destruct Hnd as [Hx Hnd].
    cbn [PendingIoList.is_list] in Hl. destruct Hl as [-> Hrest].
    destruct fuel as [| fuel]; [cbn [List.length] in Hfuel; lia |].
    cbn [NotifyIo.run_pending].
    rewrite (Hthr x) by (left; reflexivity). cbn [negb]. cbv zeta.
    destruct (NotifyIo.run_event_loop conns _ x _) as [[status events] flag].
    match goal with
    | |- context [NotifyIo.run_pending conns fuel _ ?s1] =>
        destruct (IH fuel (NotifyIo.links s x) s1) as
          (s' & Hrun & Hloop & Hnull & Hkeep & Hothers & Hpend & Hcalls)
    end.
    { cbn [NotifyIo.links]. apply is_list_setNext_outside; assumption. }
    { intros c Hc. apply Hthr. right. exact Hc. }
    { cbn [List.length] in Hfuel. lia. }
    exists s'. rewrite Hrun.
    cbn [NotifyIo.links NotifyIo.run_event_loop_calls NotifyIo.numEvents
         NotifyIo.pending_io NotifyIo.aiostat NotifyIo.notify_thread_calls] in *.
    split; [reflexivity |].
    split.
    { rewrite Hloop, <- app_assoc. cbn [map app]. f_equal. f_equal.
      - unfold loop_call. destruct (NotifyIo.is_mcbp conns x);
          [rewrite update_same |]; reflexivity.
      - apply map_ext_in. intros c Hc. unfold loop_call.
        assert (c <> x) by (intros ->; contradiction).
        rewrite !update_other by assumption.
        destruct (NotifyIo.is_mcbp conns x);
          [rewrite update_other by assumption |]; reflexivity. }
    split.
    { intros c [<- | Hc]; [| apply Hnull; exact Hc].
      rewrite (Hkeep x Hx). unfold PendingIoList.setNext.
      rewrite Z.eqb_refl. reflexivity. }
    split.
    { intros c Hc. rewrite Hkeep by (intros H; apply Hc; right; exact H).
      unfold PendingIoList.setNext.
      destruct (Z.eqb_spec c x) as [-> | Hne]; [| reflexivity].
      exfalso. apply Hc. left. reflexivity. }
    split.
    { intros c Hc.
      assert (c <> x) by (intros ->; apply Hc; left; reflexivity).
      destruct (Hothers c) as [Hn Ha]; [intros H'; apply Hc; right; exact H' |].
      rewrite Hn, Ha, !update_other by assumption.
      destruct (NotifyIo.is_mcbp conns x);
        [rewrite update_other by assumption |]; split; reflexivity. }
    split; assumption.
Qed.

(** X19: every connection that was notified is run once.  Starting from
    an empty pending list with all [next] pointers null, a series of
    [notify_io_complete] calls for connections of the thread (with fuel
    for the walks over the list) leaves each connection with the status
    of its last notification and calls [notify_thread] once, for the
    first of them; the loop of [thread_libevent_process] then calls
    [run_event_loop] exactly once for every connection that was
    notified, however often it was, and each time for a connection with
    the status of its last notification and, for a [McbpConnection],
    with [numEvents] at 1; whatever [run_event_loop] does to the members
    of the connection it runs, the loop leaves the pending list empty
    and all [next] pointers null again. *)
Theorem notified_connections_run_once (conns : NotifyIo.Connections)
    (fuel : nat) (ns : list (Z * ENGINE_ERROR_CODE)) (s : NotifyIo.t) :
  (forall c, In c (map fst ns) -> NotifyIo.getThread conns c = true) ->
  NotifyIo.pending_io s = None ->
  (forall c, NotifyIo.links s c = None) ->
  (S (List.length ns) <= fuel)%nat ->
  exists (s1 s2 : NotifyIo.t) (l : list Z),
    NotifyIo.notify_all conns fuel ns s = NotifyIo.Returns s1 /\
    NotifyIo.notify_thread_calls s1
    = (NotifyIo.notify_thread_calls s + (if is_nil ns then 0 else 1))%nat /\
    (forall c, ~ In c (map fst ns) ->
               NotifyIo.aiostat s1 c = NotifyIo.aiostat s c) /\
    (forall before c status after,
       ns = before ++ (c, status) :: after ->
       ~ In c (map fst after) -> NotifyIo.aiostat s1 c = status) /\
    NotifyIo.process_pending conns fuel s1 = NotifyIo.Returns s2 /\
    NotifyIo.run_event_loop_calls s2 =
    NotifyIo.run_event_loop_calls s ++
    map (fun c =>
           (c, (NotifyIo.aiostat s1 c,
                if NotifyIo.is_mcbp conns c then 1 else NotifyIo.numEvents s c)))
      l /\
    NoDup l /\
    (forall c, In c l <-> In c (map fst ns)) /\
    NotifyIo.pending_io s2 = None /\
    (forall c, NotifyIo.links s2 c = None) /\
    (forall c, ~ In c (map fst ns) ->
               NotifyIo.aiostat s2 c = NotifyIo.aiostat s c /\
               NotifyIo.numEvents s2 c = NotifyIo.numEvents s c) /\
    NotifyIo.notify_thread_calls s2 = NotifyIo.notify_thread_calls s1.
Proof.
  intros Hthr Hpending Hnull Hfuel.
  destruct (notify_all_spec conns fuel ns s [] Hthr) as
    (s1 & l & Hrun & Hl & Hmem & Hnull1 & Hlen & Hcalls & Hloop & Hnum & Hreg
     & Hres & Hkeep & Hlast).
  { rewrite Hpending. reflexivity. }
  { intros c _. apply Hnull. }
  { cbn [List.length]. lia. }
  cbn [List.length Nat.add is_nil andb] in Hlen, Hcalls.
  destruct (run_pending_spec conns l fuel (NotifyIo.pending_io s1)
              (NotifyIo.mk (NotifyIo.links s1) None (NotifyIo.aiostat s1)
                 (NotifyIo.numEvents s1) (NotifyIo.isRegisteredInLibevent s1)
                 (NotifyIo.registerEvent_results s1)
                 (NotifyIo.notify_thread_calls s1)
                 (NotifyIo.run_event_loop_calls s1)))
    as (s2 & Hrun2 & Hloop2 & Hnull2 & Hkeep2 & Hothers2 & Hpend2 & Hcalls2).
  { exact Hl. }
  { intros c Hc. apply Hthr. apply Hmem in Hc. destruct Hc as [[] | Hc]. exact Hc. }
  { lia. }
  cbn [NotifyIo.links NotifyIo.run_event_loop_calls NotifyIo.numEvents
       NotifyIo.pending_io NotifyIo.aiostat NotifyIo.notify_thread_calls]
    in Hloop2, Hnull2, Hkeep2, Hothers2, Hpend2, Hcalls2.
  exists s1, s2, l.
  split; [exact Hrun |].
  split; [rewrite Hcalls; destruct ns; reflexivity |].
  split; [exact Hkeep |]. split; [exact Hlast |].
  split; [exact Hrun2 |].
  split; [rewrite Hloop2, Hloop, Hnum; reflexivity |].
  split; [apply (is_list_nodup _ _ _ Hl) |].
  split; [intros c; rewrite Hmem; cbn [In]; tauto |].
  split; [exact Hpend2 |].
  split.
  { intros c. destruct (in_dec Z.eq_dec c l) as [Hin | Hnot].
    - apply Hnull2. exact Hin.
    - rewrite (Hkeep2 c Hnot). apply Hnull1. exact Hnot. }
  split; [| exact Hcalls2].
  intros c Hc.
  assert (~ In c l) as Hnot by (rewrite Hmem; cbn [In]; tauto).
  destruct (Hothers2 c Hnot) as [Hn Ha].
  rewrite Ha, Hn, Hnum. split; [apply Hkeep; exact Hc | reflexivity].
Qed.

Lemma notified_connections_run_once_witness :
  let conns :=
    NotifyIo.mkConnections (fun _ => true) (fun _ => true) (fun _ => true)
      (fun _ _ _ => (ENGINE_SUCCESS, 20, true)) in
  let s :=
    NotifyIo.mk (fun _ => None) None (fun _ => ENGINE_SUCCESS) (fun _ => 0)
      (fun _ => true) [] 0 [] in
  let ns := [(1, ENGINE_EWOULDBLOCK); (2, ENGINE_SUCCESS); (1, ENGINE_KEY_ENOENT)] in
  exists s1 s2 : NotifyIo.t,
    NotifyIo.notify_all conns 4 ns s = NotifyIo.Returns s1 /\
    NotifyIo.process_pending conns 4 s1 = NotifyIo.Returns s2 /\
    NotifyIo.notify_thread_calls s2 = 1%nat /\
    NotifyIo.run_event_loop_calls s2 =
    [(2, (ENGINE_SUCCESS, 1)); (1, (ENGINE_KEY_ENOENT, 1))].
Proof.
  intros conns s ns.
  destruct (notified_connections_run_once conns 4 ns s)
    as (s1 & s2 & l & Hrun & Hcalls & _ & _ & Hrun2 & _ & _ & _ & _ & _ & _
        & Hcalls2).
  { intros c _. reflexivity. }
  { reflexivity. }
  { intros c. reflexivity. }
  { cbn. lia. }
  exists s1, s2.
  split; [exact Hrun |]. split; [exact Hrun2 |].
  split; [rewrite Hcalls2, Hcalls; reflexivity |].
  vm_compute in Hrun. injection Hrun as <-.
  vm_compute in Hrun2. injection Hrun2 as <-. reflexivity.
Defined.
(** ** Reading a command of the binary protocol *)

Lemma grow_spec (need : Z) (fuel : nat) :
  need <= 2 ^ 30 ->
  forall nsize : Z,
    0 < nsize < 2 ^ 31 ->
    need <= nsize * 2 ^ Z.of_nat fuel ->
    exists n,
      ReadCommand.grow fuel need nsize = Some n /\
      need <= n /\ nsize <= n /\ n < 2 ^ 31 /\ (n = nsize <-> need <= nsize).
Proof.
  intros Hneed. induction fuel as [| fuel IH]; intros nsize Hn Hfuel.
  - cbn [ReadCommand.grow]. change (2 ^ Z.of_nat 0) with 1 in Hfuel.
    destruct (Z.gtb_spec need nsize); [lia |].
    exists nsize. repeat split; lia.
  - cbn [ReadCommand.grow]. destruct (Z.gtb_spec need nsize) as [Hgt | Hle].
    + assert (Hsz : size_t (nsize * 2) = nsize * 2).
      { unfold size_t. apply Z.mod_small. lia. }
      rewrite Hsz.
      destruct (IH (nsize * 2)) as (n & Hrun & H1 & H2 & H3 & H4).
      * lia.
      * rewrite Nat2Z.inj_succ, Z.pow_succ_r in Hfuel by lia. lia.
      * exists n. rewrite Hrun. repeat split; lia.
    + exists nsize. repeat split; lia.
Qed.

Lemma Forall_window {A : Type} (P : A -> Prop) (l : list A) :
  forall n k : nat, Forall P l -> Forall P (firstn n (skipn k l)).
Proof.
  assert (Hfirst : forall (l' : list A) n, Forall P l' -> Forall P (firstn n l')).
  { intros l'. induction l' as [| x l' IH]; intros [| n] H; cbn [firstn];
      try constructor.
    - apply (Forall_inv H).
    - apply IH. apply (Forall_inv_tail H). }
  induction l as [| x l IH]; intros n k H.
  - destruct k; cbn [skipn]; apply Hfirst; constructor.
  - destruct k as [| k]; cbn [skipn]; [apply Hfirst; exact H |].
    apply IH. apply (Forall_inv_tail H).
Qed.

Lemma network_order_nonneg (bytes : list Z) :
  Forall (fun b => 0 <= b < 256) bytes ->
  0 <= ReadCommand.network_order bytes.
Proof.
  unfold ReadCommand.network_order. intros H.
  assert (Hacc : forall acc, 0 <= acc ->
            0 <= fold_left (fun n b => n * 256 + b) bytes acc).
  { induction H as [| b bytes Hb _ IH]; intros acc Hacc; [exact Hacc |].
    cbn [fold_left]. apply IH. lia. }
  apply Hacc. lia.
Qed.

Ltac read_command_fields :=
  cbn [ReadCommand.setState ReadCommand.set_read ReadCommand.setWriteAndGo
       ReadCommand.rlbytes ReadCommand.read_bytes ReadCommand.binary_header
       ReadCommand.cmd ReadCommand.cas_ ReadCommand.written
       ReadCommand.write_and_go ReadCommand.state ReadCommand.read_curr
       ReadCommand.read_size ReadCommand.realloc_results ReadCommand.start
       ReadCommand.noreply ReadCommand.bucketEngine_set
       ReadCommand.addMsgHdr_calls].

Lemma bin_read_chunk_spec (fuel : nat) (chunk : Z) (s : ReadCommand.t) :
  0 <= ReadCommand.read_curr s <= ReadCommand.read_size s ->
  0 < ReadCommand.read_size s < 2 ^ 31 ->
  0 <= chunk <= 2 ^ 30 - 24 ->
  (31 <= fuel)%nat ->
  exists s',
    ReadCommand.bin_read_chunk fuel chunk s = ReadCommand.Returns s' /\
    ReadCommand.rlbytes s' = chunk /\
    ReadCommand.read_bytes s' = ReadCommand.read_bytes s /\
    ReadCommand.binary_header s' = ReadCommand.binary_header s /\
    ReadCommand.cmd s' = ReadCommand.cmd s /\
    ReadCommand.cas_ s' = ReadCommand.cas_ s /\
    ReadCommand.written s' = ReadCommand.written s /\
    ReadCommand.write_and_go s' = ReadCommand.write_and_go s /\
    ReadCommand.addMsgHdr_calls s' = ReadCommand.addMsgHdr_calls s /\
    (ReadCommand.state s' = read_packet_body /\
     0 <= ReadCommand.read_curr s' /\
     ReadCommand.read_curr s' + ReadCommand.header_size + chunk
     <= ReadCommand.read_size s' /\
     ReadCommand.read_size s <= ReadCommand.read_size s' < 2 ^ 31 \/
     ReadCommand.state s' = closing /\
     hd true (ReadCommand.realloc_results s) = false /\
     ReadCommand.read_size s < chunk + ReadCommand.header_size).
Proof.
  destruct s as [curr bytes size results h cmd cas rl start nr be am wr wg st].
  cbn [ReadCommand.read_curr ReadCommand.read_size ReadCommand.read_bytes
       ReadCommand.realloc_results].
  intros Hcurr Hsize Hchunk Hfuel.
  unfold ReadCommand.bin_read_chunk, ReadCommand.header_size in *.
  cbn [ReadCommand.read_curr ReadCommand.read_size ReadCommand.read_bytes
       ReadCommand.realloc_results ReadCommand.rlbytes].
  destruct (Z.gtb_spec chunk (size - (curr + 24))) as [Hgt | Hle].
  2:{ eexists. split; [reflexivity |]. read_command_fields.
    repeat split; try reflexivity.
      left. repeat split; try lia. }
  assert (Hneed : size_t (chunk + 24) = chunk + 24).
  { unfold size_t. apply Z.mod_small. lia. }
  rewrite Hneed.
  destruct (grow_spec (chunk + 24) fuel ltac:(lia) size Hsize)
    as (n & Hrun & H1 & H2 & H3 & H4).
  { assert (2 ^ 30 <= 2 ^ Z.of_nat fuel) by (apply Z.pow_le_mono_r; lia). nia. }
  rewrite Hrun.
  destruct (Z.eqb_spec n size) as [-> | Hne]; cbn [negb].
  - eexists. split; [reflexivity |]. read_command_fields.
    repeat split; try reflexivity.
    left. repeat split; try lia.
  - destruct results as [| [] results]; cbn [hd tl].
    + eexists. split; [reflexivity |]. cbn [ReadCommand.setState
        ReadCommand.set_read ReadCommand.rlbytes ReadCommand.read_bytes
        ReadCommand.binary_header ReadCommand.cmd ReadCommand.cas_
        ReadCommand.written ReadCommand.write_and_go ReadCommand.state
        ReadCommand.read_curr ReadCommand.read_size ReadCommand.realloc_results
        ReadCommand.addMsgHdr_calls].
      repeat split; try reflexivity. left.
      assert (Hint : Event.int32 n = n).
      { unfold Event.int32. rewrite Z.mod_small; lia. }
      rewrite Hint. repeat split; try lia.
    + eexists. split; [reflexivity |]. cbn [ReadCommand.setState
        ReadCommand.set_read ReadCommand.rlbytes ReadCommand.read_bytes
        ReadCommand.binary_header ReadCommand.cmd ReadCommand.cas_
        ReadCommand.written ReadCommand.write_and_go ReadCommand.state
        ReadCommand.read_curr ReadCommand.read_size ReadCommand.realloc_results
        ReadCommand.addMsgHdr_calls].
      repeat split; try reflexivity. left.
      assert (Hint : Event.int32 n = n).
      { unfold Event.int32. rewrite Z.mod_small; lia. }
      rewrite Hint. repeat split; try lia.
    + eexists. split; [reflexivity |]. read_command_fields.
    repeat split; try reflexivity.
      right. repeat split. assert (~ chunk + 24 <= size) by (intros H; apply H4 in H; contradiction). lia.
Qed.

(** X20: which commands are read.  For a connection whose read buffer
    holds a header, [try_read_mcbp_command] takes the header over in
    host order and then: with a magic that is neither a request nor a
    response with a handler it sets the state to closing and leaves the
    buffer alone; otherwise it starts a new message and rejects the
    command with NOT_INITIALIZED, AUTH_ERROR or EINVAL when the server
    is not initialised, SASL is required and the connection is not
    authenticated, the datatype is not enabled, the key is longer than
    KEY_MAX_LENGTH or the body is longer than the packets allowed, in
    this order.  A command that is rejected has a response with that
    status written, which starts another message, the state set to
    send_data and the connection closed once the response is sent, and
    the header is taken from the buffer; but when the write buffer has
    no room for a header the attempt to write throws a logic_error.
    Only a command that passes all checks has its body read, and then
    the buffer holds the body behind the header (it is grown by
    doubling, and not shrunk) unless [cb_realloc] failed, which closes
    the connection. *)
Theorem command_admission (REQ RES LIST_MECHS AUTH STEP VERSION HELLO : Z)
    (KEY_MAX_LENGTH : Z) (env : ReadCommand.Env) (fuel : nat)
    (s : ReadCommand.t) :
  0 <= ReadCommand.read_curr s <= ReadCommand.read_size s ->
  0 < ReadCommand.read_size s < 2 ^ 31 ->
  ReadCommand.header_size <= len (ReadCommand.read_bytes s) ->
  Forall (fun b => 0 <= b < 256) (ReadCommand.read_bytes s) ->
  ReadCommand.getMaxPacketSize env <= 2 ^ 30 - 24 ->
  (31 <= fuel)%nat ->
  let h := ReadCommand.read_header (ReadCommand.read_bytes s) in
  let wrong_magic :=
    negb (ReadCommand.magic h =? REQ)
    && negb ((ReadCommand.magic h =? RES)
             && ReadCommand.response_handlers env (ReadCommand.opcode h)) in
  let verdict :=
    rejection LIST_MECHS AUTH STEP KEY_MAX_LENGTH env
      (ReadCommand.authenticated LIST_MECHS AUTH STEP VERSION HELLO env
         (ReadCommand.opcode h)) h in
  match ReadCommand.try_read_mcbp_command REQ RES LIST_MECHS AUTH STEP VERSION
          HELLO KEY_MAX_LENGTH env fuel s with
  | ReadCommand.Returns s' =>
      ReadCommand.binary_header s' = h /\
      if wrong_magic then
        ReadCommand.state s' = closing /\
        ReadCommand.read_bytes s' = ReadCommand.read_bytes s /\
        ReadCommand.written s' = ReadCommand.written s /\
        ReadCommand.write_and_go s' = ReadCommand.write_and_go s /\
        ReadCommand.addMsgHdr_calls s' = ReadCommand.addMsgHdr_calls s
      else
        ReadCommand.read_bytes s' = skipn 24 (ReadCommand.read_bytes s) /\
        ReadCommand.cmd s' = ReadCommand.opcode h /\
        ReadCommand.cas_ s' = 0 /\
        match verdict with
        | Some status =>
            ReadCommand.header_size <= ReadCommand.wbuf_size env /\
            ReadCommand.written s' = ReadCommand.written s ++ [status] /\
            ReadCommand.write_and_go s' = Some closing /\
            ReadCommand.state s' = send_data /\
            ReadCommand.addMsgHdr_calls s'
            = S (S (ReadCommand.addMsgHdr_calls s))
        | None =>
            ReadCommand.written s' = ReadCommand.written s /\
            ReadCommand.write_and_go s' = ReadCommand.write_and_go s /\
            ReadCommand.addMsgHdr_calls s' = S (ReadCommand.addMsgHdr_calls s) /\
            ReadCommand.rlbytes s' = ReadCommand.bodylen h /\
            (ReadCommand.state s' = read_packet_body /\
             ReadCommand.read_curr s' + ReadCommand.bodylen h
             <= ReadCommand.read_size s' /\
             ReadCommand.read_size s <= ReadCommand.read_size s' \/
             ReadCommand.state s' = closing /\
             hd true (ReadCommand.realloc_results s) = false /\
             ReadCommand.read_size s
             < ReadCommand.bodylen h + ReadCommand.header_size)
        end
  | ReadCommand.logic_error _ =>
      wrong_magic = false /\ verdict <> None /\
      ReadCommand.wbuf_size env < ReadCommand.header_size
  | _ => False
  end.
Proof.
  intros Hcurr Hsize Hlen Hbytes Hmax Hfuel h wrong_magic verdict.
  assert (Hbody : 0 <= ReadCommand.bodylen h).
  { apply network_order_nonneg. apply Forall_window. exact Hbytes. }
  unfold ReadCommand.try_read_mcbp_command.
  replace (negb (ReadCommand.read_curr s <=? ReadCommand.read_size s))
    with false by (symmetry; apply negb_false_iff, Z.leb_le; lia).
  replace (negb (len (ReadCommand.read_bytes s) >=? ReadCommand.header_size))
    with false by (symmetry; apply negb_false_iff, Z.geb_le; lia).
  fold h. fold wrong_magic.
  destruct wrong_magic.
  { read_command_fields. repeat split. }
  assert (Hreject : forall status s0,
            verdict = Some status ->
            ReadCommand.binary_header s0 = h ->
            ReadCommand.read_bytes s0 = ReadCommand.read_bytes s ->
            ReadCommand.cmd s0 = ReadCommand.opcode h ->
            ReadCommand.cas_ s0 = 0 ->
            ReadCommand.written s0 = ReadCommand.written s ->
            ReadCommand.addMsgHdr_calls s0 = S (ReadCommand.addMsgHdr_calls s) ->
            match
              match ReadCommand.reject env status s0 with
              | ReadCommand.Returns s1 =>
                  ReadCommand.Returns
                    (ReadCommand.mk
                       (ReadCommand.read_curr s1 + ReadCommand.header_size)
                       (skipn 24 (ReadCommand.read_bytes s1))
                       (ReadCommand.read_size s1)
                       (ReadCommand.realloc_results s1)
                       (ReadCommand.binary_header s1) (ReadCommand.cmd s1)
                       (ReadCommand.cas_ s1) (ReadCommand.rlbytes s1)
                       (ReadCommand.start s1) (ReadCommand.noreply s1)
                       (ReadCommand.bucketEngine_set s1)
                       (ReadCommand.addMsgHdr_calls s1) (ReadCommand.written s1)
                       (ReadCommand.write_and_go s1) (ReadCommand.state s1))
              | failed => failed
              end
            with
            | ReadCommand.Returns s' =>
                ReadCommand.binary_header s' = h /\
                ReadCommand.read_bytes s' = skipn 24 (ReadCommand.read_bytes s) /\
                ReadCommand.cmd s' = ReadCommand.opcode h /\
                ReadCommand.cas_ s' = 0 /\
                match verdict with
                | Some status =>
                    ReadCommand.header_size <= ReadCommand.wbuf_size env /\
                    ReadCommand.written s' = ReadCommand.written s ++ [status] /\
                    ReadCommand.write_and_go s' = Some closing /\
                    ReadCommand.state s' = send_data /\
                    ReadCommand.addMsgHdr_calls s'
                    = S (S (ReadCommand.addMsgHdr_calls s))
                | None => False
                end
            | ReadCommand.logic_error _ =>
                false = false /\ verdict <> None /\
                ReadCommand.wbuf_size env < ReadCommand.header_size
            | _ => False
            end).
  { intros status s0 Hv Hh Hb Hc Hcas Hw Ha.
    unfold ReadCommand.reject, ReadCommand.mcbp_write_packet,
      ReadCommand.mcbp_add_header.
    destruct (Z.ltb_spec (ReadCommand.wbuf_size env) ReadCommand.header_size)
      as [Hsmall | Hroom].
    - split; [reflexivity |]. split; [rewrite Hv; discriminate | exact Hsmall].
    - read_command_fields. cbn [ReadCommand.setWriteAndGo].
      read_command_fields. rewrite Hv, Hh, Hb, Hc, Hcas, Hw, Ha.
      repeat split. exact Hroom. }
  unfold ReadCommand.dispatch_bin_command, ReadCommand.invalid_datatype,
    ReadCommand.handle_binary_protocol_error.
  read_command_fields.
  subst verdict. unfold rejection in *.
  destruct (negb (ReadCommand.is_initialized LIST_MECHS AUTH STEP env
                    (ReadCommand.opcode h))).
  { match goal with
    | |- context [ReadCommand.reject env ?st ?s0] =>
        pose proof (Hreject st s0 eq_refl eq_refl eq_refl eq_refl eq_refl
                      eq_refl eq_refl) as Hr
    end.
    destruct (ReadCommand.reject env _ _) as [s1 | what | |];
      try contradiction; [| exact Hr].
    destruct Hr as (H1 & H2 & H3 & H4 & H5).
    split; [exact H1 |]. repeat (split; [assumption |]). exact H5. }
  destruct (ReadCommand.isRequireSasl env
            && negb (ReadCommand.authenticated LIST_MECHS AUTH STEP VERSION
                       HELLO env (ReadCommand.opcode h))).
  { match goal with
    | |- context [ReadCommand.reject env ?st ?s0] =>
        pose proof (Hreject st s0 eq_refl eq_refl eq_refl eq_refl eq_refl
                      eq_refl eq_refl) as Hr
    end.
    destruct (ReadCommand.reject env _ _) as [s1 | what | |];
      try contradiction; [| exact Hr].
    destruct Hr as (H1 & H2 & H3 & H4 & H5).
    split; [exact H1 |]. repeat (split; [assumption |]). exact H5. }
  destruct (negb (ReadCommand.isDatatypeEnabled env (ReadCommand.datatype h))).
  { match goal with
    | |- context [ReadCommand.reject env ?st ?s0] =>
        pose proof (Hreject st s0 eq_refl eq_refl eq_refl eq_refl eq_refl
                      eq_refl eq_refl) as Hr
    end.
    destruct (ReadCommand.reject env _ _) as [s1 | what | |];
      try contradiction; [| exact Hr].
    destruct Hr as (H1 & H2 & H3 & H4 & H5).
    split; [exact H1 |]. repeat (split; [assumption |]). exact H5. }
  cbn [orb].
  destruct (ReadCommand.keylen h >? KEY_MAX_LENGTH).
  { match goal with
    | |- context [ReadCommand.reject env ?st ?s0] =>
        pose proof (Hreject st s0 eq_refl eq_refl eq_refl eq_refl eq_refl
                      eq_refl eq_refl) as Hr
    end.
    destruct (ReadCommand.reject env _ _) as [s1 | what | |];
      try contradiction; [| exact Hr].
    destruct Hr as (H1 & H2 & H3 & H4 & H5).
    split; [exact H1 |]. repeat (split; [assumption |]). exact H5. }
  destruct (Z.gtb_spec (ReadCommand.bodylen h) (ReadCommand.getMaxPacketSize env))
    as [Hbig | Hfits].
  { match goal with
    | |- context [ReadCommand.reject env ?st ?s0] =>
        pose proof (Hreject st s0 eq_refl eq_refl eq_refl eq_refl eq_refl
                      eq_refl eq_refl) as Hr
    end.
    destruct (ReadCommand.reject env _ _) as [s1 | what | |];
      try contradiction; [| exact Hr].
    destruct Hr as (H1 & H2 & H3 & H4 & H5).
    split; [exact H1 |]. repeat (split; [assumption |]). exact H5. }
  match goal with
  | |- context [ReadCommand.bin_read_chunk fuel _ ?s1] =>
      destruct (bin_read_chunk_spec fuel (ReadCommand.bodylen h) s1)
        as (s2 & Hrun & Hrl & Hrb & Hh & Hcmd & Hcas & Hwr & Hwg & Ham & Hstate)
  end; try (read_command_fields; lia).
  rewrite Hrun. read_command_fields.
  rewrite Hh, Hrb, Hcmd, Hcas, Hwr, Hwg, Hrl, Ham. read_command_fields.
  split; [reflexivity |]. split; [reflexivity |]. split; [reflexivity |].
  split; [reflexivity |]. split; [reflexivity |]. split; [reflexivity |].
  split; [reflexivity |]. split; [reflexivity |].
  cbn [ReadCommand.read_curr ReadCommand.read_size
       ReadCommand.realloc_results] in Hstate.
  unfold ReadCommand.header_size in *.
  destruct Hstate as [(Hst & H0 & Hroom & Hgrow) | (Hst & Hfail & Hsmall)].
  - left. repeat split; try assumption; lia.
  - right. repeat split; assumption.
Qed.

Lemma command_admission_witness :
  let env :=
    ReadCommand.mkEnv false 1000 true false false (fun _ => true)
      (fun _ => false) 7 2048 in
  let packet :=
    [128; 0; 0; 3; 0; 0; 0; 0; 0; 0; 0; 3; 0; 0; 0; 0; 0; 0; 0; 0; 0; 0; 0; 0;
     107; 101; 121] in
  let s :=
    ReadCommand.mk 0 packet 16 []
      (ReadCommand.mkHeader 0 0 0 0 0 0 0 [] 0) 0 0 0 0 false false 0 []
      None parse_cmd in
  0 <= ReadCommand.read_curr s <= ReadCommand.read_size s /\
  ReadCommand.header_size <= len (ReadCommand.read_bytes s) /\
  exists s',
    ReadCommand.try_read_mcbp_command 128 129 32 33 34 11 31 250 env 31 s
    = ReadCommand.Returns s' /\
    ReadCommand.state s' = read_packet_body /\
    ReadCommand.rlbytes s' = 3 /\
    ReadCommand.read_size s' = 32 /\
    ReadCommand.read_bytes s' = [107; 101; 121].
Proof.
  intros env packet s.
  assert (H1 : 0 <= ReadCommand.read_curr s <= ReadCommand.read_size s)
    by (cbn; lia).
  assert (H2 : ReadCommand.header_size <= len (ReadCommand.read_bytes s))
    by (vm_compute; discriminate).
  split; [exact H1 |]. split; [exact H2 |].
  pose proof (command_admission 128 129 32 33 34 11 31 250 env 31 s H1) as H.
  destruct (ReadCommand.try_read_mcbp_command 128 129 32 33 34 11 31 250 env
              31 s) as [s' | what | |] eqn:Hrun.
  - exists s'. split; [reflexivity |].
    vm_compute in Hrun. injection Hrun as <-. repeat split.
  - vm_compute in Hrun. discriminate Hrun.
  - vm_compute in Hrun. discriminate Hrun.
  - vm_compute in Hrun. discriminate Hrun.
Defined.

(** A command that is rejected when the write buffer has no room. *)
Example rejected_without_room :
  let env :=
    ReadCommand.mkEnv false 2 true false false (fun _ => true)
      (fun _ => false) 7 8 in
  let packet :=
    [128; 0; 0; 3; 0; 0; 0; 0; 0; 0; 0; 3; 0; 0; 0; 0; 0; 0; 0; 0; 0; 0; 0; 0;
     107; 101; 121] in
  let s :=
    ReadCommand.mk 0 packet 16 []
      (ReadCommand.mkHeader 0 0 0 0 0 0 0 [] 0) 0 0 0 0 false false 0 []
      None parse_cmd in
  ReadCommand.try_read_mcbp_command 128 129 32 33 34 11 31 250 env 31 s
  = ReadCommand.logic_error
      "mcbp_add_header: not enough space in output buffer!".
Proof. vm_compute. reflexivity. Qed.
(** ** The producers of DCP messages *)

Lemma network_order_app (l : list Z) (b : Z) :
  ReadCommand.network_order (l ++ [b]) = ReadCommand.network_order l * 256 + b.
Proof. unfold ReadCommand.network_order. rewrite fold_left_app. reflexivity. Qed.

Lemma network_order_round_trip (n : nat) :
  forall v : Z,
    0 <= v < 256 ^ Z.of_nat n ->
    ReadCommand.network_order (DcpProducers.to_network_order n v) = v.
Proof.
  induction n as [| n IH]; intros v Hv.
  - change (256 ^ Z.of_nat 0) with 1 in Hv. cbn. lia.
  - cbn [DcpProducers.to_network_order]. rewrite network_order_app.
    rewrite Nat2Z.inj_succ, Z.pow_succ_r in Hv by lia.
    rewrite IH.
    + pose proof (Z.div_mod v 256 ltac:(lia)). lia.
    + split; [apply Z.div_pos; lia |].
      apply Z.div_lt_upper_bound; lia.
Qed.

Lemma to_network_order_length (n : nat) :
  forall v, List.length (DcpProducers.to_network_order n v) = n.
Proof.
  induction n as [| n IH]; intros v; [reflexivity |].
  cbn [DcpProducers.to_network_order]. rewrite length_app, IH. cbn. lia.
Qed.

Lemma header_bytes_length (h : ReadCommand.Header) :
  List.length (ReadCommand.opaque h) = 4%nat ->
  len (DcpProducers.header_bytes h) = ReadCommand.header_size.
Proof.
  intros H. unfold len, DcpProducers.header_bytes.
  rewrite !length_app, !to_network_order_length, H. reflexivity.
Qed.

Lemma read_header_bytes (h : ReadCommand.Header) (rest : list Z) :
  header_in_range h ->
  ReadCommand.read_header (DcpProducers.header_bytes h ++ rest) = h.
Proof.
  destruct h as [m o k e d v b op c].
  unfold header_in_range.
  cbn [ReadCommand.magic ReadCommand.opcode ReadCommand.keylen
       ReadCommand.extlen ReadCommand.datatype ReadCommand.vbucket
       ReadCommand.bodylen ReadCommand.opaque ReadCommand.cas].
  intros (Hm & Ho & Hk & He & Hd & Hv & Hb & Hop & Hc).
  destruct op as [| o1 [| o2 [| o3 [| o4 [| ? ?]]]]]; try discriminate Hop.
  unfold DcpProducers.header_bytes, ReadCommand.read_header.
  cbn [ReadCommand.magic ReadCommand.opcode ReadCommand.keylen
       ReadCommand.extlen ReadCommand.datatype ReadCommand.vbucket
       ReadCommand.bodylen ReadCommand.opaque ReadCommand.cas
       DcpProducers.to_network_order app nth firstn skipn].
  f_equal.
  - exact (network_order_round_trip 2 k Hk).
  - exact (network_order_round_trip 2 v Hv).
  - exact (network_order_round_trip 4 b Hb).
  - exact (network_order_round_trip 8 c Hc).
Qed.

Lemma add_packet_framed (IOV_MAX : nat) (h : ReadCommand.Header)
    (body : list Z) (s : DcpProducers.t) :
  header_in_range h ->
  ReadCommand.datatype h = 0 -> ReadCommand.cas h = 0 ->
  ReadCommand.bodylen h = len body ->
  ReadCommand.extlen h + ReadCommand.keylen h <= ReadCommand.bodylen h ->
  well_framed IOV_MAX (ReadCommand.magic h) (ReadCommand.opcode h)
    (ReadCommand.vbucket h) (ReadCommand.opaque h) body s
    (DcpProducers.add_packet_to_pipe IOV_MAX
       (DcpProducers.header_bytes h ++ body)
       (DcpProducers.setCmd (ReadCommand.opcode h) s)).
Proof.
  intros Hrange Hd Hc Hb Hlen.
  exists (DcpProducers.header_bytes h ++ body).
  split; [reflexivity |].
  rewrite (read_header_bytes h body Hrange).
  repeat split; try assumption.
  pose proof (header_bytes_length h) as H24.
  destruct Hrange as (_ & _ & _ & _ & _ & _ & _ & Hop & _).
  specialize (H24 Hop). unfold len, ReadCommand.header_size in H24.
  rewrite skipn_app.
  replace (24 - List.length (DcpProducers.header_bytes h))%nat with 0%nat by lia.
  rewrite skipn_all2 by lia. reflexivity.
Qed.

Lemma header_of_producer (magic opcode keylen extlen vbucket bodylen : Z)
    (opaque : list Z) :
  0 <= magic < 256 -> 0 <= opcode < 256 -> 0 <= keylen < 2 ^ 16 ->
  0 <= extlen < 256 -> 0 <= vbucket < 2 ^ 16 -> 0 <= bodylen < 2 ^ 32 ->
  List.length opaque = 4%nat ->
  header_in_range
    (DcpProducers.header magic opcode keylen extlen vbucket bodylen opaque).
Proof.
  intros. unfold header_in_range, DcpProducers.header.
  cbn [ReadCommand.magic ReadCommand.opcode ReadCommand.keylen
       ReadCommand.extlen ReadCommand.datatype ReadCommand.vbucket
       ReadCommand.bodylen ReadCommand.opaque ReadCommand.cas].
  repeat split; try assumption; lia.
Qed.

Lemma add_header_framed (IOV_MAX : nat) (h : ReadCommand.Header)
    (s : DcpProducers.t) :
  header_in_range h ->
  ReadCommand.datatype h = 0 -> ReadCommand.cas h = 0 ->
  ReadCommand.bodylen h = 0 ->
  ReadCommand.extlen h + ReadCommand.keylen h <= 0 ->
  well_framed IOV_MAX (ReadCommand.magic h) (ReadCommand.opcode h)
    (ReadCommand.vbucket h) (ReadCommand.opaque h) [] s
    (DcpProducers.add_packet_to_pipe IOV_MAX (DcpProducers.header_bytes h)
       (DcpProducers.setCmd (ReadCommand.opcode h) s)).
Proof.
  intros Hrange Hd Hc Hb Hlen.
  rewrite <- (app_nil_r (DcpProducers.header_bytes h)).
  apply add_packet_framed; try assumption. rewrite Hb. exact Hlen.
Qed.

(** X21: the DCP messages are well framed.  A header written field by
    field in network order is read back by [try_read_mcbp_command] as it
    was, and so is a number; each of the producers sets the command of
    the connection to its opcode and, when the write pipe has room,
    writes one packet to it and queues it in one piece, and otherwise
    returns E2BIG and writes nothing; the packet starts with a header
    with the magic, the opcode, the vbucket (the status in a response)
    and the opaque of the message, whose body length is the number of
    bytes behind the header, and the flags, the opaque of the dialog,
    the number of bytes or the key and the value follow the header. *)
Theorem dcp_messages_are_framed (IOV_MAX : nat)
    (REQ RES GET_FAILOVER_LOG ADD_STREAM SNAPSHOT_MARKER SET_VBUCKET_STATE
     STREAM_END FLUSH NOOP BUFFER_ACKNOWLEDGEMENT CONTROL : Z)
    (opaque : list Z) (s : DcpProducers.t) :
  Forall (fun c => 0 <= c < 256)
    [REQ; RES; GET_FAILOVER_LOG; ADD_STREAM; SNAPSHOT_MARKER;
     SET_VBUCKET_STATE; STREAM_END; FLUSH; NOOP; BUFFER_ACKNOWLEDGEMENT;
     CONTROL] ->
  List.length opaque = 4%nat ->
  (forall h rest,
     header_in_range h ->
     ReadCommand.read_header (DcpProducers.header_bytes h ++ rest) = h) /\
  (forall n v,
     0 <= v < 256 ^ Z.of_nat n ->
     ReadCommand.network_order (DcpProducers.to_network_order n v) = v) /\
  (forall vbucket,
     0 <= vbucket < 2 ^ 16 ->
     well_framed IOV_MAX REQ GET_FAILOVER_LOG vbucket opaque [] s
       (DcpProducers.dcp_message_get_failover_log IOV_MAX REQ GET_FAILOVER_LOG
          opaque vbucket s) /\
     well_framed IOV_MAX REQ FLUSH vbucket opaque [] s
       (DcpProducers.dcp_message_flush IOV_MAX REQ FLUSH opaque vbucket s) /\
     forall value,
       well_framed IOV_MAX REQ STREAM_END vbucket opaque
         (DcpProducers.to_network_order 4 value) s
         (DcpProducers.dcp_message_stream_end IOV_MAX REQ STREAM_END opaque
            vbucket value s) /\
       well_framed IOV_MAX REQ BUFFER_ACKNOWLEDGEMENT vbucket opaque
         (DcpProducers.to_network_order 4 value) s
         (DcpProducers.dcp_message_buffer_acknowledgement IOV_MAX REQ
            BUFFER_ACKNOWLEDGEMENT opaque vbucket value s)) /\
  well_framed IOV_MAX REQ NOOP 0 opaque [] s
    (DcpProducers.dcp_message_noop IOV_MAX REQ NOOP opaque s) /\
  (forall status,
     0 <= status < 256 ->
     well_framed IOV_MAX RES SNAPSHOT_MARKER status opaque [] s
       (DcpProducers.dcp_message_marker_response IOV_MAX RES SNAPSHOT_MARKER
          opaque status s) /\
     well_framed IOV_MAX RES SET_VBUCKET_STATE status opaque [] s
       (DcpProducers.dcp_message_set_vbucket_state_response IOV_MAX RES
          SET_VBUCKET_STATE opaque status s) /\
     forall dialogopaque,
       well_framed IOV_MAX RES ADD_STREAM status opaque
         (DcpProducers.to_network_order 4 dialogopaque) s
         (DcpProducers.dcp_message_add_stream_response IOV_MAX RES ADD_STREAM
            opaque dialogopaque status s)) /\
  (forall key value,
     len key < 2 ^ 16 -> len value + len key < 2 ^ 32 ->
     well_framed IOV_MAX REQ CONTROL 0 opaque (key ++ value) s
       (DcpProducers.dcp_message_control IOV_MAX REQ CONTROL opaque key value s)).
Proof.
  intros Hconst Hop.
  repeat match goal with
         | H : Forall _ (_ :: _) |- _ =>
             apply Forall_cons_iff in H; destruct H as [? H]
         end.
  assert (Hfour : forall v, len (DcpProducers.to_network_order 4 v) = 4).
  { intros v. unfold len. rewrite to_network_order_length. reflexivity. }
  split; [intros h rest; apply read_header_bytes |].
  split; [apply network_order_round_trip |].
  split.
  { intros vbucket Hv.
    split; [| split].
    - apply (add_header_framed IOV_MAX
               (DcpProducers.header REQ GET_FAILOVER_LOG 0 0 vbucket 0 opaque));
        try reflexivity;
        try (apply header_of_producer; try assumption; lia); try (cbn; lia).
    - apply (add_header_framed IOV_MAX
               (DcpProducers.header REQ FLUSH 0 0 vbucket 0 opaque));
        try reflexivity;
        try (apply header_of_producer; try assumption; lia); try (cbn; lia).
    - intros value. split.
      + apply (add_packet_framed IOV_MAX
                 (DcpProducers.header REQ STREAM_END 0 4 vbucket 4 opaque));
          try reflexivity;
          try (apply header_of_producer; try assumption; lia);
          try (cbn [DcpProducers.header ReadCommand.bodylen];
               rewrite Hfour; reflexivity);
          try (cbn; lia).
      + apply (add_packet_framed IOV_MAX
                 (DcpProducers.header REQ BUFFER_ACKNOWLEDGEMENT 0 4 vbucket 4
                    opaque));
          try reflexivity;
          try (apply header_of_producer; try assumption; lia);
          try (cbn [DcpProducers.header ReadCommand.bodylen];
               rewrite Hfour; reflexivity);
          try (cbn; lia). }
  split.
  { apply (add_header_framed IOV_MAX
             (DcpProducers.header REQ NOOP 0 0 0 0 opaque));
      try reflexivity;
      try (apply header_of_producer; try assumption; lia); try (cbn; lia). }
  split.
  { intros status Hs.
    split; [| split].
    - apply (add_header_framed IOV_MAX
               (DcpProducers.header RES SNAPSHOT_MARKER 0 0 status 0 opaque));
        try reflexivity;
        try (apply header_of_producer; try assumption; lia); try (cbn; lia).
    - apply (add_header_framed IOV_MAX
               (DcpProducers.header RES SET_VBUCKET_STATE 0 0 status 0 opaque));
        try reflexivity;
        try (apply header_of_producer; try assumption; lia); try (cbn; lia).
    - intros dialogopaque.
      apply (add_packet_framed IOV_MAX
               (DcpProducers.header RES ADD_STREAM 0 4 status 4 opaque));
        try reflexivity;
        try (apply header_of_producer; try assumption; lia);
        try (cbn [DcpProducers.header ReadCommand.bodylen];
             rewrite Hfour; reflexivity);
        try (cbn; lia). }
  intros key value Hkey Hbody.
  assert (Hk : 0 <= len key) by (unfold len; lia).
  assert (Hv : 0 <= len value) by (unfold len; lia).
  assert (Hu : uint32 (len value + len key) = len value + len key).
  { unfold uint32. apply Z.mod_small. lia. }
  pose proof (add_packet_framed IOV_MAX
                (DcpProducers.header REQ CONTROL (len key) 0 0
                   (uint32 (len value + len key)) opaque) (key ++ value) s)
    as Hframed.
  unfold DcpProducers.dcp_message_control.
  assert (Hlen : len (DcpProducers.header_bytes
                        (DcpProducers.header REQ CONTROL (len key) 0 0
                           (uint32 (len value + len key)) opaque)
                      ++ key ++ value)
                 = ReadCommand.header_size + len key + len value).
  { unfold len at 1. rewrite length_app.
    pose proof (header_bytes_length
                  (DcpProducers.header REQ CONTROL (len key) 0 0
                     (uint32 (len value + len key)) opaque) Hop) as H24.
    unfold len in *. rewrite length_app. lia. }
  unfold DcpProducers.add_packet_to_pipe in Hframed.
  cbn [DcpProducers.wdata_size DcpProducers.setCmd] in *.
  rewrite Hlen in Hframed.
  apply Hframed.
  - apply header_of_producer; try assumption; lia.
  - reflexivity.
  - reflexivity.
  - cbn [DcpProducers.header ReadCommand.bodylen]. rewrite Hu.
    unfold len. rewrite length_app. lia.
  - cbn [DcpProducers.header ReadCommand.bodylen ReadCommand.extlen
         ReadCommand.keylen]. lia.
Qed.

Lemma dcp_messages_are_framed_witness :
  let s :=
    DcpProducers.mk 0 4096 100 []
      (IoVectors.addMsgHdr true (IoVectors.mk [(0, 0)] 0 [] 0 0)) in
  Forall (fun c => 0 <= c < 256) [128; 129; 84; 81; 86; 91; 85; 90; 92; 93; 94] /\
  well_framed 1024 128 92 0 [1; 2; 3; 4] [] s
    (DcpProducers.dcp_message_noop 1024 128 92 [1; 2; 3; 4] s) /\
  well_framed 1024 128 94 0 [1; 2; 3; 4] [107; 118] s
    (DcpProducers.dcp_message_control 1024 128 94 [1; 2; 3; 4] [107] [118] s).
Proof.
  intros s.
  assert (Hconst : Forall (fun c => 0 <= c < 256)
                     [128; 129; 84; 81; 86; 91; 85; 90; 92; 93; 94])
    by (repeat constructor; lia).
  split; [exact Hconst |].
  destruct (dcp_messages_are_framed 1024 128 129 84 81 86 91 85 90 92 93 94
              [1; 2; 3; 4] s Hconst eq_refl)
    as (_ & _ & _ & Hnoop & _ & Hcontrol).
  split; [exact Hnoop |].
  apply (Hcontrol [107] [118]); vm_compute; reflexivity.
Defined.
(** ** The revision of a cluster map *)

Import ClusterMap.

Lemma starts_with_app (p l l' : list Z) :
  (List.length p <= List.length l)%nat ->
  starts_with p (l ++ l') = starts_with p l.
Proof.
  revert l; induction p as [|a p IH]; intros [|b l] Hlen; simpl in *;
    try reflexivity; try lia.
  rewrite IH by lia. reflexivity.
Qed.

Lemma find_revno_skips (pre tail : list Z) (rounds : nat) :
  (forall i, (i < List.length pre)%nat ->
             starts_with prefix (skipn i (pre ++ prefix)) = false) ->
  (List.length pre <= rounds)%nat ->
  find_revno rounds (pre ++ prefix ++ tail) =
  find_revno (rounds - List.length pre) (prefix ++ tail).
Proof.
  revert rounds; induction pre as [|a pre IH]; intros rounds Hpre Hlen.
  - simpl. rewrite Nat.sub_0_r. reflexivity.
  - destruct rounds as [|rounds]; [simpl in Hlen; lia|].
    assert (Hhere : starts_with prefix ((a :: pre) ++ prefix ++ tail) = false).
    { rewrite app_assoc, starts_with_app.
      - apply (Hpre 0%nat). simpl; lia.
      - rewrite length_app. simpl. lia. }
    change (find_revno (S rounds) ((a :: pre) ++ prefix ++ tail))
      with (if starts_with prefix ((a :: pre) ++ prefix ++ tail)
            then parse_revno (skipn 6 ((a :: pre) ++ prefix ++ tail))
            else find_revno rounds (pre ++ prefix ++ tail)).
    rewrite Hhere. rewrite IH.
    + reflexivity.
    + intros i Hi. apply (Hpre (S i)). simpl; lia.
    + simpl in Hlen; lia.
Qed.

Lemma find_revno_found (tail : list Z) (rounds : nat) :
  find_revno (S rounds) (prefix ++ tail) = parse_revno tail.
Proof. reflexivity. Qed.

Lemma parse_revno_spaces (spaces l : list Z) :
  Forall (fun s => isspace s = true) spaces ->
  parse_revno (spaces ++ l) = parse_revno l.
Proof.
  induction 1 as [|s spaces Hs _ IH]; [reflexivity|].
  simpl. rewrite Hs. exact IH.
Qed.

Lemma digit_is_digit (n : Z) : isdigit (48 + n mod 10) = true.
Proof.
  pose proof (Z.mod_pos_bound n 10 ltac:(lia)).
  unfold isdigit. apply andb_true_iff; split; apply Z.leb_le; lia.
Qed.

Lemma digit_is_no_space (d : Z) : isdigit d = true -> isspace d = false.
Proof.
  unfold isdigit, isspace. intros H.
  apply andb_true_iff in H as [H1 H2]. apply Z.leb_le in H1, H2.
  apply orb_false_iff; split.
  - apply Z.eqb_neq; lia.
  - apply andb_false_iff; right. apply Z.leb_gt; lia.
Qed.

Lemma atoi_decimal_digits (fuel : nat) (n : Z) (behind tail : list Z) :
  0 <= n < Z.of_nat fuel ->
  atoi 0 (decimal_digits fuel n behind ++ tail) = atoi n (behind ++ tail).
Proof.
  revert n behind; induction fuel as [|fuel IH]; intros n behind Hn; [lia|].
  cbn [decimal_digits].
  destruct (n / 10 =? 0) eqn:Hq.
  - apply Z.eqb_eq in Hq.
    assert (n mod 10 = n) by (pose proof (Z.div_mod n 10 ltac:(lia)); lia).
    cbn [app atoi]. rewrite digit_is_digit.
    f_equal. lia.
  - apply Z.eqb_neq in Hq.
    assert (0 < n / 10 < n).
    { pose proof (Z.div_mod n 10 ltac:(lia)).
      pose proof (Z.mod_pos_bound n 10 ltac:(lia)).
      assert (0 <= n / 10) by (apply Z.div_pos; lia). lia. }
    rewrite IH by lia.
    cbn [app atoi]. rewrite digit_is_digit.
    f_equal. pose proof (Z.div_mod n 10 ltac:(lia)). lia.
Qed.

Lemma decimal_digits_head (fuel : nat) (n d : Z) (behind : list Z) :
  isdigit d = true ->
  exists d' l, decimal_digits fuel n (d :: behind) = d' :: l /\ isdigit d' = true.
Proof.
  revert n d behind; induction fuel as [|fuel IH]; intros n d behind Hd.
  - exists d, behind. split; [reflexivity | exact Hd].
  - cbn [decimal_digits].
    destruct (n / 10 =? 0).
    + eexists _, _. split; [reflexivity | apply digit_is_digit].
    + apply IH. apply digit_is_digit.
Qed.

Lemma decimal_head (n : Z) :
  exists d l, decimal n = d :: l /\ isdigit d = true.
Proof.
  unfold decimal. cbn [decimal_digits].
  destruct (n / 10 =? 0).
  - eexists _, _. split; [reflexivity | apply digit_is_digit].
  - apply decimal_digits_head, digit_is_digit.
Qed.

Lemma parse_revno_decimal (n : Z) (tail : list Z) :
  0 <= n ->
  parse_revno (decimal n ++ tail) = atoi n tail.
Proof.
  intros Hn.
  destruct (decimal_head n) as (d & l & Hdec & Hd).
  transitivity (atoi 0 (decimal n ++ tail)).
  - rewrite Hdec. cbn [app parse_revno].
    rewrite (digit_is_no_space d Hd), Hd. reflexivity.
  - unfold decimal. rewrite atoi_decimal_digits; [reflexivity|].
    rewrite Nat2Z.inj_succ, Z2Nat.id; lia.
Qed.

Lemma get_clustermap_revno_searches (pre tail : list Z) :
  (forall i, (i < List.length pre)%nat ->
             starts_with prefix (skipn i (pre ++ prefix)) = false) ->
  get_clustermap_revno ([123] ++ pre ++ prefix ++ tail) =
  find_revno (List.length tail) (prefix ++ tail).
Proof.
  intros Hpre. unfold get_clustermap_revno, len.
  rewrite !length_app.
  change (List.length [123]) with 1%nat.
  change (List.length prefix) with 6%nat.
  replace (Z.of_nat (1 + (List.length pre + (6 + List.length tail))) =? 0)
    with false by (symmetry; apply Z.eqb_neq; lia).
  replace (Z.of_nat (1 + (List.length pre + (6 + List.length tail))) <?
           Z.of_nat 6 + 1)
    with false by (symmetry; apply Z.ltb_ge; lia).
  cbn [app hd skipn orb negb Z.eqb Pos.eqb].
  rewrite find_revno_skips; [f_equal; lia | exact Hpre | lia].
Qed.

(** X22: [get_clustermap_revno] reads the revision that a cluster map
    carries.  For a map that opens with a brace and has its first
    ["rev":] behind the bytes [pre], followed by white space: when the
    decimal digits of a number [n] (an [int]) and a byte [c] that is no
    digit come next, the function returns [n]; when the map ends with the
    digits, the function reads behind the map; when a byte that is
    neither white space nor a digit comes next, it returns -1; and when
    the map ends with ["rev":] the field is not found and the function
    returns -1 without a look at what comes behind. *)
Theorem clustermap_revno_is_read (pre spaces rest : list Z) (n c : Z)
    (Hpre : forall i, (i < List.length pre)%nat ->
                      starts_with prefix (skipn i (pre ++ prefix)) = false)
    (Hspaces : Forall (fun s => isspace s = true) spaces)
    (Hn : 0 <= n < 2 ^ 31)
    (Hc : isdigit c = false) :
  let found := [123] ++ pre ++ prefix ++ spaces in
  get_clustermap_revno (found ++ decimal n ++ c :: rest) = Returns n /\
  get_clustermap_revno (found ++ decimal n) = ReadsBehindMap /\
  (isspace c = false ->
   get_clustermap_revno (found ++ c :: rest) = Returns (-1)) /\
  get_clustermap_revno ([123] ++ pre ++ prefix) = Returns (-1).
Proof.
  cbv zeta.
  assert (Hsearch : forall tail, tail <> [] ->
            get_clustermap_revno (([123] ++ pre ++ prefix ++ spaces) ++ tail) =
            parse_revno tail).
  { intros tail Htail.
    replace (([123] ++ pre ++ prefix ++ spaces) ++ tail)
      with ([123] ++ pre ++ prefix ++ (spaces ++ tail))
      by (rewrite <- !app_assoc; reflexivity).
    rewrite get_clustermap_revno_searches by exact Hpre.
    destruct (List.length (spaces ++ tail)) eqn:Hlen.
    - apply length_zero_iff_nil, app_eq_nil in Hlen. tauto.
    - rewrite find_revno_found. apply parse_revno_spaces, Hspaces. }
  destruct (decimal_head n) as (d & l & Hdec & Hd).
  repeat split.
  - rewrite Hsearch by (rewrite Hdec; discriminate).
    rewrite parse_revno_decimal by lia.
    cbn [atoi]. rewrite Hc. reflexivity.
  - rewrite Hsearch by (rewrite Hdec; discriminate).
    rewrite <- (app_nil_r (decimal n)), parse_revno_decimal by lia.
    reflexivity.
  - intros Hnospace. rewrite Hsearch by discriminate.
    cbn [parse_revno]. rewrite Hnospace, Hc. reflexivity.
  - rewrite <- (app_nil_r prefix) at 1.
    rewrite get_clustermap_revno_searches by exact Hpre. reflexivity.
Qed.

Lemma clustermap_revno_is_read_witness :
  get_clustermap_revno
    ([123; 34; 118; 34; 58; 49; 44; 34; 114; 101; 118; 34; 58; 32; 49; 50; 51;
      52; 125]) = Returns 1234.
Proof.
  pose proof (clustermap_revno_is_read [34; 118; 34; 58; 49; 44] [32] []
                1234 125) as H.
  apply H.
  - intros i Hi. simpl in Hi.
    do 6 (destruct i as [|i]; [reflexivity|]). lia.
  - repeat constructor.
  - lia.
  - reflexivity.
Defined.
(** ** Cluster maps for a connection *)

Lemma format_response_spec (RES NMVB : Z) (map body : list Z) (mapsize : Z)
    (c : Connection) :
  0 <= RES < 256 -> 0 <= NMVB < 2 ^ 16 -> 0 <= request_opcode c < 256 ->
  List.length (opaque c) = 4%nat ->
  firstn (Z.to_nat mapsize) map = body -> mapsize = len body ->
  formatted RES NMVB body c (format_response RES NMVB map mapsize c).
Proof.
  intros HRES HNMVB Hop Hopaque Hbody Hsize.
  unfold format_response, growDynamicBuffer.
  destruct (hd false (grow_results c)); cbn [negb formatted clustermap_revno
    request_opcode opaque dynamicBuffer write_to_buffer].
  - repeat split. left. split; [reflexivity|].
    rewrite Hbody.
    set (h := ReadCommand.mkHeader RES (request_opcode c) 0 0 0 NMVB
                (uint32 mapsize) (opaque c) 0).
    assert (Hrange : header_in_range h).
    { unfold header_in_range, h; cbn.
      pose proof (Z.mod_pos_bound mapsize 4294967296 ltac:(lia)).
      unfold uint32. repeat split; try assumption; try lia. }
    exists (DcpProducers.header_bytes h). split; [|split].
    + pose proof (header_bytes_length h Hopaque) as Hlen.
      unfold len, ReadCommand.header_size in Hlen. lia.
    + reflexivity.
    + rewrite <- (app_nil_r (DcpProducers.header_bytes h)).
      rewrite (read_header_bytes h [] Hrange). unfold h. rewrite Hsize.
      reflexivity.
  - repeat split. right. split; reflexivity.
Qed.

(** X23: [get_vb_map_cb] sends a connection a revision of the cluster
    map once when maps are deduplicated.  For two maps that carry the
    revision [n], the first call returns with [n] as the revision of the
    connection, also when the buffer could not grow and nothing was
    written; it adds a header and the map to the dynamic buffer, or the
    header alone when the connection had [n] before; the call for the
    second map then adds a header with a body length of 0 and no map.  A
    map that carries no revision is written in full for a connection
    whose revision is not -1, and the revision stays; so is every map
    when maps are not deduplicated, whatever it carries. *)
Theorem cluster_map_is_sent_once (RES NMVB : Z) (c : Connection)
    (m1 m2 : list Z) (n : Z)
    (HRES : 0 <= RES < 256) (HNMVB : 0 <= NMVB < 2 ^ 16)
    (Hop : 0 <= request_opcode c < 256)
    (Hopaque : List.length (opaque c) = 4%nat)
    (H1 : get_clustermap_revno m1 = Returns n)
    (H2 : get_clustermap_revno m2 = Returns n)
    (Hn : n <> -1) :
  match get_vb_map_cb true RES NMVB (Some c) m1 with
  | Done ret c1 =>
      formatted RES NMVB (if clustermap_revno c =? n then [] else m1)
        (setClustermapRevno n c) (Done ret c1) /\
      formatted RES NMVB [] c1 (get_vb_map_cb true RES NMVB (Some c1) m2)
  | _ => False
  end /\
  (forall m,
     get_clustermap_revno m = Returns (-1) -> clustermap_revno c <> -1 ->
     formatted RES NMVB m c (get_vb_map_cb true RES NMVB (Some c) m)) /\
  (forall m, formatted RES NMVB m c (get_vb_map_cb false RES NMVB (Some c) m)).
Proof.
  assert (Hfull : forall m, firstn (Z.to_nat (len m)) m = m).
  { intros m. unfold len. rewrite Nat2Z.id. apply firstn_all. }
  split; [|split].
  - assert (Hsecond : forall c1,
              clustermap_revno c1 = n -> 0 <= request_opcode c1 < 256 ->
              List.length (opaque c1) = 4%nat ->
              formatted RES NMVB [] c1
                (get_vb_map_cb true RES NMVB (Some c1) m2)).
    { intros c1 Hrev Hop1 Hopaque1. cbn [get_vb_map_cb]. rewrite H2.
      replace (n =? clustermap_revno c1) with true
        by (symmetry; apply Z.eqb_eq; lia).
      apply format_response_spec; try assumption; reflexivity. }
    cbn [get_vb_map_cb]. rewrite H1.
    rewrite (Z.eqb_sym n (clustermap_revno c)).
    destruct (clustermap_revno c =? n) eqn:Hsame.
    + apply Z.eqb_eq in Hsame.
      pose proof (format_response_spec RES NMVB m1 [] 0 c HRES HNMVB Hop
                    Hopaque eq_refl eq_refl) as Hf.
      destruct (format_response RES NMVB m1 0 c) as [ret c1 | |];
        cbn [formatted] in Hf; try contradiction.
      destruct Hf as (Hr & Ho & Hq & Hsent).
      split.
      * cbn [formatted setClustermapRevno clustermap_revno request_opcode
             opaque].
        repeat split; try assumption; congruence.
      * apply Hsecond; congruence.
    + replace (negb (n =? -1)) with true
        by (symmetry; apply negb_true_iff, Z.eqb_neq; exact Hn).
      pose proof (format_response_spec RES NMVB m1 m1 (len m1)
                    (setClustermapRevno n c) HRES HNMVB Hop Hopaque
                    (Hfull m1) eq_refl) as Hf.
      destruct (format_response RES NMVB m1 (len m1) (setClustermapRevno n c))
        as [ret c1 | |]; [| contradiction | contradiction].
      split; [exact Hf|].
      destruct Hf as (Hr & Ho & Hq & _).
      cbn [setClustermapRevno clustermap_revno request_opcode opaque] in *.
      apply Hsecond; congruence.
  - intros m Hm Hc. cbn [get_vb_map_cb]. rewrite Hm.
    replace (-1 =? clustermap_revno c) with false
      by (symmetry; apply Z.eqb_neq; lia).
    cbn [Z.eqb Pos.eqb negb].
    apply format_response_spec; try assumption; [apply Hfull | reflexivity].
  - intros m. cbn [get_vb_map_cb].
    apply format_response_spec; try assumption; [apply Hfull | reflexivity].
Qed.

Lemma cluster_map_is_sent_once_witness :
  let c := mkConnection (-2) 0 [0; 0; 0; 1] [] [true; true] in
  let m := [123; 34; 114; 101; 118; 34; 58; 55; 125] in
  match get_vb_map_cb true 129 7 (Some c) m with
  | Done ret c1 =>
      formatted 129 7 m (setClustermapRevno 7 c) (Done ret c1) /\
      formatted 129 7 [] c1 (get_vb_map_cb true 129 7 (Some c1) m)
  | _ => False
  end.
Proof.
  cbv zeta.
  apply (cluster_map_is_sent_once 129 7
           (mkConnection (-2) 0 [0; 0; 0; 1] [] [true; true])
           [123; 34; 114; 101; 118; 34; 58; 55; 125]
           [123; 34; 114; 101; 118; 34; 58; 55; 125] 7).
  - lia.
  - lia.
  - simpl; lia.
  - reflexivity.
  - reflexivity.
  - reflexivity.
  - lia.
Defined.
